(* ===== verification/_CoqProject ===== *)
-Q . S2P
Prelude.v
Json.v
JsonText.v
Browser.v
Types.v
Url.v
KubeRef.v
Actions.v
AppsReducer.v
AuthReducer.v
ChartsReducer.v
ConfigReducer.v
FetchTracked.v
ReposReducer.v
OperatorsReducer.v
ClusterReducer.v
KubeReducer.v
KubeWatch.v
Store.v
Thunk.v
HelmServices.v
KubeServices.v
Schema.v
Values.v
FormParams.v
AppsActions.v
DeploymentForm.v
ParamInputs.v
FormTabs.v
Auth.v
AuthActions.v
AxiosInstance.v
ChartsActions.v
NamespaceActions.v
ReposActions.v
OperatorsActions.v
KubeActions.v
CatalogActions.v
ConfigActions.v
Jq.v
RepoForm.v
Utils.v
Routes.v
Session.v
Header.v
Regex.v
Catalog.v
CatalogPaging.v
RepoList.v
SearchFilter.v
AppList.v
OperatorPages.v
AppView.v
OperatorInstances.v
ResourceTable.v
ReleaseControls.v
ChartView.v
Controls.v
Shell.v
AccessURL.v
Pages.v
Examples.v
ViewExamples.v
PageExamples.v
ReleaseExamples.v
