(* ===== verification/Prelude.v ===== *)
(** * The state of the Kubeapps dashboard

    Kubeapps is a web dashboard for the applications of a Kubernetes cluster.  This
    development models its TypeScript part, src/dashboard/src: the Redux store, the
    actions and thunks that change it, the services that talk to the backends, and the
    state, effects and handlers of the views.  This file holds what all others share:
    errors, the [outcome] monad, functional update of records, strings, sorting and the
    automation.

    ** The program

    A view dispatches plain actions and thunks.  A plain action goes through the reducer
    of every slice of the store; a thunk is an async function that reads the state,
    calls the services and dispatches plain actions.  The services send requests with
    axios and shape their answers.  The browser keeps a token, a namespace per cluster
    and a theme; the cache of Kubernetes objects also owns WebSockets and intervals.  A
    view reads slices of the store and the parameters of its route, keeps local state that
    its effects and handlers change, and displays one of a few alternatives.

    ** The files

    Values and data
    - [Json] (actions/helpers/object.ts): JavaScript values; what is used of lodash, as a
      class of operations with their documented laws.
    - [JsonText]: JSON.parse and JSON.stringify, with their round trip.
    - [Browser] (shared/Auth.ts, Namespace.ts, Config.ts): the storage and the theme.
    - [Types] (shared/types.ts and the interfaces of the service catalog).
    - [Url] (shared/url.ts), [KubeRef] (shared/Kube.ts, ResourceRef.ts): the addresses.

    The store
    - [Actions] (actions/*.ts): the plain actions, one constructor per creator.
    - [AppsReducer], [AuthReducer], [ChartsReducer], [ConfigReducer], [ReposReducer],
      [OperatorsReducer], [ClusterReducer], [KubeReducer] (reducers/*.ts): the slices.
      [FetchTracked] is the interface the loading flags of two of them implement.
    - [KubeWatch] (actions/kube.tsx): the events of sockets and intervals as a step
      relation over the cache and its world.
    - [Store] (reducers/index.ts, store/index.ts): the slices together, and dispatching.

    The thunks
    - [Thunk]: programs, requests, the environment they run in and [run].
    - [HelmServices], [KubeServices] (the classes of shared/*.ts): one definition per
      method, named [<Class>_<method>].
    - [Schema] (shared/schema.ts), [Auth] (shared/Auth.ts), [AxiosInstance]
      (shared/AxiosInstance.ts): validation of values, checks of the user, interceptors.
    - [AppsActions], [AuthActions], [ChartsActions], [NamespaceActions], [ReposActions],
      [OperatorsActions], [KubeActions], [CatalogActions], [ConfigActions]
      (actions/*.ts): one definition per thunk, under its own name.
    - [Jq], [Utils] (shared/jq.ts, utils.ts): pure helpers.

    The views (components and containers)
    - [Values], [FormParams] (shared/schema.ts, Param.tsx): the text of the values of a
      release, edited at a path, and the parameters a schema asks the form to show.
    - [DeploymentForm] (DeploymentForm, UpgradeForm, AppUpgrade, DeploymentFormBody),
      [ParamInputs] (TextParam, SliderParam, BooleanParam), [FormTabs] (Tabs, the changes and
      the editor): installing and upgrading.
    - [RepoForm] (Config/AppRepoList/AppRepoForm, AppRepoButton), [RepoList] (the rest of
      Config/AppRepoList, SelectRepoForm): a repository, and the list of them.
    - [Routes] (containers/RoutesContainer, PrivateRoute, LoginForm): what is rendered at a
      location.
    - [Session] (LoginForm with actions/auth.ts, reducers/auth.ts, Auth.ts, AxiosInstance.ts):
      the session that the page of the login, the thunks, the reducer, the browser and the
      requests make together, against its specification.
    - [Regex]: the regular expressions of the views, decided by derivatives.
    - [Catalog] (components/Catalog): filters, pages and items of the catalog;
      [CatalogPaging]: its renders, effects, observers and requests in any order;
      [SearchFilter]: its search box; [ChartView] (components/ChartView, Catalog/ChartSummary,
      the containers of the forms): the page of a chart.
    - [AppList] (components/AppList): the list of applications.
    - [AppView], [ResourceTable], [AccessURL], [ReleaseControls] (components/AppView,
      ApplicationStatus, ConfirmDialog): the page of a release, its tables and status, its
      addresses, and the dialogs that roll it back and delete it.
    - [OperatorPages] (OperatorList, OperatorView, OperatorNew, OperatorSummary),
      [OperatorInstances] (OperatorInstance and its forms): operators and their instances.
    - [Controls] (components/js, Tabs, Icon, AlertGroup): the controls of the views.
    - [Header] (components/Header), [Shell] (Root, Layout, ConfigLoader, HeadManager,
      ErrorBoundary, shared/I18n.ts): what surrounds the pages.
    - [Pages] (the containers of Routes.tsx): what a page asks for when it is opened.

    Concrete inputs
    - [Examples], [ViewExamples], [PageExamples], [ReleaseExamples]: reference instances of the parameters, with the laws asked
      of them, and the theorems with hypotheses applied to concrete inputs.

    ** How the code is read

    A reducer is a function from a slice and an action to a slice; where the code can
    throw it returns an [outcome], and where it has effects (the theme, the sockets, the
    intervals) it also maps the world it has them on.  A thunk is a term of [Thunk.prog],
    a syntax of effects; [run] executes it from a [machine] (store, world, trace of
    events, thunks started and not awaited) in an environment that supplies the answers,
    the order in which parallel answers arrive, and what other parts of the program
    dispatch and do to the browser at every await.  A theorem about a thunk holds for all
    environments, so for all interleavings.  [performs] states the answer of a thunk, the
    exact events it causes, in order, and the thunks it leaves running.

    The local state of a component is a record.  A handler or an effect is a function on
    it, from the properties of the component, which returns an [outcome] where it can throw
    and the arguments of the thunk it dispatches where it dispatches one, or the program that
    dispatches it.  Where the order of renders and effects matters ([AppList],
    [CatalogPaging], [ReleaseControls], [FormTabs]) the state also keeps the values of the last render, and a
    step renders the component and runs the effects whose dependencies changed.  What a
    component displays is an inductive type with one constructor for each early return.

    ** What the theorems show

    - Refinement: [watch_refines]: the reducer of the cache, its sockets and its intervals
      implement a map from addresses to the status of their watch (live, polled after an error,
      dropped by the server) under opening, closing, errors and lost connections.  [session_refines]: the page of the login, the thunks of the
      authentication, their reducer and the items of the browser implement a session of five
      states.  [links_open_pages]: from a link, over its route, the place in the store and the
      container of its page, to the requests for what the link names.  Several theorems about
      thunks are stated against a specification of their own, a relation with one case for each
      outcome: [AppsActions.deployment] and [Schema.values_verdict], [RepoForm.submission] and
      [RepoForm.checks], [AxiosInstance.error_class], [Pages.asked].
    - Invariants: [store_invariant] for any sequence of dispatches; [watch_no_leaks] and
      [closed_watch_stays_quiet] for any sequence of events of the cache's sockets and
      timers, and with them [page_leaves_nothing_behind] for the page of a release;
      [catalog_complete] for the renders, requests and answers of the catalog in any order, with
      [catalog_reaches_end]; [catalog_pages_in_order] and [receive_pages_items] for its pages;
      [upgrade_keeps_edits] for the values of an upgrade; [app_list_settles] for the requests
      of the list of applications, which comes to rest; [operatorReducer_pending],
      [reposReducer_fetching] for the loading flags; [receiveNamespace_insert].
    - Exceptions and safety: [store_dispatch_atomic] and [clusterReducer_safety] say exactly
      which actions throw and what is kept then; [store_dispatch_frame] which slices an
      action leaves alone; [private_pages_need_session] that a page needs a session;
      [ingress_links_safe] that only http addresses become links;
      [subscribes_where_supported] that an operator is subscribed to where it can be
      installed; [rollback_targets_earlier] that a release goes back to an earlier revision.
    - Thunks: what is requested, what is dispatched on success and on every failure, and
      what the store shows at the end: releases ([deploy_and_upgrade_perform],
      [fetchAppsWithUpdateInfo_asks_each], [updateInfo_lowest_version]), charts
      ([getChartVersion_performs], [select_newest_version]), repositories
      ([fetchRepos_merges], [updateRepo_effects], [validateRepo_verdict]), operators
      ([getResources_merges], [createOperator_group_first]), the cache
      ([getResource_caches], [getResourceKinds_listed]), the service catalog
      ([getBindings_pairs], [provision_parameters]), the user ([authenticate_post],
      [checkCookie_verdict], [logout_post], [handleError_performs]) and the configuration
      ([getConfig_post], [theme_agrees]).
    - Values and forms: [getValue_setValue] (reading what was written, and nothing else
      changed), [applyModifications_is_patch] (editing the text is patching its value),
      [retrieveBasicFormParams_shown] (the parameters shown are those the schema marks),
      [control_writes_type] (a control writes a value of the type of its parameter),
      [debounce_writes_last], [submit_deploys] (what the forms of a release send, and where they
      move to), [install_guarded] (what the form of a repository validates and submits, and that
      nothing is installed without validation or insistence), [secret_effect_settles] (the effects on a secret come to rest).
    - Pages: [parseResources_classifies] (the references of a release are the leaves of
      its manifest, by kind, in order), [list_cards_lead] and [toggle_lists_all] (the list of
      applications), [chosen_version_shown] (choosing a version of a chart),
      [operators_partitioned], [example_creates_instance] (the form of an instance starts with
      an example that creates one), [context_change_keeps_page] (the header),
      [delete_moves_to_list], [changes_marked], [getCustomConfig_performs].
    - Controls: [tooltip_follows_pointer], [one_listener] (a menu that closes at clicks outside),
      [icon_shown], [one_panel_shown], [assignCssVariables_values].
    - Round trips and keys: [getResourceURL_inj], [navigate_route], [links_lead_to_pages],
      [filters_roundtrip], [repo_link_opens_catalog], [basic_auth_roundtrip],
      [setNamespace_remembers], [filter_rule_roundtrip], and the lemmas on JSON texts and on encodeURIComponent they
      rest on.
    - Behaviour that looks unintended is stated as it is: [updateInfo_lowest_version],
      [update_loses_filter], [setNamespaceState_copies_current],
      [clearClusters_then_navigation_throws], [second_edit_drops_first],
      [chosen_repo_sticks], [late_answer_listed], [new_search_skips_pages], and lemmas such as [setValue_on_empty_is_flat],
      [password_cut_at_colon], [beyond_latin1_not_submitted], [SecretItemDatum_shows],
      [underscores_become_comma], [search_drops_tick],
      [instance_refs_one_address], [unknown_kind_throws], [slug_drops_dash].

    ** Bounds

    Only [JSON_parse] runs on fuel, one more than the length of the text, and
    [JSON_parse_fuel] shows that no other fuel accepts more texts.  Every other function is
    structurally recursive or a fold.

    ** Limits of the model

    - A string is its UTF-8 bytes: lengths, positions and trimming are those of the
      language on ASCII texts.  Numbers are integers of unbounded size, or uninterpreted
      literals.
    - Sorting is by insertion, so it is stable, as the language asks.
    - The libraries (lodash, semver, yaml, js-yaml, ajv, jsonwebtoken, fast-json-patch, qs,
      react-router, connected-react-router) are classes of operations or parameters; the
      laws a proof uses are fields of the class or hypotheses, instantiated in [Examples]
      and [ViewExamples].
    - [Kube.getAPIGroups] reads of each group the version it prefers, which is all that
      is used of it.  Sockets and intervals are handles in a world; delays are not.
    - Other thunks reach a running one through the environment: the actions they
      dispatch and their changes to the browser, at each await.

    ** Not modelled

    Markup and styles, and the components that only arrange what they are given; the
    editor of texts, the viewer of differences and the rendering of markdown, which are
    libraries; the registration of the service worker; the generated code for Helm releases
    (shared/hapi/release.js) and the fields of its types the code does not read; and the Go
    services, whose answers are parameters.  The thunks that a container passes and its
    component does not use have no definition there. *)

From Stdlib Require Export ZArith Lia Ascii.
From Stdlib Require Import DecimalString DecimalN.
From stdpp Require Export base list gmap strings sorting.

(** ** Error objects

    The classes of error objects the dashboard throws or compares with
    [err.constructor]: the ones of src/dashboard/src/shared/types.ts and the
    built-in ones raised by the language. *)
Inductive err_class :=
| Error | ForbiddenError | UnauthorizedError | NotFoundError | ConflictError
| UnprocessableEntity | InternalServerError | FetchError | CreateError
| UpgradeError | RollbackError | DeleteError
| TypeError | SyntaxError | URIError.

Record js_error := mk_error { constructor : err_class; message : string }.

#[export] Instance err_class_eq_dec : EqDecision err_class.
Proof. solve_decision. Defined.
#[export] Instance js_error_eq_dec : EqDecision js_error.
Proof. solve_decision. Defined.

(** [e.toString()]: the classes of types.ts extend [Error] and never set
    [name], so theirs is the inherited one. *)
Definition error_name (c : err_class) : string :=
  match c with
  | TypeError => "TypeError" | SyntaxError => "SyntaxError" | URIError => "URIError"
  | _ => "Error"
  end.

Definition error_toString (e : js_error) : string :=
  if bool_decide (message e = "") then error_name (constructor e)
  else error_name (constructor e) +:+ ": " +:+ message e.

(** ** Computations that may throw *)
Inductive outcome (A : Type) :=
| Ok (a : A)
| Throws (e : js_error).
Arguments Ok {A} a.
Arguments Throws {A} e.

#[export] Instance outcome_ret : MRet outcome := @Ok.
#[export] Instance outcome_bind : MBind outcome := λ A B k m,
  match m with Ok a => k a | Throws e => Throws e end.
#[export] Instance outcome_fmap : FMap outcome := λ A B f m,
  match m with Ok a => Ok (f a) | Throws e => Throws e end.

#[export] Instance outcome_eq_dec `{EqDecision A} : EqDecision (outcome A).
Proof. solve_decision. Defined.

(** Reading a property of [undefined]. *)
Definition undefined_access (prop : string) : js_error :=
  mk_error TypeError ("Cannot read property '" +:+ prop +:+ "' of undefined").

Definition require {A} (prop : string) (o : option A) : outcome A :=
  match o with Some a => Ok a | None => Throws (undefined_access prop) end.

Definition not_a_function (name : string) : js_error :=
  mk_error TypeError (name +:+ " is not a function").

(** Concatenation of the lists of every element; the first one that throws ends it. *)
Fixpoint collect {A B} (f : A → outcome (list B)) (l : list A) : outcome (list B) :=
  match l with
  | [] => Ok []
  | x :: l' => a ← f x; b ← collect f l'; Ok (a ++ b)
  end.

Lemma collect_all {A B} (f : A → outcome (list B)) (R : A → list B → Prop) l :
  Forall (λ x, ∃ r, f x = Ok r ∧ R x r) l →
  ∃ rs, collect f l = Ok (concat rs) ∧ Forall2 R l rs.
Proof.
  induction 1 as [|x l (r & Hr & HR) Hl (rs & Hrs & HRs)].
  - by exists [].
  - exists (r :: rs). simpl. rewrite Hr. cbn. rewrite Hrs. by split; [|constructor].
Qed.

Lemma elem_of_concat {A} (x : A) ls : x ∈ concat ls ↔ ∃ l, l ∈ ls ∧ x ∈ l.
Proof. induction ls as [|l ls IH]; simpl; [set_solver|]. rewrite elem_of_app, IH. set_solver. Qed.

Lemma bind_Ok {A B} (m : outcome A) (k : A → outcome B) b :
  m ≫= k = Ok b ↔ ∃ a, m = Ok a ∧ k a = Ok b.
Proof. destruct m as [a|e]; simpl; naive_solver. Qed.

Lemma require_Ok {A} p (o : option A) a : require p o = Ok a ↔ o = Some a.
Proof. destruct o; simpl; naive_solver. Qed.

(** A list collected from functions that give one result each. *)
Lemma collect_single {A B} (f : A → outcome (list B)) l out :
  (∀ x r, x ∈ l → f x = Ok r → length r = 1) → collect f l = Ok out →
  length out = length l ∧ ∀ y, y ∈ out → ∃ x, x ∈ l ∧ f x = Ok [y].
Proof.
  revert out. induction l as [|x l IH]; intros out Hone Hc.
  { injection Hc as <-. split; [done|]. by intros y ?%elem_of_nil. }
  cbn [collect] in Hc. apply bind_Ok in Hc as (r & Hr & (rest & Hrest & [= <-])%bind_Ok).
  destruct (IH rest) as [Hlen Hin]; [by intros x' r' Hx'; apply Hone; right|done|].
  pose proof (Hone x r ltac:(by left) Hr) as H1. destruct r as [|y [|]]; try done.
  split; [by rewrite length_app, Hlen|]. intros z [->%list_elem_of_singleton|Hz]%elem_of_app.
  - exists x. split; [by left|done].
  - destruct (Hin z Hz) as (x' & Hx' & Hf). exists x'. split; [by right|done].
Qed.

(** ** Record update: [s <| field := v |>] for the spread [{ ...s, field: v }]

    Every record declares how it is rebuilt from its projections ([Eta]); the
    setter of a field is derived from that by instance resolution. *)
Class Eta (R : Type) := eta : R → R.
Class Setter {R T : Type} (proj : R → T) := setf : T → R → R.

Ltac solve_setter :=
  lazymatch goal with
  | |- @Setter ?R ?T ?proj =>
    let v := fresh "v" in let r := fresh "r" in
    intros v r;
    let i := constr:(ltac:(typeclasses eauto) : Eta R) in
    let e := lazymatch i with ?x => eval red in (x r) end in
    lazymatch eval pattern (proj r) in e with
    | ?F _ => let b := eval cbv beta in (F v) in exact b
    end
  end.
#[export] Hint Extern 1 (Setter _) => solve_setter : typeclass_instances.
#[global] Hint Mode Eta ! : typeclass_instances.

Declare Scope js_scope.
Delimit Scope js_scope with js.
Notation "s <| f := v |>" := (setf (proj := f) v s)
  (at level 1, left associativity, v at level 200, format "s <| f  :=  v |>") : js_scope.
#[global] Open Scope js_scope.

(** ** Strings *)

(** Truthiness of a string and of an optional string. *)
Definition truthy (s : string) : bool := bool_decide (s ≠ "").
Definition truthy_opt (o : option string) : bool :=
  match o with Some s => truthy s | None => false end.

(** [a || b] on strings. *)
Definition or_str (a b : string) : string := if truthy a then a else b.
Definition or_opt_str (a : option string) (b : string) : string :=
  match a with Some s => or_str s b | None => b end.

Fixpoint starts_with (p s : string) : bool :=
  match p, s with
  | EmptyString, _ => true
  | String a p', String b s' => bool_decide (a = b) && starts_with p' s'
  | String _ _, EmptyString => false
  end.

(** [s.includes(p)]. *)
Fixpoint includes (p s : string) : bool :=
  starts_with p s || match s with EmptyString => false | String _ s' => includes p s' end.

(** [s.toLowerCase()]: the letters of ASCII. *)
Definition lower_char (a : ascii) : ascii :=
  if ((65 <=? N_of_ascii a) && (N_of_ascii a <=? 90))%N then ascii_of_N (N_of_ascii a + 32) else a.
Fixpoint toLowerCase (s : string) : string :=
  match s with EmptyString => "" | String a s' => String (lower_char a) (toLowerCase s') end.

(** [s.split(c)] for a one character separator: never the empty list. *)
Fixpoint split_on (c : ascii) (s : string) : list string :=
  match s with
  | EmptyString => [""]
  | String a s' =>
    if bool_decide (a = c) then "" :: split_on c s'
    else match split_on c s' with
         | [] => [String a ""]
         | w :: ws => String a w :: ws
         end
  end.

(** [l.join(sep)]. *)
Fixpoint join (sep : string) (l : list string) : string :=
  match l with
  | [] => ""
  | [w] => w
  | w :: ws => w +:+ sep +:+ join sep ws
  end.

(** The decimal digits of a number. *)
Definition print_N (n : N) : string := NilEmpty.string_of_uint (N.to_uint n).
Definition print_Z (z : Z) : string :=
  if (z <? 0)%Z then "-" +:+ print_N (Z.abs_N z) else print_N (Z.abs_N z).

Fixpoint str_all (f : ascii → bool) (s : string) : bool :=
  match s with EmptyString => true | String a s' => f a && str_all f s' end.

(** [c] does not occur in [s]. *)
Definition lacks (c : ascii) (s : string) : bool :=
  str_all (λ a, negb (bool_decide (a = c))) s.

Fixpoint trim_left (s : string) : string :=
  match s with
  | String a s' => if Ascii.is_space a then trim_left s' else s
  | EmptyString => ""
  end.

(** [s.trim()] on the ASCII white space. *)
Definition trim (s : string) : string := String.rev (trim_left (String.rev (trim_left s))).

Lemma str_app_nil_r s : s +:+ "" = s.
Proof. induction s as [|a s IH]; [done|]. change (String a (s +:+ "") = String a s). by rewrite IH. Qed.

Lemma str_app_assoc s t u : (s +:+ t) +:+ u = s +:+ (t +:+ u).
Proof.
  induction s as [|a s IH]; [done|].
  change (String a ((s +:+ t) +:+ u) = String a (s +:+ (t +:+ u))). by rewrite IH.
Qed.

Lemma str_app_cons a s t : String a s +:+ t = String a (s +:+ t).
Proof. done. Qed.

Lemma str_app_nil_l s : "" +:+ s = s.
Proof. done. Qed.

(** Nested appends in the form of a list of characters and variables. *)
Ltac str_norm := repeat (rewrite str_app_cons || rewrite str_app_assoc || rewrite str_app_nil_l).
Ltac str_norm_in H :=
  repeat (rewrite str_app_cons in H || rewrite str_app_assoc in H || rewrite str_app_nil_l in H).

Lemma str_all_app f s t : str_all f (s +:+ t) = str_all f s && str_all f t.
Proof.
  induction s as [|a s IH]; [done|].
  rewrite str_app_cons. simpl. by rewrite IH, andb_assoc.
Qed.

Lemma str_all_impl (f g : ascii → bool) s : (∀ a, f a → g a) → str_all f s → str_all g s.
Proof.
  intros Hfg. induction s as [|a s IH]; [done|]. simpl. rewrite !andb_True. naive_solver.
Qed.

Lemma split_on_nonempty c s : split_on c s ≠ [].
Proof. destruct s as [|a s]; simpl; [done|]. case_bool_decide; [done|]. by case_match. Qed.

(** Splitting, then joining with the same separator, gives the string back. *)
Lemma join_split c s : join (String c "") (split_on c s) = s.
Proof.
  induction s as [|a s IH]; [done|]. simpl.
  pose proof (split_on_nonempty c s) as Hne.
  case_bool_decide as Hac.
  - subst a. destruct (split_on c s) as [|w ws]; [done|].
    change (String c (join (String c "") (w :: ws)) = String c s). by rewrite IH.
  - destruct (split_on c s) as [|w ws]; [done|].
    destruct ws as [|w' ws]; simpl in *; rewrite <-IH; done.
Qed.

Lemma split_on_lacks c s : lacks c s → split_on c s = [s].
Proof.
  unfold lacks. induction s as [|a s IH]; [done|]. simpl.
  intros [Ha Hs]%andb_True. rewrite (IH Hs).
  case_bool_decide; [done|]. done.
Qed.

Lemma split_on_app_sep c s t :
  lacks c s → split_on c (s +:+ String c t) = s :: split_on c t.
Proof.
  unfold lacks. induction s as [|a s IH]; intros H.
  - change (split_on c (String c t) = "" :: split_on c t). simpl.
    by rewrite bool_decide_true.
  - simpl in H. apply andb_True in H as [Ha Hs].
    rewrite str_app_cons. simpl. rewrite (IH Hs).
    case_bool_decide; done.
Qed.

(** The first occurrence of a character splits a string in one way. *)
Lemma app_sep_inj c u v s t :
  lacks c u → lacks c v → u +:+ String c s = v +:+ String c t → u = v ∧ s = t.
Proof.
  unfold lacks. revert v; induction u as [|a u IH]; intros [|d v]; simpl;
    rewrite ?andb_True, ?negb_True, ?bool_decide_spec, ?str_app_cons, ?str_app_nil_l.
  - by intros _ _ [= ->].
  - intros _ [Hd _] [= <- _]. done.
  - intros [Ha _] _ [= -> _]. done.
  - intros [_ Hu] [_ Hv] [= -> Heq]. by destruct (IH v Hu Hv Heq) as [-> ->].
Qed.

Lemma str_app_inj s t u : s +:+ t = s +:+ u → t = u.
Proof. induction s as [|a s IH]; [done|]. rewrite !str_app_cons. by intros [= ?%IH]. Qed.

(** Joining words that lack the separator, then splitting, gives them back. *)
Lemma split_join c l :
  l ≠ [] → Forall (λ w, Is_true (lacks c w)) l → split_on c (join (String c "") l) = l.
Proof.
  intros Hne Hl. induction Hl as [|w ws Hw Hws IH]; [done|].
  destruct ws as [|w' ws].
  - by apply split_on_lacks.
  - change (join (String c "") (w :: w' :: ws))
      with (w +:+ (String c (join (String c "") (w' :: ws)))).
    rewrite split_on_app_sep by done. by rewrite IH.
Qed.

(** ** Bytes *)

(** What holds of the 256 bytes by evaluation holds of every one. *)
Lemma forall_ascii (P : ascii → bool) :
  (∀ n, (n < 256)%nat → P (ascii_of_nat n)) → ∀ a, P a.
Proof.
  intros H a. rewrite <-(ascii_nat_embedding a). apply H, nat_ascii_bounded.
Qed.

Ltac check_bytes :=
  let n := fresh "n" in let Hn := fresh "Hn" in
  match goal with
  | |- ∀ a, Is_true (@?P a) =>
    let H := fresh in
    assert (forallb (λ n, P (ascii_of_nat n)) (seq 0 256) = true) as H
      by (vm_compute; reflexivity);
    apply (forall_ascii P); intros n Hn; apply Is_true_true;
    rewrite forallb_forall in H; apply H, in_seq; lia
  end.

Lemma str_length_app s t : String.length (s +:+ t) = String.length s + String.length t.
Proof. induction s as [|a s IH]; [done|]. rewrite str_app_cons. simpl. by rewrite IH. Qed.

(** ** Arrays *)

(** [l.findIndex(p)]; [None] stands for -1. *)
Fixpoint findIndex {A} (p : A → bool) (l : list A) : option nat :=
  match l with
  | [] => None
  | x :: l' => if p x then Some 0 else S <$> findIndex p l'
  end.

(** [l.find(p)]. *)
Definition find {A} (p : A → bool) (l : list A) : option A := List.find p l.

(** [l.some(p)]. *)
Definition some {A} (p : A → bool) (l : list A) : bool := existsb p l.

Lemma some_find {A} (f : A → bool) l : some f l → ∃ x, find f l = Some x ∧ x ∈ l ∧ f x.
Proof.
  induction l as [|x l IH]; [done|]. simpl. destruct (f x) eqn:Hx.
  - intros _. exists x. rewrite Hx. split_and!; [done|by left|done].
  - intros (y & Hy & Hin & Hf)%IH. exists y. split_and!; [done|by right|done].
Qed.

Lemma find_unique {A} (f : A → string) l x :
  NoDup (f <$> l) → x ∈ l → find (λ y, bool_decide (f y = f x)) l = Some x.
Proof.
  induction l as [|y l IH]; [by intros _ ?%elem_of_nil|]. rewrite fmap_cons.
  intros [Hy Hnd]%NoDup_cons Hin. simpl. apply elem_of_cons in Hin as [->|Hin].
  - by rewrite bool_decide_true.
  - rewrite bool_decide_false by (intros Heq; apply Hy; rewrite Heq; by apply list_elem_of_fmap_2).
    by apply IH.
Qed.

(** [l.includes(x)] on strings. *)
Definition list_includes (l : list string) (x : string) : bool := bool_decide (x ∈ l).

(** [l.slice(a, b)] and [l.slice(a)] for indices that are not negative. *)
Definition slice {A} (a b : nat) (l : list A) : list A := take (b - a) (drop a l).
Definition slice_from {A} (a : nat) (l : list A) : list A := drop a l.

(** [l.sort()] on strings: a total order, so stability does not show. *)
Definition sort_strings (l : list string) : list string := merge_sort String.le l.

(** [l.sort(cmp)]: stable, and a comparison may throw. *)
Section sort_by.
Context {A : Type} (cmp : A → A → outcome Z).

Fixpoint insert_by (x : A) (l : list A) : outcome (list A) :=
  match l with
  | [] => Ok [x]
  | y :: l' =>
    match cmp x y with
    | Throws e => Throws e
    | Ok c => if (c <=? 0)%Z then Ok (x :: y :: l')
              else match insert_by x l' with
                   | Ok r => Ok (y :: r)
                   | Throws e => Throws e
                   end
    end
  end.

Fixpoint sort_by (l : list A) : outcome (list A) :=
  match l with
  | [] => Ok []
  | x :: l' =>
    match sort_by l' with
    | Ok r => insert_by x r
    | Throws e => Throws e
    end
  end.
End sort_by.

Lemma findIndex_Some {A} (p : A → bool) l i :
  findIndex p l = Some i →
  ∃ x, l !! i = Some x ∧ p x ∧ (∀ j y, j < i → l !! j = Some y → p y = false).
Proof.
  revert i; induction l as [|x l IH]; intros i; simpl; [done|].
  destruct (p x) eqn:Hx.
  - intros [= <-]. exists x. split_and!; [done|by rewrite Hx|lia].
  - destruct (findIndex p l) as [i'|]; simpl; [|done]. intros [= <-].
    destruct (IH i' eq_refl) as (y & Hy & Hpy & Hmin). exists y.
    split_and!; [done|done|]. intros [|j] z Hj Hz; simplify_eq/=; [done|].
    apply (Hmin j); [lia|done].
Qed.

Lemma findIndex_None {A} (p : A → bool) l :
  findIndex p l = None ↔ ∀ x, x ∈ l → p x = false.
Proof.
  induction l as [|x l IH]; simpl.
  - split; [|done]. intros _ x Hx. by apply elem_of_nil in Hx.
  - destruct (p x) eqn:Hx.
    + split; [done|]. intros H. rewrite H in Hx; [done|left].
    + destruct (findIndex p l) eqn:Hl; simpl.
      * split; [done|]. intros H.
        assert (Some n = None) as [=].
        apply IH. intros y Hy. apply H. by right.
      * split; [|done]. intros _ y [->|Hy]%elem_of_cons; [done|]. by apply IH.
Qed.

Lemma slice_around {A} (l : list A) i x y :
  l !! i = Some x → slice 0 i l ++ y :: slice_from (i + 1) l = <[i:=y]> l.
Proof.
  intros Hi. unfold slice, slice_from. rewrite Nat.sub_0_r. simpl.
  rewrite insert_take_drop by (by eapply lookup_lt_Some).
  by rewrite Nat.add_1_r.
Qed.

(** ** The results of the two sorts *)

Lemma sort_strings_perm l : sort_strings l ≡ₚ l.
Proof. apply merge_sort_Permutation. Qed.

Lemma sort_strings_sorted l : Sorted String.le (sort_strings l).
Proof. apply Sorted_merge_sort, _. Qed.

Section sort_by_facts.
Context {A : Type} (cmp : A → A → outcome Z).

Lemma insert_by_perm x l r : insert_by cmp x l = Ok r → r ≡ₚ x :: l.
Proof.
  revert r; induction l as [|y l IH]; intros r; simpl.
  - by intros [= <-].
  - destruct (cmp x y) as [c|]; [|done].
    destruct (c <=? 0)%Z; [by intros [= <-]|].
    destruct (insert_by cmp x l) as [r'|]; [|done]. intros [= <-].
    rewrite (IH r' eq_refl). apply Permutation_swap.
Qed.

Lemma sort_by_perm l r : sort_by cmp l = Ok r → r ≡ₚ l.
Proof.
  revert r; induction l as [|x l IH]; intros r; simpl.
  - by intros [= <-].
  - destruct (sort_by cmp l) as [r'|]; [|done]. intros Hr.
    rewrite (insert_by_perm _ _ _ Hr). by rewrite (IH r' eq_refl).
Qed.
End sort_by_facts.

(** A comparator that never throws on the elements and is a total preorder. *)
Record total_cmp {A} (cmp : A → A → outcome Z) (P : A → Prop) : Prop := {
  total_cmp_ok x y : P x → P y → ∃ c, cmp x y = Ok c;
  total_cmp_flip x y c : P x → P y → cmp x y = Ok c → (c > 0)%Z →
    ∃ d, cmp y x = Ok d ∧ (d <= 0)%Z;
  total_cmp_trans x y z c d : P x → P y → P z →
    cmp x y = Ok c → (c <= 0)%Z → cmp y z = Ok d → (d <= 0)%Z →
    ∃ e, cmp x z = Ok e ∧ (e <= 0)%Z;
}.

Section sort_by_total.
Context {A : Type} (cmp : A → A → outcome Z) (P : A → Prop).
Context (Hcmp : total_cmp cmp P).

Definition cmp_le (x y : A) : Prop := ∃ c, cmp x y = Ok c ∧ (c <= 0)%Z.

Lemma insert_by_total x l :
  P x → Forall P l → StronglySorted cmp_le l →
  ∃ r, insert_by cmp x l = Ok r ∧ StronglySorted cmp_le r.
Proof using Hcmp.
  intros Hx Hl Hs. induction Hs as [|y l Hs IH Hy]; simpl.
  { exists [x]. split; [done|]. repeat constructor. }
  apply Forall_cons in Hl as [Py Hl].
  destruct (total_cmp_ok _ _ Hcmp x y Hx Py) as [c Hc]. rewrite Hc.
  destruct (Z.leb_spec c 0) as [Hle|Hgt].
  - eexists; split; [done|]. constructor; [by constructor|].
    constructor; [by exists c|].
    rewrite Forall_forall in Hy, Hl. apply Forall_forall.
    intros z Hz. destruct (Hy z Hz) as (d & Hd & Hdle).
    destruct (total_cmp_trans _ _ Hcmp x y z c d) as (e & He & Hele); try done.
    { by apply Hl. }
    by exists e.
  - destruct (IH Hl) as (r & Hr & Hsr). rewrite Hr.
    eexists; split; [done|]. constructor; [done|].
    rewrite (insert_by_perm _ _ _ _ Hr). constructor; [|done].
    destruct (total_cmp_flip _ _ Hcmp x y c Hx Py Hc) as (d & Hd & Hdle); [lia|].
    by exists d.
Qed.

Lemma sort_by_total l :
  Forall P l → ∃ r, sort_by cmp l = Ok r ∧ StronglySorted cmp_le r ∧ r ≡ₚ l.
Proof using Hcmp.
  induction l as [|x l IH]; intros Hl; simpl.
  { exists []. split_and!; [done|constructor|done]. }
  apply Forall_cons in Hl as [Px Hl]. destruct (IH Hl) as (r & Hr & Hs & Hp).
  rewrite Hr. destruct (insert_by_total x r) as (r' & Hr' & Hs'); [done| |done|].
  { by rewrite Hp. }
  exists r'. split_and!; [done|done|].
  rewrite (insert_by_perm _ _ _ _ Hr'). by rewrite Hp.
Qed.
End sort_by_total.

(** ** Automation

    [js] collects the equations that evaluate record updates and outcomes. *)
Create HintDb js.
Create Rewrite HintDb js.
#[export] Hint Resolve sort_strings_perm sort_strings_sorted : js.
#[export] Hint Rewrite @str_app_nil_r str_app_assoc : js.

(** Case analysis on the matches and tests of the goal. *)
Ltac cases :=
  repeat (case_match || case_bool_decide); simplify_eq/=.
