(* ===== verification/Json.v ===== *)
(** * Values of type [any] and the helpers of src/dashboard/src/actions/helpers/object.ts

    [json] is a JavaScript value as the dashboard receives it from a service or
    a form: the JSON values and [undefined].  An object is the list of its own
    enumerable properties in insertion order.  A number is an integer ([JNum])
    or, when it was written with a fraction or an exponent, its literal
    ([JFloat]): the code modelled here never computes with the latter.

    lodash's [isEmpty], [get] and [uniqBy] are not part of the repository.  They enter
    as the operations of the class [Lodash], whose laws are the documented
    behaviour; [lodash_ref] is a concrete instance that shows the laws can hold. *)

From S2P Require Import Prelude.

Inductive json :=
| JUndefined
| JNull
| JBool (b : bool)
| JNum (n : Z)
| JFloat (literal : string)
| JStr (s : string)
| JArr (elems : list json)
| JObj (fields : list (string * json)).

(** Induction with the hypotheses for the elements of arrays and objects. *)
Section json_ind'.
Context (P : json → Prop).
Context (Hundefined : P JUndefined) (Hnull : P JNull).
Context (Hbool : ∀ b, P (JBool b)) (Hnum : ∀ n, P (JNum n)).
Context (Hfloat : ∀ s, P (JFloat s)) (Hstr : ∀ s, P (JStr s)).
Context (Harr : ∀ l, Forall P l → P (JArr l)).
Context (Hobj : ∀ fs, Forall (λ kv, P (snd kv)) fs → P (JObj fs)).

Fixpoint json_ind' (j : json) : P j :=
  match j with
  | JUndefined => Hundefined
  | JNull => Hnull
  | JBool b => Hbool b
  | JNum n => Hnum n
  | JFloat s => Hfloat s
  | JStr s => Hstr s
  | JArr l =>
    Harr l ((fix go l : Forall P l :=
      match l with
      | [] => Forall_nil_2 P
      | x :: l => Forall_cons_2 P x l (json_ind' x) (go l)
      end) l)
  | JObj fs =>
    Hobj fs ((fix go fs : Forall (λ kv, P (snd kv)) fs :=
      match fs with
      | [] => Forall_nil_2 _
      | kv :: fs => Forall_cons_2 _ kv fs (json_ind' (snd kv)) (go fs)
      end) fs)
  end.
End json_ind'.

#[export] Instance json_eq_dec : EqDecision json.
Proof.
  refine (fix go (x y : json) {struct x} : Decision (x = y) :=
    match x, y with
    | JUndefined, JUndefined => left _
    | JNull, JNull => left _
    | JBool b, JBool c => cast_if (decide (b = c))
    | JNum n, JNum m => cast_if (decide (n = m))
    | JFloat s, JFloat t => cast_if (decide (s = t))
    | JStr s, JStr t => cast_if (decide (s = t))
    | JArr l, JArr k => cast_if (@list_eq_dec json go l k)
    | JObj f, JObj g =>
      cast_if (@list_eq_dec (string * json) (@prod_eq_dec string _ json go) f g)
    | _, _ => right _
    end); clear go; abstract congruence.
Defined.

(** Property access: [undefined] when the property is missing. *)
Fixpoint assoc {A} (k : string) (fs : list (string * A)) : option A :=
  match fs with
  | [] => None
  | (k', v) :: fs' => if bool_decide (k = k') then Some v else assoc k fs'
  end.

Definition jget (j : json) (k : string) : json :=
  match j with
  | JObj fs => default JUndefined (assoc k fs)
  | _ => JUndefined
  end.

(** Property access that throws on [undefined] and [null]. *)
Definition jprop (j : json) (k : string) : outcome json :=
  match j with JUndefined | JNull => Throws (undefined_access k) | _ => Ok (jget j k) end.

(** The array a method of arrays is called on. *)
Definition jarray (method : string) (j : json) : outcome (list json) :=
  match j with
  | JArr l => Ok l
  | JUndefined | JNull => Throws (undefined_access method)
  | _ => Throws (not_a_function method)
  end.

(** [item?.toString() ?? ""], also the text of an element in the text of an array. *)
Fixpoint item_text (j : json) : string :=
  match j with
  | JUndefined | JNull => ""
  | JBool b => if b then "true" else "false"
  | JNum n => print_Z n
  | JFloat s => s
  | JStr s => s
  | JArr l => join "," (item_text <$> l)
  | JObj _ => "[object Object]"
  end.

(** A value in a template literal. *)
Definition jtext (j : json) : string :=
  match j with JUndefined => "undefined" | JNull => "null" | _ => item_text j end.

(** A literal denotes zero when the digits of its mantissa are zeros. *)
Definition is_nonzero_digit (a : ascii) : bool := ((49 <=? N_of_ascii a) && (N_of_ascii a <=? 57))%N.
Fixpoint mantissa_nonzero (s : string) : bool :=
  match s with
  | EmptyString => false
  | String a s' =>
    if bool_decide (a = "e"%char) || bool_decide (a = "E"%char) then false
    else is_nonzero_digit a || mantissa_nonzero s'
  end.

(** Truthiness of a value. *)
Definition jtruthy (j : json) : bool :=
  match j with
  | JUndefined | JNull => false
  | JBool b => b
  | JNum n => negb (bool_decide (n = 0%Z))
  | JFloat s => mantissa_nonzero s
  | JStr s => truthy s
  | JArr _ | JObj _ => true
  end.

(** [a || b]. *)
Definition jor (a b : json) : json := if jtruthy a then a else b.

Definition is_undefined (j : json) : bool := match j with JUndefined => true | _ => false end.

(** ** What the dashboard uses of lodash *)

(** The property names every object inherits. *)
Definition inherited_names : list string :=
  ["constructor"; "hasOwnProperty"; "isPrototypeOf"; "propertyIsEnumerable"; "toLocaleString";
   "toString"; "valueOf"; "length"; "__proto__"; "__defineGetter__"; "__defineSetter__";
   "__lookupGetter__"; "__lookupSetter__"].

(** A key with no meaning in the syntax of paths. *)
Definition plain_key (k : string) : bool :=
  truthy k && lacks "." k && lacks "[" k && lacks "]" k && bool_decide (k ∉ inherited_names).

(** The value at the end of a path of properties. *)
Fixpoint walk (j : json) (path : list string) : json :=
  match path with [] => j | k :: path' => walk (jget j k) path' end.

Definition or_default (d v : json) : json := if is_undefined v then d else v.

Class Lodash := {
  isEmpty : json → bool;
  get : json → string → json → json;
  uniqBy : ∀ {A : Type}, (A → string) → list A → list A;
  (* "Checks if value is an empty object, collection, map, or set."  Values
     that are none of these have no own enumerable properties. *)
  isEmpty_arr l : isEmpty (JArr l) = bool_decide (l = []);
  isEmpty_obj fs : isEmpty (JObj fs) = bool_decide (fs = []);
  isEmpty_str s : isEmpty (JStr s) = bool_decide (s = "");
  isEmpty_num n : isEmpty (JNum n) = true;
  isEmpty_float s : isEmpty (JFloat s) = true;
  isEmpty_bool b : isEmpty (JBool b) = true;
  isEmpty_null : isEmpty JNull = true;
  isEmpty_undefined : isEmpty JUndefined = true;
  (* "Gets the value at path of object.  If the resolved value is undefined, the
     defaultValue is returned in its place." *)
  get_key j k d : plain_key k → get j k d = or_default d (jget j k);
  get_path j k ks d :
    plain_key k → Forall (λ k, Is_true (plain_key k)) ks → jget j (join "." (k :: ks)) = JUndefined →
    get j (join "." (k :: ks)) d = or_default d (walk j (k :: ks));
  (* "A duplicate-free version of an array [...] in which only the first
     occurrence of each element is kept.  The order of result values is
     determined by the order they occur in the array." *)
  uniqBy_nil {A} (f : A → string) : uniqBy f [] = [];
  uniqBy_snoc {A} (f : A → string) l x :
    uniqBy f (l ++ [x]) = if bool_decide (f x ∈ f <$> l) then uniqBy f l else uniqBy f l ++ [x];
}.

(** ** A reference instance *)
Section uniqBy_ref.
Context {A : Type} (f : A → string).

Fixpoint uniqBy_from (seen : list string) (l : list A) : list A :=
  match l with
  | [] => []
  | x :: l' =>
    if bool_decide (f x ∈ seen) then uniqBy_from seen l'
    else x :: uniqBy_from (f x :: seen) l'
  end.

Lemma uniqBy_from_snoc seen l x :
  uniqBy_from seen (l ++ [x]) =
  if bool_decide (f x ∈ seen ++ (f <$> l)) then uniqBy_from seen l else uniqBy_from seen l ++ [x].
Proof.
  revert seen; induction l as [|y l IH]; intros seen; simpl.
  - rewrite app_nil_r. by case_bool_decide.
  - rewrite !IH. case_bool_decide as Hy.
    + rewrite (bool_decide_ext (f x ∈ seen ++ _) (f x ∈ seen ++ f y :: (f <$> l))); [done|].
      rewrite !elem_of_app, elem_of_cons. split; [tauto|].
      intros [?|[->|?]]; tauto.
    + rewrite (bool_decide_ext (f x ∈ (f y :: seen) ++ _) (f x ∈ seen ++ f y :: (f <$> l)));
        [repeat case_bool_decide; done|].
      rewrite !elem_of_app, !elem_of_cons. tauto.
Qed.
End uniqBy_ref.

Definition isEmpty_ref (j : json) : bool :=
  match j with
  | JArr l => bool_decide (l = [])
  | JObj fs => bool_decide (fs = [])
  | JStr s => bool_decide (s = "")
  | _ => true
  end.

Definition get_ref (j : json) (path : string) (d : json) : json :=
  or_default d (walk j (split_on "." path)).

Lemma plain_key_lacks k : plain_key k → lacks "." k.
Proof. unfold plain_key. rewrite !andb_True. tauto. Qed.

Definition lodash_ref : Lodash.
Proof.
  refine {| isEmpty := isEmpty_ref; get := get_ref; uniqBy A f l := uniqBy_from f [] l |};
    try done.
  - intros j k d Hk. unfold get_ref. by rewrite split_on_lacks by (by apply plain_key_lacks).
  - intros j k ks d Hk Hks _. unfold get_ref.
    rewrite split_join; [done|done|]. constructor; [by apply plain_key_lacks|].
    eapply Forall_impl; [done|]. intros k' Hk'. by apply plain_key_lacks.
  - intros. apply (uniqBy_from_snoc f []).
Defined.

Section uniqBy_facts.
Context `{Lodash} {A : Type} (f : A → string).
Implicit Types l k : list A.

(** [uniqBy] keeps every key, once. *)
Lemma uniqBy_keys l i : i ∈ f <$> uniqBy f l ↔ i ∈ f <$> l.
Proof using.
  induction l as [|x l IH] using rev_ind; [by rewrite uniqBy_nil|].
  rewrite uniqBy_snoc, fmap_app, elem_of_app, <-IH. simpl. rewrite list_elem_of_singleton.
  case_bool_decide as Hx.
  - split; [by left|]. intros [?|Hi]; [done|]. subst i. by apply IH.
  - rewrite fmap_app, elem_of_app. simpl. by rewrite list_elem_of_singleton.
Qed.

Lemma uniqBy_NoDup l : NoDup (f <$> uniqBy f l).
Proof using.
  induction l as [|x l IH] using rev_ind; [rewrite uniqBy_nil; constructor|].
  rewrite uniqBy_snoc. case_bool_decide as Hx; [done|].
  rewrite fmap_app. apply NoDup_app. split_and!; [done| |apply NoDup_singleton].
  intros i Hi%(uniqBy_keys l i). simpl. rewrite list_elem_of_singleton. by intros ->.
Qed.

Lemma uniqBy_prefix l k : uniqBy f l `prefix_of` uniqBy f (l ++ k).
Proof using.
  induction k as [|x k IH] using rev_ind; [by rewrite app_nil_r|].
  rewrite app_assoc, uniqBy_snoc. case_bool_decide; [done|].
  by apply prefix_app_r.
Qed.

Lemma uniqBy_id l : NoDup (f <$> l) → uniqBy f l = l.
Proof using.
  induction l as [|x l IH] using rev_ind; [by rewrite uniqBy_nil|].
  rewrite fmap_app. intros (Hl & Hx & _)%NoDup_app.
  rewrite uniqBy_snoc, IH, bool_decide_false; [done| |done].
  intros Hin. apply (Hx _ Hin). simpl. by apply list_elem_of_singleton.
Qed.

Lemma uniqBy_elem_of l x : x ∈ uniqBy f l → x ∈ l.
Proof using.
  induction l as [|y l IH] using rev_ind; [by rewrite uniqBy_nil|].
  rewrite uniqBy_snoc, elem_of_app. case_bool_decide; [by left; auto|].
  intros [?|?]%elem_of_app; auto.
Qed.
End uniqBy_facts.

Section object.
Context `{Lodash}.

(** [isEmptyDeep] *)
Fixpoint isEmptyDeep (obj : json) : bool :=
  match obj with
  | JNum _ | JFloat _ => false
  | JObj fs =>
    if negb (isEmpty obj)
    then negb (existsb (λ kv, negb (isEmptyDeep (snd kv))) fs)
    else isEmpty obj
  | JArr l =>
    if negb (isEmpty obj)
    then negb (existsb (λ v, negb (isEmptyDeep v)) l)
    else isEmpty obj
  | _ => isEmpty obj
  end.

(** [removeEmptyFields]: the top-level properties that are not empty. *)
Definition removeEmptyFields (obj : list (string * json)) : list (string * json) :=
  List.filter (λ kv, negb (isEmptyDeep (snd kv))) obj.

(** [j] holds, at some depth, a number or a string that is not empty. *)
Inductive has_content : json → Prop :=
| content_num n : has_content (JNum n)
| content_float s : has_content (JFloat s)
| content_str s : s ≠ "" → has_content (JStr s)
| content_arr l v : v ∈ l → has_content v → has_content (JArr l)
| content_obj fs k v : (k, v) ∈ fs → has_content v → has_content (JObj fs).

Lemma negb_existsb_negb {A} (p : A → bool) l :
  negb (existsb (λ x, negb (p x)) l) = true ↔ ∀ x, x ∈ l → p x = true.
Proof.
  rewrite negb_true_iff, <-not_true_iff_false, existsb_exists.
  setoid_rewrite list_elem_of_In. split.
  - intros Hn x Hx. destruct (p x) eqn:Hp; [done|]. destruct Hn. exists x. by rewrite Hp.
  - intros Hall (x & Hx & Hp). by rewrite (Hall x Hx) in Hp.
Qed.

Lemma isEmptyDeep_content j : isEmptyDeep j = true ↔ ¬ has_content j.
Proof.
  induction j as [| |b|n|s|s|l IH|fs IH] using json_ind'; simpl.
  - rewrite isEmpty_undefined. split; [|done]. intros _ Hc. inversion Hc.
  - rewrite isEmpty_null. split; [|done]. intros _ Hc. inversion Hc.
  - rewrite isEmpty_bool. split; [|done]. intros _ Hc. inversion Hc.
  - split; [done|]. intros []. constructor.
  - split; [done|]. intros []. constructor.
  - rewrite isEmpty_str, bool_decide_eq_true. split.
    + intros -> Hc. by inversion Hc.
    + intros Hn. destruct (decide (s = "")); [done|]. destruct Hn. by constructor.
  - rewrite isEmpty_arr. rewrite Forall_forall in IH.
    destruct (decide (l = [])) as [->|Hne].
    { split; [|done]. intros _ Hc. inversion Hc as [| | |? v Hv|]; subst.
      by apply elem_of_nil in Hv. }
    rewrite bool_decide_false by done. simpl. rewrite negb_existsb_negb. split.
    + intros Hall Hc. inversion Hc as [| | |? v Hv Hcv|]; subst.
      apply (proj1 (IH v Hv) (Hall v Hv) Hcv).
    + intros Hn v Hv. apply IH; [done|]. intros Hcv. apply Hn. by econstructor.
  - rewrite isEmpty_obj. rewrite Forall_forall in IH.
    destruct (decide (fs = [])) as [->|Hne].
    { split; [|done]. intros _ Hc. inversion Hc as [| | | |? k v Hv]; subst.
      by apply elem_of_nil in Hv. }
    rewrite bool_decide_false by done. simpl. rewrite negb_existsb_negb. split.
    + intros Hall Hc. inversion Hc as [| | | |? k v Hv Hcv]; subst.
      apply (proj1 (IH (k, v) Hv) (Hall (k, v) Hv) Hcv).
    + intros Hn [k v] Hv. apply (IH (k, v)); [done|]. intros Hcv. apply Hn.
      by econstructor.
Qed.

Lemma isEmptyDeep_false j : isEmptyDeep j = false ↔ has_content j.
Proof.
  split.
  - induction j as [| |b|n|s|s|l IH|fs IH] using json_ind'; simpl.
    + by rewrite isEmpty_undefined.
    + by rewrite isEmpty_null.
    + by rewrite isEmpty_bool.
    + constructor.
    + constructor.
    + rewrite isEmpty_str, bool_decide_eq_false. by constructor.
    + destruct (isEmpty (JArr l)); simpl; [done|]. rewrite negb_false_iff, existsb_exists.
      intros (v & Hv%list_elem_of_In & Hc). rewrite Forall_forall in IH.
      apply (content_arr l v); [done|]. apply (IH v Hv). by apply negb_true_iff.
    + destruct (isEmpty (JObj fs)); simpl; [done|]. rewrite negb_false_iff, existsb_exists.
      intros ([k v] & Hv%list_elem_of_In & Hc). rewrite Forall_forall in IH.
      apply (content_obj fs k v); [done|]. apply (IH (k, v) Hv). by apply negb_true_iff.
  - intros Hc. destruct (isEmptyDeep j) eqn:He; [|done].
    by apply isEmptyDeep_content in He.
Qed.
End object.
