(* ===== verification/JsonText.v ===== *)
(** * [JSON.stringify] and [JSON.parse]

    The two functions of the language the dashboard stores namespaces, builds
    Docker credentials and reads socket messages with.  Strings are UTF-8, so
    the escapes [\uXXXX] are decoded to UTF-8 bytes; properties whose names are
    array indices keep their insertion order like the others.  [JSON_parse] runs
    on fuel, one more than the length of the text: what a value takes up of the text
    covers the nesting of the calls that read it, so a text that some fuel accepts is
    accepted with this one ([JSON_parse_fuel]). *)

From Stdlib Require Import DecimalString DecimalN DecimalFacts.
From S2P Require Import Prelude.
From S2P Require Import Json.

Definition quote : ascii := "034"%char.
Definition backslash : ascii := "092"%char.

(** ** Printing *)

Definition hex_char (n : N) : ascii :=
  ascii_of_N (if (n <? 10)%N then 48 + n else 87 + n).

Definition escape_char (a : ascii) : string :=
  let n := N_of_ascii a in
  (if n =? 34 then String backslash (String quote "")
   else if n =? 92 then String backslash (String backslash "")
   else if n =? 8 then String backslash "b"
   else if n =? 9 then String backslash "t"
   else if n =? 10 then String backslash "n"
   else if n =? 12 then String backslash "f"
   else if n =? 13 then String backslash "r"
   else if n <? 32 then
     String backslash (String "u" (String "0" (String "0"
       (String (hex_char (n / 16)) (String (hex_char (n mod 16)) "")))))
   else String a "")%N.

Fixpoint escape (s : string) : string :=
  match s with EmptyString => "" | String a s' => escape_char a +:+ escape s' end.

Definition print_string (s : string) : string :=
  String quote (escape s +:+ String quote "").

(** The text of a value that is not [undefined]: properties that are
    [undefined] are left out, array elements print as [null]. *)
Fixpoint JSON_text (j : json) : string :=
  match j with
  | JUndefined | JNull => "null"
  | JBool true => "true"
  | JBool false => "false"
  | JNum n => print_Z n
  | JFloat lit => lit
  | JStr s => print_string s
  | JArr l => "[" +:+ join "," (List.map JSON_text l) +:+ "]"
  | JObj fs =>
    "{" +:+ join "," (List.flat_map (λ kv,
        if is_undefined (snd kv) then []
        else [print_string (fst kv) +:+ ":" +:+ JSON_text (snd kv)]) fs) +:+ "}"
  end.

(** [JSON.stringify(j)] is [undefined] on [undefined]. *)
Definition JSON_stringify (j : json) : option string :=
  match j with JUndefined => None | _ => Some (JSON_text j) end.

(** ** Parsing *)

Definition is_ws (a : ascii) : bool :=
  let n := N_of_ascii a in ((n =? 32) || (n =? 9) || (n =? 10) || (n =? 13))%N.

Fixpoint skip_ws (s : string) : string :=
  match s with String a s' => if is_ws a then skip_ws s' else s | EmptyString => "" end.

Definition is_digit (a : ascii) : bool :=
  let n := N_of_ascii a in ((48 <=? n) && (n <=? 57))%N.

Fixpoint span_digits (s : string) : string * string :=
  match s with
  | String a s' =>
    if is_digit a then let '(d, r) := span_digits s' in (String a d, r) else ("", s)
  | EmptyString => ("", "")
  end.

Definition hex_digit_value (a : ascii) : option N :=
  let n := N_of_ascii a in
  if ((48 <=? n) && (n <=? 57))%N then Some (n - 48)%N
  else if ((65 <=? n) && (n <=? 70))%N then Some (n - 55)%N
  else if ((97 <=? n) && (n <=? 102))%N then Some (n - 87)%N
  else None.

Definition hex4 (a b c d : ascii) : option N :=
  a ← hex_digit_value a; b ← hex_digit_value b; c ← hex_digit_value c; d ← hex_digit_value d;
  Some (4096 * a + 256 * b + 16 * c + d)%N.

Definition utf8_encode (p : N) : string :=
  (let ch n := String (ascii_of_N n) in
   if p <? 128 then ch p ""
   else if p <? 2048 then ch (192 + p / 64) (ch (128 + p mod 64) "")
   else if p <? 65536 then
     ch (224 + p / 4096) (ch (128 + p / 64 mod 64) (ch (128 + p mod 64) ""))
   else ch (240 + p / 262144) (ch (128 + p / 4096 mod 64)
          (ch (128 + p / 64 mod 64) (ch (128 + p mod 64) ""))))%N.

Definition is_high (p : N) : bool := ((55296 <=? p) && (p <? 56320))%N.
Definition is_low (p : N) : bool := ((56320 <=? p) && (p <? 57344))%N.

Definition simple_escape (a : ascii) : option ascii :=
  let n := N_of_ascii a in
  (if n =? 34 then Some quote
   else if n =? 92 then Some backslash
   else if n =? 47 then Some "/"%char
   else if n =? 98 then Some "008"%char
   else if n =? 116 then Some "009"%char
   else if n =? 110 then Some "010"%char
   else if n =? 102 then Some "012"%char
   else if n =? 114 then Some "013"%char
   else None)%N.

Definition prepend (w : string) (r : option (string * string)) : option (string * string) :=
  match r with Some (s, rest) => Some (w +:+ s, rest) | None => None end.

(** The rest of a string literal, after its opening quote. *)
Fixpoint parse_chars (s : string) : option (string * string) :=
  match s with
  | EmptyString => None
  | String a s1 =>
    if bool_decide (a = quote) then Some ("", s1)
    else if bool_decide (a = backslash) then
      match s1 with
      | EmptyString => None
      | String e s2 =>
        match simple_escape e with
        | Some c => prepend (String c "") (parse_chars s2)
        | None =>
          if bool_decide (e = "u"%char) then
            match s2 with
            | String h1 (String h2 (String h3 (String h4 s3))) =>
              match hex4 h1 h2 h3 h4 with
              | None => None
              | Some p =>
                match s3 with
                | String b (String u (String g1 (String g2 (String g3 (String g4 s4))))) =>
                  match hex4 g1 g2 g3 g4 with
                  | Some q =>
                    if is_high p && bool_decide (b = backslash) && bool_decide (u = "u"%char)
                       && is_low q
                    then prepend (utf8_encode (65536 + 1024 * (p - 55296) + (q - 56320)))
                           (parse_chars s4)
                    else prepend (utf8_encode p) (parse_chars s3)
                  | None => prepend (utf8_encode p) (parse_chars s3)
                  end
                | _ => prepend (utf8_encode p) (parse_chars s3)
                end
              end
            | _ => None
            end
          else None
        end
      end
    else if (N_of_ascii a <? 32)%N then None
    else prepend (String a "") (parse_chars s1)
  end.

(** An optional fraction and an optional exponent: their literal and the rest. *)
Definition parse_exponent (s : string) : option (string * string) :=
  match s with
  | String e s1 =>
    if bool_decide (e = "e"%char) || bool_decide (e = "E"%char) then
      let '(sign, s2) :=
        match s1 with
        | String "+" s2 => ("+", s2)
        | String "-" s2 => ("-", s2)
        | _ => ("", s1)
        end in
      let '(d, r) := span_digits s2 in
      if truthy d then Some (String e (sign +:+ d), r) else None
    else Some ("", s)
  | EmptyString => Some ("", "")
  end.

Definition parse_fraction (s : string) : option (string * string) :=
  match s with
  | String "." s1 =>
    let '(d, r) := span_digits s1 in
    if truthy d then prepend (String "." d) (parse_exponent r) else None
  | _ => parse_exponent s
  end.

Definition leading_zero (d : string) : bool :=
  match d with String "0" (String _ _) => true | _ => false end.

Definition digits_value (d : string) : Z :=
  match NilEmpty.uint_of_string d with Some u => Z.of_N (N.of_uint u) | None => 0%Z end.

Definition parse_number (s : string) : option (json * string) :=
  let '(neg, s1) := match s with String "-" r => (true, r) | _ => (false, s) end in
  let '(d, r) := span_digits s1 in
  if negb (truthy d) || leading_zero d then None
  else match parse_fraction r with
       | None => None
       | Some ("", r') =>
         Some (JNum (if neg then - digits_value d else digits_value d), r')%Z
       | Some (lit, r') => Some (JFloat ((if neg then "-" else "") +:+ d +:+ lit), r')
       end.

Fixpoint strip (p s : string) : option string :=
  match p, s with
  | EmptyString, _ => Some s
  | String a p', String b s' => if bool_decide (a = b) then strip p' s' else None
  | String _ _, EmptyString => None
  end.

(** A repeated property keeps its place and takes the last value. *)
Fixpoint obj_set {A} (k : string) (v : A) (fs : list (string * A)) : list (string * A) :=
  match fs with
  | [] => [(k, v)]
  | (k', v') :: fs' => if bool_decide (k = k') then (k, v) :: fs' else (k', v') :: obj_set k v fs'
  end.

Definition peek (s : string) : option ascii :=
  match s with String a _ => Some a | EmptyString => None end.

Fixpoint parse_value (fuel : nat) (s : string) : option (json * string) :=
  match fuel with
  | O => None
  | S fuel =>
    let s := skip_ws s in
    match s with
    | EmptyString => None
    | String a s1 =>
      if bool_decide (a = quote) then
        match parse_chars s1 with Some (str, r) => Some (JStr str, r) | None => None end
      else if bool_decide (a = "["%char) then
        match skip_ws s1 with
        | String "]" r => Some (JArr [], r)
        | _ => match parse_elems fuel s1 with Some (l, r) => Some (JArr l, r) | None => None end
        end
      else if bool_decide (a = "{"%char) then
        match skip_ws s1 with
        | String "}" r => Some (JObj [], r)
        | _ => match parse_members fuel [] s1 with
               | Some (fs, r) => Some (JObj fs, r) | None => None end
        end
      else if is_digit a || bool_decide (a = "-"%char) then parse_number s
      else match strip "null" s with
           | Some r => Some (JNull, r)
           | None =>
             match strip "true" s with
             | Some r => Some (JBool true, r)
             | None =>
               match strip "false" s with
               | Some r => Some (JBool false, r)
               | None => None
               end
             end
           end
    end
  end
with parse_elems (fuel : nat) (s : string) : option (list json * string) :=
  match fuel with
  | O => None
  | S fuel =>
    match parse_value fuel s with
    | None => None
    | Some (v, r) =>
      match skip_ws r with
      | String "," r' =>
        match parse_elems fuel r' with Some (l, r'') => Some (v :: l, r'') | None => None end
      | String "]" r' => Some ([v], r')
      | _ => None
      end
    end
  end
with parse_members (fuel : nat) (acc : list (string * json)) (s : string)
  : option (list (string * json) * string) :=
  match fuel with
  | O => None
  | S fuel =>
    match skip_ws s with
    | String q s1 =>
      if bool_decide (q = quote) then
        match parse_chars s1 with
        | None => None
        | Some (k, r) =>
          match skip_ws r with
          | String ":" r1 =>
            match parse_value fuel r1 with
            | None => None
            | Some (v, r2) =>
              match skip_ws r2 with
              | String "," r3 => parse_members fuel (obj_set k v acc) r3
              | String "}" r3 => Some (obj_set k v acc, r3)
              | _ => None
              end
            end
          | _ => None
          end
        end
      else None
    | EmptyString => None
    end
  end.

Definition json_syntax_error : js_error := mk_error SyntaxError "Unexpected token in JSON".

Definition JSON_parse (s : string) : outcome json :=
  match parse_value (S (String.length s)) s with
  | Some (j, r) => if bool_decide (skip_ws r = "") then Ok j else Throws json_syntax_error
  | None => Throws json_syntax_error
  end.

Example parse_nested :
  JSON_parse (JSON_text (JObj [("a", JArr [JNum 12; JNum (-7); JNull; JObj []]); ("b", JStr "x/y"); ("c", JBool false)]))
  = Ok (JObj [("a", JArr [JNum 12; JNum (-7); JNull; JObj []]); ("b", JStr "x/y"); ("c", JBool false)]).
Proof. vm_compute. reflexivity. Qed.

(** ** The fuel *)

Lemma skip_ws_length s : String.length (skip_ws s) ≤ String.length s.
Proof. induction s as [|a s IH]; simpl; [done|]. case_match; simpl; lia. Qed.

Lemma span_digits_length s d r :
  span_digits s = (d, r) → String.length s = String.length d + String.length r.
Proof.
  revert d r. induction s as [|a s IH]; simpl; [by intros d r [= <- <-]|]. intros d r.
  case_match; [|by intros [= <- <-]].
  destruct (span_digits s) as [d' r'] eqn:Hs. intros [= <- <-]. simpl. by rewrite (IH _ _ eq_refl).
Qed.

Lemma prepend_Some w o v r : prepend w o = Some (v, r) → ∃ v', o = Some (v', r).
Proof. destruct o as [[v' r']|]; simpl; [|done]. intros [= _ ->]. eauto. Qed.

Lemma parse_chars_length s w r : parse_chars s = Some (w, r) → String.length r < String.length s.
Proof.
  remember (String.length s) as n eqn:Hn. revert s w r Hn.
  induction n as [n IH] using lt_wf_ind. intros s w r -> Hp.
  assert (∀ p t, prepend p (parse_chars t) = Some (w, r) → String.length t < String.length s →
            String.length r < String.length s) as Hrec.
  { intros p t [w' Ht]%prepend_Some Hlt. pose proof (IH _ Hlt t w' r eq_refl Ht). lia. }
  destruct s as [|a s1]; [done|]. cbn [parse_chars] in Hp.
  repeat (case_match; simplify_eq;
    try (by eapply Hrec; [exact Hp|simpl; lia])); try done; simpl; lia.
Qed.

Definition sign_of (s : string) : string * string :=
  match s with String "+" s2 => ("+", s2) | String "-" s2 => ("-", s2) | _ => ("", s) end.

Lemma sign_of_length s : String.length (sign_of s).2 ≤ String.length s.
Proof. unfold sign_of. repeat case_match; simpl; lia. Qed.

Lemma parse_exponent_length s w r :
  parse_exponent s = Some (w, r) → String.length r ≤ String.length s.
Proof.
  destruct s as [|a s]; simpl; [by intros [= _ <-]|]. case_match; [|by intros [= _ <-]].
  fold (sign_of s). pose proof (sign_of_length s). destruct (sign_of s) as [sign s2].
  destruct (span_digits s2) as [d r'] eqn:Hs. apply span_digits_length in Hs.
  case_match; [|done]. intros [= _ <-]. simpl in *. lia.
Qed.

Lemma parse_fraction_length s w r :
  parse_fraction s = Some (w, r) → String.length r ≤ String.length s.
Proof.
  unfold parse_fraction. repeat (case_match; try apply parse_exponent_length; try done). subst.
  intros [w' Hp]%prepend_Some. apply parse_exponent_length in Hp.
  match goal with H : span_digits _ = _ |- _ => apply span_digits_length in H end.
  simpl. lia.
Qed.

Lemma parse_number_length s j r : parse_number s = Some (j, r) → String.length r < String.length s.
Proof.
  unfold parse_number.
  assert (String.length (match s with String "-" r => (true, r) | _ => (false, s) end).2
    ≤ String.length s) as Hl by (repeat case_match; simpl; lia).
  destruct (match s with String "-" r => (true, r) | _ => (false, s) end) as [neg s1].
  destruct (span_digits s1) as [d r1] eqn:Hs. apply span_digits_length in Hs.
  destruct d as [|c d]; [done|]. simpl. case_match; [done|].
  destruct (parse_fraction r1) as [[lit r']|] eqn:Hf; [|done].
  apply parse_fraction_length in Hf. intros Hj.
  assert (r' = r) as -> by (repeat case_match; congruence). simpl in *. lia.
Qed.

Lemma strip_length p s r : strip p s = Some r → String.length s = String.length p + String.length r.
Proof.
  revert s. induction p as [|a p IH]; intros [|b s]; simpl; try done; [by intros [= <-]..|].
  case_match; [|done]. intros Hs. by rewrite (IH _ Hs).
Qed.

Ltac by_next_character s :=
  destruct s as [|[[] [] [] [] [] [] [] []] s]; first
    [ by (left; eexists) | by (right; left; eexists) | by right | by (right; right) ].

Lemma close_bracket s : (∃ r, s = String "]" r) ∨
  ∀ A (X : string → A) Y, match s with String "]" r => X r | _ => Y end = Y.
Proof. by_next_character s. Qed.

Lemma close_brace s : (∃ r, s = String "}" r) ∨
  ∀ A (X : string → A) Y, match s with String "}" r => X r | _ => Y end = Y.
Proof. by_next_character s. Qed.

Lemma comma_or_bracket s : (∃ r, s = String "," r) ∨ (∃ r, s = String "]" r) ∨
  ∀ A (X Y : string → A) Z,
    match s with String "," r => X r | String "]" r => Y r | _ => Z end = Z.
Proof. by_next_character s. Qed.

Lemma comma_or_brace s : (∃ r, s = String "," r) ∨ (∃ r, s = String "}" r) ∨
  ∀ A (X Y : string → A) Z,
    match s with String "," r => X r | String "}" r => Y r | _ => Z end = Z.
Proof. by_next_character s. Qed.

Lemma colon_or s : (∃ r, s = String ":" r) ∨
  ∀ A (X : string → A) Y, match s with String ":" r => X r | _ => Y end = Y.
Proof. by_next_character s. Qed.

(** A parser [p] that gave a result on some fuel has consumed a part of its text, and
    gives the same result on every fuel that covers this part. *)
Definition fuel_covers {A} (p : nat → string → option (A * string)) (f : nat) : Prop :=
  ∀ s v r, p f s = Some (v, r) →
    String.length r < String.length s ∧
    ∀ f', String.length s - String.length r ≤ f' → p f' s = Some (v, r).

Lemma fuel_covers_all f :
  fuel_covers parse_value f ∧ fuel_covers parse_elems f ∧
  ∀ acc, fuel_covers (λ f, parse_members f acc) f.
Proof.
  induction f as [|f (IHv & IHe & IHm)]; [by split_and!|]. split_and!.
  - intros s v r. cbn [parse_value]. pose proof (skip_ws_length s) as Hws.
    destruct (skip_ws s) as [|a s1] eqn:Hs; [done|]. intros Hp.
    enough (String.length r < S (String.length s1) ∧
      ∀ f', S (String.length s1) - String.length r ≤ S f' → parse_value (S f') s = Some (v, r))
      as [Hr Hf].
    { simpl in Hws. split; [lia|]. intros [|f'] ?; [lia|]. apply Hf. lia. }
    cbn [parse_value]. rewrite Hs. pose proof (skip_ws_length s1) as Hws1.
    destruct (bool_decide (a = quote)).
    { destruct (parse_chars s1) as [[w r']|] eqn:Hc; simplify_eq.
      apply parse_chars_length in Hc. split; [lia|done]. }
    destruct (bool_decide (a = "["%char)); [|destruct (bool_decide (a = "{"%char))].
    + destruct (close_bracket (skip_ws s1)) as [[r0 Hc]|Hc].
      { rewrite Hc in *. simplify_eq. simpl in Hws1. split; [lia|done]. }
      rewrite Hc in Hp. destruct (parse_elems f s1) as [[l r']|] eqn:He; simplify_eq.
      apply IHe in He as [Hr Hf]. split; [lia|]. intros f' ?. rewrite Hc, Hf by lia. done.
    + destruct (close_brace (skip_ws s1)) as [[r0 Hc]|Hc].
      { rewrite Hc in *. simplify_eq. simpl in Hws1. split; [lia|done]. }
      rewrite Hc in Hp. destruct (parse_members f [] s1) as [[l r']|] eqn:He; simplify_eq.
      apply IHm in He as [Hr Hf]. split; [lia|]. intros f' ?. rewrite Hc, Hf by lia. done.
    + destruct (is_digit a || bool_decide (a = "-"%char)).
      { apply parse_number_length in Hp as ?. simpl in *. split; [lia|done]. }
      repeat case_match; simplify_eq;
        repeat match goal with H : strip _ _ = Some _ |- _ => apply strip_length in H; simpl in H end;
        (split; [lia|done]).
  - intros s v r. cbn [parse_elems].
    destruct (parse_value f s) as [[x r1]|] eqn:Hv; [|done]. apply IHv in Hv as [Hr1 Hv].
    pose proof (skip_ws_length r1) as Hws.
    destruct (comma_or_bracket (skip_ws r1)) as [[r2 Hc]|[[r2 Hc]|Hc]];
      rewrite Hc in *; [..|done]; simpl in Hws.
    + destruct (parse_elems f r2) as [[l r3]|] eqn:He; [|done]. apply IHe in He as [Hr2 He].
      intros [= <- <-]. split; [lia|]. intros [|f'] ?; [lia|]. cbn [parse_elems].
      by rewrite Hv, Hc, He by lia.
    + intros [= <- <-]. split; [lia|]. intros [|f'] ?; [lia|]. cbn [parse_elems].
      by rewrite Hv, Hc by lia.
  - intros acc s v r. cbn [parse_members]. pose proof (skip_ws_length s) as Hws.
    destruct (skip_ws s) as [|q s1] eqn:Hs; [done|]. simpl in Hws.
    destruct (bool_decide (q = quote)) eqn:Hq; [|done].
    destruct (parse_chars s1) as [[k r0]|] eqn:Hk; [|done]. apply parse_chars_length in Hk as Hr0.
    pose proof (skip_ws_length r0) as Hws0.
    destruct (colon_or (skip_ws r0)) as [[r1 Hc]|Hc]; rewrite Hc in *; [|done]. simpl in Hws0.
    destruct (parse_value f r1) as [[x r2]|] eqn:Hv; [|done]. apply IHv in Hv as [Hr1 Hv].
    pose proof (skip_ws_length r2) as Hws2.
    destruct (comma_or_brace (skip_ws r2)) as [[r3 Hd]|[[r3 Hd]|Hd]];
      rewrite Hd in *; [..|done]; simpl in Hws2.
    + destruct (parse_members f (obj_set k x acc) r3) as [[l r4]|] eqn:He; [|done].
      apply IHm in He as [Hr3 He]. intros [= <- <-]. split; [lia|]. intros [|f'] ?; [lia|].
      cbn [parse_members]. by rewrite Hs, Hq, Hk, Hc, Hv, Hd, He by lia.
    + intros [= <- <-]. split; [lia|]. intros [|f'] ?; [lia|].
      cbn [parse_members]. by rewrite Hs, Hq, Hk, Hc, Hv, Hd by lia.
Qed.

(** The fuel of [JSON_parse] is enough: it accepts a text exactly when some fuel does. *)
Lemma JSON_parse_fuel s j :
  JSON_parse s = Ok j ↔ ∃ f r, parse_value f s = Some (j, r) ∧ skip_ws r = "".
Proof.
  unfold JSON_parse. split.
  - destruct (parse_value _ s) as [[j' r]|] eqn:Hp; [|done]. case_bool_decide; [|done].
    intros [= <-]. eauto.
  - intros (f & r & Hp & Hr). apply (proj1 (fuel_covers_all f)) in Hp as [_ Hp].
    rewrite Hp by lia. by rewrite bool_decide_true.
Qed.

(** ** Round trip *)

Lemma prepend_app w w' r : prepend w (prepend w' r) = prepend (w +:+ w') r.
Proof. destruct r as [[s rest]|]; simpl; [|done]. by rewrite str_app_assoc. Qed.

(** Every byte is printed plainly, as a short escape or as [\u00hh]. *)
Definition escape_form (a : ascii) : bool :=
  match escape_char a with
  | String b "" =>
    bool_decide (b = a ∧ a ≠ quote ∧ a ≠ backslash ∧ (N_of_ascii a <? 32)%N = false)
  | String b (String e "") => bool_decide (b = backslash ∧ simple_escape e = Some a)
  | String b (String u (String h1 (String h2 (String h3 (String h4 ""))))) =>
    match hex4 h1 h2 h3 h4 with
    | Some p => bool_decide (b = backslash ∧ u = "u"%char ∧ is_high p = false ∧
                             utf8_encode p = String a "")
    | None => false
    end
  | _ => false
  end.

Lemma escape_form_all : ∀ a, escape_form a.
Proof. check_bytes. Qed.

Lemma parse_chars_plain a r :
  a ≠ quote → a ≠ backslash → (N_of_ascii a <? 32)%N = false →
  parse_chars (String a r) = prepend (String a "") (parse_chars r).
Proof. intros ?? H. simpl. rewrite H. by rewrite !bool_decide_false by done. Qed.

Lemma parse_chars_simple e c r :
  simple_escape e = Some c →
  parse_chars (String backslash (String e r)) = prepend (String c "") (parse_chars r).
Proof. intros H. simpl. by rewrite H. Qed.

Lemma parse_chars_u h1 h2 h3 h4 p r :
  hex4 h1 h2 h3 h4 = Some p → is_high p = false →
  parse_chars (String backslash (String "u" (String h1 (String h2 (String h3 (String h4 r)))))) =
  prepend (utf8_encode p) (parse_chars r).
Proof.
  intros Hp Hh. cbn -[hex4 is_high is_low utf8_encode]. rewrite Hp.
  repeat case_match; first [done | rewrite Hh in *; done].
Qed.

Lemma parse_chars_escape_char a r :
  parse_chars (escape_char a +:+ r) = prepend (String a "") (parse_chars r).
Proof.
  pose proof (escape_form_all a) as H. unfold escape_form in H.
  destruct (escape_char a) as [|b [|e [|h1 [|h2 [|h3 [|h4 [|? ?]]]]]]]; try done.
  - apply bool_decide_unpack in H as (-> & ? & ? & ?). by apply parse_chars_plain.
  - apply bool_decide_unpack in H as (-> & He). by apply parse_chars_simple.
  - destruct (hex4 h1 h2 h3 h4) as [p|] eqn:Hp; [|done].
    apply bool_decide_unpack in H as (-> & -> & Hh & <-).
    by apply parse_chars_u.
Qed.

Lemma parse_chars_escape s rest :
  parse_chars (escape s +:+ String quote rest) = Some (s, rest).
Proof.
  induction s as [|a s IH]; [done|]. simpl.
  by rewrite str_app_assoc, parse_chars_escape_char, IH.
Qed.

(** ** Numbers *)

(** What may follow a value: nothing that would extend a number. *)
Definition delimited (rest : string) : bool :=
  match rest with
  | EmptyString => true
  | String a _ =>
    negb (is_digit a) && negb (bool_decide (a = "."%char)) && negb (bool_decide (a = "e"%char))
    && negb (bool_decide (a = "E"%char))
  end.

Lemma span_digits_uint u rest :
  delimited rest → span_digits (NilEmpty.string_of_uint u +:+ rest) = (NilEmpty.string_of_uint u, rest).
Proof.
  intros Hr. induction u; cbn [NilEmpty.string_of_uint];
    [destruct rest as [|a rest]; [done|]; simpl in *; by destruct (is_digit a)|..];
    rewrite str_app_cons; simpl; by rewrite IHu.
Qed.

Lemma nzhead_no_zero u : match Decimal.nzhead u with Decimal.D0 _ => False | _ => True end.
Proof. induction u; simpl; done. Qed.

Lemma print_N_shape n : truthy (print_N n) = true ∧ leading_zero (print_N n) = false.
Proof.
  unfold print_N.
  assert (N.to_uint n = Decimal.unorm (N.to_uint n)) as ->.
  { by rewrite <-Unsigned.to_of, Unsigned.of_to. }
  unfold Decimal.unorm. pose proof (nzhead_no_zero (N.to_uint n)) as H.
  by destruct (Decimal.nzhead (N.to_uint n)).
Qed.

Lemma print_N_value n : digits_value (print_N n) = Z.of_N n.
Proof. unfold digits_value, print_N. by rewrite NilEmpty.usu, Unsigned.of_to. Qed.

Lemma print_N_digits n : str_all is_digit (print_N n).
Proof. unfold print_N. generalize (N.to_uint n) as u. intros u. induction u; simpl; done. Qed.

(** A printed number has no other characters than digits. *)
Lemma print_N_lacks c n : is_digit c = false → lacks c (print_N n).
Proof.
  intros Hc. unfold lacks. eapply str_all_impl; [|apply print_N_digits]. intros a Ha.
  rewrite bool_decide_false; [done|]. intros ->. by rewrite Hc in Ha.
Qed.

Lemma parse_fraction_delimited rest : delimited rest → parse_fraction rest = Some ("", rest).
Proof.
  destruct rest as [|a rest]; [done|]. unfold delimited. intros H.
  rewrite !andb_True, !negb_True in H. destruct H as (((_ & Hdot) & He) & HE).
  assert (parse_fraction (String a rest) = parse_exponent (String a rest)) as ->.
  { destruct (decide (a = "."%char)) as [->|Hne]; [by destruct Hdot|].
    destruct a as [[] [] [] [] [] [] [] []]; done. }
  simpl. by destruct (bool_decide (a = "e"%char)), (bool_decide (a = "E"%char)).
Qed.

(** The first character of a printed number is a digit or a minus sign. *)
Lemma print_N_head n : ∃ a s, print_N n = String a s ∧ is_digit a = true.
Proof.
  destruct (print_N_shape n) as [Ht _]. revert Ht. unfold print_N.
  destruct (N.to_uint n); simpl; [done|..]; eauto.
Qed.

Lemma parse_number_print z rest :
  delimited rest → parse_number (print_Z z +:+ rest) = Some (JNum z, rest).
Proof.
  intros Hr. unfold print_Z, parse_number.
  assert (∀ n, span_digits (print_N n +:+ rest) = (print_N n, rest)) as Hspan.
  { intros n. by apply span_digits_uint. }
  destruct (Z.ltb_spec z 0).
  - rewrite str_app_assoc. change ("-" +:+ ?s) with (String "-" s). cbn match.
    rewrite Hspan. destruct (print_N_shape (Z.abs_N z)) as [-> ->]. simpl.
    rewrite parse_fraction_delimited, print_N_value by done. do 3 f_equal. lia.
  - destruct (print_N_head (Z.abs_N z)) as (a & s & Heq & Ha).
    specialize (Hspan (Z.abs_N z)). pose proof (print_N_value (Z.abs_N z)) as Hval.
    destruct (print_N_shape (Z.abs_N z)) as [Ht Hl].
    rewrite Heq in *. rewrite str_app_cons in *.
    destruct a as [[] [] [] [] [] [] [] []]; try done;
    cbn match; rewrite Hspan, Ht, Hl; simpl;
      rewrite parse_fraction_delimited, Hval by done; do 3 f_equal; lia.
Qed.

(** ** Values *)

(** The values with a faithful text: no [undefined], integer numbers, and
    objects whose properties are pairwise distinct. *)
Inductive printable : json → Prop :=
| printable_null : printable JNull
| printable_bool b : printable (JBool b)
| printable_num n : printable (JNum n)
| printable_str s : printable (JStr s)
| printable_arr l : Forall printable l → printable (JArr l)
| printable_obj fs :
  NoDup (fst <$> fs) → Forall (λ kv, printable (snd kv)) fs → printable (JObj fs).

Definition print_member (kv : string * json) : string :=
  print_string (fst kv) +:+ ":" +:+ JSON_text (snd kv).

Lemma printable_defined j : printable j → is_undefined j = false.
Proof. by inversion 1. Qed.

Lemma JSON_text_obj fs :
  Forall (λ kv, printable (snd kv)) fs →
  JSON_text (JObj fs) = "{" +:+ join "," (print_member <$> fs) +:+ "}".
Proof.
  intros Hfs. simpl. do 2 f_equal. f_equal. induction Hfs as [|kv fs Hkv Hfs IH]; simpl; [done|].
  by rewrite (printable_defined _ Hkv), IH.
Qed.

Lemma obj_set_fresh {A} k (v : A) fs : k ∉ fst <$> fs → obj_set k v fs = fs ++ [(k, v)].
Proof.
  induction fs as [|[k' v'] fs IH]; simpl; [done|]. intros [Hk Hin]%not_elem_of_cons.
  rewrite bool_decide_false by done. by rewrite IH.
Qed.

(** [parse_value] reads back the text of [j] whenever the fuel covers it. *)
Definition reads_back (j : json) : Prop := ∀ fuel rest,
  String.length (JSON_text j) ≤ fuel → delimited rest →
  parse_value fuel (JSON_text j +:+ rest) = Some (j, rest).

(** The first character of a text: not white space, and it selects the branch
    of [parse_value]. *)
Lemma JSON_text_head j : printable j → ∃ a s, JSON_text j = String a s ∧ is_ws a = false ∧
  a ≠ "]"%char ∧ a ≠ "}"%char.
Proof.
  inversion 1 as [|b|n|s|l|fs]; subst.
  - by eexists _, _.
  - by destruct b; eexists _, _.
  - simpl. unfold print_Z. destruct (print_N_head (Z.abs_N n)) as (a & s & Heq & Ha).
    case_match; [by eexists _, _|]. exists a, s. split; [done|].
    destruct a as [[] [] [] [] [] [] [] []]; done.
  - by eexists _, _.
  - by eexists _, _.
  - rewrite JSON_text_obj by done. by eexists _, _.
Qed.

Lemma parse_elems_reads l v fuel rest :
  Forall reads_back (v :: l) →
  String.length (join "," (List.map JSON_text (v :: l))) < fuel →
  parse_elems fuel (join "," (List.map JSON_text (v :: l)) +:+ String "]" rest)
  = Some (v :: l, rest).
Proof.
  revert v fuel; induction l as [|w l IH]; intros v [|fuel] Hl Hf; try lia;
    apply Forall_cons in Hl as [Hv Hl].
  - simpl in *. rewrite Hv by (done || lia). done.
  - change (join "," (List.map JSON_text (v :: w :: l))) with
      (JSON_text v +:+ String "," (join "," (List.map JSON_text (w :: l)))) in *.
    rewrite str_length_app in Hf. cbn [String.length] in Hf.
    rewrite str_app_assoc, str_app_cons. cbn [parse_elems].
    rewrite Hv by (done || lia). change (skip_ws (String "," ?x)) with (String "," x).
    cbn match. rewrite IH by (done || lia). done.
Qed.

Lemma parse_member_step k v acc fuel r :
  reads_back v → k ∉ fst <$> acc → String.length (print_member (k, v)) ≤ fuel → delimited r →
  parse_members (S fuel) acc (print_member (k, v) +:+ r) =
  match skip_ws r with
  | String "," r3 => parse_members fuel (acc ++ [(k, v)]) r3
  | String "}" r3 => Some (acc ++ [(k, v)], r3)
  | _ => None
  end.
Proof.
  intros Hv Hk Hf Hr. unfold print_member, print_string in *. cbn [fst snd] in *.
  rewrite !str_length_app in Hf. cbn [String.length] in Hf. rewrite str_length_app in Hf.
  str_norm. cbn [parse_members]. simpl skip_ws at 1. change (is_ws quote) with false. cbn match.
  change (bool_decide (quote = quote)) with true. cbn match.
  rewrite parse_chars_escape.
  change (skip_ws (String ":" ?x)) with (String ":" x). cbn match.
  rewrite Hv by (done || lia). by rewrite obj_set_fresh.
Qed.

Lemma parse_members_reads fs kv acc fuel rest :
  Forall (λ kv, reads_back (snd kv)) (kv :: fs) → NoDup (fst <$> acc ++ kv :: fs) →
  String.length (join "," (print_member <$> kv :: fs)) < fuel →
  parse_members fuel acc (join "," (print_member <$> kv :: fs) +:+ String "}" rest)
  = Some (acc ++ kv :: fs, rest).
Proof.
  revert kv acc fuel; induction fs as [|kv' fs IH]; intros [k v] acc [|fuel] Hl Hnd Hf; try lia;
    apply Forall_cons in Hl as [Hv Hl]; simpl in Hv;
    (assert (k ∉ fst <$> acc) as Hk by
      (rewrite fmap_app in Hnd; apply NoDup_app in Hnd as (_ & Hd & _);
       intros Hk; apply (Hd k Hk); left)).
  - change (join "," (print_member <$> [(k, v)])) with (print_member (k, v)) in *.
    by rewrite parse_member_step by (done || lia).
  - change (join "," (print_member <$> (k, v) :: kv' :: fs)) with
      (print_member (k, v) +:+ String "," (join "," (print_member <$> kv' :: fs))) in *.
    rewrite str_length_app in Hf. cbn [String.length] in Hf.
    rewrite str_app_assoc, str_app_cons, parse_member_step by (done || lia).
    change (skip_ws (String "," ?x)) with (String "," x). cbn match.
    rewrite IH; [|done| |lia]; by rewrite <-app_assoc.
Qed.

Lemma parse_value_reads j : printable j → reads_back j.
Proof.
  induction j as [| |b|n|s|s|l IH|fs IH] using json_ind'; intros Hp [|fuel] rest Hf Hr;
    try (by inversion Hp);
    try (destruct (JSON_text_head _ Hp) as (? & ? & Heq & _); rewrite Heq in Hf; simpl in Hf; lia).
  - destruct b; reflexivity.
  - cbn [JSON_text]. pose proof (parse_number_print n rest Hr) as Hn.
    destruct (JSON_text_head _ Hp) as (a & s & Heq & Hws & _). simpl in Heq.
    assert (is_digit a || bool_decide (a = "-"%char) = true ∧ a ≠ quote ∧ a ≠ "["%char ∧ a ≠ "{"%char)
      as (Hd & Hq & Hb & Hc).
    { unfold print_Z in Heq. destruct (print_N_head (Z.abs_N n)) as (a' & s' & Heq' & Ha').
      rewrite Heq' in Heq. case_match; rewrite ?str_app_cons in Heq; simplify_eq.
      - done.
      - by destruct a as [[] [] [] [] [] [] [] []]. }
    rewrite Heq, str_app_cons in *. cbn [parse_value]. simpl skip_ws. rewrite Hws.
    rewrite !bool_decide_false by done. by rewrite Hd.
  - cbn [JSON_text]. unfold print_string. rewrite str_app_cons, str_app_assoc, str_app_cons.
    cbn [parse_value]. simpl skip_ws. change (is_ws quote) with false. cbn match.
    change (bool_decide (quote = quote)) with true. cbn match. by rewrite parse_chars_escape.
  - inversion Hp as [| | | |? Hl|]; subst. destruct l as [|v l]; [reflexivity|].
    cbn [JSON_text] in *. str_norm. str_norm_in Hf.
    cbn [String.length] in Hf. rewrite str_length_app in Hf. cbn [String.length] in Hf.
    assert (Forall reads_back (v :: l)) as Hrb.
    { apply Forall_forall. intros x Hx. rewrite Forall_forall in IH, Hl. auto. }
    pose proof (parse_elems_reads l v fuel rest Hrb) as Helems.
    apply Forall_cons in Hl as [Hv _].
    destruct (JSON_text_head _ Hv) as (a & s & Heq & Hws & Hnb & _).
    assert (∃ s', join "," (List.map JSON_text (v :: l)) = String a s') as [s' Hs'].
    { destruct l; cbn [List.map join]; rewrite Heq, ?str_app_cons; eauto. }
    rewrite Hs' in *. rewrite str_app_cons in *. cbn [String.length] in *.
    cbn [parse_value]. simpl skip_ws at 1. change (is_ws "[") with false. cbn match.
    change (bool_decide ("["%char = quote)) with false.
    change (bool_decide ("["%char = "["%char)) with true. cbn match. simpl skip_ws at 1. rewrite Hws.
    rewrite Helems by lia. clear -Hnb. by destruct a as [[] [] [] [] [] [] [] []].
  - inversion Hp as [| | | | |? Hnd Hl]; subst. rewrite JSON_text_obj in * by done.
    destruct fs as [|kv fs]; [reflexivity|].
    str_norm. str_norm_in Hf.
    cbn [String.length] in Hf. rewrite str_length_app in Hf. cbn [String.length] in Hf.
    assert (Forall (λ kv, reads_back (snd kv)) (kv :: fs)) as Hrb.
    { apply Forall_forall. intros x Hx. rewrite Forall_forall in IH, Hl. auto. }
    pose proof (parse_members_reads fs kv [] fuel rest Hrb Hnd) as Hmem.
    assert (∃ s', join "," (print_member <$> kv :: fs) = String quote s') as [s' Hs'].
    { destruct fs; cbn; unfold print_member, print_string; rewrite ?str_app_cons; eauto. }
    rewrite Hs' in *. rewrite str_app_cons in *. cbn [String.length] in *.
    cbn [parse_value]. simpl skip_ws at 1. change (is_ws "{") with false. cbn match.
    change (bool_decide ("{"%char = quote)) with false.
    change (bool_decide ("{"%char = "["%char)) with false.
    change (bool_decide ("{"%char = "{"%char)) with true. cbn match.
    simpl skip_ws at 1. change (is_ws quote) with false. cbn match.
    by rewrite Hmem by lia.
Qed.

Lemma JSON_parse_stringify j : printable j → JSON_parse (JSON_text j) = Ok j.
Proof.
  intros Hp. unfold JSON_parse.
  pose proof (parse_value_reads j Hp (S (String.length (JSON_text j))) "") as Hv.
  rewrite str_app_nil_r in Hv. by rewrite Hv by (done || lia).
Qed.

Lemma printable_obj_set k v fs :
  printable (JObj fs) → printable v → printable (JObj (obj_set k v fs)).
Proof.
  inversion 1 as [| | | | |? Hnd Hfs]; subst. intros Hv.
  assert (∀ k', k' ∈ fst <$> obj_set k v fs ↔ k' = k ∨ k' ∈ fst <$> fs) as Hkeys.
  { intros k'. clear. induction fs as [|[k0 v0] fs IH]; simpl; [set_solver|].
    case_bool_decide; set_solver. }
  constructor.
  - clear -Hnd Hkeys. induction fs as [|[k0 v0] fs IH]; simpl in *.
    { apply NoDup_singleton. }
    apply NoDup_cons in Hnd as [Hk0 Hnd]. case_bool_decide as Hk; simpl.
    + subst. by constructor.
    + assert (∀ k', k' ∈ fst <$> obj_set k v fs ↔ k' = k ∨ k' ∈ fst <$> fs) as Hk'.
      { intros k'. clear. induction fs as [|[k1 v1] fs IH]; simpl; [set_solver|].
        case_bool_decide; set_solver. }
      constructor; [|by apply IH]. rewrite Hk'. intros [->|?]; done.
  - clear -Hfs Hv. induction Hfs as [|[k0 v0] fs Hx Hfs IH]; simpl; [by repeat constructor|].
    case_bool_decide; by constructor.
Qed.

Lemma assoc_obj_set {A} k (v : A) fs k' :
  assoc k' (obj_set k v fs) = if bool_decide (k' = k) then Some v else assoc k' fs.
Proof.
  induction fs as [|[k0 v0] fs IH]; simpl; [done|].
  repeat (case_bool_decide; subst; simpl); try done; by rewrite IH; case_bool_decide.
Qed.
