(* ===== verification/Browser.v ===== *)
(** * What the dashboard keeps in the browser

    [localStorage], the address of the page and the theme, with the functions
    that read and write them: src/dashboard/src/shared/Auth.ts (the token),
    src/dashboard/src/shared/Namespace.ts (the last namespace of every cluster)
    and src/dashboard/src/shared/Config.ts (the theme).

    [jwt.decode] of the package jsonwebtoken is the parameter [jwt_decode]: the
    claims of a token, read as strings, or [None] when it does not decode. *)

From S2P Require Import Prelude.
From S2P Require Import Json.
From S2P Require Import JsonText.

Record browser := mkBrowser {
  localStorage : gmap string string;
  (** The address the last [window.location.assign] went to. *)
  assigned : option string;
  (** The attribute cds-theme of the document's body. *)
  bodyTheme : option string;
  (** [window.matchMedia("(prefers-color-scheme: dark)").matches]; [None] when
      the browser has no [matchMedia]. *)
  prefersDark : option bool;
}.
#[export] Instance eta_browser : Eta browser := λ b,
  mkBrowser (localStorage b) (assigned b) (bodyTheme b) (prefersDark b).

Definition getItem (k : string) (b : browser) : option string := localStorage b !! k.
Definition setItem (k v : string) (b : browser) : browser :=
  b <| localStorage := <[k:=v]> (localStorage b) |>.
Definition removeItem (k : string) (b : browser) : browser :=
  b <| localStorage := delete k (localStorage b) |>.

Class Jwt := { jwt_decode : string → option (gmap string string) }.

(** ** Auth.ts: the token *)

Definition AuthTokenKey : string := "kubeapps_auth_token".
Definition AuthTokenOIDCKey : string := "kubeapps_auth_token_oidc".

Definition getAuthToken (b : browser) : option string := getItem AuthTokenKey b.

Definition bool_toString (x : bool) : string := if x then "true" else "false".

Definition setAuthToken (token : string) (oidc : bool) (b : browser) : browser :=
  let b := setItem AuthTokenOIDCKey (bool_toString oidc) b in
  if truthy token then setItem AuthTokenKey token b else b.

Definition unsetAuthToken (b : browser) : browser := removeItem AuthTokenKey b.

Definition unsetAuthCookie (oauthLogoutURI : string) (b : browser) : browser :=
  (removeItem AuthTokenOIDCKey b) <| assigned := Some (or_str oauthLogoutURI "/oauth2/sign_out") |>.

Definition usingOIDCToken (b : browser) : bool :=
  bool_decide (getItem AuthTokenOIDCKey b = Some "true").

(** The base64 text of a string of bytes. *)
Definition base64_char (n : N) : ascii :=
  ascii_of_N (if n <? 26 then 65 + n else if n <? 52 then 71 + n
              else if n <? 62 then n - 4 else if n =? 62 then 43 else 47)%N.

Fixpoint base64 (s : string) : string :=
  let c := N_of_ascii in
  match s with
  | EmptyString => ""
  | String a EmptyString =>
    String (base64_char (c a / 4)) (String (base64_char (c a mod 4 * 16)) "==")
  | String a (String b EmptyString) =>
    String (base64_char (c a / 4)) (String (base64_char (c a mod 4 * 16 + c b / 16))
      (String (base64_char (c b mod 16 * 4)) "="))
  | String a (String b (String d s')) =>
    String (base64_char (c a / 4)) (String (base64_char (c a mod 4 * 16 + c b / 16))
      (String (base64_char (c b mod 16 * 4 + c d / 64)) (String (base64_char (c d mod 64))
        (base64 s'))))
  end%N.

(** A text as the codes of its characters, when none is beyond Latin-1: such a character has one
    byte or two in the UTF-8 of a text. *)
Fixpoint latin1 (s : string) : option string :=
  match s with
  | EmptyString => Some ""
  | String a s' =>
    if (N_of_ascii a <? 128)%N then String a <$> latin1 s'
    else
      match s' with
      | String c s'' =>
        if ((194 <=? N_of_ascii a) && (N_of_ascii a <=? 195) &&
            (128 <=? N_of_ascii c) && (N_of_ascii c <? 192))%N
        then String (ascii_of_N ((N_of_ascii a - 192) * 64 + (N_of_ascii c - 128))) <$> latin1 s''
        else None
      | EmptyString => None
      end
  end.

(** The text of characters with these codes. *)
Fixpoint of_latin1 (s : string) : string :=
  match s with
  | EmptyString => ""
  | String a s' =>
    if (N_of_ascii a <? 128)%N then String a (of_latin1 s')
    else String (ascii_of_N (192 + N_of_ascii a / 64))
           (String (ascii_of_N (128 + N_of_ascii a mod 64)) (of_latin1 s'))
  end.

Definition beyond_latin1 : js_error :=
  mk_error Error "The string to be encoded contains characters outside of the Latin1 range.".

(** [btoa] throws at a character beyond Latin-1. *)
Definition btoa (s : string) : outcome string :=
  match latin1 s with Some bytes => Ok (base64 bytes) | None => Throws beyond_latin1 end.

(** [s.replace(/=*$/g, "")]. *)
Fixpoint drop_padding (s : string) : string :=
  match s with
  | EmptyString => ""
  | String a s' =>
    if bool_decide (a = "="%char) && bool_decide (drop_padding s' = "") then ""
    else String a (drop_padding s')
  end.

(** The token is in the headers of the requests that accepted it: a text of ASCII characters,
    which [btoa] encodes as it is. *)
Definition wsProtocols (b : browser) : list string :=
  let token := getAuthToken b in
  if negb (truthy_opt token) || usingOIDCToken b then []
  else ["base64url.bearer.authorization.k8s.io." +:+ drop_padding (base64 (default "" token));
        "binary.k8s.io"].

(** The headers of [fetchOptions]: without a token the text of [null] is sent. *)
Definition fetchOptions (b : browser) : list (string * string) :=
  [("Authorization", "Bearer " +:+ default "null" (getAuthToken b))].

(** ** Namespace.ts: the stored namespaces *)

Definition namespaceKey : string := "kubeapps_namespace".

Definition parseStoredNS (b : browser) : json :=
  let ns := or_opt_str (getItem namespaceKey b) "{}" in
  match JSON_parse ns with
  | Ok v => v
  | Throws _ => JObj []
  end.

Section with_libraries.
Context `{Lodash} `{Jwt}.

Definition getStoredNamespace (cluster : string) (b : browser) : json :=
  get (parseStoredNS b) cluster (JStr "").

(** [ns[cluster] = namespace] throws on [null] and on primitive values, and
    leaves the text of an array unchanged. *)
Definition setStoredNamespace (cluster namespace : string) (b : browser) : outcome browser :=
  match parseStoredNS b with
  | JObj fs =>
    Ok (setItem namespaceKey (JSON_text (JObj (obj_set cluster (JStr namespace) fs))) b)
  | JArr l => Ok (setItem namespaceKey (JSON_text (JArr l)) b)
  | _ => Throws (mk_error TypeError ("Cannot create property '" +:+ cluster +:+ "'"))
  end.

Definition unsetStoredNamespace (b : browser) : browser := removeItem namespaceKey b.

Definition defaultNamespaceFromToken (token : string) : string :=
  match jwt_decode token with
  | Some payload =>
    match payload !! "kubernetes.io/serviceaccount/namespace" with
    | Some ns => or_str ns ""
    | None => ""
    end
  | None => ""
  end.

(** [getCurrentNamespace] *)
Definition getCurrentNamespace (b : browser) (cluster currentNS : string)
    (availableNS : list string) : string :=
  if truthy currentNS then currentNS
  else
    let tokenNS := defaultNamespaceFromToken (or_opt_str (getAuthToken b) "") in
    let fallback :=
      if truthy tokenNS && list_includes availableNS tokenNS then tokenNS
      else match availableNS with [] => "" | ns :: _ => ns end in
    match getStoredNamespace cluster b with
    | JStr storedNS =>
      if truthy storedNS && list_includes availableNS storedNS then storedNS else fallback
    | _ => fallback
    end.
End with_libraries.

(** ** Config.ts: the theme *)

Definition SupportedThemes_dark : string := "dark".
Definition SupportedThemes_light : string := "light".

Definition getTheme (b : browser) : string :=
  match getItem "theme" b with
  | Some theme =>
    if truthy theme then theme
    else match prefersDark b with
         | Some true => SupportedThemes_dark
         | _ => SupportedThemes_light
         end
  | None =>
    match prefersDark b with
    | Some true => SupportedThemes_dark
    | _ => SupportedThemes_light
    end
  end.

Definition setTheme (theme : string) (b : browser) : browser :=
  setItem "theme" theme (b <| bodyTheme := Some theme |>).

(** ** Facts *)

Lemma getItem_setItem k v k' b :
  getItem k' (setItem k v b) = if bool_decide (k' = k) then Some v else getItem k' b.
Proof.
  unfold getItem, setItem. simpl. case_bool_decide; subst.
  - by rewrite lookup_insert_eq.
  - by rewrite lookup_insert_ne.
Qed.

Lemma getItem_removeItem k k' b :
  getItem k' (removeItem k b) = if bool_decide (k' = k) then None else getItem k' b.
Proof.
  unfold getItem, removeItem. simpl. case_bool_decide; subst.
  - by rewrite lookup_delete_eq.
  - by rewrite lookup_delete_ne.
Qed.
#[export] Hint Rewrite getItem_setItem getItem_removeItem : js.

Lemma JSON_text_obj_truthy fs : truthy (JSON_text (JObj fs)) = true.
Proof. done. Qed.

Section storage_facts.
Context `{Lodash} `{Jwt}.

(** The stored namespaces, when the item is missing or well formed. *)
Definition stored_ok (b : browser) : Prop :=
  ∃ fs, parseStoredNS b = JObj fs ∧ printable (JObj fs).

Lemma setStoredNamespace_parse cluster namespace b :
  stored_ok b → ∃ b' fs, setStoredNamespace cluster namespace b = Ok b' ∧
    parseStoredNS b = JObj fs ∧ parseStoredNS b' = JObj (obj_set cluster (JStr namespace) fs) ∧
    stored_ok b'.
Proof.
  intros (fs & Hfs & Hp).
  assert (printable (JObj (obj_set cluster (JStr namespace) fs))) as Hp'.
  { apply printable_obj_set; [done|constructor]. }
  unfold setStoredNamespace. rewrite Hfs. eexists _, fs. split; [done|]. split; [done|].
  assert (parseStoredNS (setItem namespaceKey
    (JSON_text (JObj (obj_set cluster (JStr namespace) fs))) b) =
    JObj (obj_set cluster (JStr namespace) fs)) as Hparse.
  { unfold parseStoredNS. rewrite getItem_setItem, bool_decide_true by done.
    unfold or_opt_str, or_str. rewrite JSON_text_obj_truthy. by rewrite JSON_parse_stringify. }
  split; [done|]. by eexists.
Qed.
End storage_facts.
