(* ===== verification/Types.v ===== *)
(** * The data types of src/dashboard/src/shared/types.ts

    One [Record] per interface, fields in the order of the source and named
    [<interface>_<field>]; an optional field is an [option], a number a [Z], a
    string-keyed dictionary a [gmap string], a value of type [any] a [json].
    A required anonymous object nested in an interface is flattened into the
    path of its fields (so [relationships.chart.data] is one field); an
    optional one is a record of its own.  The types of the Helm release come
    from src/dashboard/src/shared/hapi/release.d.ts.

    TypeScript's types are erased: [IPackageManifest] and
    [IClusterServiceVersion] are the interface [IResource] with a more precise
    [status] or [spec], which is why [IResourceOf] takes those as parameters. *)

From S2P Require Import Prelude.
From S2P Require Import Json.

(** ** Charts and repositories *)

Inductive DeploymentEvent := install | upgrade.

Record IRepo := mkIRepo {
  IRepo_namespace : string;
  IRepo_name : string;
  IRepo_url : string;
}.

Record IChartCategory := mkIChartCategory {
  IChartCategory_name : string;
  IChartCategory_count : Z;
}.

Record IMaintainer := mkIMaintainer {
  IMaintainer_name : string;
  IMaintainer_email : option string;
}.

Record IChartAttributes := mkIChartAttributes {
  IChartAttributes_name : string;
  IChartAttributes_description : string;
  IChartAttributes_home : option string;
  IChartAttributes_icon : option string;
  IChartAttributes_keywords : list string;
  IChartAttributes_maintainers : list IMaintainer;
  IChartAttributes_repo : IRepo;
  IChartAttributes_sources : list string;
  IChartAttributes_category : string;
}.

Record IChartVersionAttributes := mkIChartVersionAttributes {
  IChartVersionAttributes_version : string;
  IChartVersionAttributes_app_version : string;
  IChartVersionAttributes_created : string;
}.

Record IChartVersion := mkIChartVersion {
  IChartVersion_id : string;
  IChartVersion_attributes : IChartVersionAttributes;
  IChartVersion_relationships_chart_data : IChartAttributes;
}.

Record IChart := mkIChart {
  IChart_id : string;
  IChart_attributes : IChartAttributes;
  IChart_relationships_latestChartVersion_data : IChartVersionAttributes;
}.

Record IChartListMeta := mkIChartListMeta { IChartListMeta_totalPages : Z }.

Record IReceiveChartsActionPayload := mkIReceiveChartsActionPayload {
  IReceiveChartsActionPayload_items : list IChart;
  IReceiveChartsActionPayload_page : Z;
  IReceiveChartsActionPayload_totalPages : Z;
}.

(** [IChartState["selected"]] and [IChartState["deployed"]]. *)
Record IChartState_selected_t := mkIChartState_selected {
  selected_error : option js_error;
  selected_version : option IChartVersion;
  selected_versions : list IChartVersion;
  selected_readme : option string;
  selected_readmeError : option string;
  selected_values : option string;
  selected_schema : option json;
}.
#[export] Instance eta_IChartState_selected : Eta IChartState_selected_t := λ s,
  mkIChartState_selected (selected_error s) (selected_version s) (selected_versions s)
    (selected_readme s) (selected_readmeError s) (selected_values s) (selected_schema s).

Record IChartState_deployed_t := mkIChartState_deployed {
  deployed_chartVersion : option IChartVersion;
  deployed_values : option string;
  deployed_schema : option json;
}.

Record IChartState := mkIChartState {
  IChartState_isFetching : bool;
  IChartState_hasFinishedFetching : bool;
  IChartState_selected : IChartState_selected_t;
  IChartState_deployed : IChartState_deployed_t;
  IChartState_items : list IChart;
  IChartState_categories : list IChartCategory;
  IChartState_size : Z;
}.
#[export] Instance eta_IChartState : Eta IChartState := λ s,
  mkIChartState (IChartState_isFetching s) (IChartState_hasFinishedFetching s)
    (IChartState_selected s) (IChartState_deployed s) (IChartState_items s)
    (IChartState_categories s) (IChartState_size s).

Record IChartUpdateInfo := mkIChartUpdateInfo {
  IChartUpdateInfo_upToDate : bool;
  IChartUpdateInfo_chartLatestVersion : string;
  IChartUpdateInfo_appLatestVersion : string;
  IChartUpdateInfo_repository : IRepo;
  IChartUpdateInfo_error : option js_error;
}.

(** ** Kubernetes objects *)

Record IResourceOwner := mkIResourceOwner {
  IResourceOwner_apiVersion : string;
  IResourceOwner_blockOwnerDeletion : string;
  IResourceOwner_kind : string;
  IResourceOwner_name : string;
  IResourceOwner_uid : string;
}.

Record IResourceMetadata := mkIResourceMetadata {
  IResourceMetadata_name : string;
  IResourceMetadata_namespace : string;
  IResourceMetadata_annotations : gmap string string;
  IResourceMetadata_ownerReferences : option (list IResourceOwner);
  IResourceMetadata_creationTimestamp : string;
  IResourceMetadata_selfLink : string;
  IResourceMetadata_resourceVersion : string;
  IResourceMetadata_deletionTimestamp : option string;
  IResourceMetadata_uid : string;
}.

Record IResourceOf (SP ST : Type) := mkIResource {
  IResource_apiVersion : string;
  IResource_kind : string;
  IResource_type : string;
  IResource_spec : SP;
  IResource_status : ST;
  IResource_metadata : IResourceMetadata;
}.
Arguments mkIResource {SP ST}.
Arguments IResource_apiVersion {SP ST}.
Arguments IResource_kind {SP ST}.
Arguments IResource_type {SP ST}.
Arguments IResource_spec {SP ST}.
Arguments IResource_status {SP ST}.
Arguments IResource_metadata {SP ST}.

Definition IResource : Type := IResourceOf json json.

Record IOwnerReference := mkIOwnerReference {
  IOwnerReference_apiVersion : string;
  IOwnerReference_blockOwnerDeletion : bool;
  IOwnerReference_kind : string;
  IOwnerReference_name : string;
  IOwnerReference_uid : string;
}.

Record ISecret := mkISecret {
  ISecret_apiVersion : string;
  ISecret_kind : string;
  ISecret_type : string;
  ISecret_data : gmap string string;
  ISecret_metadata : IResourceMetadata;
}.

(** ** Workloads, services and ingresses *)

Record IDeploymentStatus := mkIDeploymentStatus {
  IDeploymentStatus_replicas : Z;
  IDeploymentStatus_updatedReplicas : Z;
  IDeploymentStatus_availableReplicas : Z;
}.

Record IStatefulsetStatus := mkIStatefulsetStatus {
  IStatefulsetStatus_replicas : Z;
  IStatefulsetStatus_updatedReplicas : Z;
  IStatefulsetStatus_readyReplicas : Z;
}.

Record IDaemonsetStatus := mkIDaemonsetStatus {
  IDaemonsetStatus_currentNumberScheduled : Z;
  IDaemonsetStatus_numberReady : Z;
}.

(** ** Releases *)

Record hapi_chart_IMetadata := mkIMetadata {
  IMetadata_name : option string;
  IMetadata_version : option string;
  IMetadata_description : option string;
  IMetadata_icon : option string;
  IMetadata_appVersion : option string;
}.

Record hapi_chart_IChart := mkHapiChart { IChart_metadata : option hapi_chart_IMetadata }.

Record hapi_release_IStatus := mkIStatus {
  IStatus_code : option Z;
  IStatus_notes : option string;
}.

Record hapi_release_IInfo := mkIInfo {
  IInfo_status : option hapi_release_IStatus;
  IInfo_deleted : option json;
  IInfo_Description : option string;
}.

(** [IRelease extends hapi.release.Release]; the hooks and the parsed values of the
    configuration are not read by the modelled code. *)
Record IRelease := mkIRelease {
  IRelease_name : string;
  IRelease_info : option hapi_release_IInfo;
  IRelease_chart : option hapi_chart_IChart;
  IRelease_config_raw : option string;
  IRelease_manifest : string;
  IRelease_version : Z;
  IRelease_namespace : string;
  IRelease_updateInfo : option IChartUpdateInfo;
}.
#[export] Instance eta_IRelease : Eta IRelease := λ r,
  mkIRelease (IRelease_name r) (IRelease_info r) (IRelease_chart r)
    (IRelease_config_raw r) (IRelease_manifest r) (IRelease_version r) (IRelease_namespace r) (IRelease_updateInfo r).

Record IAppOverview := mkIAppOverview {
  IAppOverview_releaseName : string;
  IAppOverview_namespace : string;
  IAppOverview_version : string;
  IAppOverview_icon : option string;
  IAppOverview_status : string;
  IAppOverview_chart : string;
  IAppOverview_chartMetadata : hapi_chart_IMetadata;
  IAppOverview_updateInfo : option IChartUpdateInfo;
}.
#[export] Instance eta_IAppOverview : Eta IAppOverview := λ a,
  mkIAppOverview (IAppOverview_releaseName a) (IAppOverview_namespace a)
    (IAppOverview_version a) (IAppOverview_icon a) (IAppOverview_status a)
    (IAppOverview_chart a) (IAppOverview_chartMetadata a) (IAppOverview_updateInfo a).

Record IAppState := mkIAppState {
  IAppState_isFetching : bool;
  IAppState_error : option js_error;
  IAppState_items : list IRelease;
  IAppState_listOverview : option (list IAppOverview);
  IAppState_selected : option IRelease;
}.
#[export] Instance eta_IAppState : Eta IAppState := λ s,
  mkIAppState (IAppState_isFetching s) (IAppState_error s) (IAppState_items s)
    (IAppState_listOverview s) (IAppState_selected s).

(** ** Operators *)

Inductive InstallModeType := OwnNamespace | SingleNamespace | MultiNamespace | AllNamespaces.
#[export] Instance InstallModeType_eq_dec : EqDecision InstallModeType.
Proof. solve_decision. Defined.

Record IInstallMode := mkIInstallMode {
  IInstallMode_supported : bool;
  IInstallMode_type : InstallModeType;
}.

Record IOwnedCRD := mkIOwnedCRD {
  IOwnedCRD_description : string;
  IOwnedCRD_displayName : string;
  IOwnedCRD_kind : string;
  IOwnedCRD_name : string;
  IOwnedCRD_version : string;
}.

(** The fields the code looks up with a default, or tests, are optional. *)
Record ICSVAnnotations := mkICSVAnnotations {
  ICSVAnnotations_alm_examples : string;
  ICSVAnnotations_capabilities : option string;
  ICSVAnnotations_categories : option string;
  ICSVAnnotations_certified : string;
  ICSVAnnotations_containerImage : option string;
  ICSVAnnotations_createdAt : option string;
  ICSVAnnotations_description : option string;
  ICSVAnnotations_repository : option string;
  ICSVAnnotations_support : string;
}.

Record IPackageManifestChannel := mkIPackageManifestChannel {
  IPackageManifestChannel_name : string;
  IPackageManifestChannel_currentCSV : string;
  IPackageManifestChannel_currentCSVDesc_annotations : ICSVAnnotations;
  IPackageManifestChannel_currentCSVDesc_description : string;
  IPackageManifestChannel_currentCSVDesc_displayName : string;
  IPackageManifestChannel_currentCSVDesc_provider_name : string;
  IPackageManifestChannel_currentCSVDesc_version : string;
  IPackageManifestChannel_currentCSVDesc_installModes : list IInstallMode;
  IPackageManifestChannel_currentCSVDesc_customresourcedefinitions_owned : list IOwnedCRD;
}.

Record IPackageManifestStatus := mkIPackageManifestStatus {
  IPackageManifestStatus_catalogSource : string;
  IPackageManifestStatus_catalogSourceDisplayName : string;
  IPackageManifestStatus_catalogSourceNamespace : string;
  IPackageManifestStatus_catalogSourcePublisher : string;
  IPackageManifestStatus_provider_name : string;
  IPackageManifestStatus_defaultChannel : string;
  IPackageManifestStatus_channels : list IPackageManifestChannel;
}.

Definition IPackageManifest : Type := IResourceOf json IPackageManifestStatus.

Record IClusterServiceVersionCRDResource := mkIClusterServiceVersionCRDResource {
  IClusterServiceVersionCRDResource_kind : string;
  IClusterServiceVersionCRDResource_name : string;
  IClusterServiceVersionCRDResource_version : string;
}.

Record IDescriptor := mkIDescriptor {
  IDescriptor_description : string;
  IDescriptor_displayName : string;
  IDescriptor_path : string;
  IDescriptor_x_descriptors : list string;
}.

Record IClusterServiceVersionCRD := mkIClusterServiceVersionCRD {
  IClusterServiceVersionCRD_description : string;
  IClusterServiceVersionCRD_displayName : string;
  IClusterServiceVersionCRD_kind : string;
  IClusterServiceVersionCRD_name : string;
  IClusterServiceVersionCRD_version : string;
  IClusterServiceVersionCRD_resources : option (list IClusterServiceVersionCRDResource);
  IClusterServiceVersionCRD_specDescriptors : list IDescriptor;
  IClusterServiceVersionCRD_statusDescriptors : list IDescriptor;
}.

Record IIcon := mkIIcon { IIcon_base64data : string; IIcon_mediatype : string }.

Record ICSVLink := mkICSVLink { ICSVLink_name : string; ICSVLink_url : string }.
Record ICSVMaintainer := mkICSVMaintainer {
  ICSVMaintainer_email : string;
  ICSVMaintainer_name : string;
}.

(** [icon] and [customresourcedefinitions] are looked up defensively by the code, so
    they are optional here although the interface declares them. *)
Record IClusterServiceVersionSpec := mkIClusterServiceVersionSpec {
  IClusterServiceVersionSpec_apiservicedefinitions : json;
  IClusterServiceVersionSpec_customresourcedefinitions :
    option (option (list IClusterServiceVersionCRD));
  IClusterServiceVersionSpec_description : string;
  IClusterServiceVersionSpec_displayName : string;
  IClusterServiceVersionSpec_icon : option (list IIcon);
  IClusterServiceVersionSpec_install : json;
  IClusterServiceVersionSpec_installModes : list IInstallMode;
  IClusterServiceVersionSpec_keywords : list string;
  IClusterServiceVersionSpec_labels : json;
  IClusterServiceVersionSpec_links : list ICSVLink;
  IClusterServiceVersionSpec_maintainers : list ICSVMaintainer;
  IClusterServiceVersionSpec_maturity : string;
  IClusterServiceVersionSpec_provider_name : string;
  IClusterServiceVersionSpec_selector : json;
  IClusterServiceVersionSpec_version : string;
}.

Definition IClusterServiceVersion : Type := IResourceOf IClusterServiceVersionSpec json.

(** ** App repositories *)

Record IAppRepositoryFilter := mkIAppRepositoryFilter {
  IAppRepositoryFilter_jq : string;
  (* an object: insertion order matters to [Object.values] *)
  IAppRepositoryFilter_variables : option (list (string * string));
}.
#[export] Instance eta_IAppRepositoryFilter : Eta IAppRepositoryFilter := λ f,
  mkIAppRepositoryFilter (IAppRepositoryFilter_jq f) (IAppRepositoryFilter_variables f).

(** [{ ... } & M]: the metadata every object has, and those of [M]. *)
Record IK8sMetadata (M : Type) := mkIK8sMetadata {
  IK8sMetadata_annotations : option (gmap string string);
  IK8sMetadata_creationTimestamp : option string;
  IK8sMetadata_deletionTimestamp : option string;
  IK8sMetadata_generation : option Z;
  IK8sMetadata_labels : option (gmap string string);
  IK8sMetadata_name : string;
  IK8sMetadata_namespace : string;
  IK8sMetadata_resourceVersion : option string;
  IK8sMetadata_uid : string;
  IK8sMetadata_selfLink : option string;
  IK8sMetadata_ext : M;
}.
Arguments mkIK8sMetadata {M}.
Arguments IK8sMetadata_name {M}.
Arguments IK8sMetadata_namespace {M}.
Arguments IK8sMetadata_uid {M}.

Record IK8sObject (M SP ST : Type) := mkIK8sObject {
  IK8sObject_apiVersion : string;
  IK8sObject_kind : string;
  IK8sObject_metadata : IK8sMetadata M;
  IK8sObject_spec : option SP;
  IK8sObject_status : option ST;
}.
Arguments mkIK8sObject {M SP ST}.
Arguments IK8sObject_metadata {M SP ST}.
Arguments IK8sObject_spec {M SP ST}.

Record IListMeta := mkIListMeta {
  IListMeta_resourceVersion : option string;
  IListMeta_selfLink : option string;
}.

Record IK8sList (I : Type) := mkIK8sList {
  IK8sList_apiVersion : string;
  IK8sList_kind : string;
  IK8sList_items : list I;
  IK8sList_metadata : option IListMeta;
}.
Arguments mkIK8sList {I}.
Arguments IK8sList_items {I}.

Record ISecretKeyRef := mkISecretKeyRef {
  ISecretKeyRef_name : string;
  ISecretKeyRef_key : string;
}.

Record IAppRepositoryAuth := mkIAppRepositoryAuth {
  IAppRepositoryAuth_header_secretKeyRef : option ISecretKeyRef;
  IAppRepositoryAuth_customCA_secretKeyRef : option ISecretKeyRef;
}.

Record IAppRepositoryMetadata := mkIAppRepositoryMetadata {
  IAppRepositoryMetadata_clusterName : string;
  IAppRepositoryMetadata_deletionGracePeriodSeconds : option string;
}.

Record IAppRepositorySpec := mkIAppRepositorySpec {
  IAppRepositorySpec_type : string;
  IAppRepositorySpec_url : string;
  IAppRepositorySpec_description : option string;
  IAppRepositorySpec_auth : option IAppRepositoryAuth;
  IAppRepositorySpec_resyncRequests : Z;
  IAppRepositorySpec_syncJobPodTemplate : option json;
  IAppRepositorySpec_dockerRegistrySecrets : option (list string);
  IAppRepositorySpec_ociRepositories : option (list string);
  IAppRepositorySpec_tlsInsecureSkipVerify : option bool;
  IAppRepositorySpec_filterRule : option IAppRepositoryFilter;
  IAppRepositorySpec_passCredentials : option bool;
}.

Definition IAppRepository : Type := IK8sObject IAppRepositoryMetadata IAppRepositorySpec Empty_set.

Record ICreateAppRepositoryResponse := mkICreateAppRepositoryResponse {
  ICreateAppRepositoryResponse_appRepository : IAppRepository;
}.

Definition IAppRepositoryList : Type := IK8sList IAppRepository.

Record IAppRepositoryKey := mkIAppRepositoryKey {
  IAppRepositoryKey_name : string;
  IAppRepositoryKey_namespace : string;
}.

Record IRBACRole := mkIRBACRole {
  IRBACRole_apiGroup : string;
  IRBACRole_namespace : option string;
  IRBACRole_clusterWide : option bool;
  IRBACRole_resource : string;
  IRBACRole_verbs : list string;
}.

(** ** The cache of Kubernetes objects *)

(** An entry of the cache is an object, a list of objects, or what the spread
    [{ ...x, items }] makes of one of them: the properties of [x] and [items]. *)
Inductive kube_props :=
| PResource (r : IResource)
| PList (apiVersion kind : string) (metadata : option IListMeta)
| PNone.

Record kube_object := mkKubeObject {
  kube_object_props : kube_props;
  kube_object_items : option (list IResource);
}.

Definition KResource (r : IResource) : kube_object := mkKubeObject (PResource r) None.
Definition KList (l : IK8sList IResource) : kube_object :=
  mkKubeObject (PList (IK8sList_apiVersion _ l) (IK8sList_kind _ l) (IK8sList_metadata _ l))
    (Some (IK8sList_items l)).

Record IKubeItem (T : Type) := mkIKubeItem {
  IKubeItem_isFetching : bool;
  IKubeItem_item : option T;
  IKubeItem_error : option js_error;
}.
Arguments mkIKubeItem {T}.
Arguments IKubeItem_isFetching {T}.
Arguments IKubeItem_item {T}.
Arguments IKubeItem_error {T}.

Record IKind := mkIKind {
  IKind_apiVersion : string;
  IKind_plural : string;
  IKind_namespaced : bool;
}.

(** ** The service catalog (ServiceCatalog.ts, ServiceInstance.ts, ServiceBinding.ts,
    ClusterServiceClass.ts) *)

Record ICondition := mkICondition {
  ICondition_type : string;
  ICondition_status : string;
  ICondition_lastTransitionTime : string;
  ICondition_reason : string;
  ICondition_message : string;
}.

Record IServiceBroker := mkIServiceBroker {
  IServiceBroker_metadata_name : string;
  IServiceBroker_metadata_selfLink : string;
  IServiceBroker_metadata_uid : string;
  IServiceBroker_metadata_resourceVersion : string;
  IServiceBroker_metadata_generation : Z;
  IServiceBroker_metadata_creationTimestamp : string;
  IServiceBroker_metadata_finalizers : list string;
  IServiceBroker_spec_url : string;
  IServiceBroker_spec_authInfo : json;
  IServiceBroker_spec_relistBehavior : string;
  IServiceBroker_spec_relistDuration : string;
  IServiceBroker_spec_relistRequests : Z;
  IServiceBroker_status_conditions : list ICondition;
  IServiceBroker_status_reconciledGeneration : Z;
  IServiceBroker_status_lastCatalogRetrievalTime : string;
}.

Record IServicePlan := mkIServicePlan {
  IServicePlan_metadata_name : string;
  IServicePlan_metadata_selfLink : string;
  IServicePlan_metadata_uid : string;
  IServicePlan_metadata_resourceVersion : string;
  IServicePlan_metadata_creationTimestamp : string;
  IServicePlan_spec_clusterServiceBrokerName : string;
  IServicePlan_spec_externalName : string;
  IServicePlan_spec_externalID : string;
  IServicePlan_spec_description : string;
  IServicePlan_spec_externalMetadata : option (string * list string);
  IServicePlan_spec_instanceCreateParameterSchema : option json;
  IServicePlan_spec_serviceBindingCreateParameterSchema : option json;
  IServicePlan_spec_free : bool;
  IServicePlan_spec_clusterServiceClassRef_name : string;
  IServicePlan_status_removedFromBrokerCatalog : bool;
}.

Record IK8sApiSecretResponse := mkIK8sApiSecretResponse {
  IK8sApiSecretResponse_kind : string;
  IK8sApiSecretResponse_apiVersion : string;
  IK8sApiSecretResponse_metadata_selfLink : string;
  IK8sApiSecretResponse_metadata_resourceVersion : string;
  IK8sApiSecretResponse_data : gmap string string;
}.

Record IServiceBinding := mkIServiceBinding {
  IServiceBinding_metadata_name : string;
  IServiceBinding_metadata_selfLink : string;
  IServiceBinding_metadata_uid : string;
  IServiceBinding_metadata_resourceVersion : string;
  IServiceBinding_metadata_creationTimestamp : string;
  IServiceBinding_metadata_finalizers : list string;
  IServiceBinding_metadata_generation : Z;
  IServiceBinding_metadata_namespace : string;
  IServiceBinding_spec_externalID : string;
  IServiceBinding_spec_instanceRef_name : string;
  IServiceBinding_spec_secretName : string;
  IServiceBinding_status_conditions : list ICondition;
  IServiceBinding_status_asyncOpInProgress : bool;
  IServiceBinding_status_currentOperation : string;
  IServiceBinding_status_reconciledGeneration : Z;
  IServiceBinding_status_operationStartTime : string;
  IServiceBinding_status_externalProperties : json;
  IServiceBinding_status_orphanMitigationInProgress : bool;
  IServiceBinding_status_unbindStatus : string;
}.

Record IServiceBindingWithSecret := mkIServiceBindingWithSecret {
  IServiceBindingWithSecret_binding : IServiceBinding;
  IServiceBindingWithSecret_secret : option IK8sApiSecretResponse;
}.

Record IServiceInstance := mkIServiceInstance {
  IServiceInstance_metadata_name : string;
  IServiceInstance_metadata_namespace : string;
  IServiceInstance_metadata_selfLink : string;
  IServiceInstance_metadata_uid : string;
  IServiceInstance_metadata_resourceVersion : string;
  IServiceInstance_metadata_creationTimestamp : string;
  IServiceInstance_metadata_finalizers : list string;
  IServiceInstance_metadata_generation : Z;
  IServiceInstance_spec_clusterServiceClassExternalName : string;
  IServiceInstance_spec_clusterServicePlanExternalName : string;
  IServiceInstance_spec_externalID : string;
  IServiceInstance_spec_clusterServicePlanRef_name : option string;
  IServiceInstance_spec_clusterServiceClassRef_name : option string;
  IServiceInstance_status_conditions : list ICondition;
}.

Record IClusterServiceClass := mkIClusterServiceClass {
  IClusterServiceClass_metadata_creationTimestamp : string;
  IClusterServiceClass_metadata_name : string;
  IClusterServiceClass_metadata_resourceVersion : string;
  IClusterServiceClass_metadata_selfLink : string;
  IClusterServiceClass_metadata_uid : string;
  IClusterServiceClass_spec_bindable : bool;
  IClusterServiceClass_spec_binding_retrievable : bool;
  IClusterServiceClass_spec_clusterServiceBrokerName : string;
  IClusterServiceClass_spec_description : string;
  IClusterServiceClass_spec_externalID : string;
  IClusterServiceClass_spec_externalName : string;
  IClusterServiceClass_spec_planUpdatable : bool;
  IClusterServiceClass_spec_tags : list string;
  IClusterServiceClass_spec_externalMetadata : option json;
  IClusterServiceClass_status_removedFromBrokerCatalog : bool;
}.

(** ** The configuration (src/dashboard/src/shared/Config.ts)

    The interface declares [theme] as required; the file config.json the server
    sends has none (nor an [error]), so both are optional in what is received. *)

Record IConfig := mkIConfig {
  IConfig_kubeappsCluster : string;
  IConfig_kubeappsNamespace : string;
  IConfig_appVersion : string;
  IConfig_authProxyEnabled : bool;
  IConfig_oauthLoginURI : string;
  IConfig_oauthLogoutURI : string;
  IConfig_authProxySkipLoginPage : bool;
  IConfig_error : option js_error;
  IConfig_clusters : list string;
  IConfig_theme : option string;
}.
