(* ===== verification/Url.v ===== *)
(** * The URL builders of src/dashboard/src/shared/url.ts

    [app] are the routes of the single page application, [backend], [kubeops]
    and [api] the endpoints it calls.  The nested object literals become flat
    names: [app.apps.new] is [app_apps_new].  A string is the sequence of its
    UTF-8 bytes, so [encodeURIComponent] escapes byte by byte. *)

From S2P Require Import Prelude.
From S2P Require Import Json.
From S2P Require Import Types.

(** ** [encodeURIComponent] and [decodeURIComponent] *)

Definition byte_of (a : ascii) : N := N_of_ascii a.

(** The characters the escape leaves alone: letters, digits and [-_.!~*'()]. *)
Definition uri_unreserved (a : ascii) : bool :=
  let n := byte_of a in
  ((48 <=? n) && (n <=? 57) || (65 <=? n) && (n <=? 90) || (97 <=? n) && (n <=? 122))%N
  || bool_decide (a ∈ ["-"; "_"; "."; "!"; "~"; "*"; "'"; "("; ")"]%char).

Definition hex_digit (n : N) : ascii :=
  ascii_of_N (if (n <? 10)%N then 48 + n else 55 + n).

Definition hex_value (a : ascii) : option N :=
  let n := byte_of a in
  if ((48 <=? n) && (n <=? 57))%N then Some (n - 48)%N
  else if ((65 <=? n) && (n <=? 70))%N then Some (n - 55)%N
  else if ((97 <=? n) && (n <=? 102))%N then Some (n - 87)%N
  else None.

Fixpoint encodeURIComponent (s : string) : string :=
  match s with
  | EmptyString => ""
  | String a s' =>
    if uri_unreserved a then String a (encodeURIComponent s')
    else String "%" (String (hex_digit (byte_of a / 16)) (String (hex_digit (byte_of a mod 16))
           (encodeURIComponent s')))
  end.

(** The ranges of the bytes that may follow a lead byte of UTF-8. *)
Definition utf8_tail (b : N) : option (list (N * N)) :=
  (if (b <? 128) then Some []
   else if (194 <=? b) && (b <=? 223) then Some [(128, 191)]
   else if b =? 224 then Some [(160, 191); (128, 191)]
   else if b =? 237 then Some [(128, 159); (128, 191)]
   else if (225 <=? b) && (b <=? 239) then Some [(128, 191); (128, 191)]
   else if b =? 240 then Some [(144, 191); (128, 191); (128, 191)]
   else if (241 <=? b) && (b <=? 243) then Some [(128, 191); (128, 191); (128, 191)]
   else if b =? 244 then Some [(128, 143); (128, 191); (128, 191)]
   else None)%N.

(** What may follow byte [b] when [pend] was still expected. *)
Definition utf8_next (pend : list (N * N)) (b : N) : option (list (N * N)) :=
  match pend with
  | [] => utf8_tail b
  | (lo, hi) :: pend' => if ((lo <=? b) && (b <=? hi))%N then Some pend' else None
  end.

Fixpoint valid_utf8_from (pend : list (N * N)) (s : string) : bool :=
  match s with
  | EmptyString => bool_decide (pend = [])
  | String a s' =>
    match utf8_next pend (byte_of a) with
    | Some pend' => valid_utf8_from pend' s'
    | None => false
    end
  end.
Definition valid_utf8 : string → bool := valid_utf8_from [].

Definition uri_malformed : js_error := mk_error URIError "URI malformed".

(** The escapes of one character are contiguous, and the bytes they denote are
    well-formed UTF-8; anything else throws a [URIError]. *)
Fixpoint decode_from (pend : list (N * N)) (s : string) : outcome string :=
  match s with
  | EmptyString => if bool_decide (pend = []) then Ok "" else Throws uri_malformed
  | String a s' =>
    if bool_decide (a = "%"%char) then
      match s' with
      | String h (String l rest) =>
        match hex_value h, hex_value l with
        | Some hv, Some lv =>
          match utf8_next pend (16 * hv + lv) with
          | Some pend' =>
            String (ascii_of_N (16 * hv + lv)) <$> decode_from pend' rest
          | None => Throws uri_malformed
          end
        | _, _ => Throws uri_malformed
        end
      | _ => Throws uri_malformed
      end
    else if bool_decide (pend = []) then String a <$> decode_from [] s'
    else Throws uri_malformed
  end.
Definition decodeURIComponent : string → outcome string := decode_from [].

(** ** The routes of the application *)

Definition app_apps_list (cluster namespace : string) : string :=
  "/c/" +:+ cluster +:+ "/ns/" +:+ namespace +:+ "/apps".

Definition app_apps_get (cluster namespace releaseName : string) : string :=
  app_apps_list cluster namespace +:+ "/" +:+ releaseName.

Definition app_apps_upgrade (cluster namespace releaseName : string) : string :=
  app_apps_get cluster namespace releaseName +:+ "/upgrade".

Definition app_apps_new (cluster namespace : string) (cv : IChartVersion)
    (version globalNamespace : string) : string :=
  let chart := IChartVersion_relationships_chart_data cv in
  let repoNamespace := IRepo_namespace (IChartAttributes_repo chart) in
  let newSegment :=
    if bool_decide (globalNamespace ≠ repoNamespace) then "new" else "new-from-global" in
  "/c/" +:+ cluster +:+ "/ns/" +:+ namespace +:+ "/apps/" +:+ newSegment +:+ "/" +:+
  IRepo_name (IChartAttributes_repo chart) +:+ "/" +:+
  encodeURIComponent (IChartAttributes_name chart) +:+ "/versions/" +:+ version.

Definition app_catalog (cluster namespace : string) : string :=
  "/c/" +:+ cluster +:+ "/ns/" +:+ namespace +:+ "/catalog".

Definition app_repo (cluster namespace repo : string) : string :=
  app_catalog cluster namespace +:+ "/" +:+ repo.

Definition app_servicesInstances (namespace : string) : string :=
  "/ns/" +:+ namespace +:+ "/services/instances".

Definition app_charts_get (cluster namespace chartName : string) (repo : IRepo)
    (globalNamespace : string) : string :=
  let chartsSegment :=
    if bool_decide (globalNamespace = IRepo_namespace repo) then "global-charts" else "charts" in
  "/c/" +:+ cluster +:+ "/ns/" +:+ namespace +:+ "/" +:+ chartsSegment +:+ "/" +:+
  IRepo_name repo +:+ "/" +:+ encodeURIComponent chartName.

Definition app_operators_view (cluster namespace name : string) : string :=
  "/c/" +:+ cluster +:+ "/ns/" +:+ namespace +:+ "/operators/" +:+ name.

Definition app_operators_list (cluster namespace : string) : string :=
  "/c/" +:+ cluster +:+ "/ns/" +:+ namespace +:+ "/operators".

Definition app_operators_new (cluster namespace name : string) : string :=
  "/c/" +:+ cluster +:+ "/ns/" +:+ namespace +:+ "/operators/new/" +:+ name.

Definition app_operatorInstances_view
    (cluster namespace csvName crdName resourceName : string) : string :=
  "/c/" +:+ cluster +:+ "/ns/" +:+ namespace +:+ "/operators-instances/" +:+ csvName +:+ "/" +:+
  crdName +:+ "/" +:+ resourceName.

Definition app_operatorInstances_update
    (cluster namespace csvName crdName instanceName : string) : string :=
  "/c/" +:+ cluster +:+ "/ns/" +:+ namespace +:+ "/operators-instances/" +:+ csvName +:+ "/" +:+
  crdName +:+ "/" +:+ instanceName +:+ "/update".

Definition app_operatorInstances_new (cluster namespace csvName crdName : string) : string :=
  "/c/" +:+ cluster +:+ "/ns/" +:+ namespace +:+ "/operators-instances/new/" +:+ csvName +:+ "/" +:+
  crdName.

Definition app_config_apprepositories (cluster namespace : string) : string :=
  "/c/" +:+ cluster +:+ "/ns/" +:+ namespace +:+ "/config/repos".

Definition app_config_brokers (cluster : string) : string :=
  "/c/" +:+ cluster +:+ "/config/brokers".

Definition app_config_operators (cluster namespace : string) : string :=
  "/c/" +:+ cluster +:+ "/ns/" +:+ namespace +:+ "/operators".

(** ** The Kubeapps backend *)

Definition withNS (namespace : string) : string :=
  if truthy namespace then "namespaces/" +:+ namespace +:+ "/" else "".

Definition backend_namespaces_list (cluster : string) : string :=
  "api/v1/clusters/" +:+ cluster +:+ "/namespaces".

Definition backend_apprepositories_base (cluster namespace : string) : string :=
  "api/v1/clusters/" +:+ cluster +:+ "/" +:+ withNS namespace +:+ "apprepositories".
Definition backend_apprepositories_create := backend_apprepositories_base.
Definition backend_apprepositories_list := backend_apprepositories_base.
Definition backend_apprepositories_validate (cluster namespace : string) : string :=
  backend_apprepositories_base cluster namespace +:+ "/validate".
Definition backend_apprepositories_delete (cluster namespace name : string) : string :=
  backend_apprepositories_base cluster namespace +:+ "/" +:+ name.
Definition backend_apprepositories_refresh (cluster namespace name : string) : string :=
  backend_apprepositories_base cluster namespace +:+ "/" +:+ name +:+ "/refresh".
Definition backend_apprepositories_update (cluster namespace name : string) : string :=
  backend_apprepositories_base cluster namespace +:+ "/" +:+ name.

Definition backend_canI (cluster : string) : string :=
  "api/v1/clusters/" +:+ cluster +:+ "/can-i".

Definition kubeops_releases_list (cluster namespace : string) : string :=
  "api/kubeops/v1/clusters/" +:+ cluster +:+ "/namespaces/" +:+ namespace +:+ "/releases".
Definition kubeops_releases_listAll (cluster : string) : string :=
  "api/kubeops/v1/clusters/" +:+ cluster +:+ "/releases".
Definition kubeops_releases_get (cluster namespace name : string) : string :=
  kubeops_releases_list cluster namespace +:+ "/" +:+ name.

(** ** The assets service *)

Definition api_charts_base (cluster namespace : string) : string :=
  "api/assetsvc/v1/clusters/" +:+ cluster +:+ "/namespaces/" +:+ namespace.
Definition api_charts_get (cluster namespace id : string) : string :=
  api_charts_base cluster namespace +:+ "/charts/" +:+ id.
Definition api_charts_getVersion (cluster namespace id version : string) : string :=
  api_charts_get cluster namespace id +:+ "/versions/" +:+ encodeURIComponent version.
Definition api_charts_list (cluster namespace repos : string) (page size : Z)
    (query : option string) : string :=
  api_charts_base cluster namespace +:+ "/charts?page=" +:+ print_Z page +:+ "&size=" +:+
  print_Z size +:+
  (if truthy_opt query then "&q=" +:+ default "" query else "") +:+
  (if truthy repos then "&repos=" +:+ repos else "").
Definition api_charts_getChartCategories (cluster namespace : string) : string :=
  api_charts_base cluster namespace +:+ "/charts/categories".
Definition api_charts_listVersions (cluster namespace id : string) : string :=
  api_charts_get cluster namespace id +:+ "/versions".
Definition api_charts_getReadme (cluster namespace id version : string) : string :=
  api_charts_base cluster namespace +:+ "/assets/" +:+ id +:+ "/versions/" +:+
  encodeURIComponent version +:+ "/README.md".
Definition api_charts_getValues (cluster namespace id version : string) : string :=
  api_charts_base cluster namespace +:+ "/assets/" +:+ id +:+ "/versions/" +:+
  encodeURIComponent version +:+ "/values.yaml".
Definition api_charts_getSchema (cluster namespace id version : string) : string :=
  api_charts_base cluster namespace +:+ "/assets/" +:+ id +:+ "/versions/" +:+
  encodeURIComponent version +:+ "/values.schema.json".

(** ** The Kubernetes API server *)

Definition api_k8s_base (cluster : string) : string := "api/clusters/" +:+ cluster.
Definition api_k8s_namespaces (cluster : string) : string :=
  api_k8s_base cluster +:+ "/api/v1/namespaces".
Definition api_k8s_namespace (cluster namespace : string) : string :=
  if truthy namespace then api_k8s_namespaces cluster +:+ "/" +:+ namespace
  else api_k8s_base cluster +:+ "/api/v1".
Definition api_k8s_clusterservicebrokers_sync (cluster : string) (broker : IServiceBroker) : string :=
  api_k8s_base cluster +:+ "/apis/servicecatalog.k8s.io/v1beta1/clusterservicebrokers/" +:+
  IServiceBroker_metadata_name broker.

Definition api_k8s_operators_operators (cluster namespace : string) : string :=
  api_k8s_base cluster +:+ "/apis/packages.operators.coreos.com/v1/" +:+ withNS namespace +:+
  "packagemanifests".
Definition api_k8s_operators_operator (cluster namespace name : string) : string :=
  api_k8s_base cluster +:+ "/apis/packages.operators.coreos.com/v1/namespaces/" +:+ namespace +:+
  "/packagemanifests/" +:+ name.
Definition api_k8s_operators_clusterServiceVersions (cluster namespace : string) : string :=
  api_k8s_base cluster +:+ "/apis/operators.coreos.com/v1alpha1/" +:+ withNS namespace +:+
  "clusterserviceversions".
Definition api_k8s_operators_clusterServiceVersion (cluster namespace name : string) : string :=
  api_k8s_base cluster +:+ "/apis/operators.coreos.com/v1alpha1/namespaces/" +:+ namespace +:+
  "/clusterserviceversions/" +:+ name.
Definition api_k8s_operators_resources (cluster namespace apiVersion resource : string) : string :=
  api_k8s_base cluster +:+ "/apis/" +:+ apiVersion +:+ "/" +:+ withNS namespace +:+ resource.
Definition api_k8s_operators_resource (cluster namespace apiVersion resource name : string) : string :=
  api_k8s_base cluster +:+ "/apis/" +:+ apiVersion +:+ "/namespaces/" +:+ namespace +:+ "/" +:+
  resource +:+ "/" +:+ name.
Definition api_k8s_operators_operatorGroups (cluster namespace : string) : string :=
  api_k8s_base cluster +:+ "/apis/operators.coreos.com/v1/namespaces/" +:+ namespace +:+
  "/operatorgroups".
Definition api_k8s_operators_subscriptions (cluster namespace : string) : string :=
  api_k8s_base cluster +:+ "/apis/operators.coreos.com/v1alpha1/namespaces/" +:+ namespace +:+
  "/subscriptions".
Definition api_k8s_operators_subscription (cluster namespace name : string) : string :=
  api_k8s_base cluster +:+ "/apis/operators.coreos.com/v1alpha1/namespaces/" +:+ namespace +:+
  "/subscriptions/" +:+ name.

Definition api_k8s_secrets (cluster namespace : string) (fieldSelector : option string) : string :=
  api_k8s_namespace cluster namespace +:+ "/secrets" +:+
  (if truthy_opt fieldSelector
   then "?fieldSelector=" +:+ encodeURIComponent (default "" fieldSelector) else "").
Definition api_k8s_secret (cluster namespace name : string) : string :=
  api_k8s_secrets cluster namespace None +:+ "/" +:+ name.

Definition api_operators_operatorIcon (cluster namespace name : string) : string :=
  "api/v1/clusters/" +:+ cluster +:+ "/namespaces/" +:+ namespace +:+ "/operator/" +:+ name +:+
  "/logo".

(** ** Escaping round trip *)

Lemma unreserved_plain : ∀ a, uri_unreserved a →
  a ≠ "%"%char ∧ utf8_tail (byte_of a) = Some [].
Proof.
  assert (∀ a, implb (uri_unreserved a)
    (bool_decide (a ≠ "%"%char ∧ utf8_tail (byte_of a) = Some []))) as H by check_bytes.
  intros a Ha. specialize (H a). destruct (uri_unreserved a); [|done].
  by apply bool_decide_unpack in H.
Qed.

Lemma escape_digits : ∀ a,
  hex_value (hex_digit (byte_of a / 16)) = Some (byte_of a / 16)%N ∧
  hex_value (hex_digit (byte_of a mod 16)) = Some (byte_of a mod 16)%N.
Proof.
  assert (∀ a, bool_decide
    (hex_value (hex_digit (byte_of a / 16)) = Some (byte_of a / 16)%N ∧
     hex_value (hex_digit (byte_of a mod 16)) = Some (byte_of a mod 16)%N)) as H by check_bytes.
  intros a. apply (bool_decide_unpack _ (H a)).
Qed.

Lemma utf8_next_plain pend b :
  utf8_tail b = Some [] → is_Some (utf8_next pend b) → Forall (λ r, 128 ≤ r.1)%N pend →
  pend = [].
Proof.
  intros Hb [p Hp] Hr. destruct pend as [|[lo hi] pend]; [done|]. simpl in Hp.
  apply Forall_cons in Hr as [Hlo _]. simpl in Hlo.
  assert (b < 128)%N as Hlt.
  { unfold utf8_tail in Hb. destruct (N.ltb_spec b 128); [done|].
    repeat (case_match; simplify_eq). }
  destruct (N.leb_spec lo b); simpl in Hp; [lia|done].
Qed.

Lemma utf8_next_ranges pend b pend' :
  utf8_next pend b = Some pend' → Forall (λ r, 128 ≤ r.1)%N pend →
  Forall (λ r, 128 ≤ r.1)%N pend'.
Proof.
  destruct pend as [|[lo hi] pend]; simpl.
  - intros H _. unfold utf8_tail in H. repeat (case_match; simplify_eq); repeat constructor; simpl; lia.
  - case_match; [|done]. intros [= ->] Hr. by apply Forall_cons in Hr as [_ Hr].
Qed.

Lemma decode_encode_from pend s :
  Forall (λ r, 128 ≤ r.1)%N pend → valid_utf8_from pend s →
  decode_from pend (encodeURIComponent s) = Ok s.
Proof.
  revert pend; induction s as [|a s IH]; intros pend Hr Hv; simpl in *.
  { by case_bool_decide. }
  destruct (utf8_next pend (byte_of a)) as [pend'|] eqn:Hnext; [|done].
  pose proof (utf8_next_ranges _ _ _ Hnext Hr) as Hr'.
  destruct (uri_unreserved a) eqn:Hu; simpl.
  - apply Is_true_true, unreserved_plain in Hu as [Hpct Hascii].
    assert (pend = []) as -> by (eapply utf8_next_plain; eauto).
    simpl in Hnext. rewrite Hascii in Hnext. simplify_eq.
    rewrite bool_decide_false, bool_decide_true by done. by rewrite IH.
  - destruct (escape_digits a) as [Hh Hl]. rewrite Hh, Hl.
    rewrite <-(N.div_mod' (byte_of a) 16), Hnext, IH by done. simpl.
    unfold byte_of. by rewrite ascii_N_embedding.
Qed.

(** ** An escaped text is one segment of a path *)

Lemma encodeURIComponent_lacks_slash s : lacks "/" (encodeURIComponent s).
Proof.
  assert (∀ a, negb (uri_unreserved a && bool_decide (a = "/"%char))
      && (negb (bool_decide (hex_digit (byte_of a / 16) = "/"%char))
          && negb (bool_decide (hex_digit (byte_of a mod 16) = "/"%char)))) as Hbyte by check_bytes.
  unfold lacks. induction s as [|a s IH]; [done|]. cbn [encodeURIComponent].
  specialize (Hbyte a). apply andb_True in Hbyte as [Ha [H1 H2]%andb_True].
  destruct (uri_unreserved a); cbn [str_all].
  - by rewrite andb_True.
  - by rewrite !andb_True.
Qed.

Lemma encodeURIComponent_truthy s : truthy s → truthy (encodeURIComponent s).
Proof. destruct s as [|a s]; [done|]. simpl. by case_match. Qed.
