(* ===== verification/KubeRef.v ===== *)
(** * References to Kubernetes resources

    The URLs of src/dashboard/src/shared/Kube.ts and the class of
    src/dashboard/src/shared/ResourceRef.ts.  The URL of a reference is also
    its key in the cache of the store, so it must tell references apart:
    [getResourceURL_inj]. *)

From S2P Require Import Prelude.
From S2P Require Import Json.
From S2P Require Import Types.
From S2P Require Import Url.

(** [window.location]. *)
Class Location := { loc_protocol : string; loc_host : string; loc_pathname : string }.

Definition APIBase (cluster : string) : string := "api/clusters/" +:+ cluster.

Section Kube.
Context `{Location}.

Definition WebSocketAPIBase : string :=
  if bool_decide (loc_protocol = "https:") then "wss://" +:+ loc_host +:+ loc_pathname
  else "ws://" +:+ loc_host +:+ loc_pathname.

Definition Kube_getResourceURL (cluster apiVersion resource : string) (namespaced : bool)
    (namespace name query : option string) : string :=
  let u := api_k8s_base cluster +:+ "/" +:+
    (if bool_decide (apiVersion = "v1") || negb (truthy apiVersion) then "api/v1"
     else "apis/" +:+ apiVersion) in
  let u := if namespaced && truthy_opt namespace
           then u +:+ "/namespaces/" +:+ default "" namespace else u in
  let u := u +:+ "/" +:+ resource in
  let u := if truthy_opt name then u +:+ "/" +:+ default "" name else u in
  if truthy_opt query then u +:+ "?" +:+ default "" query else u.

Definition Kube_watchResourceURL (cluster apiVersion resource : string) (namespaced : bool)
    (namespace name query : option string) : string :=
  let u := Kube_getResourceURL cluster apiVersion resource namespaced namespace None None in
  let u := WebSocketAPIBase +:+ u +:+ "?watch=true" in
  let u := if truthy_opt name then u +:+ "&fieldSelector=metadata.name%3D" +:+ default "" name
           else u in
  if truthy_opt query then u +:+ "&" +:+ default "" query else u.
End Kube.

(** A reference; [filter] is the pattern the items of a list must match. *)
Record ResourceRef := mkResourceRef {
  ref_cluster : string;
  ref_apiVersion : string;
  ref_kind : string;
  ref_plural : string;
  ref_namespaced : bool;
  ref_name : option string;
  ref_namespace : string;
  ref_filter : option json;
}.

#[export] Instance ResourceRef_eq_dec : EqDecision ResourceRef.
Proof. solve_decision. Defined.

(** The constructor, on the four fields it reads of the resource. *)
Definition ResourceRef_new (apiVersion kind : string) (name namespace : option string)
    (cluster plural : string) (namespaced : bool) (defaultNamespace : option string) : ResourceRef :=
  {| ref_cluster := cluster;
     ref_plural := plural;
     ref_apiVersion := apiVersion;
     ref_kind := kind;
     ref_name := name;
     ref_namespace :=
       if namespaced then or_opt_str namespace (or_opt_str defaultNamespace "") else "";
     ref_namespaced := namespaced;
     ref_filter := None |}.

Definition ResourceRef_fromCRD (r : IClusterServiceVersionCRDResource) (kind : IKind)
    (cluster namespace : string) (ownerReference : json) : ResourceRef :=
  let ref := ResourceRef_new (IKind_apiVersion kind) (IClusterServiceVersionCRDResource_kind r)
    None None cluster (IKind_plural kind) (IKind_namespaced kind) (Some namespace) in
  {| ref_cluster := ref_cluster ref; ref_apiVersion := ref_apiVersion ref;
     ref_kind := ref_kind ref; ref_plural := ref_plural ref;
     ref_namespaced := ref_namespaced ref; ref_name := ref_name ref;
     ref_namespace := ref_namespace ref;
     ref_filter := Some (JObj [("metadata", JObj [("ownerReferences", JArr [ownerReference])])]) |}.

Definition getResourceURL (ref : ResourceRef) : string :=
  Kube_getResourceURL (ref_cluster ref) (ref_apiVersion ref) (ref_plural ref)
    (ref_namespaced ref) (Some (ref_namespace ref)) (ref_name ref) None.

Definition watchResourceURL `{Location} (ref : ResourceRef) : string :=
  Kube_watchResourceURL (ref_cluster ref) (ref_apiVersion ref) (ref_plural ref)
    (ref_namespaced ref) (Some (ref_namespace ref)) (ref_name ref) None.

(** ** The URL of a reference determines it *)

Abbreviation slash := "/"%char.

(** The version of an API: [v1], or a group and a version. *)
Definition api_segments (apiVersion : string) : list string :=
  if bool_decide (apiVersion = "v1") || negb (truthy apiVersion) then ["api"; "v1"]
  else "apis" :: split_on slash apiVersion.

Definition name_segment (name : option string) : list string :=
  if truthy_opt name then [default "" name] else [].

Definition ref_segments (ref : ResourceRef) : list string :=
  ["api"; "clusters"; ref_cluster ref] ++ api_segments (ref_apiVersion ref) ++
  (if ref_namespaced ref && truthy (ref_namespace ref)
   then ["namespaces"; ref_namespace ref] else []) ++
  ref_plural ref :: name_segment (ref_name ref).

(** What the Kubernetes API guarantees of the parts of a reference: no slash in
    a name, a group and a version in the version of an API that is not [v1], a
    namespace for a namespaced resource and none for the others. *)
Record valid_ref (ref : ResourceRef) : Prop := {
  valid_cluster : lacks slash (ref_cluster ref);
  valid_namespace : lacks slash (ref_namespace ref);
  valid_plural : lacks slash (ref_plural ref);
  valid_name : lacks slash (default "" (ref_name ref));
  valid_name_some : ref_name ref ≠ Some "";
  valid_namespaced : ref_namespaced ref = truthy (ref_namespace ref);
  valid_api : ref_apiVersion ref = "v1" ∨
    ∃ g v, ref_apiVersion ref = g +:+ String slash v ∧ lacks slash g ∧ lacks slash v;
}.

Lemma join_cons_app sep w l : l ≠ [] → join sep (w :: l) = w +:+ sep +:+ join sep l.
Proof. by destruct l. Qed.

Lemma join_app sep l k : l ≠ [] → k ≠ [] → join sep (l ++ k) = join sep l +:+ sep +:+ join sep k.
Proof.
  intros Hl Hk. induction l as [|w l IH]; [done|].
  destruct l as [|w' l].
  - change ([w] ++ k) with (w :: k). by rewrite join_cons_app.
  - change ((w :: w' :: l) ++ k) with (w :: ((w' :: l) ++ k)).
    rewrite join_cons_app, IH, (join_cons_app _ w (w' :: l)) by done.
    by rewrite !str_app_assoc.
Qed.

Lemma join_api_segments v :
  join "/" (api_segments v) =
  if bool_decide (v = "v1") || negb (truthy v) then "api/v1" else "apis/" +:+ v.
Proof.
  unfold api_segments. destruct (_ || _); [done|].
  rewrite join_cons_app by apply split_on_nonempty. by rewrite join_split.
Qed.

Lemma getResourceURL_segments ref : getResourceURL ref = join "/" (ref_segments ref).
Proof.
  unfold getResourceURL, Kube_getResourceURL, ref_segments, api_k8s_base, name_segment.
  assert (api_segments (ref_apiVersion ref) ≠ []) as Hapi by (unfold api_segments; by case_match).
  rewrite join_app by (done || by destruct (api_segments _)).
  rewrite join_app by (done || by destruct (_ && _)).
  rewrite join_api_segments. generalize (if bool_decide (ref_apiVersion ref = "v1") || negb (truthy (ref_apiVersion ref))
    then "api/v1" else "apis/" +:+ ref_apiVersion ref) as api. intros api.
  change (truthy_opt (Some ?x)) with (truthy x). cbn [default from_option].
  destruct (ref_namespaced ref && truthy (ref_namespace ref)), (truthy_opt (ref_name ref));
    cbn; by str_norm.
Qed.

Lemma ref_segments_lack ref :
  valid_ref ref → Forall (λ w, Is_true (lacks slash w)) (ref_segments ref).
Proof.
  intros [Hc Hns Hp Hn _ _ Hapi]. unfold ref_segments, name_segment.
  repeat apply Forall_app_2; repeat (constructor; [done|]); try constructor.
  - unfold api_segments. destruct Hapi as [->|(g & v & -> & Hg & Hv)]; [by repeat constructor|].
    case_match; [by repeat constructor|]. constructor; [done|].
    rewrite split_on_app_sep, split_on_lacks by done. by repeat constructor.
  - case_match; by repeat constructor.
  - case_match; by repeat constructor.
Qed.

Lemma api_segments_inj ref1 ref2 l1 l2 :
  valid_ref ref1 → valid_ref ref2 →
  api_segments (ref_apiVersion ref1) ++ l1 = api_segments (ref_apiVersion ref2) ++ l2 →
  ref_apiVersion ref1 = ref_apiVersion ref2 ∧ l1 = l2.
Proof.
  intros H1 H2. unfold api_segments.
  assert (∀ g v, bool_decide (g +:+ String slash v = "v1") || negb (truthy (g +:+ String slash v))
    = true → False) as Hslash.
  { intros g v. rewrite orb_true_iff, bool_decide_eq_true, negb_true_iff. intros [Heq|Ht].
    - destruct g as [|a [|b g]]; rewrite ?str_app_cons, ?str_app_nil_l in Heq; try discriminate Heq.
      injection Heq as ? Heq. destruct g; discriminate.
    - unfold truthy in Ht. apply bool_decide_eq_false in Ht. apply dec_stable in Ht.
      by destruct g. }
  destruct (valid_api _ H1) as [->|(g1 & v1 & -> & Hg1 & Hv1)],
    (valid_api _ H2) as [->|(g2 & v2 & -> & Hg2 & Hv2)]; simpl.
  - by intros [= ->].
  - destruct (_ || _) eqn:E; [by apply Hslash in E|]. discriminate.
  - destruct (_ || _) eqn:E; [by apply Hslash in E|]. discriminate.
  - destruct (_ || _) eqn:E1; [by apply Hslash in E1|].
    destruct (bool_decide (g2 +:+ _ = _) || _) eqn:E2; [by apply Hslash in E2|].
    rewrite !split_on_app_sep, !split_on_lacks by done. simpl. by intros [= -> -> ->].
Qed.

Lemma name_segment_inj n1 n2 :
  n1 ≠ Some "" → n2 ≠ Some "" → name_segment n1 = name_segment n2 → n1 = n2.
Proof.
  unfold name_segment. destruct n1 as [x|], n2 as [y|]; simpl; intros Hx Hy; unfold truthy;
    rewrite ?bool_decide_true by congruence; congruence.
Qed.

(** The address of a valid reference determines all of it but the kind and the filter: two
    references kept under the same key of the cache name the same resource of the same
    cluster. *)
Theorem getResourceURL_inj ref1 ref2 :
  valid_ref ref1 → valid_ref ref2 → getResourceURL ref1 = getResourceURL ref2 →
  ref_cluster ref1 = ref_cluster ref2 ∧ ref_apiVersion ref1 = ref_apiVersion ref2 ∧
  ref_plural ref1 = ref_plural ref2 ∧ ref_namespaced ref1 = ref_namespaced ref2 ∧
  ref_namespace ref1 = ref_namespace ref2 ∧ ref_name ref1 = ref_name ref2.
Proof.
  intros H1 H2 Heq. rewrite !getResourceURL_segments in Heq.
  apply (f_equal (split_on slash)) in Heq.
  rewrite !split_join in Heq by (done || by apply ref_segments_lack).
  unfold ref_segments in Heq. simpl in Heq. injection Heq as Hc Heq.
  apply api_segments_inj in Heq as [Hv Heq]; [|done..].
  rewrite (valid_namespaced _ H1), (valid_namespaced _ H2) in *.
  assert (∀ n, name_segment n = [] ∨ ∃ x, name_segment n = [x]) as Hshape.
  { intros n. unfold name_segment. destruct (truthy_opt n); [right; by eexists|by left]. }
  pose proof (Hshape (ref_name ref1)) as Hs1. pose proof (Hshape (ref_name ref2)) as Hs2.
  pose proof (name_segment_inj _ _ (valid_name_some _ H1) (valid_name_some _ H2)) as Hname.
  destruct (truthy (ref_namespace ref1)) eqn:E1, (truthy (ref_namespace ref2)) eqn:E2; simpl in Heq.
  - injection Heq as Hns Hp Hn. auto 10.
  - injection Heq as Hp Hn. destruct Hs2 as [Hs2|[? Hs2]]; rewrite Hs2 in Hn; simplify_eq.
  - injection Heq as Hp Hn. destruct Hs1 as [Hs1|[? Hs1]]; rewrite Hs1 in Hn; simplify_eq.
  - injection Heq as Hp Hn. unfold truthy in E1, E2.
    apply bool_decide_eq_false, dec_stable in E1, E2. rewrite E1, E2. auto 10.
Qed.
