(* ===== verification/Actions.v ===== *)
(** * The actions of the store

    The action creators of src/dashboard/src/actions/*.ts.  Each union of a file
    ([AppsAction], [ChartsAction], ...) is an inductive type with one constructor
    per creator that takes the payload; [action] is everything a reducer may be
    given, [LOCATION_CHANGE] of connected-react-router included.

    Redux tells actions apart by their type strings, the reducers of the model by
    constructors.  [action_type] is the string of each, so that the two views can
    be compared: the reducers may match on constructors because actions of
    different constructors have different strings, but for three pairs. *)

From S2P Require Import Prelude.
From S2P Require Import Json.
From S2P Require Import Types.
From S2P Require Import KubeRef.

(** ** apps.ts *)
Inductive AppsAction :=
| requestApps
| receiveApps (apps : list IRelease)
| listApps
| receiveAppList (apps : option (list IAppOverview))
| requestAppUpdateInfo
| receiveAppUpdateInfo (releaseName : string) (updateInfo : IChartUpdateInfo)
| requestDeleteApp
| receiveDeleteApp
| requestDeployApp
| receiveDeployApp
| requestUpgradeApp
| receiveUpgradeApp
| requestRollbackApp
| receiveRollbackApp
| errorApp (err : js_error)
| selectApp (app : IRelease).

Definition AppsAction_type (a : AppsAction) : string :=
  match a with
  | requestApps => "REQUEST_APPS"
  | receiveApps _ => "RECEIVE_APPS"
  | listApps => "REQUEST_APP_LIST"
  | receiveAppList _ => "RECEIVE_APP_LIST"
  | requestAppUpdateInfo => "REQUEST_APP_UPDATE_INFO"
  | receiveAppUpdateInfo _ _ => "RECEIVE_APP_UPDATE_INFO"
  | requestDeleteApp => "REQUEST_DELETE_APP"
  | receiveDeleteApp => "RECEIVE_DELETE_APP_CONFIRMATION"
  | requestDeployApp => "REQUEST_DEPLOY_APP"
  | receiveDeployApp => "RECEIVE_DEPLOY_APP_CONFIRMATION"
  | requestUpgradeApp => "REQUEST_UPGRADE_APP"
  | receiveUpgradeApp => "RECEIVE_UPGRADE_APP_CONFIRMATION"
  | requestRollbackApp => "REQUEST_ROLLBACK_APP"
  | receiveRollbackApp => "RECEIVE_ROLLBACK_APP_CONFIRMATION"
  | errorApp _ => "ERROR_APP"
  | selectApp _ => "SELECT_APP"
  end.

(** ** auth.ts *)
Inductive AuthAction :=
| setAuthenticated (authenticated oidc : bool)
| authenticating
| authenticationError (errorMsg : string)
| setSessionExpired (sessionExpired : bool).

Definition AuthAction_type (a : AuthAction) : string :=
  match a with
  | setAuthenticated _ _ => "SET_AUTHENTICATED"
  | authenticating => "AUTHENTICATING"
  | authenticationError _ => "AUTHENTICATION_ERROR"
  | setSessionExpired _ => "SET_AUTHENTICATION_SESSION_EXPIRED"
  end.

(** ** charts.ts *)
Inductive ChartsAction :=
| requestCharts (page : option Z)
| requestChart
| receiveCharts (payload : IReceiveChartsActionPayload)
| requestChartsCategories
| receiveChartCategories (categories : list IChartCategory)
| receiveChartVersions (versions : list IChartVersion)
| errorChart (err : js_error)
| clearErrorChart
| errorChartCatetories (err : js_error)
| selectChartVersion (chartVersion : IChartVersion) (values : option string) (schema : option json)
| requestDeployedChartVersion
| receiveDeployedChartVersion (chartVersion : IChartVersion) (values : option string)
    (schema : option json)
| resetChartVersion
| resetRequestCharts
| selectReadme (readme : string)
| errorReadme (message : string).

Definition ChartsAction_type (a : ChartsAction) : string :=
  match a with
  | requestCharts _ => "REQUEST_CHARTS"
  | requestChart => "REQUEST_CHART"
  | receiveCharts _ => "RECEIVE_CHARTS"
  | requestChartsCategories => "REQUEST_CHARTS_CATEGORIES"
  | receiveChartCategories _ => "RECEIVE_CHART_CATEGORIES"
  | receiveChartVersions _ => "RECEIVE_CHART_VERSIONS"
  | errorChart _ => "ERROR_CHART"
  | clearErrorChart => "CLEAR_ERROR_CHART"
  | errorChartCatetories _ => "ERROR_CHART_CATEGORIES"
  | selectChartVersion _ _ _ => "SELECT_CHART_VERSION"
  | requestDeployedChartVersion => "REQUEST_DEPLOYED_CHART_VERSION"
  | receiveDeployedChartVersion _ _ _ => "RECEIVE_DEPLOYED_CHART_VERSION"
  | resetChartVersion => "RESET_CHART_VERSION"
  | resetRequestCharts => "RESET_REQUEST_CHARTS"
  | selectReadme _ => "SELECT_README"
  | errorReadme _ => "ERROR_README"
  end.

(** ** config.ts *)
Inductive ConfigAction :=
| requestConfig
| receiveConfig (config : IConfig)
| receiveTheme (theme : string)
| setThemeState (theme : string)
| errorConfig (err : js_error).

Definition ConfigAction_type (a : ConfigAction) : string :=
  match a with
  | requestConfig => "REQUEST_CONFIG"
  | receiveConfig _ => "RECEIVE_CONFIG"
  | receiveTheme _ => "RECEIVE_THEME"
  | setThemeState _ => "SET_THEME"
  | errorConfig _ => "ERROR_CONFIG"
  end.

(** ** kube.tsx

    The listeners of a socket and the callback of a timer are closures over a
    reference; they are the ones [getAndWatchResource] makes. *)
Inductive socket_listener :=
| on_message (ref : ResourceRef)
| on_error (ref : ResourceRef).

Inductive timer_callback := poll_resource (ref : ResourceRef).

#[export] Instance socket_listener_eq_dec : EqDecision socket_listener.
Proof. solve_decision. Defined.

Inductive KubeAction :=
| requestResource (resourceID : string)
| receiveResource (key : string) (resource : kube_object)
| requestResourceKinds
| receiveResourceKinds (kinds : gmap string IKind)
| receiveKindsError (err : js_error)
| receiveResourceFromList (key : string) (resource : IResource)
| receiveResourceError (key : string) (error : js_error)
| openWatchResource (ref : ResourceRef) (handler onError : socket_listener)
| closeWatchResource (ref : ResourceRef)
| addTimer (id : string) (timer : timer_callback)
| removeTimer (id : string).

Definition KubeAction_type (a : KubeAction) : string :=
  match a with
  | requestResource _ => "REQUEST_RESOURCE"
  | receiveResource _ _ => "RECEIVE_RESOURCE"
  | requestResourceKinds => "REQUEST_RESOURCE_KINDS"
  | receiveResourceKinds _ => "RECEIVE_RESOURCE_KINDS"
  | receiveKindsError _ => "RECEIVE_KIND_API_ERROR"
  | receiveResourceFromList _ _ => "RECEIVE_RESOURCE_FROM_LIST"
  | receiveResourceError _ _ => "RECEIVE_RESOURCE_ERROR"
  | openWatchResource _ _ _ => "OPEN_WATCH_RESOURCE"
  | closeWatchResource _ => "CLOSE_WATCH_RESOURCE"
  | addTimer _ _ => "ADD_TIMER"
  | removeTimer _ => "REMOVE_TIMER"
  end.

(** ** namespace.ts *)
Inductive NamespaceAction :=
| requestNamespace (cluster namespace : string)
| receiveNamespace (cluster : string) (namespace : IResource)
| setNamespaceState (cluster namespace : string)
| postNamespace (cluster namespace : string)
| receiveNamespaces (cluster : string) (namespaces : list string)
| errorNamespaces (cluster : string) (err : js_error) (op : string)
| setAllowCreate (cluster : string) (allowed : bool)
| clearClusters.

Definition NamespaceAction_type (a : NamespaceAction) : string :=
  match a with
  | requestNamespace _ _ => "REQUEST_NAMESPACE"
  | receiveNamespace _ _ => "RECEIVE_NAMESPACE"
  | setNamespaceState _ _ => "SET_NAMESPACE"
  | postNamespace _ _ => "CREATE_NAMESPACE"
  | receiveNamespaces _ _ => "RECEIVE_NAMESPACES"
  | errorNamespaces _ _ _ => "ERROR_NAMESPACES"
  | setAllowCreate _ _ => "ALLOW_CREATE_NAMESPACE"
  | clearClusters => "CLEAR_CLUSTERS"
  end.

(** ** operators.ts *)
Inductive OperatorAction :=
| checkingOLM
| OLMInstalled
| errorOLMCheck (err : js_error)
| requestOperators
| receiveOperators (operators : list IPackageManifest)
| requestOperator
| receiveOperator (operator : IPackageManifest)
| errorOperators (err : js_error)
| requestCSVs
| receiveCSVs (csvs : list IClusterServiceVersion)
| requestCSV
| receiveCSV (csv : IClusterServiceVersion)
| errorCSVs (err : js_error)
| creatingResource
| resourceCreated (resource : IResource)
| errorResourceCreate (err : js_error)
| updatingResource
| resourceUpdated (resource : IResource)
| errorResourceUpdate (err : js_error)
| deletingResource
| resourceDeleted
| errorResourceDelete (err : js_error)
| requestCustomResources
| receiveCustomResources (resources : list IResource)
| errorCustomResource (err : js_error)
| requestCustomResource
| receiveCustomResource (resource : IResource)
| creatingOperator
| operatorCreated (resource : IResource)
| errorOperatorCreate (err : js_error)
| requestSubscriptions
| receiveSubscriptions (resources : list IResource)
| errorSubscriptionList (err : js_error).

Definition OperatorAction_type (a : OperatorAction) : string :=
  match a with
  | checkingOLM => "CHECKING_OLM"
  | OLMInstalled => "OLM_INSTALLED"
  | errorOLMCheck _ => "ERROR_OLM_CHECK"
  | requestOperators => "REQUEST_OPERATORS"
  | receiveOperators _ => "RECEIVE_OPERATORS"
  | requestOperator => "REQUEST_OPERATOR"
  | receiveOperator _ => "RECEIVE_OPERATOR"
  | errorOperators _ => "ERROR_OPERATORS"
  | requestCSVs => "REQUEST_CSVS"
  | receiveCSVs _ => "RECEIVE_CSVS"
  | requestCSV => "REQUEST_CSV"
  | receiveCSV _ => "RECEIVE_CSV"
  | errorCSVs _ => "ERROR_CSVS"
  | creatingResource => "CREATING_RESOURCE"
  | resourceCreated _ => "RESOURCE_CREATED"
  | errorResourceCreate _ => "ERROR_RESOURCE_CREATE"
  | updatingResource => "UPDATING_RESOURCE"
  | resourceUpdated _ => "RESOURCE_UPDATED"
  | errorResourceUpdate _ => "ERROR_RESOURCE_UPDATE"
  | deletingResource => "DELETING_RESOURCE"
  | resourceDeleted => "RESOURCE_DELETED"
  | errorResourceDelete _ => "ERROR_RESOURCE_DELETE"
  | requestCustomResources => "REQUEST_CUSTOM_RESOURCES"
  | receiveCustomResources _ => "RECEIVE_CUSTOM_RESOURCES"
  | errorCustomResource _ => "ERROR_CUSTOM_RESOURCE"
  | requestCustomResource => "REQUEST_CUSTOM_RESOURCE"
  | receiveCustomResource _ => "RECEIVE_CUSTOM_RESOURCE"
  | creatingOperator => "CREATING_OPERATOR"
  | operatorCreated _ => "OPERATOR_CREATED"
  | errorOperatorCreate _ => "ERROR_OPERATOR_CREATE"
  | requestSubscriptions => "REQUEST_SUBSCRIPTIONS"
  | receiveSubscriptions _ => "RECEIVE_SUBSCRIPTIONS"
  | errorSubscriptionList _ => "ERROR_SUBSCRIPTIONS"
  end.

(** ** repos.ts *)
Inductive repos_op := op_create | op_update | op_fetch | op_delete | op_validate.
#[export] Instance repos_op_eq_dec : EqDecision repos_op.
Proof. solve_decision. Defined.

Inductive AppReposAction :=
| addRepo
| addedRepo (added : IAppRepository)
| requestRepoUpdate
| repoUpdated (updated : IAppRepository)
| requestRepos (namespace : string)
| receiveRepos (repos : list IAppRepository)
| concatRepos (repos : list IAppRepository)
| receiveReposSecrets (secrets : list ISecret)
| receiveReposSecret (secret : ISecret)
| requestRepo
| receiveRepo (repo : IAppRepository)
| repoValidating
| repoValidated (data : json)
| clearRepo
| showForm
| hideForm
| resetForm
| submitForm
| redirect (path : string)
| redirected
| errorRepos (err : js_error) (op : repos_op)
| requestImagePullSecrets (namespace : string)
| receiveImagePullSecrets (secrets : list ISecret)
| createImagePullSecret (secret : ISecret).

Definition AppReposAction_type (a : AppReposAction) : string :=
  match a with
  | addRepo => "ADD_REPO"
  | addedRepo _ => "ADDED_REPO"
  | requestRepoUpdate => "REQUEST_REPO_UPDATE"
  | repoUpdated _ => "REPO_UPDATED"
  | requestRepos _ => "REQUEST_REPOS"
  | receiveRepos _ => "RECEIVE_REPOS"
  | concatRepos _ => "RECEIVE_REPOS"
  | receiveReposSecrets _ => "RECEIVE_REPOS_SECRETS"
  | receiveReposSecret _ => "RECEIVE_REPOS_SECRET"
  | requestRepo => "REQUEST_REPO"
  | receiveRepo _ => "RECEIVE_REPO"
  | repoValidating => "REPO_VALIDATING"
  | repoValidated _ => "REPO_VALIDATED"
  | clearRepo => "RECEIVE_REPO"
  | showForm => "SHOW_FORM"
  | hideForm => "HIDE_FORM"
  | resetForm => "RESET_FORM"
  | submitForm => "SUBMIT_FROM"
  | redirect _ => "REDIRECT"
  | redirected => "REDIRECTED"
  | errorRepos _ _ => "ERROR_REPOS"
  | requestImagePullSecrets _ => "REQUEST_IMAGE_PULL_SECRETS"
  | receiveImagePullSecrets _ => "RECEIVE_IMAGE_PULL_SECRETS"
  | createImagePullSecret _ => "CREATE_IMAGE_PULL_SECRET"
  end.

(** ** catalog.ts: no reducer listens to these *)
Inductive catalog_op :=
| catalog_fetch | catalog_create | catalog_delete | catalog_deprovision | catalog_update.

Inductive ServiceCatalogAction :=
| checkCatalogInstall
| installed
| notInstalled
| requestBrokers
| receiveBrokers (brokers : list IServiceBroker)
| requestPlans
| receivePlans (plans : list IServicePlan)
| requestInstances
| receiveInstances (instances : list IServiceInstance)
| requestBindingsWithSecrets
| receiveBindingsWithSecrets (bindingsWithSecrets : list IServiceBindingWithSecret)
| requestClasses
| receiveClasses (classes : list IClusterServiceClass)
| errorCatalog (err : js_error) (op : catalog_op).

Definition ServiceCatalogAction_type (a : ServiceCatalogAction) : string :=
  match a with
  | checkCatalogInstall => "CHECK_INSTALL"
  | installed => "INSTALLED"
  | notInstalled => "NOT_INSTALLED"
  | requestBrokers => "REQUEST_BROKERS"
  | receiveBrokers _ => "RECEIVE_BROKERS"
  | requestPlans => "REQUEST_PLANS"
  | receivePlans _ => "RECEIVE_PLANS"
  | requestInstances => "REQUEST_INSTANCES"
  | receiveInstances _ => "RECEIVE_INSTANCES"
  | requestBindingsWithSecrets => "REQUEST_BINDINGS_WITH_SECRETS"
  | receiveBindingsWithSecrets _ => "RECEIVE_BINDINGS_WITH_SECRETS"
  | requestClasses => "REQUEST_PLANS"
  | receiveClasses _ => "RECEIVE_CLASSES"
  | errorCatalog _ _ => "ERROR_CATALOG"
  end.

(** ** Everything that is dispatched *)
Inductive action :=
| AApps (a : AppsAction)
| AAuth (a : AuthAction)
| ACharts (a : ChartsAction)
| AConfig (a : ConfigAction)
| AKube (a : KubeAction)
| ANamespace (a : NamespaceAction)
| AOperator (a : OperatorAction)
| ARepos (a : AppReposAction)
| ACatalog (a : ServiceCatalogAction)
| LOCATION_CHANGE (pathname : string).

Coercion AApps : AppsAction >-> action.
Coercion AAuth : AuthAction >-> action.
Coercion ACharts : ChartsAction >-> action.
Coercion AConfig : ConfigAction >-> action.
Coercion AKube : KubeAction >-> action.
Coercion ANamespace : NamespaceAction >-> action.
Coercion AOperator : OperatorAction >-> action.
Coercion ARepos : AppReposAction >-> action.
Coercion ACatalog : ServiceCatalogAction >-> action.

Definition action_type (a : action) : string :=
  match a with
  | AApps a => AppsAction_type a
  | AAuth a => AuthAction_type a
  | ACharts a => ChartsAction_type a
  | AConfig a => ConfigAction_type a
  | AKube a => KubeAction_type a
  | ANamespace a => NamespaceAction_type a
  | AOperator a => OperatorAction_type a
  | ARepos a => AppReposAction_type a
  | ACatalog a => ServiceCatalogAction_type a
  | LOCATION_CHANGE _ => "@@router/LOCATION_CHANGE"
  end.
