(* ===== verification/AppsReducer.v ===== *)
(** * The slice [apps] of the store (src/dashboard/src/reducers/apps.ts) *)

From S2P Require Import Prelude.
From S2P Require Import Json.
From S2P Require Import Types.
From S2P Require Import KubeRef.
From S2P Require Import Actions.

Definition apps_initialState : IAppState :=
  {| IAppState_isFetching := false; IAppState_error := None; IAppState_items := [];
     IAppState_listOverview := None; IAppState_selected := None |}.

(** The index of the release in the list and the list with its entry updated. *)
Definition update_overview (releaseName : string) (updateInfo : IChartUpdateInfo)
    (listOverview : list IAppOverview) : option (list IAppOverview) :=
  match findIndex (λ a, bool_decide (IAppOverview_releaseName a = releaseName)) listOverview with
  | Some i =>
    match listOverview !! i with
    | Some a =>
      Some (slice 0 i listOverview ++
            a <| IAppOverview_updateInfo := Some updateInfo |> ::
            slice_from (i + 1) listOverview)
    | None => None
    end
  | None => None
  end.

Definition appsReducer (state : IAppState) (a : action) : IAppState :=
  match a with
  | AApps requestApps => state <| IAppState_isFetching := true |>
  | AApps (receiveApps apps) =>
    state <| IAppState_isFetching := false |> <| IAppState_items := apps |>
  | AApps (errorApp err) =>
    state <| IAppState_isFetching := false |> <| IAppState_error := Some err |>
  | AApps (selectApp app) =>
    state <| IAppState_isFetching := false |> <| IAppState_selected := Some app |>
  | AApps listApps => state <| IAppState_isFetching := true |>
  | AApps (receiveAppList apps) =>
    state <| IAppState_isFetching := false |> <| IAppState_listOverview := apps |>
  | AApps requestAppUpdateInfo => state <| IAppState_isFetching := true |>
  | AApps requestDeleteApp => state <| IAppState_isFetching := true |>
  | AApps receiveDeleteApp => state <| IAppState_isFetching := false |>
  | AApps requestDeployApp => state <| IAppState_isFetching := true |>
  | AApps receiveDeployApp => state <| IAppState_isFetching := false |>
  | AApps requestRollbackApp => state <| IAppState_isFetching := true |>
  | AApps receiveRollbackApp => state <| IAppState_isFetching := false |>
  | AApps (receiveAppUpdateInfo releaseName updateInfo) =>
    let listOverview :=
      match IAppState_listOverview state with
      | Some l => update_overview releaseName updateInfo l
      | None => None
      end in
    let selected :=
      match IAppState_selected state with
      | Some s =>
        if bool_decide (IRelease_name s = releaseName)
        then Some (s <| IRelease_updateInfo := Some updateInfo |>) else None
      | None => None
      end in
    state <| IAppState_isFetching := false |>
          <| IAppState_listOverview :=
               match listOverview with Some l => Some l | None => IAppState_listOverview state end |>
          <| IAppState_selected :=
               match selected with Some s => Some s | None => IAppState_selected state end |>
  | LOCATION_CHANGE _ =>
    state <| IAppState_error := None |> <| IAppState_isFetching := false |>
          <| IAppState_selected := None |>
  | _ => state
  end.

(** ** Facts *)

Lemma update_overview_spec n u l :
  (update_overview n u l = None ∧ (∀ a, a ∈ l → IAppOverview_releaseName a ≠ n)) ∨
  (∃ i a, l !! i = Some a ∧ IAppOverview_releaseName a = n ∧
     (∀ j b, j < i → l !! j = Some b → IAppOverview_releaseName b ≠ n) ∧
     update_overview n u l = Some (<[i := a <| IAppOverview_updateInfo := Some u |>]> l)).
Proof.
  unfold update_overview. destruct (findIndex _ l) as [i|] eqn:Hi.
  - right. destruct (findIndex_Some _ _ _ Hi) as (a & Ha & Hn & Hmin).
    rewrite Ha. exists i, a. split_and!; [done|by apply bool_decide_unpack in Hn|..].
    + intros j b Hj Hb. by apply (Hmin j b) in Hb as ?%bool_decide_eq_false.
    + by erewrite slice_around.
  - left. split; [done|]. intros a Ha.
    rewrite findIndex_None in Hi. by apply Hi, bool_decide_eq_false in Ha.
Qed.

(** The release names of the overview, in order. *)
Definition overview_names (state : IAppState) : option (list string) :=
  (λ l : list IAppOverview, IAppOverview_releaseName <$> l) <$> IAppState_listOverview state.

Lemma update_overview_names n u l l' :
  update_overview n u l = Some l' → IAppOverview_releaseName <$> l' = IAppOverview_releaseName <$> l.
Proof.
  intros Hl. destruct (update_overview_spec n u l) as [[? _]|(i & a & Ha & Hn & _ & Heq)];
    [congruence|].
  rewrite Heq in Hl. injection Hl as <-. rewrite list_fmap_insert. simpl.
  apply list_insert_id. by rewrite list_lookup_fmap, Ha.
Qed.

(** What the reducer keeps of one update: the releases shown are the same. *)
Lemma receiveAppUpdateInfo_names state n u :
  overview_names (appsReducer state (receiveAppUpdateInfo n u)) = overview_names state.
Proof.
  unfold overview_names. simpl. destruct (IAppState_listOverview state) as [l|]; [|done].
  simpl. destruct (update_overview n u l) as [l'|] eqn:Hl; [|done].
  simpl. by rewrite (update_overview_names _ _ _ _ Hl).
Qed.

(** [receiveAppUpdateInfo] stores the information in the first entry of that
    release and in the selected release when it has that name, and changes nothing
    else but the loading flag. *)
Theorem receiveAppUpdateInfo_exact state n u i a :
  IAppState_listOverview state ≫= (.!! i) = Some a →
  let state' := appsReducer state (receiveAppUpdateInfo n u) in
  IAppState_isFetching state' = false ∧
  IAppState_error state' = IAppState_error state ∧
  IAppState_items state' = IAppState_items state ∧
  overview_names state' = overview_names state ∧
  IAppState_listOverview state' ≫= (.!! i) =
    Some (if bool_decide (IAppOverview_releaseName a = n) &&
             bool_decide (Forall (λ b, IAppOverview_releaseName b ≠ n)
                           (take i (default [] (IAppState_listOverview state))))
          then a <| IAppOverview_updateInfo := Some u |> else a) ∧
  IAppState_selected state' =
    (λ r, if bool_decide (IRelease_name r = n)
          then r <| IRelease_updateInfo := Some u |> else r) <$> IAppState_selected state.
Proof.
  intros Ha state'. split_and!; try done.
  - apply receiveAppUpdateInfo_names.
  - subst state'. simpl. destruct (IAppState_listOverview state) as [l|]; [|done]. simpl in *.
    destruct (update_overview_spec n u l) as [[-> Hnone]|(k & b & Hb & Hn & Hmin & ->)]; simpl.
    + rewrite Ha, bool_decide_false; [done|].
      apply Hnone. by eapply list_elem_of_lookup_2.
    + destruct (decide (k = i)) as [->|Hki].
      * rewrite list_lookup_insert_eq by (by eapply lookup_lt_Some). simplify_eq.
        rewrite !bool_decide_true; [done| |done].
        apply Forall_lookup. intros j c [Hc Hj]%lookup_take_Some. eauto.
      * rewrite list_lookup_insert_ne by done. rewrite Ha. f_equal.
        destruct (decide (IAppOverview_releaseName a = n)) as [Hna|?];
          [|by rewrite bool_decide_false].
        rewrite (bool_decide_false (Forall _ _)); [by rewrite andb_false_r|].
        intros Hall. rewrite Forall_lookup in Hall.
        destruct (decide (i < k)); [by eapply Hmin|].
        apply (Hall k b); [|done]. apply lookup_take_Some. split; [done|lia].
  - subst state'. simpl. destruct (IAppState_selected state) as [r|]; [|done].
    simpl. by case_bool_decide.
Qed.
