(* ===== verification/AuthReducer.v ===== *)
(** * The slice [auth] of the store (src/dashboard/src/reducers/auth.ts)

    The initial state is read from the browser once, when the module is loaded. *)

From S2P Require Import Prelude.
From S2P Require Import Json.
From S2P Require Import Browser.
From S2P Require Import Types.
From S2P Require Import KubeRef.
From S2P Require Import Actions.

Record IAuthState := mkIAuthState {
  IAuthState_sessionExpired : bool;
  IAuthState_authenticated : bool;
  IAuthState_authenticating : bool;
  IAuthState_oidcAuthenticated : bool;
  IAuthState_authenticationError : option string;
}.
#[export] Instance eta_IAuthState : Eta IAuthState := λ s,
  mkIAuthState (IAuthState_sessionExpired s) (IAuthState_authenticated s)
    (IAuthState_authenticating s) (IAuthState_oidcAuthenticated s)
    (IAuthState_authenticationError s).

Definition auth_getInitialState (b : browser) : IAuthState :=
  let token := or_opt_str (getAuthToken b) "" in
  {| IAuthState_sessionExpired := false;
     IAuthState_authenticated := bool_decide (token ≠ "");
     IAuthState_authenticating := false;
     IAuthState_oidcAuthenticated := usingOIDCToken b;
     IAuthState_authenticationError := None |}.

Definition authReducer (state : IAuthState) (a : action) : IAuthState :=
  match a with
  | AAuth (setAuthenticated authenticated oidc) =>
    state <| IAuthState_authenticated := authenticated |>
          <| IAuthState_oidcAuthenticated := oidc |>
          <| IAuthState_authenticating := false |>
  | AAuth authenticating =>
    state <| IAuthState_authenticated := false |> <| IAuthState_authenticating := true |>
  | AAuth (authenticationError errorMsg) =>
    state <| IAuthState_authenticationError := Some errorMsg |>
          <| IAuthState_authenticating := false |>
  | AAuth (setSessionExpired sessionExpired) =>
    state <| IAuthState_sessionExpired := sessionExpired |>
  | _ => state
  end.

(** The user is never authenticated while an authentication is under way. *)
Definition auth_ok (state : IAuthState) : Prop :=
  ¬ (IAuthState_authenticated state ∧ IAuthState_authenticating state).

Lemma auth_getInitialState_ok b : auth_ok (auth_getInitialState b).
Proof. by intros [_ ?]. Qed.

Lemma authReducer_ok state a : auth_ok state → auth_ok (authReducer state a).
Proof. unfold auth_ok. destruct a as [|[]| | | | | | | |]; simpl; naive_solver. Qed.
#[export] Hint Resolve auth_getInitialState_ok authReducer_ok : js.
