(* ===== verification/ChartsReducer.v ===== *)
(** * The slice [charts] of the store (src/dashboard/src/reducers/charts.ts) *)

From S2P Require Import Prelude.
From S2P Require Import Json.
From S2P Require Import Types.
From S2P Require Import KubeRef.
From S2P Require Import Actions.

Definition charts_initialSelected : IChartState_selected_t :=
  {| selected_error := None; selected_version := None; selected_versions := [];
     selected_readme := None; selected_readmeError := None; selected_values := None;
     selected_schema := None |}.

Definition deployed_empty : IChartState_deployed_t :=
  {| deployed_chartVersion := None; deployed_values := None; deployed_schema := None |}.

Definition charts_initialState : IChartState :=
  {| IChartState_isFetching := false; IChartState_hasFinishedFetching := false;
     IChartState_items := []; IChartState_categories := [];
     IChartState_selected := charts_initialSelected;
     IChartState_deployed := deployed_empty; IChartState_size := 20 |}.

Definition chartsSelectedReducer (state : IChartState_selected_t) (a : ChartsAction)
    : IChartState_selected_t :=
  match a with
  | selectChartVersion chartVersion values schema =>
    state <| selected_error := None |> <| selected_readmeError := None |>
          <| selected_version := Some chartVersion |> <| selected_values := values |>
          <| selected_schema := schema |>
  | receiveChartVersions versions =>
    state <| selected_error := None |> <| selected_versions := versions |>
  | selectReadme readme =>
    state <| selected_readme := Some readme |> <| selected_readmeError := None |>
  | errorChart err => state <| selected_error := Some err |>
  | clearErrorChart => state <| selected_error := None |>
  | errorReadme message => state <| selected_readmeError := Some message |>
  | resetChartVersion => charts_initialSelected
  | _ => state
  end.

Section with_lodash.
Context `{Lodash}.

Definition chartsReducer (state : IChartState) (a : action) : IChartState :=
  match a with
  | ACharts c =>
    match c with
    | requestCharts _ => state <| IChartState_isFetching := true |>
    | receiveCharts payload =>
      let isLastPage := bool_decide
        (IReceiveChartsActionPayload_page payload >= IReceiveChartsActionPayload_totalPages payload)%Z in
      state <| IChartState_isFetching := false |>
            <| IChartState_hasFinishedFetching := isLastPage |>
            <| IChartState_items :=
                 uniqBy IChart_id
                   (IChartState_items state ++ IReceiveChartsActionPayload_items payload) |>
    | receiveChartCategories categories => state <| IChartState_categories := categories |>
    | receiveChartVersions _ =>
      state <| IChartState_isFetching := false |>
            <| IChartState_selected := chartsSelectedReducer (IChartState_selected state) c |>
    | selectChartVersion _ _ _ =>
      state <| IChartState_isFetching := false |>
            <| IChartState_selected := chartsSelectedReducer (IChartState_selected state) c |>
    | requestDeployedChartVersion => state <| IChartState_deployed := deployed_empty |>
    | receiveDeployedChartVersion chartVersion values schema =>
      state <| IChartState_isFetching := false |>
            <| IChartState_deployed :=
                 {| deployed_chartVersion := Some chartVersion; deployed_values := values;
                    deployed_schema := schema |} |>
    | resetRequestCharts =>
      state <| IChartState_hasFinishedFetching := false |> <| IChartState_items := [] |>
    | resetChartVersion | selectReadme _ | errorReadme _ | errorChart _ =>
      state <| IChartState_isFetching := false |>
            <| IChartState_hasFinishedFetching := false |>
            <| IChartState_items := IChartState_items state |>
            <| IChartState_selected := chartsSelectedReducer (IChartState_selected state) c |>
    | clearErrorChart =>
      state <| IChartState_selected := chartsSelectedReducer (IChartState_selected state) c |>
    | errorChartCatetories _ =>
      state <| IChartState_isFetching := false |> <| IChartState_categories := [] |>
    | _ => state
    end
  | _ => state
  end.

(** The identifiers of the charts listed, in order. *)
Definition chart_ids (state : IChartState) : list string := IChart_id <$> IChartState_items state.

Definition charts_ok (state : IChartState) : Prop := NoDup (chart_ids state).

Lemma charts_initialState_ok : charts_ok charts_initialState.
Proof using. constructor. Qed.

Lemma chartsReducer_ok state a : charts_ok state → charts_ok (chartsReducer state a).
Proof using.
  intros Hok. destruct a as [| |c| | | | | | |]; try done.
  destruct c; try done; unfold charts_ok, chart_ids; simpl; [apply uniqBy_NoDup|constructor].
Qed.

(** A run of the reducer over received pages. *)
Definition receive_pages (state : IChartState) (pages : list IReceiveChartsActionPayload)
    : IChartState :=
  foldl (λ s p, chartsReducer s (receiveCharts p)) state pages.

Lemma receive_pages_snoc state pages p :
  receive_pages state (pages ++ [p]) = chartsReducer (receive_pages state pages) (receiveCharts p).
Proof using. unfold receive_pages. by rewrite foldl_app. Qed.

Lemma receive_pages_ok state pages : charts_ok state → charts_ok (receive_pages state pages).
Proof using.
  intros Hok. induction pages as [|p pages IH] using rev_ind; [done|].
  rewrite receive_pages_snoc. by apply chartsReducer_ok.
Qed.

(** Receiving pages of charts lists every chart once, in the order of first
    arrival: the charts that were listed stay where they are, the identifiers
    are those of the old list and of all the pages, and a page that is the last
    one ends the fetching. *)
Theorem receive_pages_items state pages p :
  charts_ok state →
  let state' := receive_pages state (pages ++ [p]) in
  NoDup (chart_ids state') ∧
  IChartState_items state `prefix_of` IChartState_items state' ∧
  (∀ i, i ∈ chart_ids state' ↔
     i ∈ chart_ids state ∨
     ∃ q, q ∈ pages ++ [p] ∧ i ∈ IChart_id <$> IReceiveChartsActionPayload_items q) ∧
  IChartState_isFetching state' = false ∧
  (IChartState_hasFinishedFetching state' ↔
     (IReceiveChartsActionPayload_totalPages p <= IReceiveChartsActionPayload_page p)%Z).
Proof using.
  intros Hok state'. split; [by apply receive_pages_ok|]. split; [|split; [|split]].
  - subst state'. generalize (pages ++ [p]). clear pages p. intros pages.
    induction pages as [|p pages IH] using rev_ind; [done|].
    etrans; [done|]. rewrite receive_pages_snoc. simpl.
    rewrite <-(uniqBy_id IChart_id (IChartState_items (receive_pages _ _))) at 1
      by (by apply receive_pages_ok).
    apply uniqBy_prefix.
  - subst state'. generalize (pages ++ [p]). clear pages p. intros pages i.
    induction pages as [|p pages IH] using rev_ind.
    { simpl. split; [by left|]. intros [?|(q & Hq & _)]; [done|]. by apply elem_of_nil in Hq. }
    rewrite receive_pages_snoc. unfold chart_ids at 1. simpl.
    rewrite uniqBy_keys, fmap_app, elem_of_app.
    unfold chart_ids in IH at 1. rewrite IH. setoid_rewrite elem_of_app.
    setoid_rewrite list_elem_of_singleton. naive_solver.
  - subst state'. by rewrite receive_pages_snoc.
  - subst state'. rewrite receive_pages_snoc. simpl. rewrite bool_decide_spec. lia.
Qed.
End with_lodash.

Definition example_chart (id : string) : IChart :=
  {| IChart_id := id;
     IChart_attributes :=
       {| IChartAttributes_name := id; IChartAttributes_description := "";
          IChartAttributes_home := None; IChartAttributes_icon := None;
          IChartAttributes_keywords := []; IChartAttributes_maintainers := [];
          IChartAttributes_repo :=
            {| IRepo_namespace := "kubeapps"; IRepo_name := "bitnami"; IRepo_url := "" |};
          IChartAttributes_sources := []; IChartAttributes_category := "" |};
     IChart_relationships_latestChartVersion_data :=
       {| IChartVersionAttributes_version := "1.0.0"; IChartVersionAttributes_app_version := "1";
          IChartVersionAttributes_created := "" |} |}.

Definition example_page (ids : list string) (page : Z) : IReceiveChartsActionPayload :=
  {| IReceiveChartsActionPayload_items := example_chart <$> ids;
     IReceiveChartsActionPayload_page := page; IReceiveChartsActionPayload_totalPages := 2 |}.

Lemma receive_pages_items_witness :
  charts_ok charts_initialState ∧
  NoDup (chart_ids (receive_pages (H:=lodash_ref) charts_initialState
    ([example_page ["bitnami/redis"; "bitnami/mysql"] 1] ++ [example_page ["bitnami/redis"] 2]))).
Proof.
  split; [vm_compute; constructor|].
  apply (receive_pages_items (H:=lodash_ref) charts_initialState
    [example_page ["bitnami/redis"; "bitnami/mysql"] 1] (example_page ["bitnami/redis"] 2)).
  vm_compute. constructor.
Defined.
