(* ===== verification/ConfigReducer.v ===== *)
(** * The slice [config] of the store (src/dashboard/src/reducers/config.ts)

    The initial state holds the theme the browser had when the module was loaded;
    [requestConfig] goes back to it.  [receiveTheme] also writes the theme to the
    browser, so the reducer returns the browser too. *)

From S2P Require Import Prelude.
From S2P Require Import Json.
From S2P Require Import JsonText.
From S2P Require Import Browser.
From S2P Require Import Types.
From S2P Require Import KubeRef.
From S2P Require Import Actions.

Record IConfigState := mkIConfigState {
  IConfigState_loaded : bool;
  IConfigState_kubeappsCluster : string;
  IConfigState_kubeappsNamespace : string;
  IConfigState_appVersion : string;
  IConfigState_authProxyEnabled : bool;
  IConfigState_oauthLoginURI : string;
  IConfigState_oauthLogoutURI : string;
  IConfigState_authProxySkipLoginPage : bool;
  IConfigState_error : option js_error;
  IConfigState_clusters : list string;
  IConfigState_theme : string;
}.
#[export] Instance eta_IConfigState : Eta IConfigState := λ c,
  mkIConfigState (IConfigState_loaded c) (IConfigState_kubeappsCluster c)
    (IConfigState_kubeappsNamespace c) (IConfigState_appVersion c)
    (IConfigState_authProxyEnabled c) (IConfigState_oauthLoginURI c)
    (IConfigState_oauthLogoutURI c) (IConfigState_authProxySkipLoginPage c)
    (IConfigState_error c) (IConfigState_clusters c) (IConfigState_theme c).

Definition config_initialState (b : browser) : IConfigState :=
  {| IConfigState_loaded := false; IConfigState_kubeappsCluster := "";
     IConfigState_kubeappsNamespace := ""; IConfigState_appVersion := "";
     IConfigState_authProxyEnabled := false; IConfigState_oauthLoginURI := "";
     IConfigState_oauthLogoutURI := ""; IConfigState_authProxySkipLoginPage := false;
     IConfigState_error := None; IConfigState_clusters := [];
     IConfigState_theme := getTheme b |}.

(** [{ ...state, loaded: true, ...config }] *)
Definition spread_config (state : IConfigState) (config : IConfig) : IConfigState :=
  {| IConfigState_loaded := true;
     IConfigState_kubeappsCluster := IConfig_kubeappsCluster config;
     IConfigState_kubeappsNamespace := IConfig_kubeappsNamespace config;
     IConfigState_appVersion := IConfig_appVersion config;
     IConfigState_authProxyEnabled := IConfig_authProxyEnabled config;
     IConfigState_oauthLoginURI := IConfig_oauthLoginURI config;
     IConfigState_oauthLogoutURI := IConfig_oauthLogoutURI config;
     IConfigState_authProxySkipLoginPage := IConfig_authProxySkipLoginPage config;
     IConfigState_error :=
       match IConfig_error config with Some e => Some e | None => IConfigState_error state end;
     IConfigState_clusters := IConfig_clusters config;
     IConfigState_theme := default (IConfigState_theme state) (IConfig_theme config) |}.

Definition configReducer (initialState state : IConfigState) (a : action) (b : browser)
    : IConfigState * browser :=
  match a with
  | AConfig requestConfig => (initialState, b)
  | AConfig (receiveConfig config) => (spread_config state config, b)
  | AConfig (receiveTheme theme) =>
    (state <| IConfigState_theme := theme |>, setTheme theme b)
  | AConfig (setThemeState theme) => (state <| IConfigState_theme := theme |>, b)
  | AConfig (errorConfig err) => (state <| IConfigState_error := Some err |>, b)
  | _ => (state, b)
  end.

Lemma getTheme_setTheme theme b : theme ≠ "" → getTheme (setTheme theme b) = theme.
Proof.
  intros Ht. unfold getTheme, setTheme.
  rewrite getItem_setItem, bool_decide_true by done.
  unfold truthy. by rewrite bool_decide_true.
Qed.

(** The theme is a theme: it is never the empty string. *)
Lemma getTheme_nonempty b : getTheme b ≠ "".
Proof.
  unfold getTheme, truthy. destruct (getItem "theme" b); repeat case_match; try done.
  by apply bool_decide_eq_true in H.
Qed.
#[export] Hint Rewrite getTheme_setTheme using done : js.
