(* ===== verification/FetchTracked.v ===== *)
(** * Slices that track what is being fetched

    The slices [repos] and [operators] keep a flag per kind of element and one
    flag for all of them; both have a helper [isFetching] that updates one flag
    and recomputes the summary.  [FetchTracked] is what the rest of the store may
    rely on. *)

From S2P Require Import Prelude.

Class FetchTracked (S I : Type) `{EqDecision I} := {
  ft_all : list I;
  ft_flag : S → bool;
  ft_elem : S → I → bool;
  ft_set : S → I → bool → S;
  ft_all_complete i : i ∈ ft_all;
  ft_set_elem s i b j : ft_elem (ft_set s i b) j = if decide (j = i) then b else ft_elem s j;
  ft_set_flag s i b : ft_flag (ft_set s i b) = existsb (ft_elem (ft_set s i b)) ft_all;
}.

Section tracked.
Context {T I : Type} `{EqDecision I} `{!FetchTracked T I}.

(** The summary is the disjunction of the flags. *)
Definition tracked (s : T) : Prop := ft_flag s = existsb (ft_elem s) ft_all.

Lemma tracked_spec s : tracked s ↔ (ft_flag s ↔ ∃ i, ft_elem s i).
Proof using.
  assert (existsb (ft_elem s) ft_all ↔ ∃ i, ft_elem s i) as Hex.
  { rewrite Is_true_true, existsb_exists. split.
    - intros (i & _ & Hi). exists i. by rewrite Hi.
    - intros (i & Hi). exists i. split; [apply list_elem_of_In, ft_all_complete|].
      by apply Is_true_true. }
  rewrite <-Hex. unfold tracked. destruct (ft_flag s), (existsb _ _); naive_solver.
Qed.

Lemma tracked_set s i b : tracked (ft_set s i b).
Proof using. apply ft_set_flag. Qed.

Lemma tracked_ext s s' :
  ft_flag s' = ft_flag s → (∀ i, ft_elem s' i = ft_elem s i) → tracked s → tracked s'.
Proof using.
  unfold tracked. intros -> Hi ->. induction ft_all; simpl; congruence.
Qed.

Lemma tracked_clear s :
  ft_flag s = false → (∀ i, ft_elem s i = false) → tracked s.
Proof using.
  unfold tracked. intros -> Hi. induction ft_all; simpl; [done|]. by rewrite Hi.
Qed.
End tracked.

#[export] Hint Resolve tracked_set : js.
