(* ===== verification/ReposReducer.v ===== *)
(** * The slice [repos] of the store (src/dashboard/src/reducers/repos.ts)

    The empty object that stands for no repository is [None].  [concatRepos] has
    the type string of [receiveRepos], and [clearRepo] that of [receiveRepo] with
    the empty object as payload: the reducer treats them alike. *)

From S2P Require Import Prelude.
From S2P Require Import Json.
From S2P Require Import Types.
From S2P Require Import KubeRef.
From S2P Require Import Actions.
From S2P Require Import FetchTracked.

Record repos_errors := mkReposErrors {
  errors_create : option js_error;
  errors_delete : option js_error;
  errors_fetch : option js_error;
  errors_update : option js_error;
  errors_validate : option js_error;
}.
#[export] Instance eta_repos_errors : Eta repos_errors := λ e,
  mkReposErrors (errors_create e) (errors_delete e) (errors_fetch e) (errors_update e)
    (errors_validate e).

Definition no_errors : repos_errors := mkReposErrors None None None None None.

(** [{ ...errors, [op]: err }] *)
Definition set_error (op : repos_op) (err : option js_error) (e : repos_errors) : repos_errors :=
  match op with
  | op_create => e <| errors_create := err |>
  | op_delete => e <| errors_delete := err |>
  | op_fetch => e <| errors_fetch := err |>
  | op_update => e <| errors_update := err |>
  | op_validate => e <| errors_validate := err |>
  end.

Definition get_error (op : repos_op) (e : repos_errors) : option js_error :=
  match op with
  | op_create => errors_create e
  | op_delete => errors_delete e
  | op_fetch => errors_fetch e
  | op_update => errors_update e
  | op_validate => errors_validate e
  end.

Record repos_form := mkReposForm {
  form_name : string; form_namespace : string; form_url : string; form_show : bool;
}.
#[export] Instance eta_repos_form : Eta repos_form := λ f,
  mkReposForm (form_name f) (form_namespace f) (form_url f) (form_show f).

Inductive repos_item := repositories | secrets.
#[export] Instance repos_item_eq_dec : EqDecision repos_item.
Proof. solve_decision. Defined.

Record repos_fetching := mkReposFetching {
  fetching_repositories : bool;
  fetching_secrets : bool;
}.
#[export] Instance eta_repos_fetching : Eta repos_fetching := λ f,
  mkReposFetching (fetching_repositories f) (fetching_secrets f).

Record IAppRepositoryState := mkIAppRepositoryState {
  repos_addingRepo : bool;
  repos_errors_ : repos_errors;
  repos_lastAdded : option IAppRepository;
  repos_isFetching : bool;
  repos_isFetchingElem : repos_fetching;
  repos_validating : bool;
  repos_repo : option IAppRepository;
  repos_repos : list IAppRepository;
  repos_repoSecrets : list ISecret;
  repos_form_ : repos_form;
  repos_imagePullSecrets : list ISecret;
  repos_redirectTo : option string;
}.
#[export] Instance eta_IAppRepositoryState : Eta IAppRepositoryState := λ s,
  mkIAppRepositoryState (repos_addingRepo s) (repos_errors_ s) (repos_lastAdded s)
    (repos_isFetching s) (repos_isFetchingElem s) (repos_validating s) (repos_repo s)
    (repos_repos s) (repos_repoSecrets s) (repos_form_ s) (repos_imagePullSecrets s)
    (repos_redirectTo s).

Definition repos_initialState : IAppRepositoryState :=
  {| repos_addingRepo := false; repos_errors_ := no_errors; repos_lastAdded := None;
     repos_isFetching := false; repos_isFetchingElem := mkReposFetching false false;
     repos_validating := false; repos_repo := None; repos_repos := []; repos_repoSecrets := [];
     repos_form_ := mkReposForm "" "" "" false; repos_imagePullSecrets := [];
     repos_redirectTo := None |}.

(** [isFetching], with the spread of its result into the state. *)
Definition set_fetching (item : repos_item) (fetching : bool) (f : repos_fetching) : repos_fetching :=
  match item with
  | repositories => f <| fetching_repositories := fetching |>
  | secrets => f <| fetching_secrets := fetching |>
  end.

Definition repos_setFetching (state : IAppRepositoryState) (item : repos_item) (fetching : bool)
    : IAppRepositoryState :=
  let composedIsFetching := set_fetching item fetching (repos_isFetchingElem state) in
  state <| repos_isFetching :=
             some id [fetching_repositories composedIsFetching;
                      fetching_secrets composedIsFetching] |>
        <| repos_isFetchingElem := composedIsFetching |>.

(** Objects with the same name and namespace. *)
Definition same_secret (s t : ISecret) : bool :=
  bool_decide (IResourceMetadata_name (ISecret_metadata s) =
               IResourceMetadata_name (ISecret_metadata t)) &&
  bool_decide (IResourceMetadata_namespace (ISecret_metadata s) =
               IResourceMetadata_namespace (ISecret_metadata t)).

Definition same_repo (r s : IAppRepository) : bool :=
  bool_decide (IK8sMetadata_name (IK8sObject_metadata r) =
               IK8sMetadata_name (IK8sObject_metadata s)) &&
  bool_decide (IK8sMetadata_namespace (IK8sObject_metadata r) =
               IK8sMetadata_namespace (IK8sObject_metadata s)).

Definition receive_secret (secret : ISecret) (repoSecrets : list ISecret) : list ISecret :=
  match findIndex (λ s, same_secret s secret) repoSecrets with
  | Some existingSecret => <[existingSecret := secret]> repoSecrets
  | None => repoSecrets ++ [secret]
  end.

Definition reposReducer (state : IAppRepositoryState) (a : action) : IAppRepositoryState :=
  match a with
  | ARepos (receiveRepos repos) | ARepos (concatRepos repos) =>
    (repos_setFetching state repositories false)
      <| repos_repos := repos |> <| repos_errors_ := no_errors |>
  | ARepos (receiveRepo repo) =>
    (repos_setFetching state repositories false)
      <| repos_repo := Some repo |> <| repos_errors_ := no_errors |>
  | ARepos clearRepo =>
    (repos_setFetching state repositories false)
      <| repos_repo := None |> <| repos_errors_ := no_errors |>
  | ARepos (receiveReposSecrets received) => state <| repos_repoSecrets := received |>
  | ARepos (receiveReposSecret secret) =>
    state <| repos_repoSecrets := receive_secret secret (repos_repoSecrets state) |>
  | ARepos (requestRepos _) => repos_setFetching state repositories true
  | ARepos addRepo => state <| repos_addingRepo := true |>
  | ARepos (addedRepo added) =>
    state <| repos_addingRepo := false |> <| repos_lastAdded := Some added |>
          <| repos_repos := repos_repos state ++ [added] |>
  | ARepos (repoUpdated updatedRepo) =>
    state <| repos_repos :=
               (λ r, if same_repo r updatedRepo then updatedRepo else r) <$> repos_repos state |>
  | ARepos repoValidating => state <| repos_validating := true |>
  | ARepos (repoValidated _) =>
    state <| repos_validating := false |>
          <| repos_errors_ := set_error op_validate None (repos_errors_ state) |>
  | ARepos resetForm =>
    state <| repos_form_ :=
               (repos_form_ state) <| form_name := "" |> <| form_namespace := "" |>
                                   <| form_url := "" |> |>
  | ARepos showForm => state <| repos_form_ := (repos_form_ state) <| form_show := true |> |>
  | ARepos hideForm => state <| repos_form_ := (repos_form_ state) <| form_show := false |> |>
  | ARepos (redirect path) => state <| repos_redirectTo := Some path |>
  | ARepos redirected => state <| repos_redirectTo := None |>
  | ARepos (requestImagePullSecrets _) => repos_setFetching state secrets true
  | ARepos (receiveImagePullSecrets received) =>
    (repos_setFetching state secrets false)
      <| repos_imagePullSecrets := received |>
  | ARepos (errorRepos err op) =>
    state <| repos_errors_ :=
               set_error op (Some err)
                 (no_errors <| errors_fetch := errors_fetch (repos_errors_ state) |>) |>
          <| repos_isFetching := false |>
          <| repos_isFetchingElem := mkReposFetching false false |>
          <| repos_validating := false |>
  | LOCATION_CHANGE _ =>
    state <| repos_errors_ := no_errors |>
          <| repos_isFetching := false |>
          <| repos_isFetchingElem := mkReposFetching false false |>
  | _ => state
  end.

(** ** Facts *)

#[export] Instance repos_tracked : FetchTracked IAppRepositoryState repos_item.
Proof.
  refine {|
    ft_all := [repositories; secrets];
    ft_flag := repos_isFetching;
    ft_elem s i := match i with
                   | repositories => fetching_repositories (repos_isFetchingElem s)
                   | secrets => fetching_secrets (repos_isFetchingElem s)
                   end;
    ft_set := repos_setFetching |}.
  - intros []; set_solver.
  - by intros s [] b [].
  - by intros s [] b.
Defined.

Lemma repos_initialState_tracked : tracked repos_initialState.
Proof. done. Qed.

Lemma reposReducer_tracked state a : tracked state → tracked (reposReducer state a).
Proof.
  intros Ht. destruct a as [| | | | | | |a| |]; [done..| |done|done].
  destruct a; try done; try apply (tracked_set (T:=IAppRepositoryState)).
Qed.

(** What a secret is found by. *)
Definition secret_key (s : ISecret) : string * string :=
  (IResourceMetadata_name (ISecret_metadata s), IResourceMetadata_namespace (ISecret_metadata s)).

Lemma same_secret_spec s t : same_secret s t ↔ secret_key s = secret_key t.
Proof.
  unfold same_secret, secret_key. rewrite andb_True, !bool_decide_spec.
  split; [intros [-> ->]; done|by intros [= -> ->]].
Qed.

Definition find_secret (k : string * string) (l : list ISecret) : option ISecret :=
  find (λ s, bool_decide (secret_key s = k)) l.

Lemma receive_secret_keys secret l :
  secret_key <$> receive_secret secret l =
  if bool_decide (secret_key secret ∈ secret_key <$> l) then secret_key <$> l
  else (secret_key <$> l) ++ [secret_key secret].
Proof.
  unfold receive_secret. destruct (findIndex _ l) as [i|] eqn:Hi.
  - apply findIndex_Some in Hi as (s & Hs & Hk & _). apply same_secret_spec in Hk.
    rewrite bool_decide_true.
    + rewrite list_fmap_insert. apply list_insert_id. by rewrite list_lookup_fmap, Hs, <-Hk.
    + apply list_elem_of_fmap. exists s. split; [done|]. by eapply list_elem_of_lookup_2.
  - rewrite findIndex_None in Hi. rewrite bool_decide_false; [by rewrite fmap_app|].
    intros (s & Hk & Hs)%list_elem_of_fmap. specialize (Hi s Hs).
    apply Is_true_false in Hi. by apply Hi, same_secret_spec.
Qed.

Lemma find_secret_insert k secret l i :
  (∀ s, l !! i = Some s → secret_key s = secret_key secret) → i < length l →
  (∀ j s, j < i → l !! j = Some s → secret_key s ≠ secret_key secret) →
  find_secret k (<[i:=secret]> l) =
  if bool_decide (secret_key secret = k) then Some secret else find_secret k l.
Proof.
  unfold find_secret, find. revert i; induction l as [|s l IH]; intros i Hi Hlen Hmin; simpl in *; [lia|].
  destruct i as [|i]; simpl.
  - rewrite (Hi s eq_refl). by case_bool_decide.
  - rewrite IH; [|done|lia|by intros j s' Hj; apply (Hmin (S j)); lia].
    pose proof (Hmin 0 s (Nat.lt_0_succ i) eq_refl).
    repeat case_bool_decide; congruence.
Qed.

Lemma find_secret_receive k secret l :
  find_secret k (receive_secret secret l) =
  if bool_decide (secret_key secret = k) then Some secret else find_secret k l.
Proof.
  unfold receive_secret. destruct (findIndex _ l) as [i|] eqn:Hi.
  - apply findIndex_Some in Hi as (s & Hs & Hk & Hmin). apply same_secret_spec in Hk.
    apply find_secret_insert.
    + intros s' Hs'. assert (s' = s) as -> by congruence. done.
    + by eapply lookup_lt_Some.
    + intros j s' Hj Hs' Heq. apply (Hmin j s') in Hj; [|done].
      apply Is_true_false in Hj. by apply Hj, same_secret_spec.
  - rewrite findIndex_None in Hi. unfold find_secret, find.
    induction l as [|s l IH]; simpl; [by case_bool_decide|].
    rewrite IH by (intros x Hx; apply Hi; by right).
    assert (secret_key s ≠ secret_key secret) as Hne.
    { intros Heq. specialize (Hi s (list_elem_of_here s l)).
      apply Is_true_false in Hi. by apply Hi, same_secret_spec. }
    repeat case_bool_decide; congruence.
Qed.

(** [receiveReposSecret] is an insertion into a finite map: looking a secret up by
    name and namespace gives the new one under its own key and what was there under
    every other, no key appears twice if none did, the order of the known keys is
    kept, and the rest of the slice does not change. *)
Theorem receiveReposSecret_upsert state secret :
  let state' := reposReducer state (receiveReposSecret secret) in
  (∀ k, find_secret k (repos_repoSecrets state') =
        if bool_decide (secret_key secret = k) then Some secret
        else find_secret k (repos_repoSecrets state)) ∧
  (NoDup (secret_key <$> repos_repoSecrets state) →
   NoDup (secret_key <$> repos_repoSecrets state')) ∧
  (secret_key <$> repos_repoSecrets state) `prefix_of` (secret_key <$> repos_repoSecrets state') ∧
  state' <| repos_repoSecrets := repos_repoSecrets state |> = state.
Proof.
  intros state'. subst state'. simpl. split_and!.
  - intros k. apply find_secret_receive.
  - intros Hnd. rewrite receive_secret_keys. case_bool_decide as Hin; [done|].
    apply NoDup_app. split_and!; [done| |apply NoDup_singleton].
    intros k Hk. rewrite list_elem_of_singleton. by intros ->.
  - rewrite receive_secret_keys. case_bool_decide; [done|]. by apply prefix_app_r.
  - by destruct state.
Qed.

(** The loading flag of the slice is the disjunction of the flags of its two
    elements, in every state a sequence of actions leads to, and after an error or a
    navigation nothing is loading. *)
Theorem reposReducer_fetching actions a :
  let state := foldl reposReducer repos_initialState actions in
  let elem := repos_isFetchingElem (reposReducer state a) in
  repos_isFetching (reposReducer state a) = fetching_repositories elem || fetching_secrets elem ∧
  ((∃ err op, a = errorRepos err op) ∨ (∃ path, a = LOCATION_CHANGE path) →
   repos_isFetching (reposReducer state a) = false).
Proof.
  intros state elem. assert (tracked state) as Ht.
  { subst state. induction actions as [|b actions IH] using rev_ind; [done|].
    rewrite foldl_app. by apply reposReducer_tracked. }
  split.
  - pose proof (reposReducer_tracked state a Ht) as Heq. unfold tracked in Heq.
    simpl in Heq. by rewrite orb_false_r in Heq.
  - by intros [(err & op & ->)|(path & ->)].
Qed.

(** An error is recorded under its operation, the error of fetching survives
    the errors of the other operations, and those are forgotten. *)
Theorem errorRepos_keeps_fetch state err op op' :
  get_error op' (repos_errors_ (reposReducer state (errorRepos err op))) =
  if decide (op' = op) then Some err
  else if decide (op' = op_fetch) then get_error op_fetch (repos_errors_ state)
  else None.
Proof. by destruct op, op'. Qed.
