(* ===== verification/OperatorsReducer.v ===== *)
(** * The slice [operators] of the store (src/dashboard/src/reducers/operators.ts) *)

From S2P Require Import Prelude.
From S2P Require Import Json.
From S2P Require Import Types.
From S2P Require Import KubeRef.
From S2P Require Import Actions.
From S2P Require Import FetchTracked.

Record IOperatorsStateError := mkOperatorsError {
  oerr_fetch : option js_error;
  oerr_create : option js_error;
  oerr_delete : option js_error;
  oerr_update : option js_error;
}.

Definition no_error : IOperatorsStateError := mkOperatorsError None None None None.
Definition error_fetch (e : js_error) : IOperatorsStateError := mkOperatorsError (Some e) None None None.
Definition error_create (e : js_error) : IOperatorsStateError := mkOperatorsError None (Some e) None None.
Definition error_delete (e : js_error) : IOperatorsStateError := mkOperatorsError None None (Some e) None.
Definition error_update (e : js_error) : IOperatorsStateError := mkOperatorsError None None None (Some e).

Record operators_errors := mkErrors {
  err_operator : IOperatorsStateError;
  err_csv : IOperatorsStateError;
  err_resource : IOperatorsStateError;
  err_subscriptions : IOperatorsStateError;
}.
#[export] Instance eta_operators_errors : Eta operators_errors := λ e,
  mkErrors (err_operator e) (err_csv e) (err_resource e) (err_subscriptions e).

Definition operators_no_errors : operators_errors := mkErrors no_error no_error no_error no_error.

Inductive operators_item := OLM | operator | csv | resource | subscriptions.
#[export] Instance operators_item_eq_dec : EqDecision operators_item.
Proof. solve_decision. Defined.

Record operators_fetching := mkOperatorsFetching {
  fetching_OLM : bool;
  fetching_operator : bool;
  fetching_csv : bool;
  fetching_resource : bool;
  fetching_subscriptions : bool;
}.
#[export] Instance eta_operators_fetching : Eta operators_fetching := λ f,
  mkOperatorsFetching (fetching_OLM f) (fetching_operator f) (fetching_csv f)
    (fetching_resource f) (fetching_subscriptions f).

Record IOperatorsState := mkOperatorsState {
  operators_isFetching : bool;
  operators_isFetchingElem : operators_fetching;
  operators_isOLMInstalled : bool;
  operators_operators : list IPackageManifest;
  operators_operator : option IPackageManifest;
  operators_errors_ : operators_errors;
  operators_csvs : list IClusterServiceVersion;
  operators_csv : option IClusterServiceVersion;
  operators_resources : list IResource;
  operators_resource : option IResource;
  operators_subscriptions : list IResource;
}.
#[export] Instance eta_IOperatorsState : Eta IOperatorsState := λ s,
  mkOperatorsState (operators_isFetching s) (operators_isFetchingElem s)
    (operators_isOLMInstalled s) (operators_operators s) (operators_operator s)
    (operators_errors_ s) (operators_csvs s) (operators_csv s) (operators_resources s)
    (operators_resource s) (operators_subscriptions s).

Definition operatorsInitialState : IOperatorsState :=
  {| operators_isFetching := false;
     operators_isFetchingElem := mkOperatorsFetching false false false false false;
     operators_isOLMInstalled := false; operators_operators := []; operators_operator := None;
     operators_errors_ := operators_no_errors; operators_csvs := []; operators_csv := None;
     operators_resources := []; operators_resource := None; operators_subscriptions := [] |}.

(** [isFetching], with the spread of its result into the state. *)
Definition operators_set_fetching (item : operators_item) (fetching : bool)
    (f : operators_fetching) : operators_fetching :=
  match item with
  | OLM => f <| fetching_OLM := fetching |>
  | operator => f <| fetching_operator := fetching |>
  | csv => f <| fetching_csv := fetching |>
  | resource => f <| fetching_resource := fetching |>
  | subscriptions => f <| fetching_subscriptions := fetching |>
  end.

Definition operators_setFetching (state : IOperatorsState) (item : operators_item)
    (fetching : bool) : IOperatorsState :=
  let composedIsFetching :=
    operators_set_fetching item fetching (operators_isFetchingElem state) in
  state <| operators_isFetching :=
             some id [fetching_OLM composedIsFetching; fetching_operator composedIsFetching;
                      fetching_csv composedIsFetching; fetching_resource composedIsFetching;
                      fetching_subscriptions composedIsFetching] |>
        <| operators_isFetchingElem := composedIsFetching |>.

Definition set_errors (f : operators_errors → operators_errors) (state : IOperatorsState)
    : IOperatorsState :=
  state <| operators_errors_ := f (operators_errors_ state) |>.

Definition operatorReducer (state : IOperatorsState) (a : action) : IOperatorsState :=
  match a with
  | AOperator o =>
    match o with
    | checkingOLM => operators_setFetching state OLM true
    | OLMInstalled =>
      operators_setFetching (state <| operators_isOLMInstalled := true |>) OLM false
    | errorOLMCheck err =>
      set_errors (λ e, e <| err_operator := error_fetch err |>)
        (operators_setFetching state OLM false)
    | requestOperators => operators_setFetching state operator true
    | receiveOperators operators =>
      (operators_setFetching state operator false) <| operators_operators := operators |>
    | requestOperator => operators_setFetching state operator true
    | receiveOperator received =>
      (operators_setFetching state operator false) <| operators_operator := Some received |>
    | errorOperators err =>
      set_errors (λ e, e <| err_operator := error_fetch err |>)
        ((operators_setFetching state operator false) <| operators_operator := None |>)
    | requestCSVs => operators_setFetching state csv true
    | receiveCSVs csvs => (operators_setFetching state csv false) <| operators_csvs := csvs |>
    | requestCSV => operators_setFetching state csv true
    | receiveCSV received =>
      (operators_setFetching state csv false) <| operators_csv := Some received |>
    | errorCSVs err =>
      set_errors (λ e, e <| err_csv := error_fetch err |>)
        ((operators_setFetching state csv false) <| operators_csv := None |>)
    | creatingResource => operators_setFetching state resource true
    | resourceCreated _ => operators_setFetching state resource false
    | updatingResource => operators_setFetching state resource true
    | resourceUpdated _ => operators_setFetching state resource false
    | deletingResource => operators_setFetching state resource true
    | resourceDeleted => operators_setFetching state resource false
    | errorResourceDelete err =>
      set_errors (λ e, e <| err_resource := error_delete err |>)
        (operators_setFetching state resource false)
    | errorResourceCreate err =>
      set_errors (λ e, e <| err_resource := error_create err |>)
        (operators_setFetching state resource false)
    | errorResourceUpdate err =>
      set_errors (λ e, e <| err_resource := error_update err |>)
        (operators_setFetching state resource false)
    | requestCustomResources => operators_setFetching state resource true
    | receiveCustomResources resources =>
      (operators_setFetching state resource false) <| operators_resources := resources |>
    | errorCustomResource err =>
      set_errors (λ e, e <| err_resource := error_fetch err |>)
        ((operators_setFetching state resource false) <| operators_resource := None |>)
    | requestCustomResource => operators_setFetching state resource true
    | receiveCustomResource received =>
      (operators_setFetching state resource false) <| operators_resource := Some received |>
    | creatingOperator => operators_setFetching state operator true
    | operatorCreated _ => operators_setFetching state operator false
    | errorOperatorCreate err =>
      set_errors (λ e, e <| err_operator := error_create err |>)
        (operators_setFetching state operator false)
    | requestSubscriptions => operators_setFetching state subscriptions true
    | receiveSubscriptions resources =>
      (operators_setFetching state subscriptions false) <| operators_subscriptions := resources |>
    | errorSubscriptionList err =>
      set_errors (λ e, e <| err_subscriptions := error_fetch err |>)
        ((operators_setFetching state subscriptions false) <| operators_resource := None |>)
    end
  | LOCATION_CHANGE _ =>
    state <| operators_isOLMInstalled := operators_isOLMInstalled state |>
          <| operators_errors_ := operators_no_errors |>
  | ANamespace (setNamespaceState _ _) =>
    operatorsInitialState <| operators_isOLMInstalled := operators_isOLMInstalled state |>
  | _ => state
  end.

(** ** Facts *)

#[export] Instance operators_tracked : FetchTracked IOperatorsState operators_item.
Proof.
  refine {|
    ft_all := [OLM; operator; csv; resource; subscriptions];
    ft_flag := operators_isFetching;
    ft_elem s i := let f := operators_isFetchingElem s in
                   match i with
                   | OLM => fetching_OLM f
                   | operator => fetching_operator f
                   | csv => fetching_csv f
                   | resource => fetching_resource f
                   | subscriptions => fetching_subscriptions f
                   end;
    ft_set := operators_setFetching |}.
  - intros []; set_solver.
  - by intros s [] b [].
  - by intros s [] b.
Defined.

Lemma operators_initialState_tracked : tracked operatorsInitialState.
Proof. done. Qed.

Lemma operatorReducer_tracked state a : tracked state → tracked (operatorReducer state a).
Proof.
  intros Ht. destruct a as [| | | | |n|o| | |]; try done.
  - by destruct n.
  - by destruct o.
Qed.

(** The item an action of the slice is about, and whether it starts (or ends) a request. *)
Definition operator_request (o : OperatorAction) : operators_item * bool :=
  match o with
  | checkingOLM => (OLM, true)
  | OLMInstalled | errorOLMCheck _ => (OLM, false)
  | requestOperators | requestOperator | creatingOperator => (operator, true)
  | receiveOperators _ | receiveOperator _ | errorOperators _ | operatorCreated _
  | errorOperatorCreate _ => (operator, false)
  | requestCSVs | requestCSV => (csv, true)
  | receiveCSVs _ | receiveCSV _ | errorCSVs _ => (csv, false)
  | creatingResource | updatingResource | deletingResource | requestCustomResources
  | requestCustomResource => (resource, true)
  | resourceCreated _ | resourceUpdated _ | resourceDeleted | errorResourceDelete _
  | errorResourceCreate _ | errorResourceUpdate _ | receiveCustomResources _
  | errorCustomResource _ | receiveCustomResource _ => (resource, false)
  | requestSubscriptions => (subscriptions, true)
  | receiveSubscriptions _ | errorSubscriptionList _ => (subscriptions, false)
  end.

Lemma operatorReducer_elem state o i :
  ft_elem (operatorReducer state (AOperator o)) i =
  if decide (i = (operator_request o).1) then (operator_request o).2 else ft_elem state i.
Proof. by destruct o, i. Qed.

(** What is being fetched after a sequence of actions of the slice: an element is
    when the last action about it was a request. *)
Fixpoint pending (os : list OperatorAction) (i : operators_item) : bool :=
  match os with
  | [] => false
  | o :: os' =>
    if decide (i = (operator_request o).1) then (operator_request o).2 else pending os' i
  end.

(** The flags of the operators are those of the requests under way: after any
    sequence of actions of the slice (the last one first in the list) a flag is set
    exactly when the last action about its element was a request, and the flag of the
    slice is set exactly when one of them is. *)
Theorem operatorReducer_pending os :
  let state := foldr (λ o s, operatorReducer s (AOperator o)) operatorsInitialState os in
  (∀ i, ft_elem state i = pending os i) ∧
  (operators_isFetching state ↔ ∃ i, pending os i).
Proof.
  intros state.
  assert (∀ i, ft_elem state i = pending os i) as Helem.
  { subst state. intros i. induction os as [|o os IH]; [by destruct i|].
    etrans; [apply operatorReducer_elem|]. cbn [pending]. by rewrite <-IH. }
  assert (tracked state) as Ht.
  { subst state. clear Helem. induction os as [|o os IH]; [done|]. by apply operatorReducer_tracked. }
  split; [done|]. setoid_rewrite <-Helem. pose proof (proj1 (tracked_spec state) Ht) as Hspec.
  exact Hspec.
Qed.
