(* ===== verification/ClusterReducer.v ===== *)
(** * The slice [clusters] of the store (src/dashboard/src/reducers/cluster.ts)

    Spreading the entry of an unknown cluster makes an entry with some fields
    missing, so the fields of an entry are optional; a configuration without
    clusters leaves the current cluster [undefined].  Reading a field of a missing
    entry throws, so the reducer returns an outcome. *)

From S2P Require Import Prelude.
From S2P Require Import Json.
From S2P Require Import Browser.
From S2P Require Import Types.
From S2P Require Import Url.
From S2P Require Import KubeRef.
From S2P Require Import Actions.

Record IClusterState := mkIClusterState {
  IClusterState_currentNamespace : option string;
  IClusterState_namespaces : option (list string);
  IClusterState_canCreateNS : option bool;
  IClusterState_error : option (string * js_error);
}.
#[export] Instance eta_IClusterState : Eta IClusterState := λ s,
  mkIClusterState (IClusterState_currentNamespace s) (IClusterState_namespaces s)
    (IClusterState_canCreateNS s) (IClusterState_error s).

Record IClustersState := mkIClustersState {
  IClustersState_currentCluster : option string;
  IClustersState_clusters : gmap string IClusterState;
}.
#[export] Instance eta_IClustersState : Eta IClustersState := λ s,
  mkIClustersState (IClustersState_currentCluster s) (IClustersState_clusters s).

(** [{ ...undefined }] *)
Definition empty_entry : IClusterState := mkIClusterState None None None None.

(** A property name: [clusters[undefined]] is the property ["undefined"]. *)
Definition property_key (k : option string) : string := default "undefined" k.

Definition spread_entry (state : IClustersState) (cluster : string) : IClusterState :=
  default empty_entry (IClustersState_clusters state !! cluster).

Definition set_entry (cluster : string) (e : IClusterState) (state : IClustersState)
    : IClustersState :=
  state <| IClustersState_clusters := <[cluster := e]> (IClustersState_clusters state) |>.

(** The word up to the next slash and what follows. *)
Fixpoint until_slash (s : string) : string * string :=
  match s with
  | EmptyString => ("", "")
  | String a s' =>
    if bool_decide (a = "/"%char) then ("", s)
    else let '(w, rest) := until_slash s' in (String a w, rest)
  end.

Definition drop_str (n : nat) (s : string) : string :=
  String.substring n (String.length s - n) s.

(** The optional group of the expression: the prefix and the characters up to the
    next slash, captured; what follows the group. *)
Definition match_group (prefix s : string) : option string * string :=
  if starts_with prefix s
  then let '(w, rest) := until_slash (drop_str (String.length prefix) s) in (Some w, rest)
  else (None, s).

(** [pathname.match(...)]: the group of [/c/], then the group of [/ns/].  Both are
    optional, so the expression matches, perhaps nothing, at the start of the text
    and nowhere else. *)
Definition match_location (pathname : string) : option string * option string :=
  let '(cluster, rest) := match_group "/c/" pathname in
  let '(namespace, _) := match_group "/ns/" rest in
  (cluster, namespace).

(** [a || b] for optional strings. *)
Definition or_opt (a b : option string) : option string := if truthy_opt a then a else b.

Section with_libraries.
Context `{Lodash} `{Jwt}.

Definition clusters_getInitialState (b : browser) : IClustersState :=
  let token := or_opt_str (getAuthToken b) "" in
  {| IClustersState_currentCluster := Some "default";
     IClustersState_clusters :=
       {[ "default" :=
            {| IClusterState_currentNamespace := Some (defaultNamespaceFromToken token);
               IClusterState_namespaces := Some []; IClusterState_canCreateNS := Some false;
               IClusterState_error := None |} ]} |}.

Definition config_clusters (clusters : list string) : gmap string IClusterState :=
  foldl (λ m c, <[c := {| IClusterState_currentNamespace := Some "";
                          IClusterState_namespaces := Some [];
                          IClusterState_canCreateNS := Some false;
                          IClusterState_error := None |}]> m) ∅ clusters.

Definition clusterReducer (initialState state : IClustersState) (a : action) (b : browser)
    : outcome IClustersState :=
  match a with
  | ANamespace (receiveNamespace cluster ns) =>
    let name := IResourceMetadata_name (IResource_metadata ns) in
    entry ← require "namespaces" (IClustersState_clusters state !! cluster);
    namespaces ← require "includes" (IClusterState_namespaces entry);
    if negb (list_includes namespaces name) then
      Ok (set_entry cluster
            (entry <| IClusterState_namespaces := Some (sort_strings (namespaces ++ [name])) |>
                   <| IClusterState_error := None |>) state)
    else Ok state
  | ANamespace (receiveNamespaces cluster namespaces) =>
    entry ← require "currentNamespace" (IClustersState_clusters state !! cluster);
    Ok (set_entry cluster
          (entry <| IClusterState_namespaces := Some namespaces |>
                 <| IClusterState_currentNamespace :=
                      Some (getCurrentNamespace b cluster
                        (default "" (IClusterState_currentNamespace entry)) namespaces) |>
                 <| IClusterState_error := None |>) state)
  | ANamespace (setNamespaceState cluster ns) =>
    Ok (set_entry cluster
          ((spread_entry state (property_key (IClustersState_currentCluster state)))
             <| IClusterState_currentNamespace := Some ns |>
             <| IClusterState_error := None |>)
          (state <| IClustersState_currentCluster := Some cluster |>))
  | ANamespace (errorNamespaces cluster err op) =>
    Ok (set_entry cluster
          ((spread_entry state cluster) <| IClusterState_error := Some (op, err) |>) state)
  | ANamespace clearClusters =>
    Ok (state <| IClustersState_clusters := IClustersState_clusters initialState |>)
  | ANamespace (setAllowCreate cluster allowed) =>
    Ok (set_entry cluster
          ((spread_entry state cluster) <| IClusterState_canCreateNS := Some allowed |>) state)
  | LOCATION_CHANGE pathname =>
    let '(cluster, ns) := match_location pathname in
    let currentCluster := or_opt cluster (IClustersState_currentCluster state) in
    let key := property_key currentCluster in
    currentNamespace ←
      (if truthy_opt ns then Ok ns
       else IClusterState_currentNamespace <$>
              require "currentNamespace" (IClustersState_clusters state !! key));
    Ok (set_entry key
          ((spread_entry state key) <| IClusterState_currentNamespace := currentNamespace |>)
          (state <| IClustersState_currentCluster := currentCluster |>))
  | AConfig (receiveConfig config) =>
    Ok (state <| IClustersState_currentCluster := head (IConfig_clusters config) |>
              <| IClustersState_clusters := config_clusters (IConfig_clusters config) |>)
  | _ => Ok state
  end.
End with_libraries.

(** ** Facts *)

Lemma until_slash_cons a s :
  until_slash (String a s) =
  if bool_decide (a = "/"%char) then ("", String a s)
  else let '(w, rest) := until_slash s in (String a w, rest).
Proof. done. Qed.

Lemma until_slash_lacks w r :
  lacks "/" w → (r = "" ∨ ∃ r', r = String "/" r') → until_slash (w +:+ r) = (w, r).
Proof.
  unfold lacks. induction w as [|a w IH]; intros Hw Hr.
  - rewrite str_app_nil_l. by destruct Hr as [->|(r' & ->)].
  - cbn [str_all] in Hw. apply andb_True in Hw as [Ha Hw].
    rewrite str_app_cons, until_slash_cons, (IH Hw Hr). case_bool_decide; done.
Qed.

Lemma starts_with_app p s : starts_with p (p +:+ s) = true.
Proof.
  induction p as [|a p IH]; [done|]. rewrite str_app_cons. simpl.
  by rewrite bool_decide_true.
Qed.

Lemma substring_all n s : String.length s ≤ n → String.substring 0 n s = s.
Proof.
  revert n; induction s as [|a s IH]; intros [|n] Hn; simpl in *; [done..|lia|].
  f_equal. apply IH. lia.
Qed.

Lemma drop_str_app p s : drop_str (String.length p) (p +:+ s) = s.
Proof.
  unfold drop_str. rewrite str_length_app. replace (_ - _) with (String.length s) by lia.
  induction p as [|a p IH]; [by apply substring_all|]. by rewrite str_app_cons.
Qed.

Lemma match_group_app prefix w r :
  lacks "/" w → (r = "" ∨ ∃ r', r = String "/" r') →
  match_group prefix (prefix +:+ (w +:+ r)) = (Some w, r).
Proof.
  intros Hw Hr. unfold match_group. rewrite starts_with_app, drop_str_app.
  by rewrite until_slash_lacks.
Qed.

Lemma match_location_namespaced cluster ns r :
  lacks "/" cluster → lacks "/" ns → (r = "" ∨ ∃ r', r = String "/" r') →
  match_location ("/c/" +:+ cluster +:+ "/ns/" +:+ ns +:+ r) = (Some cluster, Some ns).
Proof.
  intros Hc Hn Hr. unfold match_location.
  rewrite match_group_app; [|done|right; by eexists].
  by rewrite match_group_app.
Qed.

(** The routes of the application that name a cluster and a namespace. *)
Inductive namespaced_route (c ns : string) : string → Prop :=
| route_apps_list : namespaced_route c ns (app_apps_list c ns)
| route_apps_get n : namespaced_route c ns (app_apps_get c ns n)
| route_apps_upgrade n : namespaced_route c ns (app_apps_upgrade c ns n)
| route_apps_new cv v g : namespaced_route c ns (app_apps_new c ns cv v g)
| route_catalog : namespaced_route c ns (app_catalog c ns)
| route_repo n : namespaced_route c ns (app_repo c ns n)
| route_charts_get n r g : namespaced_route c ns (app_charts_get c ns n r g)
| route_operators_view n : namespaced_route c ns (app_operators_view c ns n)
| route_operators_list : namespaced_route c ns (app_operators_list c ns)
| route_operators_new n : namespaced_route c ns (app_operators_new c ns n)
| route_instances_view v d n : namespaced_route c ns (app_operatorInstances_view c ns v d n)
| route_instances_update v d n : namespaced_route c ns (app_operatorInstances_update c ns v d n)
| route_instances_new v d : namespaced_route c ns (app_operatorInstances_new c ns v d)
| route_config_repos : namespaced_route c ns (app_config_apprepositories c ns)
| route_config_operators : namespaced_route c ns (app_config_operators c ns).

Lemma namespaced_route_shape c ns path :
  namespaced_route c ns path →
  ∃ r, path = "/c/" +:+ c +:+ "/ns/" +:+ ns +:+ String "/" r.
Proof.
  destruct 1; unfold app_apps_upgrade, app_apps_get, app_repo, app_catalog, app_apps_list,
    app_charts_get, app_apps_new, app_operators_view, app_operators_list, app_operators_new,
    app_operatorInstances_view, app_operatorInstances_update, app_operatorInstances_new,
    app_config_apprepositories, app_config_operators; cbv zeta; str_norm; eexists; reflexivity.
Qed.

Section cluster_facts.
Context `{Lodash} `{Jwt}.
Implicit Types (state : IClustersState) (b : browser).

(** The current cluster has an entry. *)
Definition current_entry state : option IClusterState :=
  IClustersState_clusters state !! property_key (IClustersState_currentCluster state).

Definition cluster_ok state : Prop := is_Some (current_entry state).

Lemma clusters_getInitialState_ok b : cluster_ok (clusters_getInitialState b).
Proof using. eexists. apply lookup_singleton_eq. Qed.

Lemma config_clusters_lookup cs c :
  config_clusters cs !! c =
  if bool_decide (c ∈ cs)
  then Some {| IClusterState_currentNamespace := Some ""; IClusterState_namespaces := Some [];
               IClusterState_canCreateNS := Some false; IClusterState_error := None |}
  else None.
Proof using.
  unfold config_clusters.
  induction cs as [|d cs IH] using rev_ind; [done|].
  rewrite foldl_app. simpl. destruct (decide (c = d)) as [->|Hne].
  - by rewrite lookup_insert_eq, bool_decide_true by set_solver.
  - rewrite lookup_insert_ne, IH by done.
    rewrite (bool_decide_ext (c ∈ cs ++ [d]) (c ∈ cs)) by set_solver. done.
Qed.

(** When the reducer throws: a missing entry, or one without namespaces. *)
Definition cluster_throws state (a : action) : bool :=
  match a with
  | ANamespace (receiveNamespace cluster _) =>
    bool_decide ((IClustersState_clusters state !! cluster) ≫= IClusterState_namespaces = None)
  | ANamespace (receiveNamespaces cluster _) =>
    bool_decide (IClustersState_clusters state !! cluster = None)
  | LOCATION_CHANGE pathname =>
    let '(cluster, ns) := match_location pathname in
    negb (truthy_opt ns) &&
    bool_decide (IClustersState_clusters state !!
                   property_key (or_opt cluster (IClustersState_currentCluster state)) = None)
  | _ => false
  end.

Lemma clusterReducer_throws i state a b :
  cluster_throws state a = false ↔ ∃ state', clusterReducer i state a b = Ok state'.
Proof using.
  destruct a as [| | |a| |a| | | |pathname]; try (split; [by eexists|done]).
  - destruct a; split; try done; by eexists.
  - destruct a as [|c ns| | |c l| | |]; try (split; [by eexists|done]); simpl.
    + rewrite bool_decide_eq_false.
      destruct (IClustersState_clusters state !! c) as [e|]; simpl;
        [|split; [done|by intros [? ?]]].
      destruct (IClusterState_namespaces e); simpl; [|split; [done|by intros [? ?]]].
      split; [|done]. intros _. case_match; by eexists.
    + rewrite bool_decide_eq_false.
      destruct (IClustersState_clusters state !! c) as [e|]; simpl;
        [|split; [done|by intros [? ?]]].
      split; [by eexists|done].
  - simpl. destruct (match_location pathname) as [c ns]. destruct (truthy_opt ns); simpl.
    { split; [by eexists|done]. }
    rewrite bool_decide_eq_false. destruct (IClustersState_clusters state !! _); simpl;
      [|split; [done|by intros [? ?]]]. split; [by eexists|done].
Qed.

Lemma set_entry_ok c e state :
  cluster_ok state → cluster_ok (set_entry c e state).
Proof using.
  unfold cluster_ok, current_entry. simpl. intros Hok.
  destruct (decide (property_key (IClustersState_currentCluster state) = c)) as [->|Hne].
  - rewrite lookup_insert_eq. by eexists.
  - by rewrite lookup_insert_ne.
Qed.

Lemma set_current_ok c e state :
  property_key (IClustersState_currentCluster state) = c → cluster_ok (set_entry c e state).
Proof using.
  intros <-. unfold cluster_ok, current_entry. simpl. rewrite lookup_insert_eq. by eexists.
Qed.

(** The actions after which the current cluster may have no entry. *)
Definition forgets_cluster i state (a : action) : bool :=
  match a with
  | ANamespace clearClusters =>
    bool_decide (IClustersState_clusters i !!
                   property_key (IClustersState_currentCluster state) = None)
  | AConfig (receiveConfig config) => bool_decide (IConfig_clusters config = [])
  | _ => false
  end.

Lemma clusterReducer_ok i state a b state' :
  cluster_ok state → clusterReducer i state a b = Ok state' →
  (cluster_ok state' ↔ forgets_cluster i state a = false).
Proof using.
  intros Hok. destruct a as [| | |a| |a| | | |pathname]; try by intros [= <-].
  - destruct a; try by intros [= <-].
    intros [= <-]. unfold cluster_ok, current_entry. simpl.
    rewrite config_clusters_lookup, bool_decide_eq_false.
    destruct (IConfig_clusters config) as [|c cs]; cbn [head property_key default from_option].
    + split; [by intros [? ?]|done].
    + rewrite bool_decide_true by left. split; [done|by eexists].
  - destruct a as [|c ns|c ns| |c l|c e op|c al|]; simpl; try by intros [= <-].
    + intros (e & _ & (l & _ & Hl)%bind_Ok)%bind_Ok. case_match; simplify_eq; [|done].
      split; [done|]. intros _. by apply set_entry_ok.
    + intros [= <-]. split; [done|]. intros _. by apply set_current_ok.
    + intros (e & _ & [= <-])%bind_Ok. split; [done|]. intros _. by apply set_entry_ok.
    + intros [= <-]. split; [done|]. intros _. by apply set_entry_ok.
    + intros [= <-]. split; [done|]. intros _. by apply set_entry_ok.
    + intros [= <-]. unfold cluster_ok, current_entry. simpl.
      rewrite bool_decide_eq_false. symmetry. apply not_eq_None_Some.
  - simpl. destruct (match_location pathname) as [c ns].
    intros (n & _ & [= <-])%bind_Ok. split; [done|]. intros _. by apply set_current_ok.
Qed.

(** Navigating to a location below a cluster and a namespace selects them: the namespace of
    that cluster changes, nothing else of its entry does, and the entries of the other
    clusters stay as they were. *)
Lemma navigate_path i state b c ns r :
  c ≠ "" → ns ≠ "" → lacks "/" c → lacks "/" ns →
  ∃ state', clusterReducer i state
      (LOCATION_CHANGE ("/c/" +:+ c +:+ "/ns/" +:+ ns +:+ String "/" r)) b = Ok state' ∧
    IClustersState_currentCluster state' = Some c ∧
    IClusterState_currentNamespace <$> current_entry state' = Some (Some ns) ∧
    current_entry state' =
      Some ((spread_entry state c) <| IClusterState_currentNamespace := Some ns |>) ∧
    ∀ c', c' ≠ c → IClustersState_clusters state' !! c' = IClustersState_clusters state !! c'.
Proof using.
  intros Hc Hns Hlc Hlns.
  unfold clusterReducer. rewrite match_location_namespaced; [|done..|right; by eexists].
  unfold or_opt, truthy_opt, truthy. rewrite !bool_decide_true by done. simpl.
  eexists; split; [done|]. unfold current_entry. simpl. rewrite lookup_insert_eq.
  split_and!; try done. intros c' Hc'. by rewrite lookup_insert_ne.
Qed.

(** The same for the routes of the application. *)
Theorem navigate_route i state b c ns path :
  namespaced_route c ns path → c ≠ "" → ns ≠ "" → lacks "/" c → lacks "/" ns →
  ∃ state', clusterReducer i state (LOCATION_CHANGE path) b = Ok state' ∧
    IClustersState_currentCluster state' = Some c ∧
    IClusterState_currentNamespace <$> current_entry state' = Some (Some ns) ∧
    current_entry state' =
      Some ((spread_entry state c) <| IClusterState_currentNamespace := Some ns |>) ∧
    ∀ c', c' ≠ c → IClustersState_clusters state' !! c' = IClustersState_clusters state !! c'.
Proof using. intros (r & ->)%namespaced_route_shape. apply navigate_path. Qed.

(** [receiveNamespace] inserts a namespace in a sorted list without repetitions
    and keeps it so; receiving it again changes nothing, and it is refused, by an
    exception, only for a cluster whose namespaces are not known. *)
Theorem receiveNamespace_insert i state b c ns l :
  (IClustersState_clusters state !! c) ≫= IClusterState_namespaces = Some l →
  Sorted String.le l → NoDup l →
  let name := IResourceMetadata_name (IResource_metadata ns) in
  ∃ state' l', clusterReducer i state (receiveNamespace c ns) b = Ok state' ∧
    (IClustersState_clusters state' !! c) ≫= IClusterState_namespaces = Some l' ∧
    (∀ n, n ∈ l' ↔ n = name ∨ n ∈ l) ∧ Sorted String.le l' ∧ NoDup l' ∧
    clusterReducer i state' (receiveNamespace c ns) b = Ok state'.
Proof using.
  intros Hl Hs Hnd name.
  destruct (IClustersState_clusters state !! c) as [e|] eqn:He; [|done]. simpl in Hl.
  assert (Hred : ∀ st e l, IClustersState_clusters st !! c = Some e →
    IClusterState_namespaces e = Some l → name ∈ l →
    clusterReducer i st (receiveNamespace c ns) b = Ok st).
  { intros st e' l' He' Hl' Hin. simpl. rewrite He'. simpl. rewrite Hl'. simpl.
    unfold list_includes. by rewrite bool_decide_true. }
  destruct (decide (name ∈ l)) as [Hin|Hnin].
  - exists state, l. rewrite He. simpl. split_and!; try done; [by eapply Hred| |by eapply Hred].
    intros n. set_solver.
  - pose proof (sort_strings_perm (l ++ [name])) as Hp.
    eexists _, (sort_strings (l ++ [name])). simpl. rewrite He. simpl. rewrite Hl. simpl.
    unfold list_includes. rewrite bool_decide_false by done. simpl.
    split; [done|]. simpl. rewrite lookup_insert_eq. simpl. split_and!; try done.
    + intros n. rewrite Hp. set_solver.
    + apply sort_strings_sorted.
    + rewrite Hp. apply NoDup_app. split_and!; [done|set_solver|apply NoDup_singleton].
    + rewrite bool_decide_true; [done|]. fold name. rewrite Hp. set_solver.
Qed.

(** C16: Starting from a state whose current cluster is known, the reducer throws exactly
    when the action needs the entry of a cluster that is not known (or its list of
    namespaces), and the current cluster stays known unless the clusters are cleared
    while the current one is not an initial one, or a configuration has no cluster. *)
Theorem clusterReducer_safety i state a b :
  cluster_ok state →
  (cluster_throws state a = false ↔ ∃ state', clusterReducer i state a b = Ok state') ∧
  (∀ state', clusterReducer i state a b = Ok state' →
     (cluster_ok state' ↔ forgets_cluster i state a = false)).
Proof using.
  intros Hok. split; [apply clusterReducer_throws|].
  intros state'. by apply clusterReducer_ok.
Qed.

(** [clearClusters] leaves the current cluster dangling: with a configuration whose
    clusters are not named default, logging out makes the next navigation to a path
    that names neither a cluster nor a namespace throw. *)
Theorem clearClusters_then_navigation_throws config b b' state path :
  "default" ∉ IConfig_clusters config → head (IConfig_clusters config) ≠ None →
  match_location path = (None, None) →
  let i := clusters_getInitialState b in
  ∃ state1 state2,
    clusterReducer i state (receiveConfig config) b' = Ok state1 ∧
    clusterReducer i state1 clearClusters b' = Ok state2 ∧
    clusterReducer i state2 (LOCATION_CHANGE path) b' =
      Throws (undefined_access "currentNamespace").
Proof using.
  intros Hd Hh Hp i. eexists _, _. split; [done|]. split; [done|].
  unfold clusterReducer. rewrite Hp. simpl.
  destruct (IConfig_clusters config) as [|c cs]; [done|]. simpl.
  rewrite lookup_singleton_ne; [done|]. intros <-. apply Hd. left.
Qed.

(** [setNamespaceState] selects the cluster and the namespace, but gives the cluster
    the list of namespaces and the permission to create them of the cluster that was
    current before: switching cluster replaces what was known of the target. *)
Theorem setNamespaceState_copies_current i state b c ns :
  ∃ state', clusterReducer i state (setNamespaceState c ns) b = Ok state' ∧
    IClustersState_currentCluster state' = Some c ∧
    (∃ e, current_entry state' = Some e ∧
       IClusterState_currentNamespace e = Some ns ∧ IClusterState_error e = None ∧
       IClusterState_namespaces e = (current_entry state ≫= IClusterState_namespaces) ∧
       IClusterState_canCreateNS e = (current_entry state ≫= IClusterState_canCreateNS)) ∧
    ∀ c', c' ≠ c → IClustersState_clusters state' !! c' = IClustersState_clusters state !! c'.
Proof using.
  eexists; split; [done|]. split; [done|]. split.
  - unfold current_entry. simpl. rewrite lookup_insert_eq. eexists; split; [done|].
    simpl. unfold spread_entry.
    destruct (IClustersState_clusters state !! _); by split_and!.
  - intros c' Hc'. simpl. by rewrite lookup_insert_ne.
Qed.
End cluster_facts.
