(* ===== verification/KubeReducer.v ===== *)
(** * The slice [kube] of the store (src/dashboard/src/reducers/kube.ts)

    The reducer opens and closes WebSockets and starts and stops intervals, so it
    works on the store's slice and on the [kube_world]: every socket ever opened and
    every running interval, by their handles.  A closed socket stays in the world
    with its listeners, since closing a socket that is still connecting fires an
    error event.  [kube_ok] relates the two: no open socket and no interval escapes
    the slice. *)

From S2P Require Import Prelude.
From S2P Require Import Json.
From S2P Require Import JsonText.
From S2P Require Import Browser.
From S2P Require Import Types.
From S2P Require Import Url.
From S2P Require Import KubeRef.
From S2P Require Import Actions.

(** [ws_closed]: the dashboard closed the socket.  [ws_failed]: the connection is gone, after an
    error or because the server closed it; the browser delivers no message then. *)
Record websocket := mkWebsocket {
  ws_url : string;
  ws_protocols : list string;
  ws_onMessage : list socket_listener;
  ws_onError : list socket_listener;
  ws_closed : bool;
  ws_failed : bool;
}.
#[export] Instance eta_websocket : Eta websocket := λ s,
  mkWebsocket (ws_url s) (ws_protocols s) (ws_onMessage s) (ws_onError s) (ws_closed s) (ws_failed s).

Record kube_world := mkKubeWorld {
  kw_sockets : gmap N websocket;
  kw_next_socket : N;
  kw_intervals : gmap N timer_callback;
  kw_next_interval : N;
}.
#[export] Instance eta_kube_world : Eta kube_world := λ w,
  mkKubeWorld (kw_sockets w) (kw_next_socket w) (kw_intervals w) (kw_next_interval w).

Definition kube_world_empty : kube_world := mkKubeWorld ∅ 0 ∅ 1.

Record IKubeState := mkIKubeState {
  IKubeState_items : gmap string (IKubeItem kube_object);
  (** the socket and its error listener *)
  IKubeState_sockets : gmap string (N * socket_listener);
  IKubeState_kinds : gmap string IKind;
  IKubeState_kindsError : option js_error;
  (** [None] is a property that is [undefined] *)
  IKubeState_timers : gmap string (option N);
}.
#[export] Instance eta_IKubeState : Eta IKubeState := λ s,
  mkIKubeState (IKubeState_items s) (IKubeState_sockets s) (IKubeState_kinds s)
    (IKubeState_kindsError s) (IKubeState_timers s).

Definition initialKinds : gmap string IKind := list_to_map [
  ("APIService", mkIKind "apiregistration.k8s.io/v1" "apiservices" false);
  ("AppRepository", mkIKind "kubeapps.com/v1alpha1" "apprepositories" true);
  ("Binding", mkIKind "v1" "bindings" true);
  ("CSINode", mkIKind "storage.k8s.io/v1" "csinodes" false);
  ("ClusterRole", mkIKind "rbac.authorization.k8s.io/v1" "clusterroles" false);
  ("ClusterRoleBinding", mkIKind "rbac.authorization.k8s.io/v1" "clusterrolebindings" false);
  ("ComponentStatus", mkIKind "v1" "componentstatuses" false);
  ("ConfigMap", mkIKind "v1" "configmaps" true);
  ("ControllerRevision", mkIKind "apps/v1" "controllerrevisions" true);
  ("CustomResourceDefinition", mkIKind "apiextensions.k8s.io/v1" "customresourcedefinitions" false);
  ("DaemonSet", mkIKind "apps/v1" "daemonsets" true);
  ("Deployment", mkIKind "apps/v1" "deployments" true);
  ("Endpoints", mkIKind "v1" "endpoints" true);
  ("HorizontalPodAutoscaler", mkIKind "autoscaling/v1" "horizontalpodautoscalers" true);
  ("Ingress", mkIKind "extensions/v1beta1" "ingresses" true);
  ("Job", mkIKind "batch/v1" "jobs" true);
  ("Lease", mkIKind "coordination.k8s.io/v1" "leases" true);
  ("LimitRange", mkIKind "v1" "limitranges" true);
  ("LocalSubjectAccessReview", mkIKind "authorization.k8s.io/v1" "localsubjectaccessreviews" true);
  ("MutatingWebhookConfiguration", mkIKind "admissionregistration.k8s.io/v1" "mutatingwebhookconfigurations" false);
  ("Namespace", mkIKind "v1" "namespaces" false);
  ("NetworkPolicy", mkIKind "networking.k8s.io/v1" "networkpolicies" true);
  ("Node", mkIKind "v1" "nodes" false);
  ("PersistentVolume", mkIKind "v1" "persistentvolumes" false);
  ("PersistentVolumeClaim", mkIKind "v1" "persistentvolumeclaims" true);
  ("Pod", mkIKind "v1" "pods" true);
  ("PodTemplate", mkIKind "v1" "podtemplates" true);
  ("PriorityClass", mkIKind "scheduling.k8s.io/v1" "priorityclasses" false);
  ("ReplicaSet", mkIKind "apps/v1" "replicasets" true);
  ("ReplicationController", mkIKind "v1" "replicationcontrollers" true);
  ("ResourceQuota", mkIKind "v1" "resourcequotas" true);
  ("Role", mkIKind "rbac.authorization.k8s.io/v1" "roles" true);
  ("RoleBinding", mkIKind "rbac.authorization.k8s.io/v1" "rolebindings" true);
  ("Secret", mkIKind "v1" "secrets" true);
  ("SelfSubjectAccessReview", mkIKind "authorization.k8s.io/v1" "selfsubjectaccessreviews" false);
  ("SelfSubjectRulesReview", mkIKind "authorization.k8s.io/v1" "selfsubjectrulesreviews" false);
  ("Service", mkIKind "v1" "services" true);
  ("ServiceAccount", mkIKind "v1" "serviceaccounts" true);
  ("StatefulSet", mkIKind "apps/v1" "statefulsets" true);
  ("StorageClass", mkIKind "storage.k8s.io/v1" "storageclasses" false);
  ("SubjectAccessReview", mkIKind "authorization.k8s.io/v1" "subjectaccessreviews" false);
  ("TokenReview", mkIKind "authentication.k8s.io/v1" "tokenreviews" false);
  ("ValidatingWebhookConfiguration", mkIKind "admissionregistration.k8s.io/v1" "validatingwebhookconfigurations" false);
  ("VolumeAttachment", mkIKind "storage.k8s.io/v1" "volumeattachments" false)].

Definition kube_initialState : IKubeState :=
  {| IKubeState_items := ∅; IKubeState_sockets := ∅; IKubeState_kinds := initialKinds;
     IKubeState_kindsError := None; IKubeState_timers := ∅ |}.

(** ** The effects *)

(** [new WebSocket(url, protocols)] *)
Definition new_WebSocket (url : string) (protocols : list string) (w : kube_world)
    : N * kube_world :=
  (kw_next_socket w,
   w <| kw_sockets := <[kw_next_socket w := mkWebsocket url protocols [] [] false false]> (kw_sockets w) |>
     <| kw_next_socket := (kw_next_socket w + 1)%N |>).

Definition update_socket (k : N) (f : websocket → websocket) (w : kube_world) : kube_world :=
  w <| kw_sockets := alter f k (kw_sockets w) |>.

Definition addEventListener_message (k : N) (l : socket_listener) : kube_world → kube_world :=
  update_socket k (λ s, s <| ws_onMessage := ws_onMessage s ++ [l] |>).
Definition addEventListener_error (k : N) (l : socket_listener) : kube_world → kube_world :=
  update_socket k (λ s, s <| ws_onError := ws_onError s ++ [l] |>).
Definition removeEventListener_error (k : N) (l : socket_listener) : kube_world → kube_world :=
  update_socket k (λ s, s <| ws_onError := List.filter (λ l', bool_decide (l' ≠ l)) (ws_onError s) |>).
Definition close_socket (k : N) : kube_world → kube_world :=
  update_socket k (λ s, s <| ws_closed := true |>).

(** What the browser does when the connection is lost. *)
Definition fail_socket (k : N) : kube_world → kube_world :=
  update_socket k (λ s, s <| ws_failed := true |>).

(** [setInterval(callback, 5000)] and [clearInterval(t)] *)
Definition setInterval (cb : timer_callback) (w : kube_world) : N * kube_world :=
  (kw_next_interval w,
   w <| kw_intervals := <[kw_next_interval w := cb]> (kw_intervals w) |>
     <| kw_next_interval := (kw_next_interval w + 1)%N |>).
Definition clearInterval (t : N) (w : kube_world) : kube_world :=
  w <| kw_intervals := delete t (kw_intervals w) |>.

(** ** The reducer *)

Definition selfLink (r : IResource) : string := IResourceMetadata_selfLink (IResource_metadata r).

Section with_location.
Context `{Location}.

(** [ref.watchResource()] *)
Definition watchResource (ref : ResourceRef) (b : browser) : kube_world → N * kube_world :=
  new_WebSocket (watchResourceURL ref) (wsProtocols b).

Definition set_item (key : string) (item : IKubeItem kube_object) (state : IKubeState)
    : IKubeState :=
  state <| IKubeState_items := <[key := item]> (IKubeState_items state) |>.

Definition received (o : kube_object) : IKubeItem kube_object :=
  {| IKubeItem_isFetching := false; IKubeItem_item := Some o; IKubeItem_error := None |}.

Definition kubeReducer (state : IKubeState) (a : action) (b : browser) (w : kube_world)
    : outcome IKubeState * kube_world :=
  match a with
  | AKube (requestResource key) =>
    let item := default {| IKubeItem_isFetching := true; IKubeItem_item := None;
                           IKubeItem_error := None |} (IKubeState_items state !! key) in
    (Ok (set_item key item state), w)
  | AKube (receiveResource key resource) =>
    (Ok (set_item key (received resource) state), w)
  | AKube (receiveResourceKinds kinds) => (Ok (state <| IKubeState_kinds := kinds |>), w)
  | AKube (receiveKindsError err) =>
    (Ok (state <| IKubeState_kinds := initialKinds |> <| IKubeState_kindsError := Some err |>), w)
  | AKube (receiveResourceFromList key newItem) =>
    (item ← require "item" (IKubeState_items state !! key);
     let stateListItem := default (mkKubeObject PNone None) (IKubeItem_item item) in
     match kube_object_items stateListItem with
     | None =>
       Ok (set_item key
             (received (mkKubeObject (kube_object_props stateListItem) (Some [newItem]))) state)
     | Some items =>
       let updatedItems :=
         (λ it, if bool_decide (selfLink it = selfLink newItem) then newItem else it) <$> items in
       Ok (set_item key
             (received (mkKubeObject (kube_object_props stateListItem) (Some updatedItems))) state)
     end, w)
  | AKube (receiveResourceError key error) =>
    (Ok (set_item key {| IKubeItem_isFetching := false; IKubeItem_item := None;
                         IKubeItem_error := Some error |} state), w)
  | AKube (openWatchResource ref handler onError) =>
    let key := watchResourceURL ref in
    match IKubeState_sockets state !! key with
    | Some _ => (Ok state, w)
    | None =>
      let '(socket, w) := watchResource ref b w in
      let w := addEventListener_message socket handler w in
      let w := addEventListener_error socket onError w in
      (Ok (state <| IKubeState_sockets := <[key := (socket, onError)]> (IKubeState_sockets state) |>), w)
    end
  | AKube (closeWatchResource ref) =>
    let key := watchResourceURL ref in
    let timerID := getResourceURL ref in
    let w :=
      match IKubeState_sockets state !! key with
      | Some (socket, onError) =>
        close_socket socket (removeEventListener_error socket onError w)
      | None => w
      end in
    let w :=
      match IKubeState_timers state !! timerID with
      | Some (Some timer) => clearInterval timer w
      | _ => w
      end in
    (Ok (state <| IKubeState_sockets := delete key (IKubeState_sockets state) |>
               <| IKubeState_timers := <[timerID := None]> (IKubeState_timers state) |>), w)
  | AKube (addTimer id timer) =>
    match IKubeState_timers state !! id with
    | Some (Some _) => (Ok state, w)
    | _ =>
      let '(t, w) := setInterval timer w in
      (Ok (state <| IKubeState_timers := <[id := Some t]> (IKubeState_timers state) |>), w)
    end
  | AKube (removeTimer id) =>
    match IKubeState_timers state !! id with
    | Some (Some t) =>
      (Ok (state <| IKubeState_timers := <[id := None]> (IKubeState_timers state) |>),
       clearInterval t w)
    | _ => (Ok state, w)
    end
  | LOCATION_CHANGE _ => (Ok (state <| IKubeState_items := ∅ |>), w)
  | _ => (Ok state, w)
  end.
End with_location.

(** ** No socket and no interval escapes the slice *)

(** [s] is the socket opened for [url] and reports its errors to [l]. *)
Definition serves (s : websocket) (url : string) (l : socket_listener) : Prop :=
  ws_closed s = false ∧ ws_url s = url ∧ ws_onError s = [l].

Record sockets_ok (socks : gmap string (N * socket_listener)) (w : kube_world) : Prop := {
  sockets_live url k l : socks !! url = Some (k, l) →
    ∃ s, kw_sockets w !! k = Some s ∧ serves s url l;
  sockets_registered k s : kw_sockets w !! k = Some s → ws_closed s = false →
    ∃ l, socks !! ws_url s = Some (k, l);
  sockets_silent k s : kw_sockets w !! k = Some s → ws_closed s = true → ws_onError s = [];
  sockets_fresh k s : kw_sockets w !! k = Some s → (k < kw_next_socket w)%N;
}.

Record timers_ok (timers : gmap string (option N)) (w : kube_world) : Prop := {
  timers_live id t : timers !! id = Some (Some t) → is_Some (kw_intervals w !! t);
  timers_registered t cb : kw_intervals w !! t = Some cb → ∃ id, timers !! id = Some (Some t);
  timers_inj id id' t : timers !! id = Some (Some t) → timers !! id' = Some (Some t) → id = id';
  timers_fresh t cb : kw_intervals w !! t = Some cb → (t < kw_next_interval w)%N;
}.

Definition kube_ok (state : IKubeState) (w : kube_world) : Prop :=
  sockets_ok (IKubeState_sockets state) w ∧ timers_ok (IKubeState_timers state) w.

Lemma kube_initial_ok : kube_ok kube_initialState kube_world_empty.
Proof. split; constructor; simpl; intros *; rewrite ?lookup_empty; done. Qed.

(** The two halves of the world do not interfere. *)
Lemma sockets_ok_world socks w w' :
  kw_sockets w' = kw_sockets w → kw_next_socket w' = kw_next_socket w →
  sockets_ok socks w → sockets_ok socks w'.
Proof. intros Hs Hn [H1 H2 H3 H4]. constructor; rewrite ?Hs, ?Hn; eauto. Qed.

Lemma timers_ok_world timers w w' :
  kw_intervals w' = kw_intervals w → kw_next_interval w' = kw_next_interval w →
  timers_ok timers w → timers_ok timers w'.
Proof. intros Hs Hn [H1 H2 H3 H4]. constructor; rewrite ?Hs, ?Hn; eauto. Qed.

Lemma sockets_ok_open socks w url prots h l :
  socks !! url = None → sockets_ok socks w →
  let '(k, w1) := new_WebSocket url prots w in
  sockets_ok (<[url := (k, l)]> socks)
    (addEventListener_error k l (addEventListener_message k h w1)).
Proof.
  intros Hurl [H1 H2 H3 H4]. simpl. set (k := kw_next_socket w).
  assert (kw_sockets w !! k = None) as Hk.
  { destruct (kw_sockets w !! k) as [s|] eqn:Hs; [|done]. apply H4 in Hs. lia. }
  constructor; simpl; intros *.
  - intros [[<- [= <- <-]]|[Hne Hu]]%lookup_insert_Some.
    + rewrite !lookup_alter_eq, lookup_insert_eq. simpl. by eexists.
    + destruct (H1 _ _ _ Hu) as (s & Hs & ?). exists s.
      rewrite !lookup_alter_ne, lookup_insert_ne by congruence. done.
  - destruct (decide (k0 = k)) as [->|Hne].
    + rewrite !lookup_alter_eq, lookup_insert_eq. simpl. intros [= <-] _. simpl.
      eexists. by rewrite lookup_insert_eq.
    + rewrite !lookup_alter_ne, lookup_insert_ne by done. intros Hs Ho.
      destruct (H2 _ _ Hs Ho) as [l' Hl']. exists l'.
      rewrite lookup_insert_ne; [done|]. congruence.
  - destruct (decide (k0 = k)) as [->|Hne].
    + rewrite !lookup_alter_eq, lookup_insert_eq. by intros [= <-].
    + rewrite !lookup_alter_ne, lookup_insert_ne by done. apply H3.
  - destruct (decide (k0 = k)) as [->|Hne]; [lia|].
    rewrite !lookup_alter_ne, lookup_insert_ne by done. intros Hs%H4. lia.
Qed.

Lemma sockets_ok_close socks w url k l :
  socks !! url = Some (k, l) → sockets_ok socks w →
  sockets_ok (delete url socks) (close_socket k (removeEventListener_error k l w)).
Proof.
  intros Hurl [H1 H2 H3 H4].
  destruct (H1 _ _ _ Hurl) as (s0 & Hs0 & Hc0 & Hu0 & Hl0).
  constructor; simpl; intros *.
  - intros [Hne Hu]%lookup_delete_Some. destruct (H1 _ _ _ Hu) as (s & Hs & Hsv).
    assert (k0 ≠ k). { intros ->. destruct Hsv as (_ & Hu' & _). congruence. }
    exists s. by rewrite !lookup_alter_ne.
  - destruct (decide (k0 = k)) as [->|Hne].
    + rewrite !lookup_alter_eq, Hs0. simpl. by intros [= <-].
    + rewrite !lookup_alter_ne by done. intros Hs Ho.
      destruct (H2 _ _ Hs Ho) as [l' Hl']. exists l'. apply lookup_delete_Some.
      split; [|done]. congruence.
  - destruct (decide (k0 = k)) as [->|Hne].
    + rewrite !lookup_alter_eq, Hs0. simpl. intros [= <-] _. simpl. rewrite Hl0.
      cbn [List.filter]. case_bool_decide; [|done]. done.
    + rewrite !lookup_alter_ne by done. apply H3.
  - destruct (decide (k0 = k)) as [->|Hne]; [intros _; by eapply H4|].
    rewrite !lookup_alter_ne by done. apply H4.
Qed.

Lemma sockets_ok_fail socks w k : sockets_ok socks w → sockets_ok socks (fail_socket k w).
Proof.
  intros [H1 H2 H3 H4].
  assert (∀ k' s', kw_sockets (fail_socket k w) !! k' = Some s' →
    ∃ s, kw_sockets w !! k' = Some s ∧ ws_closed s' = ws_closed s ∧ ws_url s' = ws_url s ∧
      ws_onError s' = ws_onError s) as Hback.
  { intros k' s'. simpl. destruct (decide (k' = k)) as [->|Hne].
    - rewrite lookup_alter_eq. intros (s & Hs & ->)%fmap_Some. by exists s.
    - rewrite lookup_alter_ne by done. intros Hs. by exists s'. }
  constructor.
  - intros url k' l (s & Hs & Hsv)%H1. simpl. destruct (decide (k' = k)) as [->|Hne].
    + rewrite lookup_alter_eq, Hs. by eexists.
    + rewrite lookup_alter_ne by done. by exists s.
  - intros k' s' (s & Hs & Hc & Hu & _)%Hback Ho. rewrite Hu. apply (H2 _ _ Hs). congruence.
  - intros k' s' (s & Hs & Hc & _ & Hl)%Hback Ho. rewrite Hl. apply (H3 _ _ Hs). congruence.
  - intros k' s' (s & Hs & _)%Hback. exact (H4 _ _ Hs).
Qed.

Lemma timers_ok_add timers w id cb :
  (∀ t, timers !! id ≠ Some (Some t)) → timers_ok timers w →
  let '(t, w1) := setInterval cb w in timers_ok (<[id := Some t]> timers) w1.
Proof.
  intros Hid [H1 H2 H3 H4]. simpl. set (t := kw_next_interval w).
  assert (∀ id', timers !! id' ≠ Some (Some t)) as Ht.
  { intros id' [cb' Hcb]%H1. apply H4 in Hcb. lia. }
  constructor; simpl; intros *.
  - intros [[<- [= <-]]|[Hne Hi]]%lookup_insert_Some.
    + rewrite lookup_insert_eq. by eexists.
    + rewrite lookup_insert_ne by (intros <-; by eapply Ht). eauto.
  - intros [[<- _]|[Hne (i & Hi)%H2]]%lookup_insert_Some.
    + exists id. by rewrite lookup_insert_eq.
    + exists i. rewrite lookup_insert_ne; [done|]. intros <-. by eapply Hid.
  - intros [[<- [= <-]]|[Hne Hi]]%lookup_insert_Some [[<- Ht']|[Hne' Hi']]%lookup_insert_Some.
    + done.
    + by apply Ht in Hi'.
    + injection Ht' as <-. by apply Ht in Hi.
    + eauto.
  - intros [[<- _]|[Hne Hi%H4]]%lookup_insert_Some; lia.
Qed.

Lemma timers_ok_remove timers w id t :
  timers !! id = Some (Some t) → timers_ok timers w →
  timers_ok (<[id := None]> timers) (clearInterval t w).
Proof.
  intros Hid [H1 H2 H3 H4]. constructor; simpl; intros *.
  - intros [[<- ?]|[Hne Hi]]%lookup_insert_Some; [done|].
    rewrite lookup_delete_ne; [eauto|]. intros <-. apply Hne. by eapply H3.
  - intros [Hne (i & Hi)%H2]%lookup_delete_Some. exists i.
    rewrite lookup_insert_ne; [done|]. congruence.
  - intros [[<- ?]|[Hne Hi]]%lookup_insert_Some [[<- ?]|[Hne' Hi']]%lookup_insert_Some;
      [done..|eauto].
  - intros [Hne Hi]%lookup_delete_Some. eauto.
Qed.

Lemma timers_ok_None timers w id :
  (∀ t, timers !! id ≠ Some (Some t)) → timers_ok timers w → timers_ok (<[id := None]> timers) w.
Proof.
  intros Hid [H1 H2 H3 H4]. constructor; simpl; intros *.
  - intros [[<- ?]|[Hne Hi]]%lookup_insert_Some; [done|eauto].
  - intros (i & Hi)%H2. exists i. rewrite lookup_insert_ne; [done|]. intros <-. by eapply Hid.
  - intros [[<- ?]|[Hne Hi]]%lookup_insert_Some [[<- ?]|[Hne' Hi']]%lookup_insert_Some;
      [done..|eauto].
  - eauto.
Qed.

Section kube_facts.
Context `{Location}.
Implicit Types (state : IKubeState) (w : kube_world).

Lemma kubeReducer_open state ref h l b w :
  kube_ok state w →
  ∃ state' w', kubeReducer state (openWatchResource ref h l) b w = (Ok state', w') ∧
    kube_ok state' w'.
Proof using.
  intros [Hs Ht]. simpl. destruct (IKubeState_sockets state !! _) as [p|] eqn:Hp.
  { eexists _, _. split; [done|]. done. }
  eexists _, _. split; [done|]. split; simpl.
  - by apply (sockets_ok_open _ w (watchResourceURL ref) (wsProtocols b) h l).
  - eapply timers_ok_world, Ht; done.
Qed.

Lemma kubeReducer_close state ref b w :
  kube_ok state w →
  ∃ state' w', kubeReducer state (closeWatchResource ref) b w = (Ok state', w') ∧
    kube_ok state' w'.
Proof using.
  intros [Hs Ht]. eexists _, _. split; [done|].
  set (w1 := match IKubeState_sockets state !! watchResourceURL ref with
             | Some (socket, onError) =>
               close_socket socket (removeEventListener_error socket onError w)
             | None => w end).
  assert (sockets_ok (delete (watchResourceURL ref) (IKubeState_sockets state)) w1) as Hs1.
  { subst w1. destruct (IKubeState_sockets state !! _) as [[k l]|] eqn:Hk.
    - by apply sockets_ok_close.
    - by rewrite delete_id. }
  assert (timers_ok (IKubeState_timers state) w1) as Ht1.
  { eapply timers_ok_world, Ht; subst w1; by repeat case_match. }
  split; simpl.
  - eapply sockets_ok_world, Hs1; by repeat case_match.
  - destruct (IKubeState_timers state !! getResourceURL ref) as [[t|]|] eqn:Hi.
    + by apply timers_ok_remove.
    + apply timers_ok_None; [congruence|done].
    + apply timers_ok_None; [congruence|done].
Qed.

(** Every action keeps the slice and the world in step. *)
Lemma kubeReducer_ok state a b w r w' :
  kubeReducer state a b w = (r, w') → kube_ok state w →
  match r with Ok state' => kube_ok state' w' | Throws _ => w' = w end.
Proof using.
  intros Hr Hok. destruct a as [| | | |a| | | | |p]; try by simplify_eq/=.
  destruct a as [key|key o| |ks|e|key r'|key e|ref h l|ref|id cb|id]; try by simplify_eq/=.
  - simpl in Hr. destruct (IKubeState_items state !! key); simpl in Hr; [|by simplify_eq].
    case_match; by simplify_eq.
  - destruct (kubeReducer_open state ref h l b w Hok) as (? & ? & Heq & ?).
    rewrite Heq in Hr. by simplify_eq.
  - destruct (kubeReducer_close state ref b w Hok) as (? & ? & Heq & ?).
    rewrite Heq in Hr. by simplify_eq.
  - destruct Hok as [Hs Ht].
    simpl in Hr. destruct (IKubeState_timers state !! id) as [[t|]|] eqn:Hi; simplify_eq;
      [by split|split; simpl..]; try (eapply sockets_ok_world, Hs; done);
      (apply timers_ok_add; [congruence|done]).
  - destruct Hok as [Hs Ht].
    simpl in Hr. destruct (IKubeState_timers state !! id) as [[t|]|] eqn:Hi; simplify_eq;
      try by split.
    split; simpl; [eapply sockets_ok_world, Hs; done|]. by apply timers_ok_remove.
Qed.
End kube_facts.
