(* ===== verification/KubeWatch.v ===== *)
(** * Watching a resource (the listeners of src/dashboard/src/actions/kube.tsx)

    [getAndWatchResource] opens a socket with a message listener and an error
    listener; a socket that fails is replaced by an interval that requests the
    resource again.  This file gives the listeners their meaning and the slice of
    the cache its transition system: a step is one dispatched action, or one event
    of a socket in the world.  A socket that fired an error, or that the server closed, delivers
    nothing more ([ws_failed]).  The contract is [watch_refines]; what the views rely on most is
    that a resource whose watch was closed is left alone until it is watched again
    ([closed_watch_stays_quiet]). *)

From S2P Require Import Prelude.
From S2P Require Import Json.
From S2P Require Import JsonText.
From S2P Require Import Browser.
From S2P Require Import Types.
From S2P Require Import Url.
From S2P Require Import KubeRef.
From S2P Require Import Actions.
From S2P Require Import KubeReducer.

Section watch.
Context `{Location} (b : browser).

Abbreviation config := (IKubeState * kube_world)%type.

(** Dispatching an action; an exception of the reducer leaves the state as it was. *)
Definition dispatch_kube (a : action) (c : config) : config * bool :=
  match kubeReducer c.1 a b c.2 with
  | (Ok state', w') => ((state', w'), true)
  | (Throws _, w') => ((c.1, w'), false)
  end.

(** The listener of messages: [object] is the object of the parsed message, or the
    exception of [JSON.parse]. *)
Definition handle_message (ref : ResourceRef) (object : outcome IResource) (c : config) : config :=
  let '(c, _) := dispatch_kube (removeTimer (getResourceURL ref)) c in
  match object with
  | Throws _ => c
  | Ok resource =>
    let key := getResourceURL ref in
    if negb (truthy_opt (ref_name ref))
    then (dispatch_kube (receiveResourceFromList key resource) c).1
    else (dispatch_kube (receiveResource key (KResource resource)) c).1
  end.

(** The listener of errors. *)
Definition handle_error (ref : ResourceRef) (c : config) : config :=
  (dispatch_kube (addTimer (getResourceURL ref) (poll_resource ref)) c).1.

(** Actions without effects on sockets and timers. *)
Definition passive (a : action) : bool :=
  match a with
  | AKube (openWatchResource _ _ _) | AKube (closeWatchResource _) | AKube (addTimer _ _)
  | AKube (removeTimer _) => false
  | _ => true
  end.

(** A reference whose URL has one reading: no question mark in its parts. *)
Definition list_url (ref : ResourceRef) : string :=
  Kube_getResourceURL (ref_cluster ref) (ref_apiVersion ref) (ref_plural ref)
    (ref_namespaced ref) (Some (ref_namespace ref)) None None.

Definition watchable (ref : ResourceRef) : Prop :=
  lacks "?" (list_url ref) ∧ ref_name ref ≠ Some "".

(** What a view or the browser may do.  A socket that is open fails with an error event, or is
    dropped by the server, for which there is no listener; a socket that the dashboard closed while
    it was connecting still fires an error. *)
Inductive watch_event :=
| ev_watch (ref : ResourceRef)
| ev_close (ref : ResourceRef)
| ev_message (socket : N) (object : outcome IResource)
| ev_error (url : string)
| ev_dropped (url : string)
| ev_late_error (socket : N)
| ev_passive (a : action).

Definition watched_ref (e : watch_event) : option ResourceRef :=
  match e with ev_watch ref => Some ref | _ => None end.

(** The socket is open: the dashboard has not closed it and its connection is not gone. *)
Definition socket_open (s : websocket) : Prop := ws_closed s = false ∧ ws_failed s = false.

Definition connection_lost (k : N) (c : config) : config := (c.1, fail_socket k c.2).

Inductive watch_step : config → watch_event → config → Prop :=
| step_watch c ref : watchable ref →
  watch_step c (ev_watch ref)
    (dispatch_kube (openWatchResource ref (on_message ref) (on_error ref)) c).1
| step_close c ref : watchable ref →
  watch_step c (ev_close ref) (dispatch_kube (closeWatchResource ref) c).1
| step_message c k s ref object :
  kw_sockets c.2 !! k = Some s → socket_open s → on_message ref ∈ ws_onMessage s →
  watch_step c (ev_message k object) (handle_message ref object c)
| step_error c k s ref :
  kw_sockets c.2 !! k = Some s → socket_open s → on_error ref ∈ ws_onError s →
  watch_step c (ev_error (ws_url s)) (handle_error ref (connection_lost k c))
| step_dropped c k s :
  kw_sockets c.2 !! k = Some s → socket_open s →
  watch_step c (ev_dropped (ws_url s)) (connection_lost k c)
| step_late_error c k s ref :
  kw_sockets c.2 !! k = Some s → ws_closed s = true → on_error ref ∈ ws_onError s →
  watch_step c (ev_late_error k) (handle_error ref c)
| step_passive c a : passive a → watch_step c (ev_passive a) (dispatch_kube a c).1.

Inductive watch_run : config → list watch_event → config → Prop :=
| run_nil c : watch_run c [] c
| run_cons c1 e c2 es c3 :
  watch_step c1 e c2 → watch_run c2 es c3 → watch_run c1 (e :: es) c3.

Definition watch_init : config := (kube_initialState, kube_world_empty).

(** ** The URLs *)

Lemma watchResourceURL_shape ref :
  watchResourceURL ref =
  WebSocketAPIBase +:+ list_url ref +:+ String "?" ("watch=true" +:+
    (if truthy_opt (ref_name ref)
     then "&fieldSelector=metadata.name%3D" +:+ default "" (ref_name ref) else "")).
Proof using.
  unfold watchResourceURL, Kube_watchResourceURL, list_url. cbn [truthy_opt].
  destruct (truthy_opt (ref_name ref)); [by rewrite !str_app_assoc|].
  by rewrite str_app_nil_r.
Qed.

Lemma getResourceURL_shape ref :
  getResourceURL ref =
  list_url ref +:+ (if truthy_opt (ref_name ref) then "/" +:+ default "" (ref_name ref) else "").
Proof using.
  unfold getResourceURL, list_url, Kube_getResourceURL. cbn [truthy_opt].
  destruct (truthy_opt (ref_name ref)); [|by rewrite str_app_nil_r]. done.
Qed.

(** References watched through the same socket are kept under the same key. *)
Lemma watchResourceURL_key ref ref' :
  watchable ref → watchable ref' → watchResourceURL ref = watchResourceURL ref' →
  getResourceURL ref = getResourceURL ref'.
Proof using.
  intros [Hl Hn] [Hl' Hn']. rewrite !watchResourceURL_shape, !getResourceURL_shape.
  intros Heq%str_app_inj. apply app_sep_inj in Heq as [-> Heq%str_app_inj]; [|done..].
  f_equal. destruct (truthy_opt (ref_name ref)), (truthy_opt (ref_name ref')); try done.
  by apply str_app_inj in Heq as ->.
Qed.

(** ** The invariant *)

(** A registered socket reports to the listeners of a reference to its URL. *)
Definition socks_tagged (state : IKubeState) (w : kube_world) : Prop :=
  ∀ url k l, IKubeState_sockets state !! url = Some (k, l) →
    ∃ ref s, l = on_error ref ∧ watchable ref ∧ watchResourceURL ref = url ∧
      kw_sockets w !! k = Some s ∧ ws_onMessage s = [on_message ref].

(** A resource is polled under its own key, and only while its socket is registered. *)
Definition timers_tagged (state : IKubeState) (w : kube_world) : Prop :=
  ∀ id t, IKubeState_timers state !! id = Some (Some t) →
    ∃ ref, kw_intervals w !! t = Some (poll_resource ref) ∧ getResourceURL ref = id ∧
      watchable ref ∧ is_Some (IKubeState_sockets state !! watchResourceURL ref).

Definition watch_ok (c : config) : Prop :=
  kube_ok c.1 c.2 ∧ socks_tagged c.1 c.2 ∧ timers_tagged c.1 c.2.

Lemma dispatch_kube_ok a c : kube_ok c.1 c.2 → kube_ok (dispatch_kube a c).1.1 (dispatch_kube a c).1.2.
Proof using.
  intros Hok. unfold dispatch_kube. destruct (kubeReducer c.1 a b c.2) as [[st|e] w'] eqn:Hr;
    apply kubeReducer_ok in Hr; simpl in *; subst; done.
Qed.

(** What a passive action leaves alone. *)
Lemma dispatch_passive a c :
  passive a →
  IKubeState_sockets (dispatch_kube a c).1.1 = IKubeState_sockets c.1 ∧
  IKubeState_timers (dispatch_kube a c).1.1 = IKubeState_timers c.1 ∧
  (dispatch_kube a c).1.2 = c.2.
Proof using.
  destruct c as [st w]. destruct a as [| | | |a| | | | |p]; try done.
  destruct a as [key|key o| |ks|e|key r'|key e|ref h l|ref|id cb|id]; try done.
  intros _. unfold dispatch_kube. simpl.
  destruct (IKubeState_items st !! key) as [i|]; [|done]. simpl.
  by destruct (kube_object_items _).
Qed.

(** The slice's two maps and the world's two maps determine [watch_ok]. *)
Lemma tagged_world st st' w :
  IKubeState_sockets st' = IKubeState_sockets st → IKubeState_timers st' = IKubeState_timers st →
  socks_tagged st w ∧ timers_tagged st w → socks_tagged st' w ∧ timers_tagged st' w.
Proof using.
  intros Hs Ht [H1 H2]. unfold socks_tagged, timers_tagged. rewrite Hs, Ht. by split.
Qed.

Lemma watch_ok_passive a c : passive a → watch_ok c → watch_ok (dispatch_kube a c).1.
Proof using.
  intros Ha (Hk & Hs & Ht). destruct (dispatch_passive a c Ha) as (Hsock & Htim & Hw).
  split; [by apply dispatch_kube_ok|]. rewrite Hw. by eapply tagged_world.
Qed.

Lemma watch_ok_open ref c :
  watchable ref → watch_ok c →
  watch_ok (dispatch_kube (openWatchResource ref (on_message ref) (on_error ref)) c).1.
Proof using.
  intros Href (Hk & Hs & Ht). split; [by apply dispatch_kube_ok|].
  destruct c as [st w]. unfold dispatch_kube in *. simpl in *.
  destruct (IKubeState_sockets st !! watchResourceURL ref) as [p|] eqn:Hp; [done|]. simpl.
  set (k := kw_next_socket w). split.
  - intros url k' l. simpl. intros [[<- [= <- <-]]|[Hne Hu]]%lookup_insert_Some.
    + eexists ref, _. split_and!; try done.
      * by rewrite !lookup_alter_eq, lookup_insert_eq.
      * done.
    + destruct (Hs _ _ _ Hu) as (r & s & -> & Hr & <- & Hsock & Hmsg).
      exists r, s. split_and!; try done.
      assert (k ≠ k') by (intros <-; apply (sockets_fresh _ _ (proj1 Hk)) in Hsock; lia).
      by rewrite !lookup_alter_ne, lookup_insert_ne.
  - intros id t Hid. destruct (Ht id t Hid) as (r & Hi & <- & Hr & Hreg). exists r.
    split_and!; try done. simpl. apply lookup_insert_is_Some'. by right.
Qed.

Lemma watch_ok_close ref c :
  watchable ref → watch_ok c → watch_ok (dispatch_kube (closeWatchResource ref) c).1.
Proof using.
  intros Href (Hk & Hs & Ht). split; [by apply dispatch_kube_ok|].
  destruct c as [st w]. unfold dispatch_kube in *. simpl in *.
  set (w1 := match IKubeState_sockets st !! watchResourceURL ref with
             | Some (socket, onError) =>
               close_socket socket (removeEventListener_error socket onError w)
             | None => w end).
  set (w2 := match IKubeState_timers st !! getResourceURL ref with
             | Some (Some timer) => clearInterval timer w1 | _ => w1 end).
  assert (kw_sockets w2 = kw_sockets w1) as Hw2 by (subst w2; by repeat case_match).
  assert (kw_intervals w1 = kw_intervals w) as Hw1 by (subst w1; by repeat case_match).
  split.
  - intros url k l. simpl. intros [Hne Hu]%lookup_delete_Some. rewrite Hw2.
    destruct (Hs _ _ _ Hu) as (r & s & -> & Hr & <- & Hsock & Hmsg). exists r, s.
    split_and!; try done. subst w1.
    destruct (IKubeState_sockets st !! watchResourceURL ref) as [[k' l']|] eqn:Hk'; [|done].
    assert (k' ≠ k).
    { intros ->. destruct (sockets_live _ _ (proj1 Hk) _ _ _ Hk') as (s1 & Hs1 & _ & Hu1 & _).
      destruct (sockets_live _ _ (proj1 Hk) _ _ _ Hu) as (s2 & Hs2 & _ & Hu2 & _). congruence. }
    simpl. by rewrite !lookup_alter_ne.
  - intros id t. simpl. intros [[<- ?]|[Hne Hid]]%lookup_insert_Some; [done|].
    destruct (Ht id t Hid) as (r & Hi & <- & Hr & Hreg). exists r. split_and!; try done.
    + subst w2. rewrite <-Hw1 in Hi.
      destruct (IKubeState_timers st !! getResourceURL ref) as [[t'|]|] eqn:Ht'; try done.
      simpl. rewrite lookup_delete_ne; [done|]. intros ->. apply Hne.
      by eapply (timers_inj _ _ (proj2 Hk)).
    + rewrite lookup_delete_ne; [done|]. intros Heq. apply Hne.
      by apply watchResourceURL_key.
Qed.

Lemma watch_ok_remove id c : watch_ok c → watch_ok (dispatch_kube (removeTimer id) c).1.
Proof using.
  intros (Hk & Hs & Ht). split; [by apply dispatch_kube_ok|].
  destruct c as [st w]. unfold dispatch_kube in *. simpl in *.
  destruct (IKubeState_timers st !! id) as [[t|]|] eqn:Hid; try done. simpl. split; [done|].
  intros id' t'. simpl. intros [[<- ?]|[Hne Hid']]%lookup_insert_Some; [done|].
  destruct (Ht id' t' Hid') as (r & Hi & <- & Hr & Hreg). exists r. split_and!; try done. simpl.
  rewrite lookup_delete_ne; [done|]. intros ->. apply Hne.
  by eapply (timers_inj _ _ (proj2 Hk)).
Qed.

Lemma watch_ok_add ref c :
  watchable ref → is_Some (IKubeState_sockets c.1 !! watchResourceURL ref) → watch_ok c →
  watch_ok (handle_error ref c).
Proof using.
  intros Href Hreg (Hk & Hs & Ht). split; [by apply dispatch_kube_ok|].
  unfold handle_error, dispatch_kube. destruct c as [st w]. simpl in *.
  destruct (IKubeState_timers st !! getResourceURL ref) as [[t|]|] eqn:Hid; [done|..];
  (split; simpl; [done|]; intros id' t'; simpl; intros [[<- [= <-]]|[Hne Hid']]%lookup_insert_Some;
   [exists ref; simpl; by rewrite lookup_insert_eq|]);
  destruct (Ht id' t' Hid') as (r & Hi & <- & Hr & Hreg'); exists r; split_and!; try done; simpl;
  (rewrite lookup_insert_ne; [done|]);
  intros <-; apply (timers_fresh _ _ (proj2 Hk)) in Hi; lia.
Qed.

(** The listeners that run belong to a registered socket of their reference. *)
Lemma error_listener_registered c k s ref :
  watch_ok c → kw_sockets c.2 !! k = Some s → on_error ref ∈ ws_onError s →
  watchable ref ∧ is_Some (IKubeState_sockets c.1 !! watchResourceURL ref).
Proof using.
  intros (Hk & Hs & _) Hsock Hin. destruct (ws_closed s) eqn:Hc.
  { rewrite (sockets_silent _ _ (proj1 Hk) _ _ Hsock Hc) in Hin. by apply elem_of_nil in Hin. }
  destruct (sockets_registered _ _ (proj1 Hk) _ _ Hsock Hc) as [l Hl].
  destruct (Hs _ _ _ Hl) as (r & s' & -> & Hr & Hu & Hs' & _).
  destruct (sockets_live _ _ (proj1 Hk) _ _ _ Hl) as (s2 & Hs2 & _ & _ & Herr).
  assert (s2 = s) as -> by congruence. rewrite Herr in Hin.
  apply list_elem_of_singleton in Hin. injection Hin as ->.
  split; [done|]. rewrite Hu. by eexists.
Qed.

Lemma watch_ok_lost k c : watch_ok c → watch_ok (connection_lost k c).
Proof using.
  intros ([Hso Hti] & Hs & Ht). unfold connection_lost. split; [|split]; cbn [fst snd].
  - split; [by apply sockets_ok_fail|by eapply timers_ok_world, Hti].
  - intros url k' l Hu. destruct (Hs _ _ _ Hu) as (r & s & -> & Hr & <- & Hk' & Hm). exists r.
    simpl. destruct (decide (k' = k)) as [->|Hne].
    + rewrite lookup_alter_eq, Hk'. by eexists.
    + rewrite lookup_alter_ne by done. by exists s.
  - exact Ht.
Qed.

Lemma watch_ok_message ref object c : watch_ok c → watch_ok (handle_message ref object c).
Proof using.
  intros Hok. unfold handle_message.
  pose proof (watch_ok_remove (getResourceURL ref) c Hok) as Hok'.
  destruct (dispatch_kube _ c) as [c' ?]. simpl in Hok'.
  destruct object as [r|e]; [|done]. case_match; by apply watch_ok_passive.
Qed.

Lemma watch_step_ok c e c' : watch_step c e c' → watch_ok c → watch_ok c'.
Proof using.
  intros Hstep Hok. inversion Hstep; subst.
  - by apply watch_ok_open.
  - by apply watch_ok_close.
  - by apply watch_ok_message.
  - edestruct error_listener_registered as [? ?]; [done..|]. apply watch_ok_add; [done..|].
    by apply watch_ok_lost.
  - by apply watch_ok_lost.
  - edestruct error_listener_registered as [? ?]; [done..|]. by apply watch_ok_add.
  - by apply watch_ok_passive.
Qed.

Lemma watch_init_ok : watch_ok watch_init.
Proof using.
  split; [apply kube_initial_ok|]. split; intros ?; simpl; intros *; by rewrite lookup_empty.
Qed.

Lemma watch_run_ok c es c' : watch_run c es c' → watch_ok c → watch_ok c'.
Proof using. induction 1; eauto using watch_step_ok. Qed.

(** ** What a run can open again *)

Lemma dispatch_sockets_None a c url :
  IKubeState_sockets c.1 !! url = None →
  (∀ ref h l, a = AKube (openWatchResource ref h l) → watchResourceURL ref ≠ url) →
  IKubeState_sockets (dispatch_kube a c).1.1 !! url = None.
Proof using.
  intros Hn Ha. destruct (passive a) eqn:Hp.
  { destruct (dispatch_passive a c) as (-> & _); [by rewrite Hp|done]. }
  destruct c as [st w]. destruct a as [| | | |a| | | | |p]; try done.
  destruct a as [key|key o| |ks|e|key r'|key e|ref h l|ref|id cb|id]; try done;
    unfold dispatch_kube; simpl in *.
  - destruct (IKubeState_sockets st !! watchResourceURL ref); [done|]. simpl.
    rewrite lookup_insert_ne; [done|]. by eapply Ha.
  - rewrite lookup_delete_None. by right.
  - by destruct (IKubeState_timers st !! id) as [[t|]|].
  - by destruct (IKubeState_timers st !! id) as [[t|]|].
Qed.

Lemma watch_step_sockets_None c e c' url :
  watch_step c e c' → IKubeState_sockets c.1 !! url = None →
  (∀ ref, watched_ref e = Some ref → watchResourceURL ref ≠ url) →
  IKubeState_sockets c'.1 !! url = None.
Proof using.
  intros Hstep Hn He. inversion Hstep as [? r| |? ? ? r o| | | |? a Ha]; subst.
  - apply dispatch_sockets_None; [done|]. intros ? ? ? [= <- _ _]. by apply He.
  - by apply dispatch_sockets_None.
  - unfold handle_message.
    pose proof (dispatch_sockets_None (removeTimer (getResourceURL r)) c url Hn) as Hn'.
    destruct (dispatch_kube (removeTimer _) c) as [c1 ?]. simpl in Hn'.
    destruct o; [case_match|]; try apply dispatch_sockets_None; try done; by apply Hn'.
  - by apply dispatch_sockets_None.
  - done.
  - by apply dispatch_sockets_None.
  - apply dispatch_sockets_None; [done|]. by intros ? ? ? ->.
Qed.

Lemma watch_run_sockets_None c es c' url :
  watch_run c es c' → IKubeState_sockets c.1 !! url = None →
  (∀ ref, ev_watch ref ∈ es → watchResourceURL ref ≠ url) →
  IKubeState_sockets c'.1 !! url = None.
Proof using.
  induction 1 as [|c1 e c2 es c3 Hstep _ IH]; intros Hn Hes; [done|].
  apply IH; [|intros r Hr; apply Hes; by right].
  eapply watch_step_sockets_None; [done..|]. intros r Hr. apply Hes.
  destruct e; simplify_eq/=. left.
Qed.

(** ** The contract of the watches

    To its clients the machinery of sockets, listeners and timers is a set of watched URLs, each
    with a status: watching adds one, closing takes it out, an error of its socket turns to
    polling, and a connection that the server closes leaves it without either. *)

Inductive watch_status := Live | Polled | Dropped.
#[local] Instance watch_status_eq_dec : EqDecision watch_status.
Proof using. solve_decision. Defined.

(** A live watch that ends becomes [to]. *)
Definition ends_as (to : watch_status) (url : string) (S : gmap string watch_status)
    : gmap string watch_status :=
  if decide (S !! url = Some Live) then <[url := to]> S else S.

Definition watches (S : gmap string watch_status) (e : watch_event) : gmap string watch_status :=
  match e with
  | ev_watch ref =>
    match S !! watchResourceURL ref with
    | Some _ => S
    | None => <[watchResourceURL ref := Live]> S
    end
  | ev_close ref => delete (watchResourceURL ref) S
  | ev_error url => ends_as Polled url S
  | ev_dropped url => ends_as Dropped url S
  | _ => S
  end.

(** The browser has an open socket to the URL. *)
Definition is_open (c : config) (url : string) : Prop :=
  ∃ k s, kw_sockets c.2 !! k = Some s ∧ socket_open s ∧ ws_url s = url.

(** Some interval of the browser polls the resource watched through the URL. *)
Definition is_polled (c : config) (url : string) : Prop :=
  ∃ t ref, kw_intervals c.2 !! t = Some (poll_resource ref) ∧ watchResourceURL ref = url.

(** The references an event is about. *)
Definition event_ref (e : watch_event) : option ResourceRef :=
  match e with ev_watch ref | ev_close ref => Some ref | _ => None end.

(** Resources kept under one key are watched through one URL. *)
Definition keys_apart (P : ResourceRef → Prop) : Prop :=
  ∀ r r', P r → P r' → getResourceURL r = getResourceURL r' →
    watchResourceURL r = watchResourceURL r'.

Lemma valid_keys_apart : keys_apart valid_ref.
Proof using.
  intros r r' Hr Hr' Heq. rewrite !watchResourceURL_shape. unfold list_url.
  destruct (getResourceURL_inj r r' Hr Hr' Heq) as (-> & -> & -> & -> & -> & ->). done.
Qed.

(** The configuration implements the statuses [S], with references of [P]. *)
Record implements (P : ResourceRef → Prop) (S : gmap string watch_status) (c : config) : Prop := {
  im_dom : dom S = dom (IKubeState_sockets c.1);
  im_live url k l s :
    IKubeState_sockets c.1 !! url = Some (k, l) → kw_sockets c.2 !! k = Some s →
    S !! url = Some Live ↔ ws_failed s = false;
  im_listener url k l :
    IKubeState_sockets c.1 !! url = Some (k, l) → ∃ ref, l = on_error ref ∧ P ref;
  im_timer id t :
    IKubeState_timers c.1 !! id = Some (Some t) →
    ∃ ref, kw_intervals c.2 !! t = Some (poll_resource ref) ∧ P ref ∧
      S !! watchResourceURL ref = Some Polled;
  im_polled url :
    keys_apart P → S !! url = Some Polled →
    ∃ ref t, IKubeState_timers c.1 !! getResourceURL ref = Some (Some t) ∧
      watchResourceURL ref = url ∧ P ref;
}.

Lemma implements_init P : implements P ∅ watch_init.
Proof using.
  split; simpl; try (intros *; by rewrite lookup_empty). by rewrite !dom_empty_L.
Qed.

(** Only the two maps of the slice and the world count. *)
Lemma implements_same P S c c' :
  IKubeState_sockets c'.1 = IKubeState_sockets c.1 →
  IKubeState_timers c'.1 = IKubeState_timers c.1 → c'.2 = c.2 →
  implements P S c → implements P S c'.
Proof using. intros Hs Ht Hw [H1 H2 H3 H4 H5]. split; rewrite ?Hs, ?Ht, ?Hw; done. Qed.

Lemma implements_passive P S a c : passive a → implements P S c → implements P S (dispatch_kube a c).1.
Proof using.
  intros Ha. destruct (dispatch_passive a c Ha) as (Hs & Ht & Hw). by apply implements_same.
Qed.

Lemma implements_watch P S ref c :
  watch_ok c → P ref → implements P S c →
  implements P (watches S (ev_watch ref))
    (dispatch_kube (openWatchResource ref (on_message ref) (on_error ref)) c).1.
Proof using.
  intros ((Hso & _) & _) Href [Hdom Hlive Hlis Htim Hpol]. destruct c as [st w].
  unfold dispatch_kube. cbn [kubeReducer fst snd watches] in *.
  destruct (IKubeState_sockets st !! watchResourceURL ref) as [p|] eqn:Hp.
  { destruct (S !! watchResourceURL ref) eqn:HS; [by split|].
    apply not_elem_of_dom in HS. rewrite Hdom in HS. apply mk_is_Some, elem_of_dom in Hp. done. }
  assert (S !! watchResourceURL ref = None) as HS
    by (apply not_elem_of_dom; rewrite Hdom; by apply not_elem_of_dom).
  rewrite HS. set (k := kw_next_socket w). split; simpl.
  - by rewrite !dom_insert_L, Hdom.
  - intros url k' l s [[<- [= <- <-]]|[Hne Hu]]%lookup_insert_Some.
    + rewrite !lookup_alter_eq, lookup_insert_eq. simpl. intros [= <-]. by rewrite lookup_insert_eq.
    + destruct (sockets_live _ _ Hso _ _ _ Hu) as (s' & Hs' & _).
      assert (k ≠ k') by (intros <-; apply (sockets_fresh _ _ Hso) in Hs'; lia).
      rewrite !lookup_alter_ne, !lookup_insert_ne by done. by apply (Hlive _ _ l).
  - intros url k' l [[<- [= <- <-]]|[Hne Hu]]%lookup_insert_Some; [by exists ref|by eapply Hlis].
  - intros id t (r & Hi & Hr & HP)%Htim. exists r. split_and!; [done|done|].
    rewrite lookup_insert_ne; [done|]. congruence.
  - intros url HK [[<- ?]|[Hne HP]]%lookup_insert_Some; [done|]. by apply Hpol.
Qed.

Lemma implements_close P S ref c :
  watchable ref → watch_ok c → P ref → implements P S c →
  implements P (watches S (ev_close ref)) (dispatch_kube (closeWatchResource ref) c).1.
Proof using.
  intros Hwr ((Hso & Hti) & _ & Htt) Href [Hdom Hlive Hlis Htim Hpol]. destruct c as [st w].
  unfold dispatch_kube. cbn [kubeReducer fst snd watches] in *.
  set (w1 := match IKubeState_sockets st !! watchResourceURL ref with
             | Some (socket, onError) =>
               close_socket socket (removeEventListener_error socket onError w)
             | None => w end).
  set (w2 := match IKubeState_timers st !! getResourceURL ref with
             | Some (Some timer) => clearInterval timer w1 | _ => w1 end).
  assert (kw_sockets w2 = kw_sockets w1) as Hw2 by (subst w2; by repeat case_match).
  assert (kw_intervals w1 = kw_intervals w) as Hw1 by (subst w1; by repeat case_match).
  split; cbn [fst snd IKubeState_sockets IKubeState_timers setf].
  - by rewrite !dom_delete_L, Hdom.
  - intros url k l s [Hne Hu]%lookup_delete_Some. rewrite Hw2, lookup_delete_ne by done.
    intros Hs. apply (Hlive _ _ _ _ Hu). rewrite <-Hs. subst w1.
    destruct (IKubeState_sockets st !! watchResourceURL ref) as [[k' l']|] eqn:Hk'; [|done].
    assert (k' ≠ k).
    { intros ->. destruct (sockets_live _ _ Hso _ _ _ Hk') as (s1 & Hs1 & _ & Hu1 & _).
      destruct (sockets_live _ _ Hso _ _ _ Hu) as (s2 & Hs2 & _ & Hu2 & _). congruence. }
    simpl. by rewrite !lookup_alter_ne.
  - intros url k l [_ Hu]%lookup_delete_Some. by eapply Hlis.
  - intros id t [[<- ?]|[Hne Hid]]%lookup_insert_Some; [done|].
    destruct (Htim id t Hid) as (r & Hi & Hr & HP).
    destruct (Htt id t Hid) as (r' & Hi' & Hkey & Hwr' & _). rewrite Hi in Hi'. injection Hi' as <-.
    exists r. split_and!; [|done|].
    + subst w2. rewrite <-Hw1 in Hi.
      destruct (IKubeState_timers st !! getResourceURL ref) as [[t'|]|] eqn:Ht'; try done.
      simpl. rewrite lookup_delete_ne; [done|]. intros ->. apply Hne.
      by eapply (timers_inj _ _ Hti).
    + rewrite lookup_delete_ne; [done|]. intros Heq. apply Hne. rewrite <-Hkey.
      by apply watchResourceURL_key.
  - intros url HK [Hne HP]%lookup_delete_Some. destruct (Hpol url HK HP) as (r & t & Ht & Hu & Hr).
    exists r, t. split_and!; [|done|done]. rewrite lookup_insert_ne; [done|].
    intros Heq. apply Hne. rewrite <-Hu. by apply HK.
Qed.

(** The socket of an event belongs to the live watch of its URL. *)
Lemma open_socket_live P S c k s :
  watch_ok c → implements P S c → kw_sockets c.2 !! k = Some s → socket_open s →
  S !! ws_url s = Some Live ∧
  ∃ ref, IKubeState_sockets c.1 !! ws_url s = Some (k, on_error ref) ∧ P ref ∧ watchable ref ∧
    watchResourceURL ref = ws_url s ∧ ws_onMessage s = [on_message ref] ∧
    ws_onError s = [on_error ref].
Proof using.
  intros ((Hso & _) & Hst & _) Him Hk [Hc Hf].
  destruct (sockets_registered _ _ Hso _ _ Hk Hc) as [l Hl]. split; [by apply (im_live _ _ _ Him _ _ _ _ Hl Hk)|].
  destruct (im_listener _ _ _ Him _ _ _ Hl) as (r & -> & Hr). exists r.
  destruct (Hst _ _ _ Hl) as (r' & s' & [= <-] & Hwr & Hu & Hs' & Hm).
  assert (s' = s) as -> by congruence.
  destruct (sockets_live _ _ Hso _ _ _ Hl) as (s2 & Hs2 & _ & _ & He).
  assert (s2 = s) as -> by congruence. done.
Qed.

(** The timers that are removed by a message are not those of another URL. *)
Lemma implements_message P S c k s ref object :
  watch_ok c → implements P S c → kw_sockets c.2 !! k = Some s → socket_open s →
  on_message ref ∈ ws_onMessage s → implements P S (handle_message ref object c).
Proof using.
  intros Hok Him Hk Ho Hin.
  destruct (open_socket_live _ _ _ _ _ Hok Him Hk Ho) as (HL & r & _ & Hr & _ & Hu & Hm & _).
  rewrite Hm in Hin. apply list_elem_of_singleton in Hin. injection Hin as ->.
  assert (implements P S (dispatch_kube (removeTimer (getResourceURL r)) c).1) as Him1.
  { destruct Hok as ((_ & Hti) & _ & Htt). destruct Him as [Hdom Hlive Hlis Htim Hpol].
    destruct c as [st w]. unfold dispatch_kube. cbn [kubeReducer fst snd] in *.
    destruct (IKubeState_timers st !! getResourceURL r) as [[t|]|] eqn:Hid; try by split.
    split; simpl; [done..| |].
    - intros id t' [[<- ?]|[Hne Hid']]%lookup_insert_Some; [done|].
      destruct (Htim id t' Hid') as (r' & Hi & ? & ?). exists r'. split_and!; [|done|done].
      rewrite lookup_delete_ne; [done|]. intros ->. apply Hne. by eapply (timers_inj _ _ Hti).
    - intros url HK HP. destruct (Hpol url HK HP) as (r' & t' & Ht' & Hu' & Hr').
      exists r', t'. split_and!; [|done|done]. rewrite lookup_insert_ne; [done|]. intros Heq.
      assert (watchResourceURL r = watchResourceURL r') by (by apply HK). congruence. }
  unfold handle_message. destruct (dispatch_kube (removeTimer _) c) as [c1 ?]. cbn [fst] in Him1.
  destruct object as [o|e]; [|done]. case_match; by apply implements_passive.
Qed.

(** A watch that ends is no longer live. *)
Lemma implements_lost P S c k s to :
  watch_ok c → implements P S c → kw_sockets c.2 !! k = Some s → socket_open s →
  to = Dropped → implements P (ends_as to (ws_url s) S) (connection_lost k c).
Proof using.
  intros Hok Him Hk Ho Hto.
  destruct (open_socket_live _ _ _ _ _ Hok Him Hk Ho) as (HL & r & Hreg & Hr & _ & Hu & _ & _).
  destruct Hok as ((Hso & _) & _). unfold ends_as. rewrite decide_True by done.
  destruct Him as [Hdom Hlive Hlis Htim Hpol]. unfold connection_lost. split; cbn [fst snd].
  - rewrite dom_insert_L, <-Hdom. apply mk_is_Some, elem_of_dom in HL. set_solver.
  - intros url k' l s' Hu' Hs'. destruct (decide (k' = k)) as [->|Hne].
    + simpl in Hs'. rewrite lookup_alter_eq, Hk in Hs'. injection Hs' as <-.
      destruct (sockets_live _ _ Hso _ _ _ Hu') as (s2 & Hs2 & _ & <- & _).
      assert (s2 = s) as -> by congruence. rewrite lookup_insert_eq. subst to. simpl. split; congruence.
    + simpl in Hs'. rewrite lookup_alter_ne in Hs' by done.
      rewrite lookup_insert_ne; [by apply (Hlive _ k' l)|].
      destruct (sockets_live _ _ Hso _ _ _ Hu') as (s2 & Hs2 & _ & <- & _). intros Heq.
      rewrite <-Heq in Hu'. congruence.
  - exact Hlis.
  - intros id t (r' & Hi & Hr' & HP)%Htim. exists r'. split_and!; [done|done|].
    rewrite lookup_insert_ne; [done|]. congruence.
  - intros url HK [[<- ?]|[_ HP]]%lookup_insert_Some; [congruence|by apply Hpol].
Qed.

Lemma implements_error P S c k s ref :
  watch_ok c → implements P S c → kw_sockets c.2 !! k = Some s → socket_open s →
  on_error ref ∈ ws_onError s →
  implements P (ends_as Polled (ws_url s) S) (handle_error ref (connection_lost k c)).
Proof using.
  intros Hok Him Hk Ho Hin.
  destruct (open_socket_live _ _ _ _ _ Hok Him Hk Ho) as (HL & r & Hreg & Hr & _ & Hu & _ & He).
  rewrite He in Hin. apply list_elem_of_singleton in Hin. injection Hin as ->.
  pose proof (implements_lost _ _ _ _ _ Dropped Hok Him Hk Ho eq_refl) as [Hdom Hlive Hlis Htim Hpol].
  unfold ends_as in *. rewrite decide_True in * by done.
  destruct Hok as ((_ & Hti) & _ & Htt). destruct c as [st w].
  assert (∀ id t, IKubeState_timers st !! id = Some (Some t) →
    ∃ ref, kw_intervals w !! t = Some (poll_resource ref) ∧ P ref ∧
      <[ws_url s := Polled]> S !! watchResourceURL ref = Some Polled) as Htim'.
  { intros id t (r' & Hi & Hr' & [[? ?]|[Hne HP]]%lookup_insert_Some)%Htim; [done|].
    exists r'. by rewrite lookup_insert_ne. }
  unfold handle_error, dispatch_kube, connection_lost. cbn [kubeReducer fst snd] in *.
  assert (∀ url k' l s', IKubeState_sockets st !! url = Some (k', l) →
    kw_sockets (fail_socket k w) !! k' = Some s' →
    <[ws_url s := Polled]> S !! url = Some Live ↔ ws_failed s' = false) as Hlive'.
  { intros url k' l s' Hu' Hs'. rewrite <-(Hlive _ _ _ _ Hu' Hs').
    destruct (decide (ws_url s = url)) as [->|Hne]; [by rewrite !lookup_insert_eq|].
    by rewrite !lookup_insert_ne. }
  assert (dom (<[ws_url s := Polled]> S) = dom (IKubeState_sockets st)) as Hdom'
    by (rewrite dom_insert_L in *; exact Hdom).
  destruct (IKubeState_timers st !! getResourceURL r) as [[t|]|] eqn:Hid; cbn [fst snd].
  { split; cbn [fst snd]; [done..|].
    intros url HK [[<- _]|[Hne HP]]%lookup_insert_Some; [by exists r, t|].
    apply (Hpol url HK). by rewrite lookup_insert_ne. }
  all: assert (∀ id, IKubeState_timers st !! id = Some (Some (kw_next_interval w)) → False) as Hfresh
    by (intros id Hid'; destruct (Htt id _ Hid') as (r' & Hi & _);
        apply (timers_fresh _ _ Hti) in Hi; lia).
  all: split; cbn [fst snd IKubeState_sockets IKubeState_timers setf setInterval fail_socket update_socket
    kw_sockets kw_intervals kw_next_interval] in *; [done|done|done| |].
  1,3: intros id t [[<- [= <-]]|[Hne Hid']]%lookup_insert_Some;
    [exists r; rewrite lookup_insert_eq; split_and!; [done|done|by rewrite Hu, lookup_insert_eq]
    |destruct (Htim' id t Hid') as (r' & Hi & ? & ?); exists r'; split_and!; [|done|done];
     rewrite lookup_insert_ne; [done|]; intros <-; by eapply Hfresh].
  all: intros url HK [[<- _]|[Hne HP]]%lookup_insert_Some;
    [exists r; eexists; by rewrite lookup_insert_eq|];
    destruct (Hpol url HK) as (r' & t' & Ht' & Hu' & Hr'); [by rewrite lookup_insert_ne|];
    exists r', t'; split_and!; [|done|done]; rewrite lookup_insert_ne; [done|];
    intros Heq; rewrite Heq in Hid; simpl in Ht'; congruence.
Qed.

(** A step of the machinery is a step of the statuses. *)
Lemma watch_step_refines P S c e c' :
  watch_step c e c' → watch_ok c → (∀ ref, event_ref e = Some ref → P ref) →
  implements P S c → implements P (watches S e) c'.
Proof using.
  intros Hstep Hok HP Him. inversion Hstep; subst; cbn [watches].
  - apply (implements_watch P S); [done|by apply HP|done].
  - apply (implements_close P S); [done|done|by apply HP|done].
  - by eapply implements_message.
  - by apply implements_error.
  - by apply implements_lost.
  - destruct Hok as ((Hso & _) & _).
    match goal with
    | Hk : kw_sockets _ !! _ = Some _, Hc : ws_closed _ = true, Hin : _ ∈ ws_onError _ |- _ =>
      rewrite (sockets_silent _ _ Hso _ _ Hk Hc) in Hin; by apply elem_of_nil in Hin
    end.
  - by apply implements_passive.
Qed.

Lemma watch_run_refines P S c es c' :
  watch_run c es c' → watch_ok c → (∀ e ref, e ∈ es → event_ref e = Some ref → P ref) →
  implements P S c → implements P (foldl watches S es) c'.
Proof using.
  intros Hrun. revert S. induction Hrun as [|c1 e c2 es c3 Hstep _ IH]; intros S Hok HP Him; [done|].
  simpl. apply IH.
  - by eapply watch_step_ok.
  - intros e' ref He'. apply HP. by right.
  - eapply watch_step_refines; [done..| |done]. intros ref. apply HP. left.
Qed.

(** C2: The sockets, listeners and intervals implement the watched URLs.  Watch and close a resource
    in any order, let sockets fail, be dropped by the server and deliver messages, and let other
    actions happen: the browser has an open socket for exactly the URLs that were watched, not closed
    since, and whose connection was not lost; an interval polls none but those whose socket failed
    with an error and that were not closed since, and, when the references are well-formed (so that
    one key of the cache stands for one resource), all of those.  What the server closes without an
    error is neither watched nor polled.  (References are [watchable]: no question mark in their
    address, and no empty name.) *)
Theorem watch_refines es c :
  watch_run watch_init es c →
  let S := foldl watches ∅ es in
  (∀ url, is_open c url ↔ S !! url = Some Live) ∧
  (∀ url, is_polled c url → S !! url = Some Polled) ∧
  ((∀ e ref, e ∈ es → event_ref e = Some ref → valid_ref ref) →
   ∀ url, S !! url = Some Polled → is_polled c url).
Proof using.
  intros Hrun S. assert (watch_ok c) as Hok by (eapply watch_run_ok; [done|apply watch_init_ok]).
  pose proof (watch_run_refines (λ _, True) ∅ _ _ _ Hrun watch_init_ok (λ _ _ _ _, I)
    (implements_init _)) as Him. fold S in Him. destruct (Hok) as ((Hso & Hti) & _). split_and!.
  - intros url. split.
    + intros (k & s & Hk & Ho & <-). by apply (open_socket_live _ _ _ _ _ Hok Him Hk Ho).
    + intros HL. assert (url ∈ dom (IKubeState_sockets c.1)) as Hd
        by (rewrite <-(im_dom _ _ _ Him); by apply elem_of_dom).
      apply elem_of_dom in Hd as [[k l] Hu].
      destruct (sockets_live _ _ Hso _ _ _ Hu) as (s & Hk & Hc & Hurl & _). exists k, s.
      split_and!; [done| |done]. split; [done|]. by apply (im_live _ _ _ Him _ _ _ _ Hu Hk).
  - intros url (t & ref & Hi & <-). destruct (timers_registered _ _ Hti _ _ Hi) as [id Hid].
    destruct (im_timer _ _ _ Him _ _ Hid) as (r & Hi' & _ & HP). congruence.
  - intros Hvalid url HP.
    pose proof (watch_run_refines valid_ref ∅ _ _ _ Hrun watch_init_ok Hvalid (implements_init _)) as Hv.
    destruct (im_polled _ _ _ Hv url valid_keys_apart HP) as (r & t & Hid & <- & Hr).
    destruct Hok as (_ & _ & Htt). destruct (Htt _ _ Hid) as (r' & Hi & Hkey & _).
    destruct (im_timer _ _ _ Hv _ _ Hid) as (r2 & Hi2 & Hr2 & HP2).
    assert (r2 = r') as -> by congruence. exists t, r'. split; [done|].
    by apply valid_keys_apart.
Qed.

(** Closing the watch of a resource is final.  Whatever was opened, failed and
    answered before and whatever happens after, until a reference with the same URL
    is watched again: no open socket of the browser is for that resource, no interval
    polls it, and no socket it had, whatever events it still fires, has an error
    listener that could start polling again. *)
Theorem closed_watch_stays_quiet es c1 ref c2 es' c3 :
  watch_run watch_init es c1 → watch_step c1 (ev_close ref) c2 → watch_run c2 es' c3 →
  (∀ ref', ev_watch ref' ∈ es' → watchResourceURL ref' ≠ watchResourceURL ref) →
  (∀ k s, kw_sockets c3.2 !! k = Some s → ws_url s = watchResourceURL ref →
     ws_closed s = true ∧ ws_onError s = []) ∧
  (∀ t ref', kw_intervals c3.2 !! t = Some (poll_resource ref') →
     watchResourceURL ref' ≠ watchResourceURL ref).
Proof using.
  intros Hrun Hclose Hrun' Hes.
  assert (watch_ok c3) as Hok.
  { eapply watch_run_ok; [done|]. eapply watch_step_ok; [done|].
    eapply watch_run_ok; [done|]. apply watch_init_ok. }
  assert (IKubeState_sockets c3.1 !! watchResourceURL ref = None) as Hn.
  { eapply watch_run_sockets_None; [done| |done]. inversion Hclose; subst. simpl.
    apply lookup_delete_None. by left. }
  destruct Hok as ([Hs Ht] & Hst & Htt). split.
  - intros k s Hk Hu. destruct (ws_closed s) eqn:Hc.
    + split; [done|]. by eapply (sockets_silent _ _ Hs).
    + destruct (sockets_registered _ _ Hs _ _ Hk Hc) as [l Hl]. congruence.
  - intros t ref' Hi Heq. destruct (timers_registered _ _ Ht _ _ Hi) as [id Hid].
    destruct (Htt _ _ Hid) as (r & Hr & _ & _ & [? Hreg]). congruence.
Qed.

(** C31: The sockets and intervals of the browser are those the store knows: in every
    reachable state each socket the dashboard has not closed is the one registered for its URL, two
    such sockets have different URLs, and each interval belongs to one entry of the timers
    and polls a resource that is still being watched. *)
Theorem watch_no_leaks es c :
  watch_run watch_init es c →
  (∀ k s, kw_sockets c.2 !! k = Some s → ws_closed s = false →
     ∃ l, IKubeState_sockets c.1 !! ws_url s = Some (k, l)) ∧
  (∀ k1 k2 s1 s2, kw_sockets c.2 !! k1 = Some s1 → kw_sockets c.2 !! k2 = Some s2 →
     ws_closed s1 = false → ws_closed s2 = false → ws_url s1 = ws_url s2 → k1 = k2) ∧
  (∀ t cb, kw_intervals c.2 !! t = Some cb → ∃ ref, cb = poll_resource ref ∧
     IKubeState_timers c.1 !! getResourceURL ref = Some (Some t) ∧
     is_Some (IKubeState_sockets c.1 !! watchResourceURL ref)).
Proof using.
  intros Hrun. destruct (watch_run_ok _ _ _ Hrun watch_init_ok) as ([Hs Ht] & _ & Htt).
  split_and!.
  - apply (sockets_registered _ _ Hs).
  - intros k1 k2 s1 s2 H1 H2 Hc1 Hc2 Heq.
    destruct (sockets_registered _ _ Hs _ _ H1 Hc1) as [l1 Hl1].
    destruct (sockets_registered _ _ Hs _ _ H2 Hc2) as [l2 Hl2]. congruence.
  - intros t cb Hi. destruct (timers_registered _ _ Ht _ _ Hi) as [id Hid].
    destruct (Htt _ _ Hid) as (r & Hr & <- & _ & Hreg). exists r.
    split_and!; try done. congruence.
Qed.
End watch.
