(* ===== verification/Store.v ===== *)
(** * The store (src/dashboard/src/reducers/index.ts, src/dashboard/src/store/index.ts)

    [rootReducer] gives every slice its reducer, in the order of [combineReducers].
    The reducers of [config], [kube] and [clusters] also read and write the world
    around the store: the browser's storage, the sockets and the intervals.  An
    exception in one slice leaves the whole state as it was, but not what the
    slices before it did to the world.

    [connectRouter] of connected-react-router is the parameter [Router].  [boot] is
    the browser as it was when the modules were loaded, which some of the initial
    states are read from. *)

From S2P Require Import Prelude.
From S2P Require Import Json.
From S2P Require Import JsonText.
From S2P Require Import Browser.
From S2P Require Import Types.
From S2P Require Import Url.
From S2P Require Import KubeRef.
From S2P Require Import Actions.
From S2P Require Import AppsReducer.
From S2P Require Import AuthReducer.
From S2P Require Import ChartsReducer.
From S2P Require Import ConfigReducer.
From S2P Require Import FetchTracked.
From S2P Require Import ReposReducer.
From S2P Require Import OperatorsReducer.
From S2P Require Import ClusterReducer.
From S2P Require Import KubeReducer.

Class Router := {
  router_state : Type;
  router_initial : router_state;
  connectRouter : router_state → action → router_state;
}.

Record world := mkWorld { w_browser : browser; w_kube : kube_world }.
#[export] Instance eta_world : Eta world := λ w, mkWorld (w_browser w) (w_kube w).

Section store.
Context `{Lodash} `{Jwt} `{Location} `{Router} (boot : browser).

Record IStoreState := mkIStoreState {
  s_router : router_state;
  s_apps : IAppState;
  s_auth : IAuthState;
  s_charts : IChartState;
  s_config : IConfigState;
  s_kube : IKubeState;
  s_clusters : IClustersState;
  s_repos : IAppRepositoryState;
  s_operators : IOperatorsState;
}.

Definition store_initialState : IStoreState :=
  {| s_router := router_initial; s_apps := apps_initialState;
     s_auth := auth_getInitialState boot; s_charts := charts_initialState;
     s_config := config_initialState boot; s_kube := kube_initialState;
     s_clusters := clusters_getInitialState boot; s_repos := repos_initialState;
     s_operators := operatorsInitialState |}.

Definition rootReducer (state : IStoreState) (a : action) (w : world)
    : outcome IStoreState * world :=
  let '(config, b) := configReducer (config_initialState boot) (s_config state) a (w_browser w) in
  let '(kube, kw) := kubeReducer (s_kube state) a b (w_kube w) in
  (kube ← kube;
   clusters ← clusterReducer (clusters_getInitialState boot) (s_clusters state) a b;
   Ok {| s_router := connectRouter (s_router state) a;
         s_apps := appsReducer (s_apps state) a;
         s_auth := authReducer (s_auth state) a;
         s_charts := chartsReducer (s_charts state) a;
         s_config := config;
         s_kube := kube;
         s_clusters := clusters;
         s_repos := reposReducer (s_repos state) a;
         s_operators := operatorReducer (s_operators state) a |},
   mkWorld b kw).

(** [store.dispatch] of a plain action. *)
Definition store_dispatch (a : action) (s : IStoreState * world)
    : outcome unit * (IStoreState * world) :=
  match rootReducer s.1 a s.2 with
  | (Ok state', w') => (Ok (), (state', w'))
  | (Throws e, w') => (Throws e, (s.1, w'))
  end.

(** A sequence of dispatched actions, the exceptions being handled elsewhere. *)
Definition store_run (actions : list action) (s : IStoreState * world) : IStoreState * world :=
  foldl (λ s a, (store_dispatch a s).2) s actions.

(** ** Exceptions *)

(** When the reducer of the cache throws. *)
Definition kube_throws (state : IKubeState) (a : action) : bool :=
  match a with
  | AKube (receiveResourceFromList key _) => bool_decide (IKubeState_items state !! key = None)
  | _ => false
  end.

Lemma kubeReducer_throws state a b w :
  kube_throws state a = false ↔ ∃ state', (kubeReducer state a b w).1 = Ok state'.
Proof using.
  destruct a as [| | | |a| | | | |p]; try (split; [by eexists|done]).
  destruct a as [key|key o| |ks|e|key r'|key e|ref h l|ref|id cb|id];
    try (split; [by eexists|done]); simpl.
  - rewrite bool_decide_eq_false.
    destruct (IKubeState_items state !! key) as [i|]; simpl; [|split; [done|by intros [? ?]]].
    destruct (kube_object_items _); (split; [by eexists|done]).
  - destruct (IKubeState_sockets state !! _); (split; [by eexists|done]).
  - destruct (IKubeState_timers state !! id) as [[?|]|]; (split; [by eexists|done]).
  - destruct (IKubeState_timers state !! id) as [[?|]|]; (split; [by eexists|done]).
Qed.

Definition store_throws (state : IStoreState) (a : action) : bool :=
  kube_throws (s_kube state) a || cluster_throws (s_clusters state) a.

Lemma rootReducer_Ok state a w :
  store_throws state a = false ↔ ∃ state', (rootReducer state a w).1 = Ok state'.
Proof using.
  unfold store_throws, rootReducer. rewrite orb_false_iff.
  destruct (configReducer _ (s_config state) a (w_browser w)) as [config b].
  pose proof (kubeReducer_throws (s_kube state) a b (w_kube w)) as Hk.
  pose proof (clusterReducer_throws (clusters_getInitialState boot) (s_clusters state) a b) as Hc.
  destruct (kubeReducer (s_kube state) a b (w_kube w)) as [[kube|e] kw]; simpl in *.
  - destruct (clusterReducer _ (s_clusters state) a b) as [clusters|e]; simpl.
    + split; [by eexists|]. intros _. split; [apply Hk|apply Hc]; by eexists.
    + split; [|by intros [? ?]]. intros [_ Hthrow]. by apply Hc in Hthrow as [? ?].
  - split; [|by intros [? ?]]. intros [Hthrow _]. by apply Hk in Hthrow as [? ?].
Qed.

(** The actions no state makes throw. *)
Definition safe_action (a : action) : bool :=
  match a with
  | AKube (receiveResourceFromList _ _) | ANamespace (receiveNamespace _ _)
  | ANamespace (receiveNamespaces _ _) | LOCATION_CHANGE _ => false
  | _ => true
  end.

Lemma safe_action_throws state a : safe_action a → store_throws state a = false.
Proof using.
  unfold store_throws. destruct a as [| | | |a| |a| | |a]; try done; by destruct a.
Qed.

Lemma store_dispatch_safe a s : safe_action a → (store_dispatch a s).1 = Ok ().
Proof using.
  intros Ha. unfold store_dispatch.
  destruct (proj1 (rootReducer_Ok s.1 a s.2) (safe_action_throws s.1 a Ha)) as [st' Hst'].
  destruct (rootReducer s.1 a s.2) as [r w']. simpl in Hst'. by rewrite Hst'.
Qed.

(** ** The invariant of the store *)
Record store_ok (s : IStoreState * world) : Prop := {
  ok_auth : auth_ok (s_auth s.1);
  ok_charts : charts_ok (s_charts s.1);
  ok_repos : tracked (s_repos s.1);
  ok_operators : tracked (s_operators s.1);
  ok_kube : kube_ok (s_kube s.1) (w_kube s.2);
}.

Lemma store_initial_ok b : store_ok (store_initialState, mkWorld b kube_world_empty).
Proof using.
  constructor; simpl; auto using auth_getInitialState_ok, charts_initialState_ok,
    repos_initialState_tracked, operators_initialState_tracked, kube_initial_ok.
Qed.

Lemma store_dispatch_ok a s : store_ok s → store_ok (store_dispatch a s).2.
Proof using.
  intros [H1' H2' H3' H4' H5']. unfold store_dispatch, rootReducer.
  destruct (configReducer _ (s_config s.1) a (w_browser s.2)) as [config b].
  destruct (kubeReducer (s_kube s.1) a b (w_kube s.2)) as [kube kw] eqn:Hk.
  pose proof (kubeReducer_ok _ _ _ _ _ _ Hk H5') as Hk'.
  destruct kube as [kube|e]; simpl; [|by subst kw; constructor].
  destruct (clusterReducer _ (s_clusters s.1) a b) as [clusters|e] eqn:Hc; simpl;
    constructor; simpl; auto using authReducer_ok, chartsReducer_ok, reposReducer_tracked,
      operatorReducer_tracked.
  (* the clusters threw: the cache has not changed, and no such action has effects *)
  destruct a as [| | | |a| | | | |p]; try (by simplify_eq/=).
Qed.

Lemma store_run_ok actions s : store_ok s → store_ok (store_run actions s).
Proof using.
  unfold store_run. revert s; induction actions as [|a actions IH]; intros s Hs; [done|].
  apply IH. by apply store_dispatch_ok.
Qed.

(** C1: Whatever sequence of actions is dispatched, exceptions included, the store stays
    well formed: the user is never authenticated while authenticating, no chart is
    listed twice, the loading flags of the repositories and of the operators summarise
    those of their elements, and the open sockets and running intervals are exactly the
    ones registered in the cache. *)
Theorem store_invariant b actions :
  let s := store_run actions (store_initialState, mkWorld b kube_world_empty) in
  ¬ (IAuthState_authenticated (s_auth s.1) ∧ IAuthState_authenticating (s_auth s.1)) ∧
  NoDup (IChart_id <$> IChartState_items (s_charts s.1)) ∧
  (repos_isFetching (s_repos s.1) ↔
     fetching_repositories (repos_isFetchingElem (s_repos s.1)) ∨
     fetching_secrets (repos_isFetchingElem (s_repos s.1))) ∧
  (operators_isFetching (s_operators s.1) ↔ ∃ i, ft_elem (s_operators s.1) i) ∧
  kube_ok (s_kube s.1) (w_kube s.2).
Proof using.
  intros s. destruct (store_run_ok actions _ (store_initial_ok b)) as [Ha Hc Hr Ho Hk].
  fold s in Ha, Hc, Hr, Ho, Hk. split_and!; try done.
  - pose proof (proj1 (tracked_spec _) Hr) as Hr'. simpl in Hr'. rewrite Hr'. split.
    + intros [[] ?]; [by left|by right].
    + intros [?|?]; [by exists repositories|by exists secrets].
  - exact (proj1 (tracked_spec _) Ho).
Qed.

(** C17: A dispatch throws exactly when the action needs an entry the cache or the clusters
    do not have; the state is then the one before, in all its slices. *)
Theorem store_dispatch_atomic a s :
  (store_throws s.1 a = true ↔ ∃ e, (store_dispatch a s).1 = Throws e) ∧
  (store_throws s.1 a = true → (store_dispatch a s).2.1 = s.1) ∧
  (store_throws s.1 a = true → w_kube (store_dispatch a s).2.2 = w_kube s.2).
Proof using.
  unfold store_dispatch. pose proof (rootReducer_Ok s.1 a s.2) as Hr.
  destruct (rootReducer s.1 a s.2) as [[st'|e] w'] eqn:Heq; simpl in *.
  - assert (store_throws s.1 a = false) as -> by (apply Hr; by eexists).
    split_and!; try done. split; [done|by intros [? ?]].
  - assert (store_throws s.1 a = true) as Ht.
    { destruct (store_throws s.1 a); [done|]. by destruct (proj1 Hr eq_refl). }
    split_and!; try done.
    + split; [by eexists|done].
    + intros _. unfold store_throws in Ht. unfold rootReducer in Heq.
      destruct (configReducer _ (s_config s.1) a (w_browser s.2)) as [config b].
      destruct a as [| | | |a| |n| | |path]; try done; try (injection Heq as _ <-; done).
      destruct a as [key|key o| |ks|e'|key r'|key e'|ref h l|ref|id cb|id]; try done.
      simpl in Heq. injection Heq as _ <-. done.
Qed.

(** The slices that react to an action. *)
Inductive slice := sl_apps | sl_auth | sl_charts | sl_config | sl_kube | sl_clusters
  | sl_repos | sl_operators.

Definition listens (i : slice) (a : action) : bool :=
  match i, a with
  | sl_apps, (AApps _ | LOCATION_CHANGE _) => true
  | sl_auth, AAuth _ => true
  | sl_charts, ACharts _ => true
  | sl_config, AConfig _ => true
  | sl_kube, (AKube _ | LOCATION_CHANGE _) => true
  | sl_clusters, (ANamespace _ | LOCATION_CHANGE _ | AConfig (receiveConfig _)) => true
  | sl_repos, (ARepos _ | LOCATION_CHANGE _) => true
  | sl_operators, (AOperator _ | LOCATION_CHANGE _ | ANamespace (setNamespaceState _ _)) => true
  | _, _ => false
  end.

(** An action changes only the slices that listen to it; the actions of the service
    catalog change none. *)
Theorem store_dispatch_frame a s :
  let s' := (store_dispatch a s).2 in
  (listens sl_apps a = false → s_apps s'.1 = s_apps s.1) ∧
  (listens sl_auth a = false → s_auth s'.1 = s_auth s.1) ∧
  (listens sl_charts a = false → s_charts s'.1 = s_charts s.1) ∧
  (listens sl_config a = false → s_config s'.1 = s_config s.1 ∧ w_browser s'.2 = w_browser s.2) ∧
  (listens sl_kube a = false → s_kube s'.1 = s_kube s.1 ∧ w_kube s'.2 = w_kube s.2) ∧
  (listens sl_clusters a = false → s_clusters s'.1 = s_clusters s.1) ∧
  (listens sl_repos a = false → s_repos s'.1 = s_repos s.1) ∧
  (listens sl_operators a = false → s_operators s'.1 = s_operators s.1).
Proof using.
  intros s'. subst s'. unfold store_dispatch, rootReducer.
  destruct (configReducer _ (s_config s.1) a (w_browser s.2)) as [config b] eqn:Hcfg.
  destruct (kubeReducer (s_kube s.1) a b (w_kube s.2)) as [kube kw] eqn:Hk.
  assert (listens sl_config a = false → config = s_config s.1 ∧ b = w_browser s.2) as Hcfg'.
  { destruct a; try (by simplify_eq/=). }
  assert (listens sl_kube a = false → kube = Ok (s_kube s.1) ∧ kw = w_kube s.2) as Hk'.
  { destruct a; try (by simplify_eq/=). }
  destruct kube as [kube|e]; simpl.
  - destruct (clusterReducer _ (s_clusters s.1) a b) as [clusters|e] eqn:Hc; simpl.
    + split_and!; try (by destruct a).
      * intros [[= ->] ->]%Hk'. done.
      * destruct a as [| | |c| |n| | | |]; try (by simplify_eq/=). destruct c; by simplify_eq/=.
      * destruct a as [| | |c| |n| | | |]; try done. by destruct n.
    + split_and!; try done; [by intros [_ ->]%Hcfg'|by intros [_ ->]%Hk'].
  - split_and!; try done; [by intros [_ ->]%Hcfg'|by intros [? ->]%Hk'].
Qed.
End store.
