(* ===== verification/Thunk.v ===== *)
(** * Thunks: the asynchronous actions of the store

    A thunk of redux-thunk is an async function over [dispatch] and [getState].
    [prog A] is the syntax of what such a function does until it returns an [A] or
    throws: dispatching plain actions, reading the state, using the browser, sending
    a request and waiting for its response, starting another thunk without waiting
    for it ([Fork]).  [run] gives it its meaning.  JavaScript runs one thunk at a
    time and gives the others a turn only at an [await], so the world outside is an
    environment ([env]): what the servers answer, and what other thunks and the user
    dispatch during each wait.  A theorem for every environment is a theorem for
    every interleaving with the rest of the program.

    A thunk started by [Fork] runs up to its first wait; the rest of it belongs to
    the environment and is kept in [m_forked].  The responses of requests sent
    together arrive in an order of the environment's choice. *)

From S2P Require Import Prelude.
From S2P Require Import Json.
From S2P Require Import JsonText.
From S2P Require Import Browser.
From S2P Require Import Types.
From S2P Require Import Url.
From S2P Require Import KubeRef.
From S2P Require Import Actions.
From S2P Require Import AppsReducer.
From S2P Require Import AuthReducer.
From S2P Require Import ChartsReducer.
From S2P Require Import ConfigReducer.
From S2P Require Import ReposReducer.
From S2P Require Import OperatorsReducer.
From S2P Require Import ClusterReducer.
From S2P Require Import KubeReducer.
From S2P Require Import Store.

(** ** Requests and responses *)

Inductive http_method := GET | POST | PUT | DELETE | PATCH.

Record request := mkRequest {
  req_method : http_method;
  req_url : string;
  req_body : json;
  req_params : list (string * json);
  req_headers : list (string * string);
}.

Definition get_request (url : string) : request := mkRequest GET url JUndefined [] [].
Definition post_request (url : string) (body : json) : request := mkRequest POST url body [] [].
Definition put_request (url : string) (body : json) : request := mkRequest PUT url body [] [].
Definition delete_request (url : string) : request := mkRequest DELETE url JUndefined [] [].

(** The clients of src/dashboard/src/shared/AxiosInstance.ts, and the default one. *)
Inductive http_client := Axios | axios | axiosWithAuth.

(** [{ data: A }] *)
Record envelope (A : Type) := mkEnvelope { data : A }.
Arguments mkEnvelope {A}.
Arguments data {A}.

Record charts_page := mkChartsPage { page_data : list IChart; page_meta : IChartListMeta }.

(** The group of an API and the resources of a version, as the API server lists them. *)
Record api_resource := mkApiResource {
  api_resource_name : string;
  api_resource_kind : string;
  api_resource_namespaced : bool;
}.

(** A response before the interceptors have seen it. *)
Record AxiosResponse := mkAxiosResponse { resp_status : Z; resp_data : json }.

Record AxiosError := mkAxiosError {
  axios_code : option string;
  axios_message : string;
  axios_response : option AxiosResponse;
}.

(** What a response carries, by the type argument of the call.  Where the code reads one
    property of the body and nothing else, the type is that of the property: [appRepository]
    ([T_repo_list]), [namespaces] ([T_namespaces]), [allowed] ([T_bool]), the version each of
    [groups] prefers ([T_api_groups]) and [resources] ([T_api_resources]).  [T_status] is the
    status of the response, [T_raw] the response or the failure as they are. *)
Inductive resp_ty :=
| T_json | T_string | T_status | T_raw | T_bool
| T_release | T_overviews
| T_charts_page | T_charts | T_categories | T_chart_versions | T_chart_version
| T_repo | T_repo_list | T_repo_response
| T_secret | T_secret_list
| T_namespaces | T_resource | T_resource_list | T_kube_object
| T_packagemanifest | T_packagemanifests | T_csv | T_csvs
| T_config
| T_api_groups | T_api_resources
| T_brokers | T_plans | T_classes | T_class | T_instances | T_instance
| T_binding | T_bindings | T_k8s_secret.

Definition denote (t : resp_ty) : Type :=
  match t with
  | T_json => json
  | T_string => string
  | T_status => Z
  | T_raw => AxiosResponse + AxiosError
  | T_bool => bool
  | T_release => envelope IRelease
  | T_overviews => envelope (option (list IAppOverview))
  | T_charts_page => charts_page
  | T_charts => envelope (list IChart)
  | T_categories => envelope (option (list IChartCategory))
  | T_chart_versions => envelope (option (list IChartVersion))
  | T_chart_version => envelope (option IChartVersion)
  | T_repo => IAppRepository
  | T_repo_list => IAppRepositoryList
  | T_repo_response => ICreateAppRepositoryResponse
  | T_secret => ISecret
  | T_secret_list => IK8sList ISecret
  | T_namespaces => option (list IResource)
  | T_resource => IResource
  | T_resource_list => IK8sList IResource
  | T_kube_object => kube_object
  | T_packagemanifest => IPackageManifest
  | T_packagemanifests => IK8sList IPackageManifest
  | T_csv => IClusterServiceVersion
  | T_csvs => IK8sList IClusterServiceVersion
  | T_config => IConfig
  | T_api_groups => list string
  | T_api_resources => option (list api_resource)
  | T_brokers => IK8sList IServiceBroker
  | T_plans => IK8sList IServicePlan
  | T_classes => IK8sList IClusterServiceClass
  | T_class => IClusterServiceClass
  | T_instances => IK8sList IServiceInstance
  | T_instance => IServiceInstance
  | T_binding => IServiceBinding
  | T_bindings => IK8sList IServiceBinding
  | T_k8s_secret => IK8sApiSecretResponse
  end.

Section thunk.
Context `{Lodash} `{Jwt} `{Location} `{Router} (boot : browser).

Inductive prog (A : Type) : Type :=
| Ret (a : A)
| Throw (e : js_error)
| Dispatch (a : action) (k : outcome unit → prog A)
| GetState (k : IStoreState → prog A)
| Browse (f : browser → browser) (k : browser → prog A)
| Mutate (f : IStoreState → IStoreState) (k : prog A)
| Send (c : http_client) (r : request) (k : prog A)
| Receive (c : http_client) (r : request) (t : resp_ty) (k : outcome (denote t) → prog A)
| ReceiveAll (c : http_client) (rs : list request) (t : resp_ty)
    (k : list (nat * outcome (denote t)) → prog A)
| Await (k : prog A)
| Fork (p : prog unit) (k : prog A).
#[global] Arguments Ret {A}.
#[global] Arguments Throw {A}.
#[global] Arguments Dispatch {A}.
#[global] Arguments GetState {A}.
#[global] Arguments Browse {A}.
#[global] Arguments Mutate {A}.
#[global] Arguments Send {A}.
#[global] Arguments Receive {A}.
#[global] Arguments ReceiveAll {A}.
#[global] Arguments Await {A}.
#[global] Arguments Fork {A}.

(** [p], then [f] on its result; [h] on its exception. *)
Fixpoint after {A B : Type} (p : prog A) (f : A → prog B) (h : js_error → prog B) : prog B :=
  match p with
  | Ret a => f a
  | Throw e => h e
  | Dispatch a k => Dispatch a (λ r, after (k r) f h)
  | GetState k => GetState (λ s, after (k s) f h)
  | Browse g k => Browse g (λ b, after (k b) f h)
  | Mutate g k => Mutate g (after k f h)
  | Send c r k => Send c r (after k f h)
  | Receive c r t k => Receive c r t (λ x, after (k x) f h)
  | ReceiveAll c rs t k => ReceiveAll c rs t (λ x, after (k x) f h)
  | Await k => Await (after k f h)
  | Fork q k => Fork q (after k f h)
  end.

#[global] Instance prog_ret : MRet prog := λ A, Ret.
#[global] Instance prog_bind : MBind prog := λ A B f p, after p f Throw.

(** [try { p } catch (e) { h(e) }] *)
Definition try_catch {A} (p : prog A) (h : js_error → prog A) : prog A := after p Ret h.

(** [await p]: others run before the result, or the exception, is seen. *)
Definition await {A} (p : prog A) : prog A :=
  after p (λ a, Await (Ret a)) (λ e, Await (Throw e)).

Definition lift {A} (r : outcome A) : prog A :=
  match r with Ok a => Ret a | Throws e => Throw e end.

Definition dispatch (a : action) : prog unit := Dispatch a lift.
Definition getState : prog IStoreState := GetState Ret.
Definition browse (f : browser → browser) : prog browser := Browse f Ret.
Definition fork {A} (p : prog A) : prog unit := Fork (p ≫= λ _, Ret ()) (Ret ()).

(** [await client.get(...)] and the like. *)
Definition http (c : http_client) (r : request) (t : resp_ty) : prog (denote t) :=
  Send c r (Receive c r t lift).

(** The requests sent together, and their responses with the positions of the
    requests, in the order they arrive. *)
Definition http_all (c : http_client) (rs : list request) (t : resp_ty)
    : prog (list (nat * outcome (denote t))) :=
  foldr (λ r k, Send c r k) (ReceiveAll c rs t Ret) rs.

(** ** The environment and the machine *)

Record env := mkEnv {
  env_reply : nat → http_client → request → ∀ t, outcome (denote t);
  env_order : nat → nat → list nat;
  env_order_perm i n : env_order i n ≡ₚ seq 0 n;
  env_actions : nat → list action;
  env_browser : nat → browser → browser;
}.

Inductive event := EvDispatch (a : action) | EvRequest (c : http_client) (r : request).

Record machine := mkMachine {
  m_store : IStoreState;
  m_world : world;
  m_ticks : nat;
  m_trace : list event;
  m_forked : list (prog unit);
}.

Definition m_put (s : IStoreState * world) (m : machine) : machine :=
  mkMachine s.1 s.2 (m_ticks m) (m_trace m) (m_forked m).
Definition m_log (e : event) (m : machine) : machine :=
  mkMachine (m_store m) (m_world m) (m_ticks m) (m_trace m ++ [e]) (m_forked m).
Definition m_fork (p : prog unit) (m : machine) : machine :=
  mkMachine (m_store m) (m_world m) (m_ticks m) (m_trace m) (m_forked m ++ [p]).

Definition do_dispatch (a : action) (m : machine) : outcome unit * machine :=
  let '(r, s) := store_dispatch boot a (m_store m, m_world m) in (r, m_log (EvDispatch a) (m_put s m)).

Definition do_browse (f : browser → browser) (m : machine) : machine :=
  m_put (m_store m, (m_world m) <| w_browser := f (w_browser (m_world m)) |>) m.

Definition do_mutate (f : IStoreState → IStoreState) (m : machine) : machine :=
  m_put (f (m_store m), m_world m) m.

(** One wait: the others dispatch and use the browser. *)
Definition do_tick (E : env) (m : machine) : machine :=
  let '(s, w) := store_run boot (env_actions E (m_ticks m)) (m_store m, m_world m) in
  mkMachine s (w <| w_browser := env_browser E (m_ticks m) (w_browser w) |>)
    (S (m_ticks m)) (m_trace m) (m_forked m).

(** Up to the first wait. *)
Fixpoint run_sync {A : Type} (p : prog A) (m : machine) : prog A * machine :=
  match p with
  | Ret _ | Throw _ | Receive _ _ _ _ | ReceiveAll _ _ _ _ | Await _ => (p, m)
  | Dispatch a k => let '(r, m) := do_dispatch a m in run_sync (k r) m
  | GetState k => run_sync (k (m_store m)) m
  | Browse f k => run_sync (k (w_browser (m_world m))) (do_browse f m)
  | Mutate f k => run_sync k (do_mutate f m)
  | Send c r k => run_sync k (m_log (EvRequest c r) m)
  | Fork q k => let '(q', m) := run_sync q m in run_sync k (m_fork q' m)
  end.

Fixpoint run (E : env) {A : Type} (p : prog A) (m : machine) : outcome A * machine :=
  match p with
  | Ret a => (Ok a, m)
  | Throw e => (Throws e, m)
  | Dispatch a k => let '(r, m) := do_dispatch a m in run E (k r) m
  | GetState k => run E (k (m_store m)) m
  | Browse f k => run E (k (w_browser (m_world m))) (do_browse f m)
  | Mutate f k => run E k (do_mutate f m)
  | Send c r k => run E k (m_log (EvRequest c r) m)
  | Receive c r t k => run E (k (env_reply E (m_ticks m) c r t)) (do_tick E m)
  | ReceiveAll c rs t k =>
    let arrived := (λ i, (i, default (Throws (undefined_access "response"))
                               ((λ r, env_reply E (m_ticks m) c r t) <$> rs !! i)))
                     <$> env_order E (m_ticks m) (length rs) in
    run E (k arrived) (do_tick E m)
  | Await k => run E k (do_tick E m)
  | Fork q k => let '(q', m) := run_sync q m in run E k (m_fork q' m)
  end.

(** ** Running composed programs *)

Lemma run_after E {A B} (p : prog A) (f : A → prog B) h m :
  run E (after p f h) m =
  match run E p m with
  | (Ok a, m') => run E (f a) m'
  | (Throws e, m') => run E (h e) m'
  end.
Proof using.
  revert m. induction p; intros m; simpl; try done.
  - destruct (do_dispatch a m). done.
  - destruct (run_sync p1 m). done.
Qed.

Lemma run_bind E {A B} (p : prog A) (f : A → prog B) m :
  run E (p ≫= f) m =
  match run E p m with
  | (Ok a, m') => run E (f a) m'
  | (Throws e, m') => (Throws e, m')
  end.
Proof using. unfold mbind, prog_bind. rewrite run_after. done. Qed.

Lemma run_try E {A} (p : prog A) h m :
  run E (try_catch p h) m =
  match run E p m with
  | (Ok a, m') => (Ok a, m')
  | (Throws e, m') => run E (h e) m'
  end.
Proof using. unfold try_catch. by rewrite run_after. Qed.

Lemma run_await E {A} (p : prog A) m :
  run E (await p) m = let '(r, m') := run E p m in (r, do_tick E m').
Proof using. unfold await. rewrite run_after. by destruct (run E p m) as [[a|e] m']. Qed.

Lemma run_lift E {A} (r : outcome A) m : run E (lift r) m = (r, m).
Proof using. by destruct r. Qed.

Lemma run_ret E {A} (a : A) m : run E (mret a) m = (Ok a, m).
Proof using. done. Qed.

Lemma run_Ret E {A} (a : A) m : run E (Ret a) m = (Ok a, m).
Proof using. done. Qed.

Lemma run_dispatch E a m : run E (dispatch a) m = do_dispatch a m.
Proof using. simpl. destruct (do_dispatch a m) as [r m']. by rewrite run_lift. Qed.

Lemma run_http E c r t m :
  run E (http c r t) m =
  (env_reply E (m_ticks m) c r t, do_tick E (m_log (EvRequest c r) m)).
Proof using. simpl. by rewrite run_lift. Qed.

Definition log_requests (c : http_client) (rs : list request) (m : machine) : machine :=
  foldl (λ m r, m_log (EvRequest c r) m) m rs.

Definition arrivals (E : env) (n : nat) (c : http_client) (rs : list request) (t : resp_ty)
    : list (nat * outcome (denote t)) :=
  (λ i, (i, default (Throws (undefined_access "response"))
              ((λ r, env_reply E n c r t) <$> rs !! i))) <$> env_order E n (length rs).

Lemma run_sends E {A} c rs (k : prog A) m :
  run E (foldr (λ r k, Send c r k) k rs) m = run E k (log_requests c rs m).
Proof using. revert m. induction rs as [|r rs IH]; intros m; [done|]. apply IH. Qed.

Lemma log_requests_ticks c rs m : m_ticks (log_requests c rs m) = m_ticks m.
Proof using. revert m. induction rs as [|r rs IH]; intros m; [done|]. simpl. by rewrite IH. Qed.

Lemma run_http_all E c rs t m :
  run E (http_all c rs t) m =
  (Ok (arrivals E (m_ticks m) c rs t), do_tick E (log_requests c rs m)).
Proof using.
  unfold http_all. rewrite run_sends. simpl. by rewrite log_requests_ticks.
Qed.

(** Every request of the group is answered once. *)
Lemma arrivals_perm E n c rs t :
  arrivals E n c rs t ≡ₚ imap (λ i r, (i, env_reply E n c r t)) rs.
Proof using.
  unfold arrivals. rewrite (env_order_perm E).
  assert (∀ l l' : list (nat * outcome (denote t)), l = l' → l ≡ₚ l') as Heq by (by intros ? ? ->).
  apply Heq, list_eq. intros i. rewrite list_lookup_fmap, list_lookup_imap.
  destruct (rs !! i) as [r|] eqn:Hi.
  - rewrite lookup_seq_lt by (by eapply lookup_lt_Some). simpl. by rewrite Hi.
  - rewrite lookup_seq_ge; [done|]. by apply lookup_ge_None.
Qed.

Lemma run_fork E {A} (p : prog A) m :
  run E (fork p) m = let '(q, m) := run_sync (p ≫= λ _, Ret ()) m in (Ok (), m_fork q m).
Proof using. unfold fork. simpl. by destruct (run_sync _ m). Qed.

Lemma run_getState E m : run E getState m = (Ok (m_store m), m).
Proof using. done. Qed.

Lemma run_browse E f m : run E (browse f) m = (Ok (w_browser (m_world m)), do_browse f m).
Proof using. done. Qed.

(** ** Traces *)

Lemma do_dispatch_safe a m : safe_action a → (do_dispatch a m).1 = Ok ().
Proof using.
  intros Ha. unfold do_dispatch. pose proof (store_dispatch_safe boot a (m_store m, m_world m) Ha).
  by destruct (store_dispatch boot a (m_store m, m_world m)).
Qed.

Lemma do_dispatch_trace a m : m_trace (do_dispatch a m).2 = m_trace m ++ [EvDispatch a].
Proof using. unfold do_dispatch. by destruct (store_dispatch _ _ _). Qed.

Lemma do_dispatch_forked a m : m_forked (do_dispatch a m).2 = m_forked m.
Proof using. unfold do_dispatch. by destruct (store_dispatch _ _ _). Qed.

Lemma do_tick_trace E m : m_trace (do_tick E m) = m_trace m.
Proof using. unfold do_tick. by destruct (store_run _ _ _). Qed.

Lemma do_tick_forked E m : m_forked (do_tick E m) = m_forked m.
Proof using. unfold do_tick. by destruct (store_run _ _ _). Qed.

Lemma log_requests_trace c rs m : m_trace (log_requests c rs m) = m_trace m ++ (EvRequest c <$> rs).
Proof using.
  revert m. induction rs as [|r rs IH]; intros m; simpl; [by rewrite app_nil_r|].
  rewrite IH. simpl. by rewrite <-app_assoc.
Qed.

Lemma log_requests_forked c rs m : m_forked (log_requests c rs m) = m_forked m.
Proof using. revert m. induction rs as [|r rs IH]; intros m; [done|]. apply (IH (m_log (EvRequest c r) m)). Qed.

(** [p] ends with [r], having dispatched and requested [tr] and started [fs]. *)
Definition performs (E : env) {A} (p : prog A) (m : machine) (r : outcome A) (tr : list event)
    (fs : list (prog unit)) : Prop :=
  (run E p m).1 = r ∧ m_trace (run E p m).2 = m_trace m ++ tr ∧
  m_forked (run E p m).2 = m_forked m ++ fs.

(** The outcome, the events and the machine that is left, given together. *)
Lemma performs_run E {A} (p : prog A) m r tr fs :
  performs E p m r tr fs → ∃ m', run E p m = (r, m') ∧ m_trace m' = m_trace m ++ tr ∧
    m_forked m' = m_forked m ++ fs.
Proof using.
  intros (H1' & H2' & H3'). exists (run E p m).2. rewrite <-H1'.
  split_and!; try done. by destruct (run E p m).
Qed.

(** The machine after an action that does not throw. *)
Definition dispatched (a : action) (m : machine) : machine := (do_dispatch a m).2.

Lemma run_dispatch_safe E a m : safe_action a → run E (dispatch a) m = (Ok (), dispatched a m).
Proof using.
  intros Ha. rewrite run_dispatch. unfold dispatched.
  rewrite (surjective_pairing (do_dispatch a m)) at 1. by rewrite do_dispatch_safe.
Qed.

Lemma run_throw E {A} e m : run E (Throw (A:=A) e) m = (Throws e, m).
Proof using. done. Qed.

Lemma run_send_receive E {A} c r t (k : outcome (denote t) → prog A) m :
  run E (Send c r (Receive c r t k)) m =
  run E (k (env_reply E (m_ticks m) c r t)) (do_tick E (m_log (EvRequest c r) m)).
Proof using. done. Qed.

Lemma run_mutate E {A} f (k : prog A) m : run E (Mutate f k) m = run E k (do_mutate f m).
Proof using. done. Qed.

(** What an action that does not throw leaves in the store and around it. *)
Lemma dispatched_state a m :
  safe_action a →
  ∃ kw, let b := (configReducer (config_initialState boot) (s_config (m_store m)) a
              (w_browser (m_world m))).2 in
    m_world (dispatched a m) = mkWorld b kw ∧
    s_auth (m_store (dispatched a m)) = authReducer (s_auth (m_store m)) a ∧
    s_apps (m_store (dispatched a m)) = appsReducer (s_apps (m_store m)) a ∧
    s_charts (m_store (dispatched a m)) = chartsReducer (s_charts (m_store m)) a ∧
    s_repos (m_store (dispatched a m)) = reposReducer (s_repos (m_store m)) a ∧
    s_operators (m_store (dispatched a m)) = operatorReducer (s_operators (m_store m)) a ∧
    s_config (m_store (dispatched a m)) =
      (configReducer (config_initialState boot) (s_config (m_store m)) a
         (w_browser (m_world m))).1 ∧
    clusterReducer (clusters_getInitialState boot) (s_clusters (m_store m)) a b =
      Ok (s_clusters (m_store (dispatched a m))) ∧
    (kubeReducer (s_kube (m_store m)) a b (w_kube (m_world m))).1 =
      Ok (s_kube (m_store (dispatched a m))).
Proof using.
  intros Ha. unfold dispatched, do_dispatch.
  pose proof (store_dispatch_safe boot a (m_store m, m_world m) Ha) as Hok.
  unfold store_dispatch, rootReducer in *. simpl in *.
  destruct (configReducer _ _ a (w_browser (m_world m))) as [c b]. simpl.
  destruct (kubeReducer _ a b (w_kube (m_world m))) as [[k|e] kw]; simpl in *; [|done].
  destruct (clusterReducer _ _ a b) as [cl|e]; simpl in *; [|done].
  exists kw. done.
Qed.

(** Actions of the configuration aside, no action touches the browser. *)
Lemma dispatched_browser a m :
  safe_action a → listens sl_config a = false →
  w_browser (m_world (dispatched a m)) = w_browser (m_world m).
Proof using.
  intros Ha Hl. destruct (dispatched_state a m Ha) as (kw & Hw & _). rewrite Hw. simpl.
  by destruct a.
Qed.

Lemma dispatched_auth a m :
  safe_action a → s_auth (m_store (dispatched a m)) = authReducer (s_auth (m_store m)) a.
Proof using. intros Ha. destruct (dispatched_state a m Ha) as (kw & _ & ? & _). done. Qed.

Lemma do_browse_browser f m : w_browser (m_world (do_browse f m)) = f (w_browser (m_world m)).
Proof using. done. Qed.

Lemma do_browse_id m : w_browser (m_world (do_browse id m)) = w_browser (m_world m).
Proof using. done. Qed.

Lemma do_browse_store f m : m_store (do_browse f m) = m_store m.
Proof using. done. Qed.

(** ** Thunks that are started without waiting for them *)

Lemma run_sync_after {A B} (p : prog A) (f : A → prog B) h m :
  run_sync (after p f h) m =
  match run_sync p m with
  | (Ret a, m') => run_sync (f a) m'
  | (Throw e, m') => run_sync (h e) m'
  | (q, m') => (after q f h, m')
  end.
Proof using.
  revert m. induction p; intros m; simpl; try done.
  - destruct (do_dispatch a m). done.
  - destruct (run_sync p1 m). done.
Qed.

Lemma run_sync_bind {A B} (p : prog A) (f : A → prog B) m :
  run_sync (p ≫= f) m =
  match run_sync p m with
  | (Ret a, m') => run_sync (f a) m'
  | (Throw e, m') => (Throw e, m')
  | (q, m') => (q ≫= f, m')
  end.
Proof using. unfold mbind, prog_bind. by rewrite run_sync_after. Qed.

Lemma run_sync_try {A} (p : prog A) h m :
  run_sync (try_catch p h) m =
  match run_sync p m with
  | (Ret a, m') => (Ret a, m')
  | (Throw e, m') => run_sync (h e) m'
  | (q, m') => (try_catch q h, m')
  end.
Proof using. unfold try_catch. by rewrite run_sync_after. Qed.

Lemma run_sync_await {A} (p : prog A) m :
  run_sync (await p) m =
  match run_sync p m with
  | (Ret a, m') => (Await (Ret a), m')
  | (Throw e, m') => (Await (Throw e), m')
  | (q, m') => (await q, m')
  end.
Proof using. unfold await. by rewrite run_sync_after. Qed.

Lemma run_sync_dispatch a m : safe_action a → run_sync (dispatch a) m = (Ret (), dispatched a m).
Proof using.
  intros Ha. simpl. unfold dispatched. pose proof (do_dispatch_safe a m Ha) as Hok.
  destruct (do_dispatch a m) as [r m']. simpl in *. by rewrite Hok.
Qed.

Lemma run_sync_http c r t m :
  run_sync (http c r t) m = (Receive c r t lift, m_log (EvRequest c r) m).
Proof using. done. Qed.

Lemma run_sync_browse f m : run_sync (browse f) m = (Ret (w_browser (m_world m)), do_browse f m).
Proof using. done. Qed.

Lemma run_sync_getState m : run_sync getState m = (Ret (m_store m), m).
Proof using. done. Qed.

Lemma run_sync_ret {A} (a : A) m : run_sync (mret a) m = (Ret a, m).
Proof using. done. Qed.

Lemma run_sync_Ret {A} (a : A) m : run_sync (Ret a) m = (Ret a, m).
Proof using. done. Qed.

(** A program that stopped at a wait. *)
Definition waiting {A} (p : prog A) : Prop :=
  match p with Receive _ _ _ _ | ReceiveAll _ _ _ _ | Await _ => True | _ => False end.

(** A started program is left to the environment from its first wait on. *)
Lemma run_fork_waiting E {A} (p q : prog A) m m' :
  run_sync p m = (q, m') → waiting q →
  run E (fork p) m = (Ok (), m_fork (q ≫= λ _, Ret ()) m').
Proof using. intros Hp Hq. rewrite run_fork, run_sync_bind, Hp. by destruct q. Qed.

Lemma do_browse_trace f m : m_trace (do_browse f m) = m_trace m.
Proof using. done. Qed.

Lemma do_browse_ticks f m : m_ticks (do_browse f m) = m_ticks m.
Proof using. done. Qed.

Lemma do_browse_forked f m : m_forked (do_browse f m) = m_forked m.
Proof using. done. Qed.

Lemma run_receive E {A} c r t (k : outcome (denote t) → prog A) m :
  run E (Receive c r t k) m = run E (k (env_reply E (m_ticks m) c r t)) (do_tick E m).
Proof using. done. Qed.

Lemma dispatched_ticks a m : m_ticks (dispatched a m) = m_ticks m.
Proof using. unfold dispatched, do_dispatch. by destruct (store_dispatch _ _ _). Qed.

Lemma dispatched_trace a m : m_trace (dispatched a m) = m_trace m ++ [EvDispatch a].
Proof using. apply do_dispatch_trace. Qed.

Lemma dispatched_forked a m : m_forked (dispatched a m) = m_forked m.
Proof using. apply do_dispatch_forked. Qed.

Lemma do_tick_ticks E m : m_ticks (do_tick E m) = S (m_ticks m).
Proof using. unfold do_tick. by destruct (store_run _ _ _). Qed.
(** What a handler does with the answer of the thunk it waits for. *)
Lemma performs_then E {A B} (p : prog A) (g : A → B) m a tr fs :
  performs E p m (Ok a) tr fs → performs E (x ← await p; mret (g x)) m (Ok (g a)) tr fs.
Proof using.
  intros (m' & Hrun & Htr & Hfs)%performs_run. unfold performs.
  rewrite run_bind, run_await, Hrun. cbn beta match. rewrite run_ret. cbn [fst snd].
  by rewrite do_tick_trace, do_tick_forked.
Qed.

End thunk.

(** Rewriting runs of composed programs, and what is read of the machine they leave. *)
#[export] Hint Rewrite @run_after @run_bind @run_try @run_await @run_lift @run_ret @run_Ret @run_throw
  @run_send_receive @run_receive @run_http_all @run_getState @run_browse @run_mutate : run.
#[export] Hint Rewrite @run_dispatch_safe @run_sync_dispatch using done : run.
#[export] Hint Rewrite @run_fork @run_sync_bind @run_sync_try @run_sync_await @run_sync_http
  @run_sync_browse @run_sync_getState @run_sync_ret @run_sync_Ret : run.
#[export] Hint Rewrite @dispatched_ticks @dispatched_trace @dispatched_forked @do_tick_ticks
  @do_tick_trace @do_tick_forked @log_requests_trace @log_requests_ticks @log_requests_forked @do_browse_trace @do_browse_ticks
  @do_browse_forked @do_browse_browser @do_browse_store : machine.
#[export] Hint Rewrite <- @app_assoc : machine.

Ltac run_reduce := cbn [fst snd data m_ticks m_trace m_forked m_log m_put m_fork lift].

(** Runs the program of the goal as far as it goes without a choice of the environment. *)
Ltac run_steps := unfold http; repeat (progress (autorewrite with run; run_reduce)).
Ltac read_machine := repeat (progress (autorewrite with machine; run_reduce)).

(** Proves what a program performs: every answer of the environment is a case. *)
Ltac perform :=
  unfold performs; run_steps; read_machine;
  repeat (match goal with
          | |- context [env_reply ?E ?n ?c ?r ?t] => destruct (env_reply E n c r t)
          end; run_reduce; run_steps; read_machine);
  rewrite ?app_nil_r; try done.
