(* ===== verification/HelmServices.v ===== *)
(** * The clients of the Helm side of the backend

    The classes of src/dashboard/src/shared/App.ts, Chart.ts, AppRepository.ts and
    Secret.ts: one definition per method, named [<Class>_<method>], with the request
    it sends and what it takes of the response. *)

From S2P Require Import Prelude.
From S2P Require Import Json.
From S2P Require Import JsonText.
From S2P Require Import Browser.
From S2P Require Import Types.
From S2P Require Import Url.
From S2P Require Import KubeRef.
From S2P Require Import Actions.
From S2P Require Import Store.
From S2P Require Import Thunk.

Definition opt_json (o : option string) : json :=
  match o with Some s => JStr s | None => JUndefined end.
Definition JStrs (l : list string) : json := JArr (JStr <$> l).

Section helm.
Context `{Router}.

(** ** App.ts *)

(** The body of the installation and of the upgrade of a chart. *)
Definition release_body (chartNamespace releaseName : string) (chartVersion : IChartVersion)
    (values : option string) : outcome json :=
  let chartAttrs := IChartVersion_relationships_chart_data chartVersion in
  chartName ← decodeURIComponent (IChartAttributes_name chartAttrs);
  Ok (JObj
    [("appRepositoryResourceName", JStr (IRepo_name (IChartAttributes_repo chartAttrs)));
     ("appRepositoryResourceNamespace", JStr chartNamespace);
     ("chartName", JStr chartName);
     ("releaseName", JStr releaseName);
     ("values", opt_json values);
     ("version",
        JStr (IChartVersionAttributes_version (IChartVersion_attributes chartVersion)))]).

Definition App_create (cluster namespace releaseName chartNamespace : string)
    (chartVersion : IChartVersion) (values : option string) : prog json :=
  let endpoint := kubeops_releases_list cluster namespace in
  body ← lift (release_body chartNamespace releaseName chartVersion values);
  http axiosWithAuth (post_request endpoint body) T_json.

Definition App_upgrade (cluster namespace releaseName chartNamespace : string)
    (chartVersion : IChartVersion) (values : option string) : prog json :=
  let endpoint := kubeops_releases_get cluster namespace releaseName in
  body ← lift (release_body chartNamespace releaseName chartVersion values);
  http axiosWithAuth (put_request endpoint body) T_json.

Definition App_rollback (cluster namespace releaseName : string) (revision : Z) : prog json :=
  let endpoint := kubeops_releases_get cluster namespace releaseName in
  http axiosWithAuth
    (mkRequest PUT endpoint (JObj [])
       [("action", JStr "rollback"); ("revision", JNum revision)] []) T_json.

Definition App_delete (cluster namespace releaseName : string) (purge : bool) : prog json :=
  let endpoint := kubeops_releases_get cluster namespace releaseName in
  let endpoint := if purge then endpoint +:+ "?purge=true" else endpoint in
  http axiosWithAuth (delete_request endpoint) T_json.

Definition App_listApps (cluster : string) (namespace : option string)
    : prog (option (list IAppOverview)) :=
  let endpoint :=
    if truthy_opt namespace then kubeops_releases_list cluster (default "" namespace)
    else kubeops_releases_listAll cluster in
  let endpoint := endpoint +:+ "?statuses=all" in
  r ← http axiosWithAuth (get_request endpoint) T_overviews;
  mret (data r).

Definition App_getRelease (cluster namespace name : string) : prog IRelease :=
  r ← http axiosWithAuth (get_request (kubeops_releases_get cluster namespace name)) T_release;
  mret (data r).

(** ** Chart.ts *)

Definition Chart_fetchCharts (cluster namespace repos : string) (page size : Z)
    (query : option string) : prog charts_page :=
  http axiosWithAuth (get_request (api_charts_list cluster namespace repos page size query))
    T_charts_page.

Definition Chart_fetchChartCategories (cluster namespace : string)
    : prog (option (list IChartCategory)) :=
  r ← http axiosWithAuth (get_request (api_charts_getChartCategories cluster namespace))
        T_categories;
  mret (data r).

Definition Chart_fetchChartVersions (cluster namespace id : string)
    : prog (option (list IChartVersion)) :=
  r ← http axiosWithAuth (get_request (api_charts_listVersions cluster namespace id))
        T_chart_versions;
  mret (data r).

Definition Chart_getChartVersion (cluster namespace id version : string)
    : prog (option IChartVersion) :=
  r ← http axiosWithAuth (get_request (api_charts_getVersion cluster namespace id version))
        T_chart_version;
  mret (data r).

Definition Chart_getReadme (cluster namespace id version : string) : prog string :=
  http axiosWithAuth (get_request (api_charts_getReadme cluster namespace id version)) T_string.

Definition Chart_getValues (cluster namespace id version : string) : prog string :=
  http axiosWithAuth (get_request (api_charts_getValues cluster namespace id version)) T_string.

Definition Chart_getSchema (cluster namespace id version : string) : prog json :=
  http axiosWithAuth (get_request (api_charts_getSchema cluster namespace id version)) T_json.

Definition listWithFilters_url (cluster namespace name version appVersion : string) : string :=
  api_charts_base cluster namespace +:+ "/charts?name=" +:+ encodeURIComponent name +:+
  "&version=" +:+ encodeURIComponent version +:+ "&appversion=" +:+ appVersion.

Definition Chart_listWithFilters (cluster namespace name version appVersion : string)
    : prog (list IChart) :=
  r ← http axiosWithAuth
        (get_request (listWithFilters_url cluster namespace name version appVersion)) T_charts;
  mret (data r).

(** ** AppRepository.ts *)

Definition AppRepository_APIEndpoint (cluster : string) : string :=
  APIBase cluster +:+ "/apis/kubeapps.com/v1alpha1".

Definition AppRepository_getSelfLink (cluster namespace : string) (name : option string) : string :=
  AppRepository_APIEndpoint cluster +:+ "/namespaces/" +:+ namespace +:+ "/apprepositories" +:+
  (if truthy_opt name then "/" +:+ default "" name else "").

Definition AppRepository_list (cluster namespace : string) : prog IAppRepositoryList :=
  http axiosWithAuth (get_request (backend_apprepositories_list cluster namespace)) T_repo_list.

Definition AppRepository_get (cluster namespace name : string) : prog IAppRepository :=
  http axiosWithAuth (get_request (AppRepository_getSelfLink cluster namespace (Some name))) T_repo.

Definition AppRepository_resync (cluster namespace name : string) : prog json :=
  http axiosWithAuth (post_request (backend_apprepositories_refresh cluster namespace name) JNull)
    T_json.

Definition filter_json (f : option IAppRepositoryFilter) : json :=
  match f with
  | Some f =>
    JObj [("jq", JStr (IAppRepositoryFilter_jq f));
          ("variables",
             match IAppRepositoryFilter_variables f with
             | Some vs => JObj (prod_map id JStr <$> vs)
             | None => JUndefined
             end)]
  | None => JUndefined
  end.

Definition AppRepository_update_request (cluster name namespace repoURL type description authHeader
    authRegCreds customCA : string) (syncJobPodTemplate : json)
    (registrySecrets ociRepositories : list string) (skipTLS passCredentials : bool)
    (filter : option IAppRepositoryFilter) : request :=
  put_request (backend_apprepositories_update cluster namespace name)
     (JObj [("appRepository", JObj
       [("name", JStr name); ("repoURL", JStr repoURL); ("type", JStr type);
        ("description", JStr description); ("authHeader", JStr authHeader);
        ("authRegCreds", JStr authRegCreds); ("customCA", JStr customCA);
        ("syncJobPodTemplate", syncJobPodTemplate);
        ("registrySecrets", JStrs registrySecrets);
        ("ociRepositories", JStrs ociRepositories);
        ("tlsInsecureSkipVerify", JBool skipTLS);
        ("passCredentials", JBool passCredentials);
        ("filter", filter_json filter)])]).

Definition AppRepository_update (cluster name namespace repoURL type description authHeader
    authRegCreds customCA : string) (syncJobPodTemplate : json)
    (registrySecrets ociRepositories : list string) (skipTLS passCredentials : bool)
    (filter : option IAppRepositoryFilter) : prog ICreateAppRepositoryResponse :=
  http axiosWithAuth
    (AppRepository_update_request cluster name namespace repoURL type description authHeader authRegCreds customCA
       syncJobPodTemplate registrySecrets ociRepositories skipTLS passCredentials filter)
    T_repo_response.

Definition AppRepository_delete (cluster namespace name : string) : prog json :=
  http axiosWithAuth (delete_request (backend_apprepositories_delete cluster namespace name))
    T_json.

Definition AppRepository_create_request (cluster name namespace repoURL type description authHeader
    authRegCreds customCA : string) (syncJobPodTemplate : json)
    (registrySecrets ociRepositories : list string) (skipTLS passCredentials : bool)
    (filter : option IAppRepositoryFilter) : request :=
  post_request (backend_apprepositories_create cluster namespace)
     (JObj [("appRepository", JObj
       [("name", JStr name); ("repoURL", JStr repoURL); ("authHeader", JStr authHeader);
        ("authRegCreds", JStr authRegCreds); ("type", JStr type);
        ("description", JStr description); ("customCA", JStr customCA);
        ("syncJobPodTemplate", syncJobPodTemplate);
        ("registrySecrets", JStrs registrySecrets);
        ("ociRepositories", JStrs ociRepositories);
        ("tlsInsecureSkipVerify", JBool skipTLS);
        ("passCredentials", JBool passCredentials);
        ("filterRule", filter_json filter)])]).

Definition AppRepository_create (cluster name namespace repoURL type description authHeader
    authRegCreds customCA : string) (syncJobPodTemplate : json)
    (registrySecrets ociRepositories : list string) (skipTLS passCredentials : bool)
    (filter : option IAppRepositoryFilter) : prog ICreateAppRepositoryResponse :=
  http axiosWithAuth
    (AppRepository_create_request cluster name namespace repoURL type description authHeader authRegCreds customCA
       syncJobPodTemplate registrySecrets ociRepositories skipTLS passCredentials filter)
    T_repo_response.

Definition AppRepository_validate_request (cluster namespace repoURL type authHeader
    authRegCreds customCA : string) (ociRepositories : list string)
    (skipTLS passCredentials : bool) : request :=
  post_request (backend_apprepositories_validate cluster namespace)
    (JObj [("appRepository", JObj
      [("repoURL", JStr repoURL); ("type", JStr type); ("authHeader", JStr authHeader);
       ("authRegCreds", JStr authRegCreds); ("customCA", JStr customCA);
       ("ociRepositories", JStrs ociRepositories);
       ("tlsInsecureSkipVerify", JBool skipTLS);
       ("passCredentials", JBool passCredentials)])]).

Definition AppRepository_validate (cluster namespace repoURL type authHeader authRegCreds
    customCA : string) (ociRepositories : list string) (skipTLS passCredentials : bool)
    : prog json :=
  http axiosWithAuth
    (AppRepository_validate_request cluster namespace repoURL type authHeader authRegCreds customCA
       ociRepositories skipTLS passCredentials) T_json.

(** ** Secret.ts *)

Definition Secret_get (cluster namespace name : string) : prog ISecret :=
  http axiosWithAuth (get_request (api_k8s_secret cluster namespace name)) T_secret.

Definition Secret_list (cluster namespace : string) (fieldSelector : option string)
    : prog (IK8sList ISecret) :=
  http axiosWithAuth (get_request (api_k8s_secrets cluster namespace fieldSelector)) T_secret_list.

(** The credentials of a registry, as Docker stores them. *)
Definition dockercfg (user password email server auth : string) : json :=
  JObj [("auths", JObj [(server, JObj
    [("username", JStr user); ("password", JStr password); ("email", JStr email);
     ("auth", JStr auth)])])].

Definition Secret_createPullSecret (cluster name user password email server namespace : string)
    : prog ISecret :=
  auth ← lift (btoa (user +:+ ":" +:+ password));
  http axiosWithAuth
    (post_request (api_k8s_secrets cluster namespace None)
       (JObj [("apiVersion", JStr "v1");
              ("stringData",
                 JObj [(".dockerconfigjson", JStr (JSON_text (dockercfg user password email server auth)))]);
              ("kind", JStr "Secret");
              ("metadata", JObj [("name", JStr name)]);
              ("type", JStr "kubernetes.io/dockerconfigjson")])) T_secret.
End helm.
