(* ===== verification/KubeServices.v ===== *)
(** * The clients of the Kubernetes API

    The classes of src/dashboard/src/shared/Namespace.ts, Kube.ts, ResourceRef.ts,
    Operators.ts and Config.ts, and those of the service catalog
    (ServiceCatalog.ts, ServiceInstance.ts, ServiceBinding.ts,
    ClusterServiceClass.ts): one definition per method, named [<Class>_<method>]. *)

From S2P Require Import Prelude.
From S2P Require Import Json.
From S2P Require Import JsonText.
From S2P Require Import Browser.
From S2P Require Import Types.
From S2P Require Import Url.
From S2P Require Import KubeRef.
From S2P Require Import Actions.
From S2P Require Import Store.
From S2P Require Import Thunk.
From S2P Require Import HelmServices.

(** [matches(filter)] of lodash on a resource: a partial deep comparison. *)
Class LodashMatches := { lodash_matches : option json → IResource → bool;
  (* "Partial comparisons will match empty [...] source values": with no pattern
     every object matches. *)
  lodash_matches_None r : lodash_matches None r = true }.

Section kube_services.
Context `{Router} `{LodashMatches}.

(** ** Namespace.ts *)

Definition Namespace_list (cluster : string) : prog (option (list IResource)) :=
  http axiosWithAuth (get_request (backend_namespaces_list cluster)) T_namespaces.

Definition Namespace_create (cluster namespace : string) : prog IResource :=
  http axiosWithAuth
    (post_request (api_k8s_namespaces cluster)
       (JObj [("apiVersion", JStr "v1"); ("kind", JStr "Namespace");
              ("metadata", JObj [("name", JStr namespace)])])) T_resource.

Definition Namespace_get (cluster namespace : string) : prog IResource :=
  try_catch
    (http axiosWithAuth (get_request (api_k8s_namespace cluster namespace)) T_resource)
    (λ err,
      match constructor err with
      | ForbiddenError =>
        Throw (mk_error ForbiddenError
          ("You don't have sufficient permissions to use the namespace " +:+ namespace))
      | NotFoundError =>
        Throw (mk_error NotFoundError
          ("Namespace " +:+ namespace +:+ " not found. Create it before using it."))
      | _ => Throw err
      end).

(** ** Kube.ts and ResourceRef.ts *)

Definition Kube_getResource (cluster apiVersion resource : string) (namespaced : bool)
    (namespace name query : option string) : prog kube_object :=
  http axiosWithAuth
    (get_request
       (Kube_getResourceURL cluster apiVersion resource namespaced namespace name query))
    T_kube_object.

(** [ref.getResource()]: the items of a list are those that match the filter. *)
Definition ResourceRef_getResource (ref : ResourceRef) : prog kube_object :=
  resource ← await (Kube_getResource (ref_cluster ref) (ref_apiVersion ref) (ref_plural ref)
                (ref_namespaced ref) (Some (ref_namespace ref)) (ref_name ref) None);
  match kube_object_items resource with
  | Some items =>
    mret (mkKubeObject (kube_object_props resource)
            (Some (List.filter (lodash_matches (ref_filter ref)) items)))
  | None => mret resource
  end.

Definition Kube_getAPIGroups (cluster : string) : prog (list string) :=
  http axiosWithAuth (get_request (api_k8s_base cluster +:+ "/apis")) T_api_groups.

(** [addResource]: subresources have a slash in their name. *)
Definition addResource (version : string) (result : gmap string IKind) (r : api_resource)
    : gmap string IKind :=
  if negb (includes "/" (api_resource_name r))
  then <[api_resource_kind r :=
           {| IKind_apiVersion := version; IKind_plural := api_resource_name r;
              IKind_namespaced := api_resource_namespaced r |}]> result
  else result.

Definition addResources (version : string) (l : option (list api_resource))
    (result : gmap string IKind) : gmap string IKind :=
  foldl (addResource version) result (default [] l).

(** The lists of the groups are added in the order they arrive; the first failure is
    the failure of the whole. *)
Fixpoint add_groups (groups : list string)
    (arrived : list (nat * outcome (option (list api_resource)))) (result : gmap string IKind)
    : prog (gmap string IKind) :=
  match arrived with
  | [] => mret result
  | (i, Ok l) :: rest => add_groups groups rest (addResources (default "" (groups !! i)) l result)
  | (_, Throws e) :: _ => Throw e
  end.

Definition Kube_getResourceKinds (cluster : string) (groups : list string)
    : prog (gmap string IKind) :=
  core ← http axiosWithAuth (get_request (api_k8s_base cluster +:+ "/api/v1")) T_api_resources;
  let result := addResources "v1" core ∅ in
  arrived ← http_all axiosWithAuth
    ((λ groupVersion, get_request (api_k8s_base cluster +:+ "/apis/" +:+ groupVersion)) <$> groups)
    T_api_resources;
  add_groups groups arrived result.

Definition Kube_canI (cluster group resource verb namespace : string) : prog bool :=
  http axiosWithAuth
    (post_request (backend_canI cluster)
       (JObj [("group", JStr group); ("resource", JStr resource); ("verb", JStr verb);
              ("namespace", JStr namespace)])) T_bool.

(** ** Config.ts *)

Definition Config_getConfig : prog IConfig := http axios (get_request "config.json") T_config.

(** ** Operators.ts *)

Definition Operators_isOLMInstalled (cluster namespace : string) : prog bool :=
  status ← http axiosWithAuth (get_request (api_k8s_operators_operators cluster namespace)) T_status;
  mret (bool_decide (status = 200%Z)).

Definition Operators_getOperators (cluster namespace : string) : prog (list IPackageManifest) :=
  l ← http axiosWithAuth (get_request (api_k8s_operators_operators cluster namespace))
        T_packagemanifests;
  mret (IK8sList_items l).

Definition Operators_getOperator (cluster namespace name : string) : prog IPackageManifest :=
  http axiosWithAuth (get_request (api_k8s_operators_operator cluster namespace name))
    T_packagemanifest.

Definition Operators_getCSVs (cluster namespace : string) : prog (list IClusterServiceVersion) :=
  l ← http axiosWithAuth (get_request (api_k8s_operators_clusterServiceVersions cluster namespace))
        T_csvs;
  mret (IK8sList_items l).

Definition Operators_getCSV (cluster namespace name : string) : prog IClusterServiceVersion :=
  http axiosWithAuth (get_request (api_k8s_operators_clusterServiceVersion cluster namespace name))
    T_csv.

Definition Operators_createResource (cluster namespace apiVersion resource : string) (body : json)
    : prog IResource :=
  http axiosWithAuth
    (post_request (api_k8s_operators_resources cluster namespace apiVersion resource) body)
    T_resource.

Definition listResources_request (cluster namespace apiVersion resource : string) : request :=
  get_request (api_k8s_operators_resources cluster namespace apiVersion resource).

Definition Operators_listResources (cluster namespace apiVersion resource : string)
    : prog (IK8sList IResource) :=
  http axiosWithAuth (listResources_request cluster namespace apiVersion resource) T_resource_list.

Definition Operators_getResource (cluster namespace apiVersion crd name : string)
    : prog IResource :=
  http axiosWithAuth
    (get_request (api_k8s_operators_resource cluster namespace apiVersion crd name)) T_resource.

Definition Operators_deleteResource (cluster namespace apiVersion plural name : string)
    : prog json :=
  http axiosWithAuth
    (delete_request (api_k8s_operators_resource cluster namespace apiVersion plural name)) T_json.

Definition Operators_updateResource (cluster namespace apiVersion resource name : string)
    (body : json) : prog IResource :=
  http axiosWithAuth
    (put_request (api_k8s_operators_resource cluster namespace apiVersion resource name) body)
    T_resource.

Definition operatorGroup_body (namespace : string) : json :=
  JObj [("apiVersion", JStr "operators.coreos.com/v1"); ("kind", JStr "OperatorGroup");
        ("metadata", JObj [("generateName", JStr "default-"); ("namespace", JStr namespace)]);
        ("spec", JObj [("targetNamespaces", JStrs [namespace])])].

Definition Operators_createOperatorGroupIfNotExists (cluster namespace : string) : prog unit :=
  if bool_decide (namespace = "operators") then mret ()
  else
    l ← http axiosWithAuth (get_request (api_k8s_operators_operatorGroups cluster namespace))
          T_resource_list;
    if bool_decide (0 < length (IK8sList_items l)) then mret ()
    else
      _ ← http axiosWithAuth
            (post_request (api_k8s_operators_operatorGroups cluster namespace)
               (operatorGroup_body namespace)) T_resource_list;
      mret ().

Definition subscription_body (namespace name channel installPlanApproval csv : string) : json :=
  JObj [("apiVersion", JStr "operators.coreos.com/v1alpha1"); ("kind", JStr "Subscription");
        ("metadata", JObj [("name", JStr name); ("namespace", JStr namespace)]);
        ("spec", JObj
           [("channel", JStr channel); ("installPlanApproval", JStr installPlanApproval);
            ("name", JStr name); ("source", JStr "operatorhubio-catalog");
            ("sourceNamespace", JStr "olm"); ("startingCSV", JStr csv)])].

Definition Operators_createOperator
    (cluster namespace name channel installPlanApproval csv : string) : prog IResource :=
  _ ← await (Operators_createOperatorGroupIfNotExists cluster namespace);
  http axiosWithAuth
    (post_request (api_k8s_operators_subscription cluster namespace name)
       (subscription_body namespace name channel installPlanApproval csv)) T_resource.

Definition Operators_listSubscriptions (cluster namespace : string) : prog (IK8sList IResource) :=
  http axiosWithAuth (get_request (api_k8s_operators_subscriptions cluster namespace))
    T_resource_list.

Definition Operators_getDefaultChannel (operator : IPackageManifest)
    : option IPackageManifestChannel :=
  let status := IResource_status operator in
  find (λ ch, bool_decide
          (IPackageManifestChannel_name ch = IPackageManifestStatus_defaultChannel status))
    (IPackageManifestStatus_channels status).

Definition Operators_global (channel : option IPackageManifestChannel) : bool :=
  match channel with
  | Some ch =>
    match find (λ m, bool_decide (IInstallMode_type m = AllNamespaces))
            (IPackageManifestChannel_currentCSVDesc_installModes ch) with
    | Some m => IInstallMode_supported m
    | None => false
    end
  | None => false
  end.

(** [getIcon]: the placeholder is an asset of the build. *)
Definition getIcon (placeholder : string) (csv : IClusterServiceVersion) : string :=
  match IClusterServiceVersionSpec_icon (IResource_spec csv) with
  | Some (icon :: _) => "data:" +:+ IIcon_mediatype icon +:+ ";base64," +:+ IIcon_base64data icon
  | _ => placeholder
  end.

Definition owned_crds (csv : IClusterServiceVersion) : option (list IClusterServiceVersionCRD) :=
  IClusterServiceVersionSpec_customresourcedefinitions (IResource_spec csv) ≫= id.

Definition findOwnedKind (csv : IClusterServiceVersion) (kind : string)
    : option IClusterServiceVersionCRD :=
  match owned_crds csv with
  | Some ((_ :: _) as owned) =>
    find (λ c, bool_decide (IClusterServiceVersionCRD_kind c = kind)) owned
  | _ => None
  end.
End kube_services.

Section catalog_services.
Context `{Router}.

(** ** The service catalog *)

Definition catalog_endpoint (cluster : string) : string :=
  APIBase cluster +:+ "/apis/servicecatalog.k8s.io/v1beta1".

Definition in_namespace (namespace : option string) : string :=
  if truthy_opt namespace then "/namespaces/" +:+ default "" namespace else "".

Definition or_nothing (name : option string) : string :=
  if truthy_opt name then "/" +:+ default "" name else "".

Definition getItems_request (cluster resource : string) (namespace : option string) : request :=
  get_request (catalog_endpoint cluster +:+ in_namespace namespace +:+ "/" +:+ resource).

Definition ServiceCatalog_getServiceClasses (cluster : string) : prog (list IClusterServiceClass) :=
  l ← http axiosWithAuth (getItems_request cluster "clusterserviceclasses" None) T_classes;
  mret (IK8sList_items l).

Definition ServiceCatalog_getServiceBrokers (cluster : string) : prog (list IServiceBroker) :=
  l ← http axiosWithAuth (getItems_request cluster "clusterservicebrokers" None) T_brokers;
  mret (IK8sList_items l).

Definition ServiceCatalog_getServicePlans (cluster : string) : prog (list IServicePlan) :=
  l ← http axiosWithAuth (getItems_request cluster "clusterserviceplans" None) T_plans;
  mret (IK8sList_items l).

Definition ServiceCatalog_deprovisionInstance (cluster : string) (instance : IServiceInstance)
    : prog json :=
  http axiosWithAuth
    (delete_request (APIBase cluster +:+ IServiceInstance_metadata_selfLink instance)) T_json.

(** [validateStatus] accepts every status, so no response is an error. *)
Definition ServiceCatalog_syncBroker (cluster : string) (broker : IServiceBroker) : prog json :=
  http axiosWithAuth
    (mkRequest PATCH (api_k8s_clusterservicebrokers_sync cluster broker)
       (JObj [("spec", JObj
          [("relistRequests", JNum (IServiceBroker_spec_relistRequests broker + 1))])])
       [] [("Content-Type", "application/merge-patch+json")]) T_json.

Definition ServiceCatalog_isCatalogInstalled (cluster : string) : prog bool :=
  try_catch
    (status ← http axiosWithAuth (get_request (catalog_endpoint cluster)) T_status;
     mret (bool_decide (status = 200%Z)))
    (λ _, mret false).

Definition ServiceInstance_getLink (cluster : string) (namespace name : option string) : string :=
  catalog_endpoint cluster +:+ in_namespace namespace +:+ "/serviceinstances" +:+ or_nothing name.

Definition ServiceInstance_create (cluster releaseName namespace className planName : string)
    (parameters : json) : prog json :=
  http axiosWithAuth
    (post_request (ServiceInstance_getLink cluster (Some namespace) None)
       (JObj [("apiVersion", JStr "servicecatalog.k8s.io/v1beta1");
              ("kind", JStr "ServiceInstance");
              ("metadata", JObj [("name", JStr releaseName)]);
              ("spec", JObj
                 [("clusterServiceClassExternalName", JStr className);
                  ("clusterServicePlanExternalName", JStr planName);
                  ("parameters", parameters)])])) T_json.

Definition ServiceInstance_get (cluster : string) (namespace name : option string)
    : prog IServiceInstance :=
  http axiosWithAuth (get_request (ServiceInstance_getLink cluster namespace name)) T_instance.

Definition ServiceInstance_list (cluster : string) (namespace : option string)
    : prog (list IServiceInstance) :=
  l ← http axiosWithAuth (getItems_request cluster "serviceinstances" namespace) T_instances;
  mret (IK8sList_items l).

Definition ServiceBinding_getLink (cluster : string) (namespace name : option string) : string :=
  catalog_endpoint cluster +:+ in_namespace namespace +:+ "/servicebindings" +:+ or_nothing name.

Definition ServiceBinding_create (bindingName instanceRefName cluster namespace : string)
    (parameters : json) : prog IServiceBinding :=
  http axiosWithAuth
    (post_request (ServiceBinding_getLink cluster (Some namespace) None)
       (JObj [("apiVersion", JStr "servicecatalog.k8s.io/v1beta1");
              ("kind", JStr "ServiceBinding");
              ("metadata", JObj [("name", JStr bindingName)]);
              ("spec", JObj
                 [("instanceRef", JObj [("name", JStr instanceRefName)]);
                  ("parameters", parameters)])])) T_binding.

Definition ServiceBinding_delete (cluster namespace name : string) : prog json :=
  http axiosWithAuth
    (delete_request (ServiceBinding_getLink cluster (Some namespace) (Some name))) T_json.

Definition ServiceBinding_get (cluster namespace name : string) : prog IServiceBinding :=
  http axiosWithAuth
    (get_request (ServiceBinding_getLink cluster (Some namespace) (Some name))) T_binding.

(** [Promise.all]: every binding with its secret, or without one when the request for
    it failed, in the order of the bindings. *)
Definition with_secrets (bindings : list IServiceBinding)
    (arrived : list (nat * outcome IK8sApiSecretResponse)) : list IServiceBindingWithSecret :=
  imap (λ i binding,
    {| IServiceBindingWithSecret_binding := binding;
       IServiceBindingWithSecret_secret :=
         match find (λ p, bool_decide (p.1 = i)) arrived with
         | Some (_, Ok secret) => Some secret
         | _ => None
         end |}) bindings.

Definition ServiceBinding_list (cluster : string) (namespace : option string)
    : prog (list IServiceBindingWithSecret) :=
  l ← await (http axiosWithAuth (getItems_request cluster "servicebindings" namespace) T_bindings);
  let bindings := IK8sList_items l in
  arrived ← http_all axiosWithAuth
    ((λ binding, get_request
        (api_k8s_secret cluster (IServiceBinding_metadata_namespace binding)
           (IServiceBinding_spec_secretName binding))) <$> bindings) T_k8s_secret;
  mret (with_secrets bindings arrived).

Definition ClusterServiceClass_getLink (cluster : string) (namespace name : option string)
    : string :=
  catalog_endpoint cluster +:+ in_namespace namespace +:+ "/clusterserviceclasses" +:+
  or_nothing name.

Definition ClusterServiceClass_get (cluster : string) (namespace name : option string)
    : prog IClusterServiceClass :=
  http axiosWithAuth (get_request (ClusterServiceClass_getLink cluster namespace name)) T_class.

(** The items requested are the instances. *)
Definition ClusterServiceClass_list (cluster : string) (namespace : option string)
    : prog (list IClusterServiceClass) :=
  l ← http axiosWithAuth (getItems_request cluster "serviceinstances" None) T_classes;
  mret (IK8sList_items l).
End catalog_services.
