(* ===== verification/Schema.v ===== *)
(** * Validating values (src/dashboard/src/shared/schema.ts)

    The libraries ajv, yaml and js-yaml are parameters: [ajv_validate] is the answer of
    a fresh validator and the errors it kept, [YAML_parse] and [yaml_load] the two
    parsers the dashboard uses, which may throw, and [yaml_dump] js-yaml's [dump]. *)

From S2P Require Import Prelude.
From S2P Require Import Json.

Record ErrorObject := mkErrorObject {
  ErrorObject_instancePath : string;
  ErrorObject_message : option string;
}.

Class Yaml := {
  YAML_parse : string → outcome json;
  yaml_load : string → outcome json;
}.

Class YamlDump := { yaml_dump : json → string }.

Class Ajv := { ajv_validate : json → json → outcome (bool * option (list ErrorObject)) }.

Section schema.
Context `{Yaml} `{Ajv}.

Definition validate (values : string) (schema : json)
    : outcome (bool * option (list ErrorObject)) :=
  v ← YAML_parse values;
  ajv_validate schema v.

(** The text of the errors in a template literal. *)
Definition errorText (errors : option (list ErrorObject)) : string :=
  match errors with
  | None => "null"
  | Some l =>
    join (String "010" "")
      ((λ e, "  - " +:+ ErrorObject_instancePath e +:+ ": " +:+
             default "undefined" (ErrorObject_message e)) <$> l)
  end.

Definition invalid_values (errors : option (list ErrorObject)) : js_error :=
  mk_error UnprocessableEntity
    ("The given values don't match the required format. The following errors were found:" +:+
     String "010" (errorText errors)).

(** The guard before a release is created or upgraded. *)
Definition check_values (values : option string) (schema : option json) : outcome unit :=
  match values, schema with
  | Some v, Some s =>
    if truthy v && jtruthy s then
      '(valid, errors) ← validate v s;
      if negb valid then Throws (invalid_values errors) else Ok ()
    else Ok ()
  | _, _ => Ok ()
  end.

(** ** What the guard promises *)

(** One line for each error. *)
Definition error_listing (l : list ErrorObject) : string :=
  join (String "010" "")
    ((λ e, "  - " +:+ ErrorObject_instancePath e +:+ ": " +:+
           match ErrorObject_message e with Some m => m | None => "undefined" end) <$> l).

Definition values_refused (listing : string) : js_error :=
  {| constructor := UnprocessableEntity;
     message := "The given values don't match the required format. The following errors were found:"
                +:+ String "010" listing |}.

(** Values are checked against a schema when there are both; they are held back when they cannot
    be read, when the schema cannot be used, and when they do not match it. *)
Inductive values_verdict : option string → option json → outcome unit → Prop :=
| no_values schema : values_verdict None schema (Ok ())
| empty_values schema : values_verdict (Some "") schema (Ok ())
| no_schema values : values_verdict values None (Ok ())
| falsy_schema values s : jtruthy s = false → values_verdict values (Some s) (Ok ())
| unreadable_values v s e :
  v ≠ "" → jtruthy s → YAML_parse v = Throws e → values_verdict (Some v) (Some s) (Throws e)
| unusable_schema v s j e :
  v ≠ "" → jtruthy s → YAML_parse v = Ok j → ajv_validate s j = Throws e →
  values_verdict (Some v) (Some s) (Throws e)
| matching_values v s j errors :
  v ≠ "" → jtruthy s → YAML_parse v = Ok j → ajv_validate s j = Ok (true, errors) →
  values_verdict (Some v) (Some s) (Ok ())
| mismatching_values v s j errors :
  v ≠ "" → jtruthy s → YAML_parse v = Ok j → ajv_validate s j = Ok (false, Some errors) →
  values_verdict (Some v) (Some s) (Throws (values_refused (error_listing errors)))
| unexplained_mismatch v s j :
  v ≠ "" → jtruthy s → YAML_parse v = Ok j → ajv_validate s j = Ok (false, None) →
  values_verdict (Some v) (Some s) (Throws (values_refused "null")).

Lemma check_values_verdict values schema : values_verdict values schema (check_values values schema).
Proof using.
  destruct values as [v|]; [|constructor]. destruct schema as [s|]; [|constructor].
  unfold check_values. destruct (truthy v) eqn:Hv; cbn [andb].
  2: { unfold truthy in Hv. apply bool_decide_eq_false, dec_stable in Hv. subst v. constructor. }
  assert (v ≠ "") by (by intros ->).
  destruct (jtruthy s) eqn:Hs; [|by constructor]. apply Is_true_true in Hs. unfold validate.
  destruct (YAML_parse v) as [j|e] eqn:Hj; cbn [mbind outcome_bind]; [|by constructor].
  destruct (ajv_validate s j) as [[[] errors]|e] eqn:Ha; cbn [mbind outcome_bind negb].
  - by econstructor.
  - destruct errors as [l|]; [by apply mismatching_values with j|by apply unexplained_mismatch with j].
  - by apply unusable_schema with j.
Qed.
End schema.
