(* ===== verification/Values.v ===== *)
(** * The values of a release and its form (src/dashboard/src/shared/schema.ts)

    The values are a YAML text.  [getValue], [setValue] and [deleteValue] read and edit
    the text at a path.

    The package yaml is the class [YamlDocument]: the operations of a document and the
    documented behaviour the code relies on, stated through the plain value of the
    document ([toJSON]).  [unescapePathComponent] is fast-json-patch's, [set] lodash's. *)

From S2P Require Import Prelude.
From S2P Require Import Json.
From S2P Require Import JsonText.

(** A value of type [any] that is a plain value or a node of a document. *)
Inductive any (node : Type) :=
| Plain (j : json)
| Node (n : node).
Arguments Plain {node} j.
Arguments Node {node} n.

(** ** Paths in a plain value *)

Definition is_scalar (j : json) : bool :=
  match j with JArr _ | JObj _ => false | _ => true end.

Fixpoint lookup_in (j : json) (ks : list string) : option json :=
  match ks, j with
  | [], _ => Some j
  | k :: ks, JObj fs => assoc k fs ≫= λ j', lookup_in j' ks
  | _ :: _, _ => None
  end.

(** The nodes above the last key of the path are objects as far as they exist. *)
Fixpoint objects_along (j : json) (ks : list string) : bool :=
  match ks with
  | [] => true
  | k :: ks' =>
    match j with
    | JObj fs =>
      match ks', assoc k fs with
      | _ :: _, Some j' => objects_along j' ks'
      | _, _ => true
      end
    | _ => false
    end
  end.

(** [v] under the keys [ks]. *)
Fixpoint nest (ks : list string) (v : json) : json :=
  match ks with [] => v | k :: ks => JObj [(k, nest ks v)] end.

(** Writing at a path: the missing objects are created, everything else stays. *)
Fixpoint upsert_in (j : json) (ks : list string) (v : json) : json :=
  match ks, j with
  | [], _ => v
  | k :: ks, JObj fs =>
    match assoc k fs with
    | Some j' => JObj (obj_set k (upsert_in j' ks v) fs)
    | None => JObj (obj_set k (nest ks v) fs)
    end
  | _ :: _, _ => j
  end.

(** The fields without the key. *)
Definition obj_delete (k : string) (fs : list (string * json)) : list (string * json) :=
  filter (λ kv, kv.1 ≠ k) fs.

Fixpoint remove_in (j : json) (ks : list string) : json :=
  match ks, j with
  | [k], JObj fs => JObj (obj_delete k fs)
  | k :: ks, JObj fs =>
    match assoc k fs with
    | Some j' => JObj (obj_set k (remove_in j' ks) fs)
    | None => j
    end
  | _, _ => j
  end.

(** Values the text keeps: printable, without [null]. *)
Inductive writable : json → Prop :=
| writable_bool b : writable (JBool b)
| writable_num n : writable (JNum n)
| writable_str s : writable (JStr s)
| writable_arr l : Forall writable l → writable (JArr l)
| writable_obj fs :
  NoDup (fst <$> fs) → Forall (λ kv, writable (snd kv)) fs → writable (JObj fs).

(** A key that YAML reads as a text: it starts with a letter and is none of the words
    for a boolean or null. *)
Definition is_letter (a : ascii) : bool :=
  ((65 <=? N_of_ascii a) && (N_of_ascii a <=? 90) ||
   (97 <=? N_of_ascii a) && (N_of_ascii a <=? 122))%N.
Definition reserved_words : list string :=
  ["null"; "Null"; "NULL"; "true"; "True"; "TRUE"; "false"; "False"; "FALSE"].
Definition string_key (k : string) : bool :=
  match k with String a _ => is_letter a | EmptyString => false end &&
  bool_decide (k ∉ reserved_words).

(** A key that is also a plain component of a path, for lodash and in a JSON pointer. *)
Definition name_key (k : string) : bool :=
  string_key k && plain_key k && lacks "/" k && lacks "~" k.

(** ** The libraries *)

Class YamlDocument := {
  node : Type;
  document : Type;
  parseDocument : string → document;
  (* doc.contents: null in an empty document; the items of a collection. *)
  contents : document → option node;
  items : node → option (list node);
  getIn : document → list string → any node;
  setIn : document → list string → json → outcome document;
  deleteIn : document → list string → outcome document;
  (* throws when the document has errors *)
  doc_toString : document → outcome string;
  toJSON : document → json;
  has_errors : document → bool;
  (* An object is a collection, with an item for each key when no key occurs twice, which is an
     error; an empty document has the value null. *)
  contents_None d : contents d = None → toJSON d = JNull;
  items_obj d n fs :
    has_errors d = false → contents d = Some n → toJSON d = JObj fs →
    ∃ l, items n = Some l ∧ length l = length fs;
  (* The laws of paths are those of documents without errors, where a key occurs once.
     getIn: the value of a scalar, the node of a collection, undefined when there is
     nothing at the path. *)
  getIn_missing d ks :
    has_errors d = false →
    Forall (λ k, Is_true (string_key k)) ks → objects_along (toJSON d) ks →
    lookup_in (toJSON d) ks = None → getIn d ks = Plain JUndefined;
  getIn_scalar d ks j :
    has_errors d = false →
    Forall (λ k, Is_true (string_key k)) ks →
    lookup_in (toJSON d) ks = Some j → is_scalar j → getIn d ks = Plain j;
  getIn_collection d ks j :
    has_errors d = false →
    Forall (λ k, Is_true (string_key k)) ks →
    lookup_in (toJSON d) ks = Some j → ¬ is_scalar j → ∃ n, getIn d ks = Node n;
  (* setIn writes at the path when its parent is a collection; the empty path is the
     contents of the document. *)
  setIn_parent d ks k v fs :
    has_errors d = false →
    Forall (λ k, Is_true (string_key k)) (ks ++ [k]) →
    lookup_in (toJSON d) ks = Some (JObj fs) →
    ∃ d', setIn d (ks ++ [k]) v = Ok d' ∧ has_errors d' = has_errors d ∧
          toJSON d' = upsert_in (toJSON d) (ks ++ [k]) v;
  setIn_root d v :
    ∃ d', setIn d [] v = Ok d' ∧ has_errors d' = has_errors d ∧ toJSON d' = v;
  deleteIn_parent d ks k fs :
    has_errors d = false →
    Forall (λ k, Is_true (string_key k)) (ks ++ [k]) →
    lookup_in (toJSON d) ks = Some (JObj fs) →
    ∃ d', deleteIn d (ks ++ [k]) = Ok d' ∧ has_errors d' = has_errors d ∧
          toJSON d' = remove_in (toJSON d) (ks ++ [k]);
  (* A document without errors has a text that parses to the same value. *)
  toString_parse d :
    writable (toJSON d) → has_errors d = false →
    ∃ s, doc_toString d = Ok s ∧ toJSON (parseDocument s) = toJSON d ∧
         has_errors (parseDocument s) = false;
}.

Class JsonPointer := {
  unescapePathComponent : string → string;
  escapePathComponent : string → string;
  (* RFC 6901: "~1" stands for "/", "~0" for "~". *)
  unescape_escape k : unescapePathComponent (escapePathComponent k) = k;
  unescape_plain k : lacks "~" k → unescapePathComponent k = k;
  escape_lacks k : lacks "/" (escapePathComponent k);
  escape_first k : string_key k → string_key (escapePathComponent k);
}.

Class LodashSet := {
  set : json → string → json → json;
  (* "Sets the value at path of object.  If a portion of path doesn't exist, it's
     created." *)
  set_nested k ks v :
    Forall (λ k, Is_true (string_key k && plain_key k)) (k :: ks) →
    set (JObj []) (join "." (k :: ks)) v = nest (k :: ks) v;
}.

Section values.
Context `{YamlDocument} `{JsonPointer} `{LodashSet}.

(** ** Reading and editing the text *)

(** [x === undefined || x === null]. *)
Definition is_nil (v : any node) : bool :=
  match v with Plain JUndefined | Plain JNull => true | _ => false end.
Definition is_undef (v : any node) : bool :=
  match v with Plain JUndefined => true | _ => false end.

Definition definedPath_step (doc : document) (st : list string * bool) (p : string)
    : list string * bool :=
  let '(currentPath, foundUndefined) := st in
  if foundUndefined then st
  else
    let pathToEvaluate := currentPath ++ [p] in
    if is_nil (getIn doc pathToEvaluate) then (currentPath, true)
    else (pathToEvaluate, false).

Definition getDefinedPath (allElementsButTheLast : list string) (doc : document) : list string :=
  (foldl (definedPath_step doc) ([], false) allElementsButTheLast).1.

(** [path.replace(/^\//, "")]. *)
Definition drop_slash (path : string) : string :=
  match path with
  | String a p => if bool_decide (a = "/"%char) then p else path
  | EmptyString => ""
  end.

Definition splitPath (path : string) : list string := split_on "/" (drop_slash path).

Definition unescapePath (path : list string) : list string := unescapePathComponent <$> path.

Definition parsePath (path : string) : list string := unescapePath (splitPath path).

(** [isEmpty(doc.contents)]: a node always has properties of its own. *)
Definition contents_isEmpty (doc : document) : bool :=
  match contents doc with None => true | Some _ => false end.

Definition parsePathAndValue (doc : document) (path : string) (value : json)
    : list string * json :=
  if contents_isEmpty doc then ([], set (JObj []) (drop_slash path) value)
  else
    let splittedPath := splitPath path in
    let allElementsButTheLast := slice 0 (length splittedPath - 1) splittedPath in
    let parentNode := getIn doc allElementsButTheLast in
    if is_undef parentNode then
      let definedPath := getDefinedPath allElementsButTheLast doc in
      let remainingPath := slice_from (length definedPath + 1) splittedPath in
      (unescapePath (slice 0 (length definedPath + 1) splittedPath),
       set (JObj []) (join "." remainingPath) value)
    else (unescapePath splittedPath, value).

Definition setValue (values path : string) (newValue : json) : outcome string :=
  let doc := parseDocument values in
  let '(splittedPath, value) := parsePathAndValue doc path newValue in
  doc' ← setIn doc splittedPath value;
  doc_toString doc'.

Definition parseValues (values : string) : outcome string :=
  doc_toString (parseDocument values).

(** [isEmpty(doc.contents.items)]. *)
Definition items_isEmpty (n : node) : bool :=
  match items n with None | Some [] => true | Some (_ :: _) => false end.

Definition deleteValue (values path : string) : outcome string :=
  let doc := parseDocument values in
  let '(splittedPath, _) := parsePathAndValue doc path JUndefined in
  doc' ← deleteIn doc splittedPath;
  match contents doc' with
  | Some n => if items_isEmpty n then Ok (String "010" "") else doc_toString doc'
  | None => Ok (String "010" "")
  end.

Definition getValue (values path : string) (defaultValue : any node) : any node :=
  let doc := parseDocument values in
  let value := getIn doc (parsePath path) in
  if is_nil value then defaultValue else value.
End values.

(** ** Facts on paths *)

Notation all_keys p ks := (Forall (λ k, Is_true (p k)) ks).

Lemma name_string ks : all_keys name_key ks → all_keys string_key ks.
Proof.
  intros Hks. eapply Forall_impl; [exact Hks|]. unfold name_key. intros k.
  rewrite !andb_True. tauto.
Qed.

Lemma name_plain ks : all_keys name_key ks → all_keys (λ k, string_key k && plain_key k) ks.
Proof.
  intros Hks. eapply Forall_impl; [exact Hks|]. unfold name_key. intros k.
  rewrite !andb_True. tauto.
Qed.

Lemma lookup_in_app j ks ks' : lookup_in j (ks ++ ks') = lookup_in j ks ≫= λ j', lookup_in j' ks'.
Proof.
  revert j; induction ks as [|k ks IH]; intros j; [done|].
  destruct j as [| | | | | | |fs]; try done. simpl. by destruct (assoc k fs); simpl; rewrite ?IH.
Qed.

Lemma objects_along_parent j ks k :
  objects_along j (ks ++ [k]) →
  lookup_in j ks = None ∨ ∃ fs, lookup_in j ks = Some (JObj fs).
Proof.
  revert j; induction ks as [|k' ks IH]; intros j; simpl.
  { destruct j; try done. eauto. }
  destruct j as [| | | | | | |fs]; try done.
  destruct (ks ++ [k]) as [|k'' ks'] eqn:E; [by destruct ks|].
  destruct (assoc k' fs); [apply IH|by left].
Qed.

Lemma objects_along_prefix j ks ks' : objects_along j (ks ++ ks') → objects_along j ks.
Proof.
  revert j; induction ks as [|k ks IH]; intros j; [done|].
  destruct j as [| | | | | | |fs]; try done. simpl.
  destruct ks as [|k2 ks]; [done|]. simpl in *. destruct (assoc k fs); [apply IH|done].
Qed.

(** The first key of the path that is missing. *)
Lemma objects_along_first_missing j ks k :
  objects_along j (ks ++ [k]) → lookup_in j ks = None →
  ∃ a b c fs, ks = a ++ b :: c ∧ lookup_in j a = Some (JObj fs) ∧ assoc b fs = None.
Proof.
  revert j; induction ks as [|k' ks IH]; intros j; [done|]. simpl.
  destruct j as [| | | | | | |fs]; try done.
  destruct (assoc k' fs) as [j'|] eqn:Hk'.
  - destruct (ks ++ [k]) as [|k'' ks'] eqn:E; [by destruct ks|].
    intros Ha Hl. destruct (IH _ Ha Hl) as (a & b & c & fs' & -> & Hla & Hb).
    exists (k' :: a), b, c, fs'. simpl. by rewrite Hk'.
  - intros _ _. by exists [], k', ks, fs.
Qed.

Lemma lookup_in_missing j a b c fs :
  lookup_in j a = Some (JObj fs) → assoc b fs = None → lookup_in j (a ++ b :: c) = None.
Proof. intros Ha Hb. rewrite lookup_in_app, Ha. simpl. by rewrite Hb. Qed.

Lemma lookup_in_object_above j ks fs a c :
  lookup_in j ks = Some (JObj fs) → ks = a ++ c → ∃ fs', lookup_in j a = Some (JObj fs').
Proof.
  intros Hl ->. rewrite lookup_in_app in Hl.
  destruct (lookup_in j a) as [j'|]; [|done]. simpl in Hl.
  destruct c as [|k c]; simpl in Hl; [|destruct j'; try done; eauto].
  simplify_eq. eauto.
Qed.




Lemma writable_obj_set k v fs : writable (JObj fs) → writable v → writable (JObj (obj_set k v fs)).
Proof.
  inversion 1 as [| | | |? Hnd Hfs]; subst. intros Hv.
  assert (∀ k' fs, k' ∈ fst <$> obj_set k v fs ↔ k' = k ∨ k' ∈ fst <$> fs) as Hkeys.
  { clear. intros k' fs. induction fs as [|[k0 v0] fs IH]; simpl; [set_solver|].
    case_bool_decide; set_solver. }
  constructor.
  - clear -Hnd Hkeys. induction fs as [|[k0 v0] fs IH]; simpl in *; [apply NoDup_singleton|].
    apply NoDup_cons in Hnd as [Hk0 Hnd]. case_bool_decide; simpl; subst.
    + by constructor.
    + constructor; [|by apply IH]. rewrite Hkeys. by intros [->|?].
  - clear -Hfs Hv. induction Hfs as [|[k0 v0] fs Hx Hfs IH]; simpl; [by repeat constructor|].
    case_bool_decide; by constructor.
Qed.

Lemma writable_nest ks v : writable v → writable (nest ks v).
Proof.
  intros Hv. induction ks as [|k ks IH]; [done|]. simpl.
  constructor; [apply NoDup_singleton|by repeat constructor].
Qed.

Lemma writable_assoc k fs j : writable (JObj fs) → assoc k fs = Some j → writable j.
Proof.
  inversion 1 as [| | | |? _ Hfs]; subst. clear -Hfs.
  induction Hfs as [|[k' v'] fs Hv Hfs IH]; [done|]. simpl. case_bool_decide; [|done].
  by intros [= <-].
Qed.


Lemma writable_remove j ks : writable j → writable (remove_in j ks).
Proof.
  revert j; induction ks as [|k ks IH]; intros j Hj; [done|].
  destruct j as [| | | | | | |fs]; try (simpl; destruct ks; done). simpl.
  destruct ks as [|k' ks].
  - inversion Hj as [| | | |? Hnd Hfs]; subst. constructor.
    + clear -Hnd. unfold obj_delete. induction fs as [|[k' v'] fs IH]; simpl in *; [done|].
      apply NoDup_cons in Hnd as [Hk Hnd]. rewrite filter_cons. case_decide; [|by apply IH].
      simpl. constructor; [|by apply IH]. contradict Hk.
      apply list_elem_of_fmap in Hk as (kv & -> & Hkv). apply list_elem_of_filter in Hkv as [_ Hkv].
      by apply list_elem_of_fmap_2.
    + apply Forall_forall. intros kv Hkv. apply list_elem_of_filter in Hkv as [_ Hkv].
      by eapply Forall_forall in Hfs.
  - destruct (assoc k fs) as [j'|] eqn:Hk; [|done]. apply writable_obj_set; [done|].
    apply IH. eauto using writable_assoc.
Qed.

Section value_facts.
Context `{YamlDocument} `{JsonPointer} `{LodashSet}.

Lemma unescapePath_names ks : all_keys name_key ks → unescapePath ks = ks.
Proof.
  intros Hks. unfold unescapePath. induction Hks as [|k ks Hk Hks IH]; [done|].
  rewrite fmap_cons, IH, unescape_plain; [done|]. unfold name_key in Hk. rewrite !andb_True in Hk. tauto.
Qed.

Lemma splitPath_names k ks : all_keys name_key (k :: ks) → splitPath (join "/" (k :: ks)) = k :: ks.
Proof.
  intros Hks. unfold splitPath.
  assert (drop_slash (join "/" (k :: ks)) = join "/" (k :: ks)) as ->.
  { inversion Hks as [|? ? Hk _]; subst. unfold name_key, string_key in Hk.
    destruct k as [|a k]; [done|].
    assert (is_letter a) as Ha by (rewrite !andb_True in Hk; tauto).
    assert (bool_decide (a = "/"%char) = false) as Hs.
    { apply bool_decide_false. by intros ->. }
    by destruct ks; simpl; rewrite Hs. }
  apply split_join; [done|]. eapply Forall_impl; [done|]. unfold name_key. intros k'.
  rewrite !andb_True. tauto.
Qed.

Lemma drop_slash_slash p : drop_slash (String "/" p) = p.
Proof. done. Qed.

Lemma getIn_object d ks gs :
  has_errors d = false → all_keys string_key ks → lookup_in (toJSON d) ks = Some (JObj gs) → ∃ n, getIn d ks = Node n.
Proof. intros He Hks Hgs. apply (getIn_collection _ _ _ He Hks Hgs). by intros []. Qed.

(** The walk of [getDefinedPath] stops below the last object of the path. *)
Lemma getDefinedPath_spec d a b c fs :
  has_errors d = false → all_keys string_key (a ++ b :: c) →
  lookup_in (toJSON d) a = Some (JObj fs) → assoc b fs = None →
  objects_along (toJSON d) (a ++ b :: c) →
  getDefinedPath (a ++ b :: c) d = a.
Proof.
  intros He Hkeys Ha Hb Ho. unfold getDefinedPath.
  rewrite foldl_app.
  assert (∀ a1 a2, a = a1 ++ a2 →
    foldl (definedPath_step d) (a1, false) a2 = (a, false)) as Hwalk.
  { intros a1 a2. revert a1. induction a2 as [|k a2 IH]; intros a1 Heq; simpl.
    { by rewrite app_nil_r in Heq; subst. }
    destruct (lookup_in_object_above _ _ _ (a1 ++ [k]) a2 Ha) as [gs Hgs].
    { by rewrite Heq, <- (assoc_L (++)). }
    destruct (getIn_object d (a1 ++ [k]) gs) as [n ->]; try done.
    { rewrite Heq in Hkeys. clear -Hkeys. decompose_Forall_hyps.
      rewrite !Forall_app, Forall_cons in *. naive_solver. }
    simpl. apply IH. by rewrite Heq, <- (assoc_L (++)). }
  rewrite (Hwalk [] a) by done. simpl.
  rewrite getIn_missing; simpl; [|done|..].
  - clear. induction c as [|k c IH]; [done|]. apply IH.
  - rewrite Forall_app, Forall_cons in *. naive_solver.
  - apply (objects_along_prefix _ (a ++ [b]) c). by rewrite <- (assoc_L (++)).
  - by eapply lookup_in_missing.
Qed.

(** What is written, and where: the value at the path itself when its parent exists,
    and otherwise below the last object the value nested in the missing ones. *)
Lemma parsePathAndValue_spec d ks k v fs :
  has_errors d = false → all_keys name_key (ks ++ [k]) →
  toJSON d = JObj fs → objects_along (JObj fs) (ks ++ [k]) →
  (∃ gs, lookup_in (JObj fs) ks = Some (JObj gs) ∧
     parsePathAndValue d (join "/" (ks ++ [k])) v = (ks ++ [k], v)) ∨
  (∃ a b c gs, ks = a ++ b :: c ∧ lookup_in (JObj fs) a = Some (JObj gs) ∧ assoc b gs = None ∧
     parsePathAndValue d (join "/" (ks ++ [k])) v = (a ++ [b], nest (c ++ [k]) v)).
Proof.
  intros He Hkeys Hj Ho. unfold parsePathAndValue.
  assert (contents_isEmpty d = false) as ->.
  { unfold contents_isEmpty. destruct (contents d) eqn:Hc; [done|].
    apply contents_None in Hc. by rewrite Hj in Hc. }
  assert (splitPath (join "/" (ks ++ [k])) = ks ++ [k]) as ->.
  { destruct ks; by apply splitPath_names. }
  assert (slice 0 (length (ks ++ [k]) - 1) (ks ++ [k]) = ks) as ->.
  { unfold slice. rewrite drop_0, length_app, Nat.sub_0_r. simpl.
    by rewrite Nat.add_sub, take_app_length. }
  pose proof (name_string _ Hkeys) as Hstr.
  destruct (objects_along_parent _ _ _ Ho) as [Hnone|[gs Hgs]].
  - right. destruct (objects_along_first_missing _ _ _ Ho Hnone) as (a & b & c & gs & -> & Ha & Hb).
    exists a, b, c, gs. split_and!; try done.
    assert (all_keys string_key (a ++ b :: c)) as Hstr' by (rewrite Forall_app in Hstr; tauto).
    rewrite getIn_missing; [|done|done| |by rewrite Hj]; cycle 1.
    { rewrite Hj. by eapply objects_along_prefix. }
    simpl. rewrite (getDefinedPath_spec d a b c gs); try done; try by rewrite Hj.
    2:{ rewrite Hj. by eapply objects_along_prefix. }
    unfold slice, slice_from. rewrite drop_0, Nat.sub_0_r.
    assert ((a ++ b :: c) ++ [k] = (a ++ [b]) ++ (c ++ [k])) as Heq
      by by rewrite <- !(assoc_L (++)).
    rewrite Heq in *. assert (length a + 1 = length (a ++ [b])) as Hlen by by rewrite length_app.
    rewrite Hlen, take_app_length, drop_app_length.
    f_equal.
    + apply unescapePath_names. rewrite Forall_app in Hkeys; tauto.
    + assert (all_keys name_key (c ++ [k])) as Hc by (rewrite Forall_app in Hkeys; tauto).
      apply name_plain in Hc. destruct (c ++ [k]) eqn:E; [by destruct c|]. by apply set_nested.
  - left. exists gs. split; [done|].
    destruct (getIn_object d ks gs) as [n ->].
    + done.
    + rewrite Forall_app in Hstr; tauto.
    + by rewrite Hj.
    + simpl. by rewrite unescapePath_names.
Qed.

End value_facts.

(** ** What the three operations do to the values *)
Section value_theorems.
Context `{YamlDocument} `{JsonPointer} `{LodashSet}.

(** A text whose value is the object [fs], without errors. *)
Record holds (values : string) (fs : list (string * json)) : Prop := {
  holds_value : toJSON (parseDocument values) = JObj fs;
  holds_no_errors : has_errors (parseDocument values) = false;
  holds_writable : writable (JObj fs);
}.

Lemma writable_not_nil v : writable v → is_nil (Plain v) = false.
Proof. by inversion 1. Qed.

Lemma getValue_spec values fs ks k dflt :
  has_errors (parseDocument values) = false →
  toJSON (parseDocument values) = JObj fs → all_keys name_key (ks ++ [k]) →
  (∀ v, lookup_in (JObj fs) (ks ++ [k]) = Some v → is_scalar v → writable v →
     getValue values (join "/" (ks ++ [k])) dflt = Plain v) ∧
  (lookup_in (JObj fs) (ks ++ [k]) = None → objects_along (JObj fs) (ks ++ [k]) →
     getValue values (join "/" (ks ++ [k])) dflt = dflt).
Proof.
  intros He Hj Hkeys. unfold getValue, parsePath.
  assert (splitPath (join "/" (ks ++ [k])) = ks ++ [k]) as ->.
  { destruct ks; by apply splitPath_names. }
  rewrite unescapePath_names by done. apply name_string in Hkeys. rewrite <- Hj. split.
  - intros v Hv Hs Hw. rewrite (getIn_scalar _ _ v) by done. by rewrite writable_not_nil.
  - intros Hn Ho. by rewrite getIn_missing.
Qed.





Lemma obj_set_same k (j : json) fs : assoc k fs = Some j → obj_set k j fs = fs.
Proof.
  induction fs as [|[k' v'] fs IH]; [done|]. simpl. case_bool_decide; subst.
  - by intros [= ->].
  - intros Hk. by rewrite IH.
Qed.

Lemma obj_delete_missing k (fs : list (string * json)) : assoc k fs = None → obj_delete k fs = fs.
Proof.
  unfold obj_delete. induction fs as [|[k' v'] fs IH]; [done|]. simpl.
  case_bool_decide; [done|]. intros Hk. rewrite filter_cons, decide_True by done. by rewrite IH.
Qed.

Lemma remove_missing j a b c fs :
  lookup_in j a = Some (JObj fs) → assoc b fs = None → remove_in j (a ++ b :: c) = j.
Proof.
  revert j; induction a as [|k a IH]; intros j Ha Hb; simpl in *.
  - injection Ha as ->. destruct c; [by rewrite obj_delete_missing|by rewrite Hb].
  - destruct j as [| | | | | | |gs]; try done. destruct (assoc k gs) eqn:Hk; [|done].
    simpl in Ha. rewrite IH, obj_set_same by done. by destruct a.
Qed.

(** Deleting a path below objects: the key is gone and nothing else changes; a path
    that does not exist changes nothing.  Values left without any key are an empty
    line. *)
Theorem deleteValue_removes values fs ks k :
  holds values fs → all_keys name_key (ks ++ [k]) → objects_along (JObj fs) (ks ++ [k]) →
  ∃ gs, JObj gs = remove_in (JObj fs) (ks ++ [k]) ∧
    match gs with
    | [] => deleteValue values (join "/" (ks ++ [k])) = Ok (String "010" "")
    | _ :: _ => ∃ s, deleteValue values (join "/" (ks ++ [k])) = Ok s ∧ holds s gs
    end.
Proof.
  intros [Hj He Hw] Hkeys Ho. unfold deleteValue.
  assert (∃ path value d', parsePathAndValue (parseDocument values) (join "/" (ks ++ [k])) JUndefined
            = (path, value) ∧ deleteIn (parseDocument values) path = Ok d' ∧
          has_errors d' = false ∧ toJSON d' = remove_in (JObj fs) (ks ++ [k]))
    as (path & value & d' & -> & -> & He' & Hd').
  { pose proof (name_string _ Hkeys) as Hstr.
    destruct (parsePathAndValue_spec _ ks k JUndefined fs He Hkeys Hj Ho)
      as [(gs & Hgs & ->)|(a & b & c & gs & -> & Ha & Hb & ->)]; do 2 eexists.
    - destruct (deleteIn_parent (parseDocument values) ks k gs He) as (d' & ? & ? & ?);
        [done|by rewrite Hj|].
      exists d'. split_and!; [done|done|congruence..].
    - rewrite <- (assoc_L (++)), <- app_comm_cons in *.
      destruct (deleteIn_parent (parseDocument values) a b gs He) as (d' & ? & ? & Hd');
        [rewrite !Forall_app, !Forall_cons in *; naive_solver|by rewrite Hj|].
      exists d'. split_and!; [done|done|congruence|]. rewrite Hd', Hj.
      by rewrite !(remove_missing _ _ _ _ gs). }
  assert (∃ gs, JObj gs = remove_in (JObj fs) (ks ++ [k])) as [gs Hgs].
  { destruct ks as [|k' [|k2 ks]]; simpl; try destruct (assoc k' fs); eauto. }
  exists gs. split; [done|]. cbn [mbind outcome_bind].
  destruct (contents d') as [n|] eqn:Hc.
  2:{ apply contents_None in Hc. congruence. }
  destruct (items_obj d' n gs He' Hc) as (l & Hl & Hlen); [congruence|].
  unfold items_isEmpty. rewrite Hl.
  destruct gs as [|g gs], l as [|x l]; try done.
  assert (writable (JObj (g :: gs))) as Hwg by (rewrite Hgs; by apply writable_remove).
  destruct (toString_parse d') as (s & Hs & Hps & Hes); [by rewrite Hd', <- Hgs|done|].
  exists s. split; [done|]. by constructor; rewrite ?Hps, ?Hd', ?Hgs, <- ?Hgs.
Qed.

(** On empty values the path is not a path: it becomes the name of one key of the root,
    slashes included, and reading the path of the new text finds nothing. *)
Theorem setValue_on_empty_is_flat values k k' ks v :
  contents (parseDocument values) = None → has_errors (parseDocument values) = false →
  writable v → all_keys name_key (k :: k' :: ks) →
  plain_key (join "/" (k :: k' :: ks)) → string_key (join "/" (k :: k' :: ks)) →
  ∃ s, setValue values (join "/" (k :: k' :: ks)) v = Ok s ∧
    holds s [(join "/" (k :: k' :: ks), v)] ∧
    ∀ dflt, getValue s (join "/" (k :: k' :: ks)) dflt = dflt.
Proof.
  intros Hc He Hv Hkeys Hp Hs. unfold setValue, parsePathAndValue, contents_isEmpty. rewrite Hc.
  set (path := join "/" (k :: k' :: ks)) in *.
  assert (drop_slash path = path) as ->.
  { unfold path, drop_slash. inversion Hkeys as [|? ? Hk _]; subst.
    unfold name_key, string_key in Hk. destruct k as [|a k]; [done|]. cbn [join].
    rewrite str_app_cons. rewrite bool_decide_false; [done|]. intros ->.
    by rewrite !andb_True in Hk. }
  pose proof (set_nested path [] v) as Hset. simpl in Hset. rewrite Hset; clear Hset.
  2:{ repeat constructor. rewrite andb_True. done. }
  destruct (setIn_root (parseDocument values) (JObj [(path, v)])) as (d' & -> & He' & Hd').
  cbn [mbind outcome_bind].
  assert (writable (JObj [(path, v)])) as Hw by by apply (writable_nest [path]).
  destruct (toString_parse d') as (s & -> & Hps & Hes); [by rewrite Hd'|congruence|].
  exists s. split; [done|]. split.
  { constructor; congruence. }
  intros dflt. unfold path.
  assert (assoc k [(path, v)] = None) as Hk.
  { simpl. rewrite bool_decide_false; [done|]. intros Hk.
    apply (f_equal String.length) in Hk. unfold path in Hk.
    change (join "/" (k :: k' :: ks)) with (k +:+ "/" +:+ join "/" (k' :: ks)) in Hk.
    rewrite !str_length_app in Hk. simpl in Hk. lia. }
  destruct (exists_last (l := k :: k' :: ks)) as (ks0 & kl & Heq); [done|].
  rewrite Heq in *.
  apply (getValue_spec s [(path, v)]); [congruence|congruence|done|..]; rewrite <- Heq; cbn [lookup_in objects_along];
    by rewrite Hk.
Qed.

(** A component above the last one that is written escaped, as "a~1b" for the key "a/b",
    is looked up as it is spelled: an object under that key is not found, and the write
    replaces the whole of it by an object with the one new key. *)
Theorem setValue_escaped_parent_replaces values fs K k v old :
  holds values fs → writable v → string_key K → name_key k →
  assoc (escapePathComponent K) fs = None → assoc K fs = Some old →
  ∃ s, setValue values (escapePathComponent K +:+ "/" +:+ k) v = Ok s ∧
    holds s (obj_set K (JObj [(k, v)]) fs).
Proof.
  intros [Hj He Hw] Hv HK Hk Hesc Hold. unfold setValue, parsePathAndValue.
  assert (contents_isEmpty (parseDocument values) = false) as ->.
  { unfold contents_isEmpty. destruct (contents _) eqn:Hc; [done|].
    apply contents_None in Hc. by rewrite Hj in Hc. }
  pose proof (escape_first K HK) as Hs.
  assert (lacks "/" k) as Hlk by (unfold name_key in Hk; rewrite !andb_True in Hk; tauto).
  assert (splitPath (escapePathComponent K +:+ "/" +:+ k) = [escapePathComponent K; k]) as ->.
  { unfold splitPath. transitivity (split_on "/" (escapePathComponent K +:+ String "/" k)).
    - f_equal. unfold string_key in Hs. destruct (escapePathComponent K) as [|a e]; [done|].
      unfold drop_slash. rewrite str_app_cons. rewrite bool_decide_false; [done|]. by intros ->.
    - rewrite split_on_app_sep by apply escape_lacks. by rewrite split_on_lacks. }
  unfold slice, slice_from. cbn [length Nat.sub take drop].
  rewrite getIn_missing; [|done|by repeat constructor| |]; rewrite ?Hj; cbn [objects_along lookup_in];
    rewrite ?Hesc; try done.
  cbn [is_undef].
  assert (getDefinedPath [escapePathComponent K] (parseDocument values) = []) as ->.
  { unfold getDefinedPath. cbn [foldl definedPath_step app].
    rewrite getIn_missing; [done|done|by repeat constructor| |]; rewrite Hj; cbn; by rewrite ?Hesc. }
  unfold unescapePath. cbn [length Nat.sub Nat.add take drop fmap list_fmap].
  rewrite unescape_escape.
  assert (string_key k && plain_key k) as Hp by (unfold name_key in Hk; rewrite !andb_True in *; tauto).
  pose proof (set_nested k [] v) as ->; [|by constructor].
  destruct (setIn_parent (parseDocument values) [] K (nest [k] v) fs) as (d' & Hd & He' & Hd');
    [done|cbn; by repeat constructor|by rewrite Hj|].
  rewrite app_nil_l in Hd. rewrite Hd. cbn [mbind outcome_bind].
  assert (toJSON d' = JObj (obj_set K (JObj [(k, v)]) fs)) as Hd2.
  { rewrite Hd', Hj. cbn [app upsert_in nest]. by rewrite Hold. }
  assert (writable (toJSON d')) as Hwd.
  { rewrite Hd2. apply writable_obj_set; [done|]. by apply (writable_nest [k]). }
  destruct (toString_parse d' Hwd) as (s & -> & Hps & Hes); [congruence|].
  exists s. split; [done|]. constructor; congruence.
Qed.
End value_theorems.
