(* ===== verification/FormParams.v ===== *)
(** * The parameters of the form of a chart

    [retrieveBasicFormParams] (src/dashboard/src/shared/schema.ts) walks the JSON schema of
    a chart; the component [Param]
    (src/dashboard/src/components/DeploymentFormBody/BasicDeploymentForm/Param.tsx) chooses
    the control of a parameter and decides whether it is hidden.

    A parameter keeps all the fields of its schema, with [path], [type], [value], [enum]
    and [children] on top.  The schema is a tree and the walk is structural on it. *)

From S2P Require Import Prelude.
From S2P Require Import Json.
From S2P Require Import JsonText.
From S2P Require Import Values.

Section form.
Context `{YamlDocument} `{JsonPointer} `{LodashSet}.

Inductive IBasicFormParam :=
| FormParam (fields : json) (path : string) (type : json) (value : any node)
    (enum : option (list string)) (children : option (list IBasicFormParam)).

Definition param_fields (p : IBasicFormParam) := let '(FormParam f _ _ _ _ _) := p in f.
Definition param_path (p : IBasicFormParam) := let '(FormParam _ x _ _ _ _) := p in x.
Definition param_type (p : IBasicFormParam) := let '(FormParam _ _ t _ _ _) := p in t.
Definition param_value (p : IBasicFormParam) := let '(FormParam _ _ _ v _ _) := p in v.
Definition param_enum (p : IBasicFormParam) := let '(FormParam _ _ _ _ e _) := p in e.
Definition param_children (p : IBasicFormParam) := let '(FormParam _ _ _ _ _ c) := p in c.

(** [{ ...param, value }]. *)
Definition with_value (p : IBasicFormParam) (v : any node) : IBasicFormParam :=
  let '(FormParam f x t _ e c) := p in FormParam f x t v e c.

(** ** Reading the schema *)

(** [properties[propertyKey].enum?.map(...)]. *)
Definition enum_of (p : json) : outcome (option (list string)) :=
  match jget p "enum" with
  | JUndefined | JNull => Ok None
  | JArr l => Ok (Some (item_text <$> l))
  | _ => Throws (not_a_function "properties[propertyKey].enum?.map")
  end.

Definition is_object_type (p : json) : bool := bool_decide (jget p "type" = JStr "object").

(** One property, with the walk of the schema below it as an argument. *)
Definition property_params (below : string → json → outcome (list IBasicFormParam))
    (defaultValues itemPath : string) (p : json) : outcome (list IBasicFormParam) :=
  match p with
  | JUndefined | JNull => Throws (undefined_access "type")
  | _ =>
    if jtruthy (jget p "form") then
      let value := getValue defaultValues itemPath (Plain (jget p "default")) in
      enum ← enum_of p;
      children ← (if is_object_type p
                  then l ← below (itemPath +:+ "/") p; Ok (Some l) else Ok None);
      Ok [FormParam p itemPath (jget p "type") value enum children]
    else if is_object_type p then below (itemPath +:+ "/") p
    else Ok []
  end.

Fixpoint retrieve (defaultValues parentPath : string) (schema : json) {struct schema}
    : outcome (list IBasicFormParam) :=
  match schema with
  | JObj fs =>
    (fix in_schema (fs : list (string * json)) :=
       match fs with
       | [] => Ok []
       | (k, v) :: fs' =>
         if bool_decide ("properties" = k) then
           match v with
           | JObj properties =>
             (fix each (ps : list (string * json)) :=
                match ps with
                | [] => Ok []
                | (propertyKey, p) :: ps' =>
                  params ← property_params (retrieve defaultValues) defaultValues
                             (parentPath +:+ propertyKey) p;
                  rest ← each ps';
                  Ok (params ++ rest)
                end) properties
           | _ => Ok []
           end
         else in_schema fs'
       end) fs
  | _ => Ok []
  end.

Definition retrieveBasicFormParams (defaultValues : string) (schema : option json)
    (parentPath : option string) : outcome (list IBasicFormParam) :=
  match schema with
  | Some s => retrieve defaultValues (default "" parentPath) s
  | None => Ok []
  end.

(** ** The control of a parameter *)

(** Two values compared with [===]; an object is equal to itself only. *)
Definition strict_eq (v : any node) (w : json) : bool :=
  match v with
  | Plain j => is_scalar j && bool_decide (j = w)
  | Node _ => false
  end.

(** The path handed to [getValue]: [splitPath] takes nothing for the empty path. *)
Definition path_arg (j : json) : outcome string :=
  match j with
  | JStr s => Ok s
  | JUndefined | JNull => Ok ""
  | _ => Throws (not_a_function "path.replace")
  end.

(** The loop of [getParamMatchingPath] over one list, with the search below a parameter
    as an argument: a match ends it, a parameter with children replaces the target. *)
Fixpoint matching_loop (below : IBasicFormParam → option IBasicFormParam) (path : json)
    (params : list IBasicFormParam) (targetParam : option IBasicFormParam)
    : option IBasicFormParam :=
  match params with
  | [] => targetParam
  | p :: params' =>
    if bool_decide (JStr (param_path p) = path) then Some p
    else
      matching_loop below path params'
        match param_children p with
        | Some (_ :: _) => below p
        | _ => targetParam
        end
  end.

(** The search in the children of a parameter. *)
Fixpoint match_below (path : json) (p : IBasicFormParam) {struct p} : option IBasicFormParam :=
  match p with
  | FormParam _ _ _ _ _ (Some cs) =>
    (fix loop (params : list IBasicFormParam) (targetParam : option IBasicFormParam) :=
       match params with
       | [] => targetParam
       | q :: params' =>
         if bool_decide (JStr (param_path q) = path) then Some q
         else
           loop params'
             match param_children q with
             | Some (_ :: _) => match_below path q
             | _ => targetParam
             end
       end) cs None
  | _ => None
  end.

Definition getParamMatchingPath (params : list IBasicFormParam) (path : json)
    : option IBasicFormParam :=
  matching_loop (match_below path) path params None.

Section param.
Context (appValues : string) (allParams : list IBasicFormParam) (deploymentEvent : string).

Definition evalCondition (path expectedValue paramDeploymentEvent : json) : outcome bool :=
  match paramDeploymentEvent with
  | JUndefined | JNull =>
    text ← path_arg path;
    let val := getValue appValues text (Plain JUndefined) in
    let val :=
      if is_undef val then
        match getParamMatchingPath allParams path with
        | Some target => param_value target
        | None => Plain JUndefined
        end
      else val in
    Ok (strict_eq val
          match expectedValue with JUndefined | JNull => JBool true | w => w end)
  | ev => Ok (bool_decide (ev = JStr deploymentEvent))
  end.

(** [evalCondition(c.path, c.value, c.event)]. *)
Definition condition_of (c : json) : outcome bool :=
  match c with
  | JUndefined | JNull => Throws (undefined_access "path")
  | _ => evalCondition (jget c "path") (jget c "value") (jget c "event")
  end.

Fixpoint every (f : json → outcome bool) (l : list json) : outcome bool :=
  match l with
  | [] => Ok true
  | c :: l' => b ← f c; if (b : bool) then every f l' else Ok false
  end.
Fixpoint some_of (f : json → outcome bool) (l : list json) : outcome bool :=
  match l with
  | [] => Ok false
  | c :: l' => b ← f c; if (b : bool) then Ok true else some_of f l'
  end.
Definition not_condition (c : json) : outcome bool := b ← condition_of c; Ok (negb b).

Definition isHidden (param : IBasicFormParam) : outcome bool :=
  let hidden := jget (param_fields param) "hidden" in
  match hidden with
  | JStr path => evalCondition hidden JUndefined JUndefined
  | JNull => Throws (undefined_access "conditions")
  | JObj _ | JArr _ =>
    match jget hidden "conditions" with
    | JArr (c :: cs) =>
      match jget hidden "operator" with
      | JStr "or" => some_of condition_of (c :: cs)
      | JStr "nor" => every not_condition (c :: cs)
      | _ => every condition_of (c :: cs)
      end
    | JStr (String _ _) => Throws (not_a_function "hidden.conditions.every")
    | _ => condition_of hidden
    end
  | _ => Ok false
  end.
End param.

Inductive control :=
| CustomFormComponentLoader
| BooleanParam
| Subsection
| SliderParam
| TextParam (inputType : string).

Definition label_of (param : IBasicFormParam) : string :=
  match jget (param_fields param) "title" with
  | JStr title => or_str title (param_path param)
  | _ => param_path param
  end.

Definition control_of (param : IBasicFormParam) : control :=
  if jtruthy (jget (param_fields param) "customComponent") then CustomFormComponentLoader
  else
    let type := match param_type param with
                | JArr l => default JUndefined (l !! 0)
                | t => t
                end in
    let render := jget (param_fields param) "render" in
    if bool_decide (type = JStr "boolean") then BooleanParam
    else if bool_decide (type = JStr "object") then Subsection
    else if bool_decide (render = JStr "slider") then SliderParam
    else if bool_decide (render = JStr "textArea") then TextParam "textarea"
    else
      let inputType := if bool_decide (type = JStr "integer") then "number" else "string" in
      let inputType :=
        if bool_decide (type = JStr "string") &&
           (bool_decide (render = JStr "password") ||
            includes "password" (toLowerCase (label_of param)))
        then "password" else inputType in
      TextParam inputType.
End form.
Arguments IBasicFormParam {_}.

(** ** Facts *)

Section form_facts.
Context `{YamlDocument} `{JsonPointer} `{LodashSet}.

Lemma retrieve_properties defaultValues parentPath schema :
  retrieve defaultValues parentPath schema =
  match jget schema "properties" with
  | JObj properties =>
    collect (λ kp, property_params (retrieve defaultValues) defaultValues
                     (parentPath +:+ kp.1) kp.2) properties
  | _ => Ok []
  end.
Proof.
  destruct schema as [| | | | | | |fs]; try done. cbn [jget].
  induction fs as [|[k v] fs IH]; [done|]. simpl. case_bool_decide; [|exact IH].
  cbn [default id from_option]. destruct v as [| | | | | | |ps]; try done.
  induction ps as [|[key p] ps IHps]; [done|]. by rewrite IHps.
Qed.

(** A schema the walk can read: no property is null, and an [enum] is a list. *)
Inductive form_schema : json → Prop :=
| form_schema_scalar j : is_scalar j → j ≠ JNull → j ≠ JUndefined → form_schema j
| form_schema_object fs :
  (∃ enum, enum_of (JObj fs) = Ok enum) →
  (∀ props, jget (JObj fs) "properties" = JObj props → Forall (λ kp, form_schema kp.2) props) →
  form_schema (JObj fs).

(** The properties shown as parameters, with their paths: those marked with [form], at
    the root or below objects that are not marked themselves. *)
Inductive shown : json → string → string → json → Prop :=
| shown_here schema prefix props k p :
  jget schema "properties" = JObj props → (k, p) ∈ props → jtruthy (jget p "form") →
  shown schema prefix (prefix +:+ k) p
| shown_below schema prefix props k p path q :
  jget schema "properties" = JObj props → (k, p) ∈ props →
  ¬ jtruthy (jget p "form") → is_object_type p →
  shown p ((prefix +:+ k) +:+ "/") path q → shown schema prefix path q.

(** A parameter as it has to be: the value of the path or else the default of the schema,
    the texts of the enum, and as children the parameters of the schema below an object. *)
Record renders (defaultValues : string) (q : IBasicFormParam) : Prop := {
  renders_value : param_value q =
    getValue defaultValues (param_path q) (Plain (jget (param_fields q) "default"));
  renders_type : param_type q = jget (param_fields q) "type";
  renders_enum : enum_of (param_fields q) = Ok (param_enum q);
  renders_children :
    if is_object_type (param_fields q) then
      ∃ l, param_children q = Some l ∧
           retrieve defaultValues (param_path q +:+ "/") (param_fields q) = Ok l
    else param_children q = None;
}.

Definition lists_shown (defaultValues parentPath : string) (schema : json) : Prop :=
  ∃ l, retrieve defaultValues parentPath schema = Ok l ∧ Forall (renders defaultValues) l ∧
    ∀ path p, (∃ q, q ∈ l ∧ param_path q = path ∧ param_fields q = p) ↔
              shown schema parentPath path p.

Lemma property_lists defaultValues itemPath p :
  form_schema p → (∀ pp, lists_shown defaultValues pp p) →
  ∃ l, property_params (retrieve defaultValues) defaultValues itemPath p = Ok l ∧
    Forall (renders defaultValues) l ∧
    ∀ path q, (∃ x, x ∈ l ∧ param_path x = path ∧ param_fields x = q) ↔
      (jtruthy (jget p "form") ∧ path = itemPath ∧ q = p) ∨
      (¬ jtruthy (jget p "form") ∧ is_object_type p ∧ shown p (itemPath +:+ "/") path q).
Proof.
  intros Hp Hbelow. destruct (Hbelow (itemPath +:+ "/")) as (l & Hl & Hr & Hs).
  inversion Hp as [j Hsc Hn Hu|fs [enum Henum] Hprops]; subst.
  { exists []. split; [by destruct p|]. split; [done|]. intros path q.
    split; [by intros (? & ?%elem_of_nil & _)|].
    intros [(Hf & _)|(_ & Ho & _)]; by destruct p. }
  unfold property_params. destruct (jtruthy (jget (JObj fs) "form")) eqn:Hf.
  - rewrite Henum. cbn [mbind outcome_bind].
    destruct (is_object_type (JObj fs)) eqn:Ho; rewrite ?Hl; cbn [mbind outcome_bind];
      (eexists; split; [reflexivity|split]).
    1, 3: apply Forall_singleton; constructor; cbn [param_value param_path param_fields
      param_type param_enum param_children]; rewrite ?Ho; eauto.
    all: intros path q; setoid_rewrite list_elem_of_singleton; split;
      [intros (x & -> & <- & <-); by left|intros [(_ & -> & ->)|(? & _)]; [by eexists|done]].
  - destruct (is_object_type (JObj fs)) eqn:Ho.
    + exists l. split; [done|]. split; [done|]. intros path q. rewrite Hs. split.
      * intros Hsh. right. split; [by intros []|done].
      * by intros [(? & _)|(_ & _ & ?)].
    + exists []. split; [done|]. split; [done|]. intros path q.
      split; [by intros (? & ?%elem_of_nil & _)|]. by intros [(? & _)|(_ & ? & _)].
Qed.

Lemma schema_lists defaultValues schema :
  form_schema schema → ∀ parentPath, lists_shown defaultValues parentPath schema.
Proof.
  enough (form_schema schema → (∀ pp, lists_shown defaultValues pp schema)) by done.
  assert (∀ j, (form_schema j → ∀ pp, lists_shown defaultValues pp j) ∧
    ∀ fs, j = JObj fs →
      Forall (λ kp, form_schema kp.2 → ∀ pp, lists_shown defaultValues pp kp.2) fs) as Hall;
    [|by apply Hall].
  assert (∀ j pp, jget j "properties" = JUndefined ∨ is_scalar j →
    lists_shown defaultValues pp j) as Hnone.
  { intros j pp Hj. exists []. rewrite retrieve_properties. split; [|split; [done|]].
    - destruct Hj as [->|Hj]; [done|]. by destruct j.
    - intros path p. split; [by intros (? & ?%elem_of_nil & _)|].
      intros Hs. destruct Hj as [Hj|Hj]; inversion Hs; destruct j; congruence || done. }
  induction j as [| | | | | |l _|fs IH] using json_ind'; split;
    try (by intros; apply Hnone; eauto); try done.
  - intros Hfs pp. inversion Hfs as [|? _ Hprops]; subst; [done|].
    destruct (jget (JObj fs) "properties") as [| | | | | | |props] eqn:Hj; [by apply Hnone; eauto| | | | | | |].
    all: try (exists []; rewrite retrieve_properties, Hj; split_and!; [done|done|];
      intros path p; split; [by intros (? & ?%elem_of_nil & _)|];
      intros Hs; inversion Hs; congruence).
    pose proof (Hprops _ eq_refl) as Hps.
    assert (Forall (λ kp, form_schema kp.2 → ∀ pp, lists_shown defaultValues pp kp.2) props) as IHp.
    { cbn [jget] in Hj. destruct (assoc "properties" fs) as [v|] eqn:Ha; [|done]. cbn in Hj. subst v.
      assert (("properties", JObj props) ∈ fs) as Hin.
      { clear -Ha. induction fs as [|[k v] fs IH]; [done|]. simpl in Ha. case_bool_decide.
        - simplify_eq. apply list_elem_of_here.
        - apply list_elem_of_further. auto. }
      eapply Forall_forall in IH; [|exact Hin]. by apply IH. }
    destruct (collect_all (λ kp, property_params (retrieve defaultValues) defaultValues
      (pp +:+ kp.1) kp.2) (λ kp l, Forall (renders defaultValues) l ∧
      ∀ path q, (∃ x, x ∈ l ∧ param_path x = path ∧ param_fields x = q) ↔
      (jtruthy (jget kp.2 "form") ∧ path = pp +:+ kp.1 ∧ q = kp.2) ∨
      (¬ jtruthy (jget kp.2 "form") ∧ is_object_type kp.2 ∧
       shown kp.2 ((pp +:+ kp.1) +:+ "/") path q)) props) as (rs & Hrs & HRs).
    { apply Forall_forall. intros kp Hkp.
      apply property_lists; [|intros pp']; eapply Forall_forall in IHp, Hps; eauto. }
    exists (concat rs). rewrite retrieve_properties, Hj. split; [done|]. split.
    + apply Forall_concat. clear -HRs. induction HRs as [|? ? ? ? []]; by constructor.
    + intros path q. setoid_rewrite elem_of_concat. split.
      * intros (x & (r & Hr & Hx) & Hpath & Hq).
        apply list_elem_of_lookup in Hr as [i Hi].
        eapply Forall2_lookup_r in HRs as ([k p] & Hkp & _ & Hiff); [|exact Hi].
        apply list_elem_of_lookup_2 in Hkp.
        destruct (proj1 (Hiff path q)) as [(? & -> & ->)|(? & ? & ?)]; [by eauto| |].
        -- by eapply shown_here.
        -- by eapply shown_below.
      * intros Hs.
        assert (∃ kp, kp ∈ props ∧
          ((jtruthy (jget kp.2 "form") ∧ path = pp +:+ kp.1 ∧ q = kp.2) ∨
           (¬ jtruthy (jget kp.2 "form") ∧ is_object_type kp.2 ∧
            shown kp.2 ((pp +:+ kp.1) +:+ "/") path q))) as (kp & Hkp & Hor).
        { inversion Hs; subst;
            match goal with Hp : jget _ _ = JObj _, Hk : (?k, ?p) ∈ _ |- _ =>
              rewrite Hj in Hp; injection Hp as <-; exists (k, p); split; auto
            end. }
        apply list_elem_of_lookup in Hkp as [i Hi].
        eapply Forall2_lookup_l in HRs as (r & Hr & _ & Hiff); [|exact Hi].
        destruct (proj2 (Hiff path q) Hor) as (x & Hx & ? & ?).
        exists x. split; [|done]. exists r. split; [|done]. by eapply list_elem_of_lookup_2.
  - intros gs [= <-]. eapply Forall_impl; [exact IH|]. by intros kv [? _].
Qed.
End form_facts.

Section form_theorems.
Context `{YamlDocument} `{JsonPointer} `{LodashSet}.

(** C18: The walk of the schema ends without an error and lists exactly the marked
    properties, each with its path from the root, the value the text of the values has at
    that path (or else the default of the schema), and, below an object, the parameters
    of its own schema as children. *)
Theorem retrieveBasicFormParams_shown defaultValues schema :
  form_schema schema →
  ∃ l, retrieveBasicFormParams defaultValues (Some schema) None = Ok l ∧
    Forall (renders defaultValues) l ∧
    ∀ path p, (∃ q, q ∈ l ∧ param_path q = path ∧ param_fields q = p) ↔ shown schema "" path p.
Proof. intros Hs. by apply schema_lists. Qed.

Section hidden.
Context (appValues : string) (allParams : list IBasicFormParam) (deploymentEvent : string).
Let condition := condition_of appValues allParams deploymentEvent.

Lemma every_spec f l bs : Forall2 (λ c b, f c = Ok b) l bs → every f l = Ok (forallb id bs).
Proof. induction 1 as [|c b l bs Hc _ IH]; simpl; [done|]. rewrite Hc. by destruct b. Qed.

Lemma some_of_spec f l bs : Forall2 (λ c b, f c = Ok b) l bs → some_of f l = Ok (existsb id bs).
Proof. induction 1 as [|c b l bs Hc _ IH]; simpl; [done|]. rewrite Hc. by destruct b. Qed.

(** A parameter with a list of conditions is hidden as the operator combines them: all of
    them (also for an unknown operator), one of them, or none of them. *)
Theorem isHidden_combines param hf c cs bs :
  jget (param_fields param) "hidden" = JObj hf → jget (JObj hf) "conditions" = JArr (c :: cs) →
  Forall2 (λ c b, condition c = Ok b) (c :: cs) bs →
  isHidden appValues allParams deploymentEvent param =
  Ok (if decide (jget (JObj hf) "operator" = JStr "or") then existsb id bs
      else if decide (jget (JObj hf) "operator" = JStr "nor") then negb (existsb id bs)
      else forallb id bs).
Proof.
  intros Hh Hc Hbs. unfold isHidden. rewrite Hh, Hc.
  assert (every (not_condition appValues allParams deploymentEvent) (c :: cs) =
    Ok (negb (existsb id bs))) as Hnor.
  { rewrite (every_spec _ _ (negb <$> bs)).
    - f_equal. clear. by induction bs as [|[] bs IH].
    - apply Forall2_fmap_r. eapply Forall2_impl; [exact Hbs|]. intros c' b Hcb.
      unfold not_condition. unfold condition in Hcb. by rewrite Hcb. }
  pose proof (every_spec _ _ _ Hbs) as Hand. pose proof (some_of_spec _ _ _ Hbs) as Hor.
  destruct (decide _) as [->|Hno]; [exact Hor|]. destruct (decide _) as [->|Hnn]; [exact Hnor|].
  destruct (jget (JObj hf) "operator") as [| | | | |op| |]; try exact Hand.
  destruct op as [|[[] [] [] [] [] [] [] []] op]; try exact Hand;
    destruct op as [|[[] [] [] [] [] [] [] []] op]; try exact Hand.
  all: destruct op as [|[[] [] [] [] [] [] [] []] op]; try exact Hand; try done.
  all: by destruct op.
Qed.
End hidden.

Definition has_children (p : IBasicFormParam) : bool :=
  match param_children p with Some (_ :: _) => true | _ => false end.

Lemma match_below_children path p cs :
  param_children p = Some cs → match_below path p = getParamMatchingPath cs path.
Proof.
  destruct p as [f x t v e c]. cbn [param_children]. intros ->. unfold getParamMatchingPath.
  cbn [match_below]. generalize (@None IBasicFormParam) as target.
  induction cs as [|q cs IH]; intros target; [done|]. cbn [matching_loop].
  case_bool_decide; [done|]. apply IH.
Qed.

(** When no parameter of a list has the path itself, the answer is the one of the last
    parameter with children: what an earlier one has below it is forgotten. *)
Theorem getParamMatchingPath_last_section params path :
  Forall (λ p, JStr (param_path p) ≠ path) params →
  getParamMatchingPath params path =
  match last (filter has_children params) with
  | Some p => getParamMatchingPath (default [] (param_children p)) path
  | None => None
  end.
Proof.
  unfold getParamMatchingPath at 1. intros Hps.
  assert (∀ target, matching_loop (match_below path) path params target =
    match last (filter has_children params) with
    | Some p => getParamMatchingPath (default [] (param_children p)) path
    | None => target
    end) as Hloop; [|apply Hloop].
  induction Hps as [|p params Hp Hps IH]; intros target; [done|]. cbn [matching_loop].
  rewrite bool_decide_false by done. rewrite IH, filter_cons.
  destruct (decide (has_children p)) as [Hh|Hh]; unfold has_children in Hh;
    destruct (param_children p) as [[|q qs]|] eqn:Hc; try done; try (by destruct Hh).
  rewrite last_cons. destruct (last _) as [l|]; [done|].
  rewrite (match_below_children _ _ _ Hc). by rewrite Hc.
Qed.
End form_theorems.
