(* ===== verification/AppsActions.v ===== *)
(** * The thunks of src/dashboard/src/actions/apps.ts

    [compare] of the package semver is a parameter; its laws are those of its
    documentation. *)

From S2P Require Import Prelude.
From S2P Require Import Json.
From S2P Require Import JsonText.
From S2P Require Import Browser.
From S2P Require Import Types.
From S2P Require Import Url.
From S2P Require Import KubeRef.
From S2P Require Import Actions.
From S2P Require Import AppsReducer.
From S2P Require Import Store.
From S2P Require Import Thunk.
From S2P Require Import HelmServices.
From S2P Require Import Schema.

(** "compare(v1, v2): Return 0 if v1 == v2, or 1 if v1 is greater, or -1 if v2 is
    greater.  Sorts in ascending order if passed to Array.sort()."  It throws on a string
    that is not a version. *)
Class Semver := {
  semver_valid : string → bool;
  semver_compare : string → string → outcome Z;
  semver_total : total_cmp semver_compare (λ v, Is_true (semver_valid v));
  semver_invalid v w : ¬ (semver_valid v ∧ semver_valid w) → ∃ e, semver_compare v w = Throws e;
}.

Section apps.
Context `{Lodash} `{Jwt} `{Location} `{Router} `{Yaml} `{Ajv} `{Semver} (boot : browser).

(** [semver.gte] *)
Definition semver_gte (v w : string) : outcome bool :=
  c ← semver_compare v w; Ok (0 <=? c)%Z.

Definition getApp (cluster namespace releaseName : string) : prog (option IRelease) :=
  _ ← dispatch requestApps;
  try_catch
    (app ← await (App_getRelease cluster namespace releaseName);
     _ ← dispatch (selectApp app);
     mret (Some app))
    (λ e,
     _ ← dispatch (errorApp (mk_error FetchError (message e)));
     mret None).

Definition no_repo : IRepo := {| IRepo_namespace := ""; IRepo_name := ""; IRepo_url := "" |}.

Definition chart_latest (c : IChart) : IChartVersionAttributes :=
  IChart_relationships_latestChartVersion_data c.
Definition chart_version (c : IChart) : string := IChartVersionAttributes_version (chart_latest c).

(** [(a, b) => semver.compare(a...version, b...version)] *)
Definition compare_charts (a b : IChart) : outcome Z :=
  semver_compare (chart_version a) (chart_version b).

(** The information computed from the charts found. *)
Definition updateInfo_of (currentVersion : string) (chartsInfo : list IChart)
    : outcome IChartUpdateInfo :=
  if bool_decide (0 < length chartsInfo) then
    sortedCharts ← sort_by compare_charts chartsInfo;
    first ← require "relationships" (head sortedCharts);
    let chartLatestVersion := chart_version first in
    upToDate ← semver_gte currentVersion chartLatestVersion;
    Ok {| IChartUpdateInfo_upToDate := upToDate;
          IChartUpdateInfo_chartLatestVersion := chartLatestVersion;
          IChartUpdateInfo_appLatestVersion :=
            IChartVersionAttributes_app_version (chart_latest first);
          IChartUpdateInfo_repository := IChartAttributes_repo (IChart_attributes first);
          IChartUpdateInfo_error := None |}
  else
    Ok {| IChartUpdateInfo_upToDate := true; IChartUpdateInfo_chartLatestVersion := "";
          IChartUpdateInfo_appLatestVersion := ""; IChartUpdateInfo_repository := no_repo;
          IChartUpdateInfo_error := None |}.

Definition updateInfo_error (e : js_error) : IChartUpdateInfo :=
  {| IChartUpdateInfo_upToDate := false; IChartUpdateInfo_chartLatestVersion := "";
     IChartUpdateInfo_appLatestVersion := ""; IChartUpdateInfo_repository := no_repo;
     IChartUpdateInfo_error := Some e |}.

Definition getAppUpdateInfo
    (cluster namespace releaseName chartName currentVersion appVersion : string) : prog unit :=
  _ ← dispatch requestAppUpdateInfo;
  try_catch
    (chartsInfo ← await (Chart_listWithFilters cluster namespace chartName currentVersion
                           appVersion);
     updateInfo ← lift (updateInfo_of currentVersion chartsInfo);
     dispatch (receiveAppUpdateInfo releaseName updateInfo))
    (λ e, dispatch (receiveAppUpdateInfo releaseName (updateInfo_error e))).

(** [app.chart.metadata], when its name, version and application version are there. *)
Definition update_args (app : option IRelease) : option (string * string * string * string) :=
  app ← app; chart ← IRelease_chart app; md ← IChart_metadata chart;
  name ← IMetadata_name md; version ← IMetadata_version md; appVersion ← IMetadata_appVersion md;
  if truthy name && truthy version && truthy appVersion
  then Some (IRelease_name app, name, version, appVersion) else None.

Definition getAppWithUpdateInfo (cluster namespace releaseName : string) : prog unit :=
  try_catch
    (app ← await (getApp cluster namespace releaseName);
     match update_args app with
     | Some (name, chart, version, appVersion) =>
       fork (getAppUpdateInfo cluster namespace name chart version appVersion)
     | None => mret ()
     end)
    (λ e, dispatch (errorApp (mk_error FetchError (message e)))).

Definition deleteApp (cluster namespace releaseName : string) (purge : bool) : prog bool :=
  _ ← dispatch requestDeleteApp;
  try_catch
    (_ ← await (App_delete cluster namespace releaseName purge);
     _ ← dispatch receiveDeleteApp;
     mret true)
    (λ e,
     _ ← dispatch (errorApp (mk_error DeleteError (message e)));
     mret false).

Definition fetchApps (cluster : string) (ns : option string)
    : prog (option (list IAppOverview)) :=
  _ ← dispatch listApps;
  try_catch
    (apps ← await (App_listApps cluster ns);
     _ ← dispatch (receiveAppList apps);
     mret apps)
    (λ e,
     _ ← dispatch (errorApp (mk_error FetchError (message e)));
     mret (Some [])).

(** An overview's metadata may lack a version: it is then [undefined], and is sent so. *)
Definition overview_updates (cluster : string) (app : IAppOverview) : prog unit :=
  let md := IAppOverview_chartMetadata app in
  getAppUpdateInfo cluster (IAppOverview_namespace app) (IAppOverview_releaseName app)
    (default "undefined" (IMetadata_name md)) (default "undefined" (IMetadata_version md))
    (default "undefined" (IMetadata_appVersion md)).

Fixpoint for_each {A} (f : A → prog unit) (l : list A) : prog unit :=
  match l with
  | [] => mret ()
  | x :: l' => _ ← f x; for_each f l'
  end.

Definition fetchAppsWithUpdateInfo (cluster namespaceOrAll : string) : prog unit :=
  try_catch
    (apps ← await (fetchApps cluster (Some namespaceOrAll));
     for_each (λ app, fork (overview_updates cluster app)) (default [] apps))
    (λ e, dispatch (errorApp (mk_error FetchError (message e)))).

Definition deployChart (targetCluster targetNamespace : string) (chartVersion : IChartVersion)
    (chartNamespace releaseName : string) (values : option string) (schema : option json)
    : prog bool :=
  _ ← dispatch requestDeployApp;
  try_catch
    (_ ← lift (check_values values schema);
     _ ← await (App_create targetCluster targetNamespace releaseName chartNamespace chartVersion
                  values);
     _ ← dispatch receiveDeployApp;
     mret true)
    (λ e,
     _ ← dispatch (errorApp (mk_error CreateError (message e)));
     mret false).

Definition upgradeApp (cluster namespace : string) (chartVersion : IChartVersion)
    (chartNamespace releaseName : string) (values : option string) (schema : option json)
    : prog bool :=
  _ ← dispatch requestUpgradeApp;
  try_catch
    (_ ← lift (check_values values schema);
     _ ← await (App_upgrade cluster namespace releaseName chartNamespace chartVersion values);
     _ ← dispatch receiveUpgradeApp;
     mret true)
    (λ e,
     _ ← dispatch (errorApp (mk_error UpgradeError (message e)));
     mret false).

Definition rollbackApp (cluster namespace releaseName : string) (revision : Z) : prog bool :=
  _ ← dispatch requestRollbackApp;
  try_catch
    (_ ← await (App_rollback cluster namespace releaseName revision);
     _ ← dispatch receiveRollbackApp;
     _ ← fork (getAppWithUpdateInfo cluster namespace releaseName);
     mret true)
    (λ e,
     _ ← dispatch (errorApp (mk_error RollbackError (message e)));
     mret false).

(** ** Facts *)

(** What is dispatched when a request of this file fails. *)
Definition app_error (c : err_class) (e : js_error) : event :=
  EvDispatch (errorApp (mk_error c (message e))).

Lemma getApp_performs E c ns n m :
  let req := get_request (kubeops_releases_get c ns n) in
  let reply := env_reply E (m_ticks m) axiosWithAuth req T_release in
  performs boot E (getApp c ns n) m
    (Ok (match reply with Ok r => Some (data r) | Throws _ => None end))
    [EvDispatch requestApps; EvRequest axiosWithAuth req;
     match reply with
     | Ok r => EvDispatch (selectApp (data r))
     | Throws e => app_error FetchError e end] [].
Proof using. intros req reply. unfold getApp, App_getRelease. subst reply req. perform. Qed.

Lemma fetchApps_performs E c ns m :
  let req := get_request
    ((if truthy_opt ns then kubeops_releases_list c (default "" ns)
      else kubeops_releases_listAll c) +:+ "?statuses=all") in
  let reply := env_reply E (m_ticks m) axiosWithAuth req T_overviews in
  performs boot E (fetchApps c ns) m
    (Ok (match reply with Ok r => data r | Throws _ => Some [] end))
    [EvDispatch listApps; EvRequest axiosWithAuth req;
     match reply with
     | Ok r => EvDispatch (receiveAppList (data r))
     | Throws e => app_error FetchError e end] [].
Proof using. intros req reply. unfold fetchApps, App_listApps. subst reply req. perform. Qed.

Lemma deleteApp_performs E c ns n purge m :
  let req := delete_request
    (kubeops_releases_get c ns n +:+ (if purge : bool then "?purge=true" else "")) in
  let reply := env_reply E (m_ticks m) axiosWithAuth req T_json in
  performs boot E (deleteApp c ns n purge) m
    (Ok (match reply with Ok _ => true | Throws _ => false end))
    [EvDispatch requestDeleteApp; EvRequest axiosWithAuth req;
     match reply with
     | Ok _ => EvDispatch receiveDeleteApp
     | Throws e => app_error DeleteError e end] [].
Proof using.
  intros req reply. unfold deleteApp, App_delete. subst reply req.
  destruct purge; rewrite ?str_app_nil_r; perform.
Qed.

(** What a deployment does from the moment its request is made, or cannot be. *)
Definition deploy_events (check : outcome unit) (body : outcome json) (req : json → request)
    (reply : request → outcome json) (done : action) (failed : err_class)
    : outcome bool * list event :=
  match check, body with
  | Throws e, _ | Ok _, Throws e => (Ok false, [app_error failed e])
  | Ok _, Ok b =>
    match reply (req b) with
    | Ok _ => (Ok true, [EvRequest axiosWithAuth (req b); EvDispatch done])
    | Throws e => (Ok false, [EvRequest axiosWithAuth (req b); app_error failed e])
    end
  end.

Lemma deployChart_performs E cluster ns cv chartNs release values schema m :
  let '(r, tr) :=
    deploy_events (check_values values schema) (release_body chartNs release cv values)
      (post_request (kubeops_releases_list cluster ns))
      (λ req, env_reply E (m_ticks m) axiosWithAuth req T_json) receiveDeployApp CreateError in
  performs boot E (deployChart cluster ns cv chartNs release values schema) m r
    (EvDispatch requestDeployApp :: tr) [].
Proof using.
  unfold deployChart, App_create, deploy_events.
  destruct (check_values values schema) as [[]|e1],
    (release_body chartNs release cv values) as [b|e2]; perform.
Qed.

Lemma upgradeApp_performs E cluster ns cv chartNs release values schema m :
  let '(r, tr) :=
    deploy_events (check_values values schema) (release_body chartNs release cv values)
      (put_request (kubeops_releases_get cluster ns release))
      (λ req, env_reply E (m_ticks m) axiosWithAuth req T_json) receiveUpgradeApp UpgradeError in
  performs boot E (upgradeApp cluster ns cv chartNs release values schema) m r
    (EvDispatch requestUpgradeApp :: tr) [].
Proof using.
  unfold upgradeApp, App_upgrade, deploy_events.
  destruct (check_values values schema) as [[]|e1],
    (release_body chartNs release cv values) as [b|e2]; perform.
Qed.

Lemma rollbackApp_fails E cluster ns release revision m e :
  let req := mkRequest PUT (kubeops_releases_get cluster ns release) (JObj [])
    [("action", JStr "rollback"); ("revision", JNum revision)] [] in
  env_reply E (m_ticks m) axiosWithAuth req T_json = Throws e →
  performs boot E (rollbackApp cluster ns release revision) m (Ok false)
    [EvDispatch requestRollbackApp; EvRequest axiosWithAuth req; app_error RollbackError e] [].
Proof using.
  intros req Hr. unfold rollbackApp, App_rollback. fold req.
  unfold performs. run_steps. read_machine. rewrite Hr. run_reduce. perform.
Qed.

(** *** What a deployment promises *)

(** The address of the releases of a namespace. *)
Definition releases_url (cluster ns : string) : string :=
  "api/kubeops/v1/clusters/" +:+ cluster +:+ "/namespaces/" +:+ ns +:+ "/releases".

(** A request that carries the chart, by its decoded name, and the values of a release. *)
Record release_request (method : http_method) (url : string) (cv : IChartVersion)
    (chartNs release chartName : string) (values : option string) (req : request) : Prop := {
  rr_method : req_method req = method;
  rr_url : req_url req = url;
  rr_repo : jget (req_body req) "appRepositoryResourceName" =
    JStr (IRepo_name (IChartAttributes_repo (IChartVersion_relationships_chart_data cv)));
  rr_repoNamespace : jget (req_body req) "appRepositoryResourceNamespace" = JStr chartNs;
  rr_chart : jget (req_body req) "chartName" = JStr chartName;
  rr_release : jget (req_body req) "releaseName" = JStr release;
  rr_version : jget (req_body req) "version" =
    JStr (IChartVersionAttributes_version (IChartVersion_attributes cv));
  rr_values : jget (req_body req) "values" =
    match values with Some v => JStr v | None => JUndefined end;
}.

(** Whether a release is deployed, and the events from the moment it can be: values that the
    schema refuses and a name that does not decode are reported and nothing is asked; otherwise
    there is one request, and what becomes of it is reported. *)
Inductive deployment (E : env) (n : nat) (method : http_method) (url : string) (cv : IChartVersion)
    (chartNs release : string) (values : option string) (schema : option json)
    (done : action) (failed : err_class) : bool → list event → Prop :=
| values_not_accepted e :
  values_verdict values schema (Throws e) →
  deployment E n method url cv chartNs release values schema done failed false
    [EvDispatch (errorApp {| constructor := failed; message := message e |})]
| name_not_decoded e :
  values_verdict values schema (Ok ()) →
  decodeURIComponent (IChartAttributes_name (IChartVersion_relationships_chart_data cv)) = Throws e →
  deployment E n method url cv chartNs release values schema done failed false
    [EvDispatch (errorApp {| constructor := failed; message := message e |})]
| request_accepted chartName req d :
  values_verdict values schema (Ok ()) →
  decodeURIComponent (IChartAttributes_name (IChartVersion_relationships_chart_data cv)) = Ok chartName →
  release_request method url cv chartNs release chartName values req →
  env_reply E n axiosWithAuth req T_json = Ok d →
  deployment E n method url cv chartNs release values schema done failed true
    [EvRequest axiosWithAuth req; EvDispatch done]
| request_refused chartName req e :
  values_verdict values schema (Ok ()) →
  decodeURIComponent (IChartAttributes_name (IChartVersion_relationships_chart_data cv)) = Ok chartName →
  release_request method url cv chartNs release chartName values req →
  env_reply E n axiosWithAuth req T_json = Throws e →
  deployment E n method url cv chartNs release values schema done failed false
    [EvRequest axiosWithAuth req;
     EvDispatch (errorApp {| constructor := failed; message := message e |})].

Lemma deploy_events_deployment E n method (send : json → request) url cv chartNs release values schema
    done failed :
  (∀ body, req_method (send body) = method ∧ req_url (send body) = url ∧ req_body (send body) = body) →
  ∃ b tr,
    deploy_events (check_values values schema) (release_body chartNs release cv values) send
      (λ req, env_reply E n axiosWithAuth req T_json) done failed = (Ok b, tr) ∧
    deployment E n method url cv chartNs release values schema done failed b tr.
Proof using.
  intros Hsend. pose proof (check_values_verdict values schema) as Hv. unfold deploy_events.
  destruct (check_values values schema) as [[]|e];
    [|do 2 eexists; split; [reflexivity|by apply values_not_accepted]].
  unfold release_body.
  destruct (decodeURIComponent _) as [chartName|e] eqn:Hname; cbn [mbind outcome_bind];
    [|do 2 eexists; split; [reflexivity|by apply name_not_decoded]].
  set (body := JObj _). destruct (Hsend body) as (Hm & Hu & Hb).
  assert (release_request method url cv chartNs release chartName values (send body)) as Hreq.
  { split; try done; by rewrite Hb. }
  destruct (env_reply E n axiosWithAuth (send body) T_json) as [d|e] eqn:Hreply;
    (do 2 eexists; split; [reflexivity|]).
  - by eapply request_accepted.
  - by eapply request_refused.
Qed.

Lemma deployChart_deployment E cluster ns cv chartNs release values schema m :
  ∃ b tr,
    performs boot E (deployChart cluster ns cv chartNs release values schema) m (Ok b)
      (EvDispatch requestDeployApp :: tr) [] ∧
    deployment E (m_ticks m) POST (releases_url cluster ns) cv chartNs release values schema
      receiveDeployApp CreateError b tr.
Proof using.
  pose proof (deployChart_performs E cluster ns cv chartNs release values schema m) as Hp.
  destruct (deploy_events_deployment E (m_ticks m) POST (post_request (kubeops_releases_list cluster ns))
    (releases_url cluster ns) cv chartNs release values schema receiveDeployApp CreateError)
    as (b & tr & Heq & Hd); [by intros body|]. rewrite Heq in Hp. by exists b, tr.
Qed.

Lemma upgradeApp_deployment E cluster ns cv chartNs release values schema m :
  ∃ b tr,
    performs boot E (upgradeApp cluster ns cv chartNs release values schema) m (Ok b)
      (EvDispatch requestUpgradeApp :: tr) [] ∧
    deployment E (m_ticks m) PUT (releases_url cluster ns +:+ "/" +:+ release) cv chartNs release values
      schema receiveUpgradeApp UpgradeError b tr.
Proof using.
  pose proof (upgradeApp_performs E cluster ns cv chartNs release values schema m) as Hp.
  destruct (deploy_events_deployment E (m_ticks m) PUT (put_request (kubeops_releases_get cluster ns release))
    (releases_url cluster ns +:+ "/" +:+ release) cv chartNs release values schema receiveUpgradeApp
    UpgradeError) as (b & tr & Heq & Hd); [by intros body|]. rewrite Heq in Hp. by exists b, tr.
Qed.

(** C4: Deploying and upgrading a chart.  Values that are checked against a schema and do not match
    it (or cannot be read), and a chart name that does not decode, are reported as a [CreateError]
    (an [UpgradeError]) with the list of what does not match, and nothing is sent; otherwise exactly
    one request is sent, a POST to the releases of the namespace (a PUT to the release), with the
    decoded name of the chart, its version and repository, the release and the given values; the
    result is [true] exactly when the request succeeds, and its failure is reported. *)
Theorem deploy_and_upgrade_perform E cluster ns cv chartNs release values schema m :
  (∃ deployed tr,
     deployment E (m_ticks m) POST (releases_url cluster ns) cv chartNs release values schema
       receiveDeployApp CreateError deployed tr ∧
     performs boot E (deployChart cluster ns cv chartNs release values schema) m (Ok deployed)
       (EvDispatch requestDeployApp :: tr) []) ∧
  (∃ upgraded tr,
     deployment E (m_ticks m) PUT (releases_url cluster ns +:+ "/" +:+ release) cv chartNs release
       values schema receiveUpgradeApp UpgradeError upgraded tr ∧
     performs boot E (upgradeApp cluster ns cv chartNs release values schema) m (Ok upgraded)
       (EvDispatch requestUpgradeApp :: tr) []).
Proof using.
  split; [destruct (deployChart_deployment E cluster ns cv chartNs release values schema m)
      as (b & tr & Hp & Hd)
    |destruct (upgradeApp_deployment E cluster ns cv chartNs release values schema m)
      as (b & tr & Hp & Hd)]; by exists b, tr.
Qed.

(** ** The update information *)

(** The update information names the lowest version among the charts that were found,
    although it is meant for the latest: the charts are sorted in ascending order and the
    first one is taken, whatever the order of the answer; the application is up to date
    when its version is not below that one. *)
Theorem updateInfo_lowest_version currentVersion chartsInfo :
  chartsInfo ≠ [] → semver_valid currentVersion →
  Forall (λ c, Is_true (semver_valid (chart_version c))) chartsInfo →
  ∃ info c z, updateInfo_of currentVersion chartsInfo = Ok info ∧ c ∈ chartsInfo ∧
    IChartUpdateInfo_chartLatestVersion info = chart_version c ∧
    IChartUpdateInfo_repository info = IChartAttributes_repo (IChart_attributes c) ∧
    (∀ d, d ∈ chartsInfo → d = c ∨
       ∃ k, semver_compare (chart_version c) (chart_version d) = Ok k ∧ (k <= 0)%Z) ∧
    semver_compare currentVersion (chart_version c) = Ok z ∧
    IChartUpdateInfo_upToDate info = (0 <=? z)%Z ∧ IChartUpdateInfo_error info = None.
Proof using.
  intros Hne Hcur Hall. unfold updateInfo_of.
  rewrite bool_decide_true by (destruct chartsInfo; simpl; [done|lia]).
  assert (total_cmp compare_charts (λ c, Is_true (semver_valid (chart_version c)))) as Htot.
  { destruct semver_total as [H1' H2' H3']. constructor; unfold compare_charts; eauto. }
  destruct (sort_by_total _ _ Htot _ Hall) as (l & Hl & Hs & Hp).
  rewrite Hl. simpl. destruct l as [|c l].
  { apply Permutation_nil in Hp. done. }
  simpl. assert (c ∈ chartsInfo) as Hc by (rewrite <-Hp; left).
  rewrite Forall_forall in Hall.
  destruct (total_cmp_ok _ _ semver_total _ _ Hcur (Hall c Hc)) as [z Hz].
  unfold semver_gte. rewrite Hz. simpl. eexists _, c, z.
  split_and!; try done. intros d Hd. rewrite <-Hp in Hd.
  apply elem_of_cons in Hd as [->|Hd]; [by left|right].
  apply StronglySorted_inv in Hs as [_ Hs]. rewrite Forall_forall in Hs. by apply Hs.
Qed.

(** What is dispatched when the charts are known, or could not be listed. *)
Definition update_received (releaseName currentVersion : string)
    (reply : outcome (denote T_charts)) : event :=
  EvDispatch (receiveAppUpdateInfo releaseName
    match reply with
    | Ok charts =>
      match updateInfo_of currentVersion (data charts) with
      | Ok info => info
      | Throws e => updateInfo_error e
      end
    | Throws e => updateInfo_error e
    end).

(** The rest of a started [getAppUpdateInfo]: one action, once its request is answered. *)
Definition reports_update (releaseName currentVersion : string) (req : request)
    (q : prog unit) : Prop :=
  ∀ E m, performs boot E q m (Ok ())
    [update_received releaseName currentVersion (env_reply E (m_ticks m) axiosWithAuth req T_charts)]
    [].

Lemma fork_getAppUpdateInfo E c ns release chart v appv m :
  let req := get_request (listWithFilters_url c ns chart v appv) in
  ∃ q m', run boot E (fork (getAppUpdateInfo c ns release chart v appv)) m = (Ok (), m') ∧
    m_trace m' = m_trace m ++ [EvDispatch requestAppUpdateInfo; EvRequest axiosWithAuth req] ∧
    m_forked m' = m_forked m ++ [q] ∧ m_ticks m' = m_ticks m ∧
    reports_update release v req q.
Proof using.
  intros req. unfold getAppUpdateInfo, Chart_listWithFilters. fold req.
  autorewrite with run. eexists _, _. split; [done|]. run_reduce. read_machine.
  split_and!; try done. intros E' m'. unfold update_received.
  destruct (env_reply E' (m_ticks m') axiosWithAuth req T_charts) as [charts|e] eqn:Hr;
    unfold performs; run_steps; rewrite Hr; run_reduce; run_steps; read_machine.
  - destruct (updateInfo_of v (data charts)) as [info|e]; perform.
  - perform.
Qed.

(** C14: Listing the applications asks for the update of each of them, in their order and
    before anything else happens: one request per application is sent at once and each
    of the started thunks later reports, for its application, what its own answer says. *)
Theorem fetchAppsWithUpdateInfo_asks_each E cluster ns apps m :
  let req := get_request
    ((if truthy ns then kubeops_releases_list cluster ns else kubeops_releases_listAll cluster)
     +:+ "?statuses=all") in
  let version app := default "undefined" (IMetadata_version (IAppOverview_chartMetadata app)) in
  let asks app := get_request
    (listWithFilters_url cluster (IAppOverview_namespace app)
       (default "undefined" (IMetadata_name (IAppOverview_chartMetadata app))) (version app)
       (default "undefined" (IMetadata_appVersion (IAppOverview_chartMetadata app)))) in
  env_reply E (m_ticks m) axiosWithAuth req T_overviews = Ok (mkEnvelope (Some apps)) →
  ∃ qs,
    performs boot E (fetchAppsWithUpdateInfo cluster ns) m (Ok ())
      ([EvDispatch listApps; EvRequest axiosWithAuth req; EvDispatch (receiveAppList (Some apps))]
       ++ (apps ≫= λ app, [EvDispatch requestAppUpdateInfo; EvRequest axiosWithAuth (asks app)]))
      qs ∧
    Forall2 (λ app q, reports_update (IAppOverview_releaseName app) (version app) (asks app) q)
      apps qs.
Proof using.
  intros req version asks Hr.
  assert (∀ m0, ∃ qs m1,
    run boot E (for_each (λ app, fork (overview_updates cluster app)) apps) m0 = (Ok (), m1) ∧
    m_trace m1 = m_trace m0 ++
      (apps ≫= λ app, [EvDispatch requestAppUpdateInfo; EvRequest axiosWithAuth (asks app)]) ∧
    m_forked m1 = m_forked m0 ++ qs ∧
    Forall2 (λ app q, reports_update (IAppOverview_releaseName app) (version app) (asks app) q)
      apps qs) as Hloop.
  { clear Hr. induction apps as [|app apps IH]; intros m0.
    { exists [], m0. simpl. rewrite !app_nil_r. split_and!; [done..|constructor]. }
    destruct (fork_getAppUpdateInfo E cluster (IAppOverview_namespace app)
      (IAppOverview_releaseName app)
      (default "undefined" (IMetadata_name (IAppOverview_chartMetadata app))) (version app)
      (default "undefined" (IMetadata_appVersion (IAppOverview_chartMetadata app))) m0)
      as (q & m1 & Hrun & Htr & Hfk & _ & Hq).
    destruct (IH m1) as (qs & m2 & Hrun2 & Htr2 & Hfk2 & Hqs).
    change (run boot E (fork (overview_updates cluster app)) m0 = (Ok (), m1)) in Hrun.
    exists (q :: qs), m2. cbn [for_each]. rewrite run_bind, Hrun, Hrun2, Htr2, Hfk2, Htr, Hfk. simpl. rewrite <-!app_assoc.
    split_and!; [done..|by constructor]. }
  assert (performs boot E (fetchApps cluster (Some ns)) m (Ok (Some apps))
    [EvDispatch listApps; EvRequest axiosWithAuth req; EvDispatch (receiveAppList (Some apps))] [])
    as Hfetch.
  { unfold fetchApps, App_listApps. cbn [truthy_opt from_option id]. fold req.
    unfold performs. run_steps. read_machine. rewrite Hr. run_reduce. perform. }
  destruct (performs_run _ _ _ _ _ _ _ Hfetch) as (m1 & Hrun & Htr & Hfk).
  destruct (Hloop (do_tick boot E m1)) as (qs & m2 & Hrun2 & Htr2 & Hfk2 & Hqs).
  exists qs. split; [|done]. unfold performs, fetchAppsWithUpdateInfo.
  rewrite run_try, run_bind, run_await, Hrun. cbn [from_option id]. rewrite Hrun2. simpl.
  rewrite Htr2, Hfk2, do_tick_trace, do_tick_forked, Htr, Hfk, app_nil_r, <-app_assoc. done.
Qed.
End apps.
