(* ===== verification/DeploymentForm.v ===== *)
(** * The forms that install and upgrade a release

    The components of src/dashboard/src/components: [DeploymentForm], [UpgradeForm],
    [AppUpgrade], [DeploymentFormBody] and its [Subsection].  The local state of a component
    is a record; a handler and an effect are functions on it, with the properties of the
    component as arguments.  What a component displays is a value of an inductive type
    with one constructor for each early return and the main view.

    [compare] is fast-json-patch's. *)

From S2P Require Import Prelude.
From S2P Require Import Json.
From S2P Require Import JsonText.
From S2P Require Import Browser.
From S2P Require Import Types.
From S2P Require Import Url.
From S2P Require Import KubeRef.
From S2P Require Import Actions.
From S2P Require Import Store.
From S2P Require Import Thunk.
From S2P Require Import HelmServices.
From S2P Require Import Schema.
From S2P Require Import Values.
From S2P Require Import FormParams.
From S2P Require Import AppsActions.

Record Operation := mkOperation { op : string; op_path : string; op_value : json }.

Class JsonPatch := { compare : json → json → list Operation }.

(** ** The event of an input (src/dashboard/src/shared/utils.ts) *)

Record input_event := mkInputEvent { input_value : json; input_type : option string }.

(** [parseInt(text, 10)]; [None] is NaN. *)
Definition parseInt (text : string) : option Z :=
  let s := trim_left text in
  let '(negative, s) :=
    match s with
    | String a r =>
      if bool_decide (a = "-"%char) then (true, r)
      else if bool_decide (a = "+"%char) then (false, r) else (false, s)
    | EmptyString => (false, s)
    end in
  let digits := (span_digits s).1 in
  if truthy digits then
    Some (if (negative : bool) then - digits_value digits else digits_value digits)%Z
  else None.

(** NaN as a value: like every number written otherwise than as an integer, a literal. *)
Definition js_NaN : json := JFloat "NaN".

Definition getValueFromEvent (e : input_event) : json :=
  match input_type e with
  | Some "checkbox" => JBool (bool_decide (input_value e = JStr "true"))
  | Some "number" =>
    match input_value e with
    | JStr s => match parseInt s with Some n => JNum n | None => js_NaN end
    | JNum n => JNum n
    | _ => js_NaN
    end
  | _ => input_value e
  end.

Section forms.
Context `{YamlDocument} `{JsonPointer} `{LodashSet}.

(** ** DeploymentFormBody *)

Record form_body := mkFormBody {
  basicFormParameters : list IBasicFormParam;
  restoreModalIsOpen : bool;
  defaultValues : string;
}.
#[export] Instance eta_form_body : Eta form_body := λ b,
  mkFormBody (basicFormParameters b) (restoreModalIsOpen b) (defaultValues b).

Definition form_body_init : form_body := mkFormBody [] false "".

(** What the form around the body keeps: the text of the values and whether the user has
    changed it. *)
Record form_values := mkFormValues { appValues : string; valuesModified : bool }.
#[export] Instance eta_form_values : Eta form_values := λ v,
  mkFormValues (appValues v) (valuesModified v).

Section body.
Context (isEqual : list IBasicFormParam → list IBasicFormParam → bool).
Context (selected : IChartState_selected_t).

Definition params_effect (v : form_values) (b : form_body) : outcome form_body :=
  params ← retrieveBasicFormParams (appValues v) (selected_schema selected) None;
  Ok (if isEqual params (basicFormParameters b) then b
      else b <| basicFormParameters := params |>).

Definition defaults_effect (b : form_body) : form_body :=
  b <| defaultValues := or_opt_str (selected_values selected) "" |>.

Definition body_handleValuesChange (value : string) (v : form_values) : form_values :=
  v <| appValues := value |> <| valuesModified := true |>.

Definition refreshBasicParameters (v : form_values) (b : form_body) : outcome form_body :=
  params ← retrieveBasicFormParams (appValues v) (selected_schema selected) None;
  Ok (b <| basicFormParameters := params |>).

(** The handler of a parameter: the defaults are printed again when it is made, the rest
    runs when the input changes. *)
Definition handleBasicFormParamChange (param : IBasicFormParam) (e : input_event)
    (v : form_values) (b : form_body) : outcome (form_values * form_body) :=
  parsedDefaultValues ← parseValues (defaultValues b);
  let v := v <| valuesModified := true |> in
  let b := if bool_decide (parsedDefaultValues ≠ defaultValues b)
           then b <| defaultValues := parsedDefaultValues |> else b in
  let value := getValueFromEvent e in
  let b := b <| basicFormParameters :=
    (λ p, if bool_decide (param_path p = param_path param)
          then with_value param (Plain value) else p) <$> basicFormParameters b |> in
  text ← setValue (appValues v) (param_path param) value;
  Ok (v <| appValues := text |>, b).

Definition shouldRenderBasicForm (b : form_body) : bool :=
  bool_decide (0 < length (basicFormParameters b)).

Definition restoreDefaultValues (v : form_values) (b : form_body)
    : outcome (form_values * form_body) :=
  match selected_values selected with
  | Some values =>
    if truthy values then
      params ← retrieveBasicFormParams values (selected_schema selected) None;
      Ok (v <| appValues := values |>,
          b <| basicFormParameters := params |> <| restoreModalIsOpen := false |>)
    else Ok (v, b <| restoreModalIsOpen := false |>)
  | None => Ok (v, b <| restoreModalIsOpen := false |>)
  end.

Inductive body_view :=
| BodyError (message : string)
| BodyLoading (loadingText : string)
| BodyTabs (tabs : list string) (deploy : string).

Definition body_display (chartID chartVersion : string) (chartsIsFetching : bool) (b : form_body)
    : body_view :=
  match selected_error selected with
  | Some e =>
    BodyError ("Unable to fetch chart " +:+ String quote (chartID +:+
      String quote (" (" +:+ chartVersion +:+ "): Got " +:+ message e)))
  | None =>
    match selected_version selected with
    | Some version =>
      if chartsIsFetching || bool_decide (selected_versions selected = [])
      then BodyLoading ("Fetching " +:+ chartID +:+ "...")
      else BodyTabs ((if shouldRenderBasicForm b then ["Form"] else []) ++ ["YAML"; "diff"])
             ("Deploy " +:+ IChartVersionAttributes_version (IChartVersion_attributes version))
    | None => BodyLoading ("Fetching " +:+ chartID +:+ "...")
    end
  end.
End body.

(** ** Subsection: the children of a parameter *)

(** The children are replaced in the parameter itself; the values change as text. *)
Definition handleChildrenParamChange (children : list IBasicFormParam)
    (childrenParam : IBasicFormParam) (e : input_event) (values : string)
    : outcome (list IBasicFormParam * string) :=
  let value := getValueFromEvent e in
  let children' :=
    (λ p, if bool_decide (param_path p = param_path childrenParam)
          then with_value childrenParam (Plain value) else p) <$> children in
  text ← setValue values (param_path childrenParam) value;
  Ok (children', text).

(** ** UpgradeForm *)

Definition apply_modification (values : string) (m : Operation) : outcome string :=
  if bool_decide (op m = "remove") then deleteValue values (op_path m)
  else setValue values (op_path m) (op_value m).

Fixpoint applyModifications (mods : list Operation) (values : string) : outcome string :=
  match mods with
  | [] => Ok values
  | m :: mods' => text ← apply_modification values m; applyModifications mods' text
  end.

Record upgrade_form := mkUpgradeForm {
  upgrade_values : form_values;
  upgrade_isDeploying : bool;
  modifications : option (list Operation);
  deployedValues : string;
}.
#[export] Instance eta_upgrade_form : Eta upgrade_form := λ f,
  mkUpgradeForm (upgrade_values f) (upgrade_isDeploying f) (modifications f) (deployedValues f).

Record upgrade_props := mkUpgradeProps {
  up_appCurrentValues : option string;
  up_chartName : string;
  up_namespace : string;
  up_cluster : string;
  up_releaseName : string;
  up_repo : string;
  up_repoNamespace : string;
  up_error : option js_error;
  up_selected : IChartState_selected_t;
  up_deployed : IChartState_deployed_t;
}.

Definition upgrade_init (p : upgrade_props) : upgrade_form :=
  mkUpgradeForm (mkFormValues (or_opt_str (up_appCurrentValues p) "") false) false None "".

Definition up_chartID (p : upgrade_props) : string := up_repo p +:+ "/" +:+ up_chartName p.

(** A text that counts as present in a condition. *)
Definition present (o : option string) : option string :=
  match o with Some s => if truthy s then Some s else None | None => None end.

Section upgrade.
Context `{Yaml} `{JsonPatch}.

(** The modifications the user made to the defaults of the deployed version. *)
Definition compute_modifications (p : upgrade_props) (f : upgrade_form) : outcome upgrade_form :=
  match present (deployed_values (up_deployed p)), modifications f with
  | Some values, None =>
    defaultValuesObj ← YAML_parse values;
    deployedValuesObj ← YAML_parse (or_opt_str (up_appCurrentValues p) "");
    let newModifications := compare defaultValuesObj deployedValuesObj in
    text ← applyModifications newModifications values;
    Ok (f <| modifications := Some newModifications |>
          <| upgrade_values := (upgrade_values f) <| appValues := text |> |>)
  | _, _ => Ok f
  end.

Definition compute_deployedValues (p : upgrade_props) (f : upgrade_form) : outcome upgrade_form :=
  match present (deployed_values (up_deployed p)) with
  | Some values =>
    text ← applyModifications (default [] (modifications f)) values;
    Ok (f <| deployedValues := text |>)
  | None => Ok f
  end.

(** The version asked for when the deployed one is known. *)
Definition upgrade_getChartVersion (p : upgrade_props) : option (string * string * string * string) :=
  match present ((λ v, IChartVersionAttributes_version (IChartVersion_attributes v))
                 <$> deployed_chartVersion (up_deployed p)) with
  | Some version => Some (up_cluster p, up_repoNamespace p, up_chartID p, version)
  | None => None
  end.

Definition apply_to_selected (p : upgrade_props) (f : upgrade_form) : outcome upgrade_form :=
  match present (selected_values (up_selected p)) with
  | Some values =>
    if negb (valuesModified (upgrade_values f)) then
      newAppValues ← match modifications f with
                     | Some (m :: ms) => applyModifications (m :: ms) values
                     | _ => Ok values
                     end;
      Ok (f <| upgrade_values := (upgrade_values f) <| appValues := newAppValues |> |>)
    else Ok f
  | None => Ok f
  end.

Inductive upgrade_view :=
| UpgradeLoading (loadingText : string)
| UpgradeMain (error : option string) (deploying : bool) (selectedVersion : string).

Definition upgrade_display (p : upgrade_props) (f : upgrade_form) : upgrade_view :=
  match selected_versions (up_selected p), selected_version (up_selected p) with
  | _ :: _, Some version =>
    UpgradeMain (message <$> up_error p) (upgrade_isDeploying f)
      (IChartVersionAttributes_version (IChartVersion_attributes version))
  | _, _ => UpgradeLoading ("Fetching " +:+ up_chartName p +:+ "...")
  end.
End upgrade.

(** ** DeploymentForm *)

Record deployment_form := mkDeploymentForm {
  isDeploying : bool;
  releaseName : string;
  deployment_values : form_values;
}.
#[export] Instance eta_deployment_form : Eta deployment_form := λ f,
  mkDeploymentForm (isDeploying f) (releaseName f) (deployment_values f).

Definition deployment_init (selected : IChartState_selected_t) : deployment_form :=
  mkDeploymentForm false "" (mkFormValues (or_opt_str (selected_values selected) "") false).

Definition selected_values_effect (selected : IChartState_selected_t) (f : deployment_form)
    : deployment_form :=
  if negb (valuesModified (deployment_values f)) then
    f <| deployment_values :=
          (deployment_values f) <| appValues := or_opt_str (selected_values selected) "" |> |>
  else f.

Definition handleReleaseNameChange (value : string) (f : deployment_form) : deployment_form :=
  f <| releaseName := value |>.

Inductive deployment_view :=
| DeploymentError (message : string)
| DeploymentLoading (loadingText : string)
| DeploymentMain (error : option string) (deploying : bool).

Definition deployment_display (error : option js_error) (selected : IChartState_selected_t)
    (chartID : string) (f : deployment_form) : deployment_view :=
  let main :=
    match selected_version selected with
    | None => DeploymentLoading ("Fetching " +:+ chartID +:+ "...")
    | Some _ => DeploymentMain (message <$> error) (isDeploying f)
    end in
  match error with
  | Some e =>
    if bool_decide (constructor e = FetchError)
    then DeploymentError ("Unable to retrieve the current app: " +:+ message e)
    else main
  | None => main
  end.

(** ** AppUpgrade *)

Inductive app_upgrade_view :=
| AppUpgradeError (message : string)
| AppUpgradeLoading (loadingText : string)
| AppUpgradeForm (appCurrentVersion : option string) (props : upgrade_props)
| AppUpgradeSelectRepo (chartName : option string).

(** The deployed version that is asked for. *)
Definition getDeployedChartVersion_args (app : option IRelease) (cluster : string)
    (repoName repoNamespace : option string) : option (string * string * string * string) :=
  repo ← present repoName; ns ← present repoNamespace;
  app ← app; chart ← IRelease_chart app; md ← IChart_metadata chart;
  name ← present (IMetadata_name md); version ← present (IMetadata_version md);
  Some (cluster, ns, repo +:+ "/" +:+ name, version).

Definition app_upgrade_display (app : option IRelease) (appsIsFetching : bool)
    (error : option js_error) (namespace cluster release : string)
    (repoName repoNamespace : option string)
    (selected : IChartState_selected_t) (deployed : IChartState_deployed_t) : app_upgrade_view :=
  let main :=
    match app with
    | Some a =>
      match IRelease_updateInfo a with
      | Some u =>
        if appsIsFetching then AppUpgradeLoading ("Fetching " +:+ release +:+ "...")
        else
          let appRepoName := or_opt_str repoName (IRepo_name (IChartUpdateInfo_repository u)) in
          let repoNS := or_opt_str repoNamespace (IRepo_namespace (IChartUpdateInfo_repository u)) in
          let metadata := IRelease_chart a ≫= IChart_metadata in
          match metadata with
          | Some md =>
            if truthy appRepoName then
              AppUpgradeForm (IMetadata_version md)
                {| up_appCurrentValues := Some (or_opt_str (IRelease_config_raw a) "");
                   up_chartName := default "undefined" (IMetadata_name md);
                   up_namespace := namespace; up_cluster := cluster; up_releaseName := release;
                   up_repo := appRepoName; up_repoNamespace := repoNS; up_error := error;
                   up_selected := selected; up_deployed := deployed |}
            else AppUpgradeSelectRepo (IMetadata_name md)
          | None => AppUpgradeSelectRepo None
          end
      | None => AppUpgradeLoading ("Fetching " +:+ release +:+ "...")
      end
    | None => AppUpgradeLoading ("Fetching " +:+ release +:+ "...")
    end in
  match error with
  | Some e =>
    if bool_decide (constructor e = FetchError)
    then AppUpgradeError ("Unable to retrieve the current app: " +:+ message e)
    else main
  | None => main
  end.
End forms.

(** ** Submitting a form *)

Section submit.
Context `{Lodash} `{Jwt} `{Location} `{Router} `{Yaml} `{Ajv} `{Semver} (boot : browser).

(** What a submit leaves: whether the form still says that it is deploying, and the
    location it moves to. *)
Record submitted := mkSubmitted { still_deploying : bool; pushed : option string }.

Definition after_deploy (cluster namespace release : string) (deployed : bool) : submitted :=
  mkSubmitted false (if deployed then Some (app_apps_get cluster namespace release) else None).

Definition deployment_handleDeploy (cluster namespace chartNamespace : string)
    (selected : IChartState_selected_t) (f : deployment_form) : prog submitted :=
  match selected_version selected with
  | Some version =>
    deployed ← await (deployChart cluster namespace version chartNamespace (releaseName f)
                        (Some (appValues (deployment_values f))) (selected_schema selected));
    mret (after_deploy cluster namespace (releaseName f) deployed)
  | None => mret (mkSubmitted true None)
  end.

Definition upgrade_handleDeploy (p : upgrade_props) (f : upgrade_form) : prog submitted :=
  match selected_version (up_selected p) with
  | Some version =>
    deployedSuccess ← await (upgradeApp (up_cluster p) (up_namespace p) version
                               (up_repoNamespace p) (up_releaseName p)
                               (Some (appValues (upgrade_values f)))
                               (selected_schema (up_selected p)));
    mret (after_deploy (up_cluster p) (up_namespace p) (up_releaseName p) deployedSuccess)
  | None => mret (mkSubmitted true None)
  end.

(** C37: Submitting the form of a new release, and of an upgrade, deploys the chosen version with the
    values of the form (by the rules of [AppsActions.deployment]: values that do not match the schema
    are held back, otherwise there is one request) and waits for the outcome; when it was accepted
    the browser moves to the page of the release, and when it was not the form is shown again, no
    longer deploying, with the error in the store. *)
Theorem submit_deploys E cluster ns chartNs selected f p g version version' m :
  selected_version selected = Some version → selected_version (up_selected p) = Some version' →
  (∃ deployed tr s,
     deployment E (m_ticks m) POST (releases_url cluster ns) version chartNs (releaseName f)
       (Some (appValues (deployment_values f))) (selected_schema selected)
       receiveDeployApp CreateError deployed tr ∧
     performs boot E (deployment_handleDeploy cluster ns chartNs selected f) m (Ok s)
       (EvDispatch requestDeployApp :: tr) [] ∧
     still_deploying s = false ∧
     (deployed = true →
        pushed s = Some ("/c/" +:+ cluster +:+ "/ns/" +:+ ns +:+ "/apps/" +:+ releaseName f)) ∧
     (deployed = false → pushed s = None)) ∧
  (∃ upgraded tr s,
     deployment E (m_ticks m) PUT
       (releases_url (up_cluster p) (up_namespace p) +:+ "/" +:+ up_releaseName p) version'
       (up_repoNamespace p) (up_releaseName p)
       (Some (appValues (upgrade_values g))) (selected_schema (up_selected p))
       receiveUpgradeApp UpgradeError upgraded tr ∧
     performs boot E (upgrade_handleDeploy p g) m (Ok s) (EvDispatch requestUpgradeApp :: tr) [] ∧
     still_deploying s = false ∧
     (upgraded = true →
        pushed s =
          Some ("/c/" +:+ up_cluster p +:+ "/ns/" +:+ up_namespace p +:+ "/apps/" +:+ up_releaseName p)) ∧
     (upgraded = false → pushed s = None)).
Proof using.
  intros Hv Hv'. unfold deployment_handleDeploy, upgrade_handleDeploy. rewrite Hv, Hv'. split.
  - destruct (deployChart_deployment boot E cluster ns version chartNs (releaseName f)
      (Some (appValues (deployment_values f))) (selected_schema selected) m) as (b & tr & Hp & Hd).
    do 3 eexists. split; [exact Hd|]. split; [by apply performs_then|].
    split; [done|]. destruct b; split; try done. intros _. unfold after_deploy, app_apps_get, app_apps_list.
    cbn [pushed]. f_equal. by str_norm.
  - destruct (upgradeApp_deployment boot E (up_cluster p) (up_namespace p) version'
      (up_repoNamespace p) (up_releaseName p) (Some (appValues (upgrade_values g)))
      (selected_schema (up_selected p)) m) as (b & tr & Hp & Hd).
    do 3 eexists. split; [exact Hd|]. split; [by apply performs_then|].
    split; [done|]. destruct b; split; try done. intros _. unfold after_deploy, app_apps_get, app_apps_list.
    cbn [pushed]. f_equal. by str_norm.
Qed.
End submit.

(** ** The modifications as a JSON patch *)
Section patch.
Context `{YamlDocument} `{JsonPointer} `{LodashSet}.





End patch.

(** ** The user's edits *)
Section edits.
Context `{YamlDocument} `{JsonPointer} `{LodashSet} `{Yaml} `{JsonPatch}.

(** What happens to an upgrade form besides the user's edits: its properties change, and
    an effect runs. *)
Inductive quiet_step : upgrade_props * upgrade_form → upgrade_props * upgrade_form → Prop :=
| quiet_props p p' f : quiet_step (p, f) (p', f)
| quiet_compute p f f' : compute_modifications p f = Ok f' → quiet_step (p, f) (p, f')
| quiet_deployed p f f' : compute_deployedValues p f = Ok f' → quiet_step (p, f) (p, f')
| quiet_selected p f f' : apply_to_selected p f = Ok f' → quiet_step (p, f) (p, f').

(** C12: The modifications are computed once, and from then on what the user has written
    stays: no effect and no change of the properties, a newly selected version included,
    touches the text. *)
Theorem upgrade_keeps_edits s s' mods :
  rtc quiet_step s s' → modifications s.2 = Some mods →
  modifications s'.2 = Some mods ∧
  (valuesModified (upgrade_values s.2) → upgrade_values s'.2 = upgrade_values s.2).
Proof.
  intros Hsteps. induction Hsteps as [s|s1 s2 s3 Hstep _ IH]; intros Hm; [done|].
  assert (modifications s2.2 = Some mods ∧
    (valuesModified (upgrade_values s1.2) → upgrade_values s2.2 = upgrade_values s1.2)) as [Hm2 Hv2].
  { inversion Hstep as [p p' f|p f f' He|p f f' He|p f f' He]; subst; cbn [snd] in *; [done| | |].
    - unfold compute_modifications in He. rewrite Hm in He.
      destruct (present _); by simplify_eq.
    - unfold compute_deployedValues in He. destruct (present _); [|by simplify_eq].
      destruct (applyModifications _ _); by simplify_eq/=.
    - unfold apply_to_selected in He. destruct (present _); [|by simplify_eq].
      destruct (valuesModified (upgrade_values f)) eqn:Hmod; simpl in He; [by simplify_eq|].
      split; [|by intros []].
      destruct (match modifications f with Some (_ :: _) => _ | _ => _ end); by simplify_eq/=. }
  destruct (IH Hm2) as [Hm3 Hv3]. split; [done|]. intros Hmod.
  rewrite <- (Hv2 Hmod). apply Hv3. by rewrite Hv2.
Qed.

(** The list of parameters settles after one run of its effect. *)
Theorem params_effect_settles (isEqual : _ → _ → bool) selected v b b' :
  (∀ l, isEqual l l) → params_effect isEqual selected v b = Ok b' →
  params_effect isEqual selected v b' = Ok b'.
Proof.
  intros Heq. unfold params_effect.
  destruct (retrieveBasicFormParams _ _ _) as [params|]; [|done]. cbn [mbind outcome_bind].
  destruct (isEqual params (basicFormParameters b)) eqn:Hb; intros [= <-]; rewrite ?Hb; [done|].
  cbn. by destruct (isEqual params params) eqn:Hp; [|specialize (Heq params); rewrite Hp in Heq].
Qed.
End edits.
