(* ===== verification/ParamInputs.v ===== *)
(** * The inputs of the parameters of the form of a chart

    The controls of src/dashboard/src/components/DeploymentFormBody/BasicDeploymentForm:
    [BooleanParam], [SliderParam] and [TextParam].  Each turns what the user does into the
    event [handleBasicFormParamChange] reads.  [TextParam] waits until the user has stopped
    typing: the handler it runs 500 ms later is the one of the moment of the typing, with
    the values of that moment.

    The page is the state of the form with the timers that are pending, in the order in
    which they fire (all have the same delay).  An exception of a handler is reported by
    the browser and undoes nothing. *)

From S2P Require Import Prelude.
From S2P Require Import Json.
From S2P Require Import JsonText.
From S2P Require Import Browser.
From S2P Require Import Types.
From S2P Require Import Actions.
From S2P Require Import Values.
From S2P Require Import FormParams.
From S2P Require Import DeploymentForm.

(** ** Events *)

(** The switch makes the event of a checkbox. *)
Definition switch_event (checked : bool) : input_event :=
  {| input_value := JStr (bool_toString checked); input_type := Some "checkbox" |}.

(** [value.replace(/[^\d.]/g, "")]. *)
Fixpoint digits_and_dots (s : string) : string :=
  match s with
  | EmptyString => ""
  | String a s' =>
    if is_digit a || bool_decide (a = "."%char) then String a (digits_and_dots s')
    else digits_and_dots s'
  end.

Fixpoint drop_zeros (s : string) : string :=
  match s with
  | EmptyString => ""
  | String a s' =>
    let r := drop_zeros s' in
    if bool_decide (a = "0"%char) && bool_decide (r = "") then "" else String a r
  end.

(** [Number(s)] on digits and dots; a number that is not an integer is a literal. *)
Definition Number_plain (s : string) : json :=
  match split_on "." s with
  | [i] => JNum (digits_value i)
  | [i; f] =>
    if truthy i || truthy f then
      if truthy (drop_zeros f) then JFloat (print_Z (digits_value i) +:+ "." +:+ drop_zeros f)
      else JNum (digits_value i)
    else js_NaN
  | _ => js_NaN
  end.

Definition toNumber (value : json) : outcome json :=
  match value with
  | JNum _ | JFloat _ => Ok value
  | JStr s => Ok (Number_plain (digits_and_dots s))
  | JUndefined | JNull => Throws (undefined_access "replace")
  | _ => Throws (not_a_function "value.replace")
  end.

Section inputs.
Context `{YamlDocument} `{JsonPointer} `{LodashSet}.

Definition getDefaultValue (min : json) (value : any node) : outcome json :=
  match value with
  | Plain j => if jtruthy j then n ← toNumber j; Ok (jor n min) else Ok min
  | Node _ => Throws (not_a_function "value.replace")
  end.

(** The bounds, the step and the unit [Param] gives the slider. *)
Definition slider_min (param : IBasicFormParam) : json :=
  jor (jget (param_fields param) "sliderMin") (JNum 1).
Definition slider_max (param : IBasicFormParam) : json :=
  jor (jget (param_fields param) "sliderMax") (JNum 1000).
Definition slider_step (param : IBasicFormParam) : json :=
  jor (jget (param_fields param) "sliderStep") (JNum 1).
Definition slider_unit (param : IBasicFormParam) : json :=
  jor (jget (param_fields param) "sliderUnit") (JStr "").

(** [handleParamChange] of the slider: the event has no type. *)
Definition slider_event (param : IBasicFormParam) (newValue : json) : input_event :=
  {| input_value :=
       if bool_decide (param_type param = JStr "string")
       then JStr (jtext newValue +:+ jtext (slider_unit param)) else newValue;
     input_type := None |}.

(** [onChangeInput]: the text field next to the slider. *)
Definition slider_input_event (param : IBasicFormParam) (text : string) : input_event :=
  slider_event param (Number_plain (digits_and_dots text)).

(** ** TextParam *)

Record text_param := mkTextParam { text_value : any node; valueModified : bool }.

Definition text_init (param : IBasicFormParam) : text_param :=
  mkTextParam
    (match param_value param with
     | Plain j => if jtruthy j then Plain j else Plain (JStr "")
     | Node n => Node n
     end) false.

(** [isNumber(value) || !isEmpty(value)]; a node has properties of its own. *)
Definition has_text (value : any node) : bool :=
  match value with
  | Plain (JNum _ | JFloat _) | Node _ => true
  | Plain (JStr s) => truthy s
  | Plain (JArr l) => bool_decide (l ≠ [])
  | Plain (JObj fs) => bool_decide (fs ≠ [])
  | Plain _ => false
  end.

Definition text_effect (param : IBasicFormParam) (t : text_param) : text_param :=
  if has_text (param_value param) && negb (valueModified t)
  then mkTextParam (param_value param) (valueModified t) else t.

Inductive text_view :=
| TextInput (type : string)
| TextArea
| SelectInput (options : list string).
#[export] Instance text_view_eq_dec : EqDecision text_view.
Proof. solve_decision. Defined.

Definition text_display (param : IBasicFormParam) (inputType : string) : text_view :=
  if bool_decide (inputType = "textarea") then TextArea
  else
    match param_enum param with
    | Some (e :: es) => SelectInput (e :: es)
    | _ => TextInput (if truthy inputType then inputType else "text")
    end.

(** The type the browser says an element has: an unknown type of an [input] is a text. *)
Definition dom_type (v : text_view) : string :=
  match v with
  | TextInput type => if decide (type ∈ ["text"; "number"; "password"]) then type else "text"
  | TextArea => "textarea"
  | SelectInput _ => "select-one"
  end.

Definition text_event (param : IBasicFormParam) (inputType text : string) : input_event :=
  {| input_value := JStr text; input_type := Some (dom_type (text_display param inputType)) |}.

(** ** The page *)

Record pending := mkPending {
  pd_id : string;
  pd_param : IBasicFormParam;
  pd_event : input_event;
  pd_values : form_values;
  pd_body : form_body;
}.

Record page := mkPage {
  pg_values : form_values;
  pg_body : form_body;
  pg_timers : list pending;
}.

(** The handler that was made with the values [v] and the body [b] runs on the page. *)
Definition run_handler (param : IBasicFormParam) (e : input_event) (v : form_values)
    (b : form_body) (pg : page) : page :=
  match parseValues (defaultValues b) with
  | Throws _ => pg
  | Ok parsedDefaultValues =>
    let now_v := (pg_values pg) <| valuesModified := true |> in
    let now_b := if bool_decide (parsedDefaultValues ≠ defaultValues b)
                 then (pg_body pg) <| defaultValues := parsedDefaultValues |> else pg_body pg in
    let value := getValueFromEvent e in
    let now_b := now_b <| basicFormParameters :=
      (λ p, if bool_decide (param_path p = param_path param)
            then with_value param (Plain value) else p) <$> basicFormParameters b |> in
    let now_v := match setValue (appValues v) (param_path param) value with
                 | Ok text => now_v <| appValues := text |>
                 | Throws _ => now_v
                 end in
    mkPage now_v now_b (pg_timers pg)
  end.

(** A switch, a slider or a select runs the handler at once. *)
Definition change_now (param : IBasicFormParam) (e : input_event) (pg : page) : page :=
  run_handler param e (pg_values pg) (pg_body pg) pg.

(** [onChange] of a text: the timer of this input starts again, with the handler of now. *)
Definition text_onChange (id : string) (param : IBasicFormParam) (e : input_event) (pg : page)
    : page :=
  let others := filter (λ p, pd_id p ≠ id) (pg_timers pg) in
  match parseValues (defaultValues (pg_body pg)) with
  | Throws _ => mkPage (pg_values pg) (pg_body pg) others
  | Ok _ => mkPage (pg_values pg) (pg_body pg)
              (others ++ [mkPending id param e (pg_values pg) (pg_body pg)])
  end.

Definition fire (pg : page) : page :=
  match pg_timers pg with
  | [] => pg
  | p :: timers =>
    run_handler (pd_param p) (pd_event p) (pd_values p) (pd_body p)
      (mkPage (pg_values pg) (pg_body pg) timers)
  end.
End inputs.

(** ** The types of what is written *)

Definition is_number (j : json) : bool := match j with JNum _ | JFloat _ => true | _ => false end.

Lemma Number_plain_number s : is_number (Number_plain s).
Proof. unfold Number_plain. by repeat case_match. Qed.

Section input_facts.
Context `{YamlDocument} `{JsonPointer} `{LodashSet}.

(** What the user does: ticks or clears a switch, moves a slider to a number, or types (or
    chooses) a text. *)
Inductive user_input := Ticked (checked : bool) | Slid (n : json) | Typed (s : string).

(** What the control of a parameter makes of it. *)
Inductive control_event (param : IBasicFormParam) : control → user_input → input_event → Prop :=
| event_switch checked : control_event param BooleanParam (Ticked checked) (switch_event checked)
| event_slide n : is_number n → control_event param SliderParam (Slid n) (slider_event param n)
| event_slide_input s : control_event param SliderParam (Typed s) (slider_input_event param s)
| event_text inputType s :
  control_event param (TextParam inputType) (Typed s) (text_event param inputType s).

(** The unit of the schema, when it has one. *)
Definition unit_text (param : IBasicFormParam) : string :=
  let u := jget (param_fields param) "sliderUnit" in if jtruthy u then jtext u else "".

(** The number a typed text is read as: other characters than digits and dots do not count. *)
Definition reads_number (s : string) (n : json) : Prop :=
  is_number n ∧ ∀ k, digits_and_dots s = print_N k → n = JNum (Z.of_N k).

Lemma Number_plain_reads s : reads_number s (Number_plain (digits_and_dots s)).
Proof.
  split; [apply Number_plain_number|]. intros k ->. unfold Number_plain.
  rewrite split_on_lacks by (by apply print_N_lacks). by rewrite print_N_value.
Qed.

Lemma slider_unit_text param : jtext (slider_unit param) = unit_text param.
Proof. unfold slider_unit, unit_text, jor. by destruct (jtruthy _). Qed.

Lemma text_event_value param inputType s :
  getValueFromEvent (text_event param inputType s) =
  if bool_decide (text_display param inputType = TextInput "number")
  then match parseInt s with Some n => JNum n | None => js_NaN end else JStr s.
Proof.
  unfold getValueFromEvent, text_event. cbn [input_type input_value].
  destruct (text_display param inputType) as [ty| |opts]; [|done..]. cbn [dom_type].
  destruct (bool_decide_reflect (TextInput ty = TextInput "number")) as [[= ->]|Hne]; [done|].
  destruct (decide (ty ∈ ["text"; "number"; "password"])) as [Hin|]; [|done].
  rewrite !elem_of_cons in Hin. by destruct Hin as [->|[->|[->|[]%elem_of_nil]]].
Qed.

Lemma JStr_eqb a b : bool_decide (JStr a = JStr b) = bool_decide (a = b).
Proof. apply bool_decide_ext. naive_solver. Qed.

(** The control of a parameter with a type that is a text. *)
Lemma control_of_typed param t :
  param_type param = JStr t → jtruthy (jget (param_fields param) "customComponent") = false →
  let render := jget (param_fields param) "render" in
  control_of param =
  if bool_decide (t = "boolean") then BooleanParam
  else if bool_decide (t = "object") then Subsection
  else if bool_decide (render = JStr "slider") then SliderParam
  else if bool_decide (render = JStr "textArea") then TextParam "textarea"
  else TextParam
    (if bool_decide (t = "string") &&
        (bool_decide (render = JStr "password") ||
         includes "password" (toLowerCase (label_of param)))
     then "password" else if bool_decide (t = "integer") then "number" else "string").
Proof. intros Ht Hcc render. unfold control_of. by rewrite Ht, Hcc, !JStr_eqb. Qed.

Lemma slider_event_value param n :
  getValueFromEvent (slider_event param n) =
  if bool_decide (param_type param = JStr "string")
  then JStr (jtext n +:+ jtext (slider_unit param)) else n.
Proof. done. Qed.

(** C34: The control of a parameter writes a value of the type of the parameter: for a boolean, whether
    the switch is ticked; for a text, the text that was typed or chosen and, with a slider, the number
    it was moved to, or that was typed next to it, followed by the unit of the schema; a number for an
    integer that is not chosen from a list nor shown as a text area (with a slider, the number it was
    moved to), and for a [number] with a slider. *)
Theorem control_writes_type param t c i e :
  param_type param = JStr t → control_of param = c → control_event param c i e →
  let v := getValueFromEvent e in
  (t = "boolean" → ∃ b, i = Ticked b ∧ v = JBool b) ∧
  (t = "string" →
     match c, i with
     | SliderParam, Slid n => v = JStr (jtext n +:+ unit_text param)
     | SliderParam, Typed s => ∃ n, reads_number s n ∧ v = JStr (jtext n +:+ unit_text param)
     | _, Typed s => v = JStr s
     | _, _ => False
     end) ∧
  (t = "integer" → default [] (param_enum param) = [] →
   jget (param_fields param) "render" ≠ JStr "textArea" →
   is_number v ∧ (c = SliderParam → ∀ n, i = Slid n → v = n)) ∧
  (t = "number" → c = SliderParam → is_number v ∧ ∀ n, i = Slid n → v = n).
Proof.
  intros Ht <- He. destruct (jtruthy (jget (param_fields param) "customComponent")) eqn:Hcc.
  { unfold control_of in He. rewrite Hcc in He. inversion He. }
  rewrite (control_of_typed _ _ Ht Hcc) in *. cbv zeta. split_and!; [intros ->..|].
  - simpl in He. inversion He as [b| | |]. exists b. by destruct b.
  - simpl in *. destruct (bool_decide (_ = JStr "slider")).
    { inversion He; subst; unfold slider_input_event; rewrite slider_event_value, Ht, slider_unit_text;
        [done|]. eexists. split; [apply Number_plain_reads|done]. }
    destruct (bool_decide (_ = JStr "textArea")); [|destruct (bool_decide (_ = JStr "password") || _)];
      inversion He; subst; rewrite text_event_value; unfold text_display; simpl;
      by destruct (param_enum param) as [[|]|].
  - intros Henum Hta. simpl in *. rewrite (bool_decide_false (_ = JStr "textArea")) in * by done.
    destruct (bool_decide (_ = JStr "slider")).
    { inversion He; subst; unfold slider_input_event; rewrite slider_event_value, Ht;
        (split; [|by intros _ ? [= <-]]); [done|apply Number_plain_number]. }
    inversion He; subst. rewrite text_event_value. unfold text_display. simpl. split; [|done].
    destruct (param_enum param) as [[|]|]; simpl in *; try done; by destruct (parseInt _).
  - intros -> Hc. rewrite Hc in He.
    inversion He; subst; unfold slider_input_event; rewrite slider_event_value, Ht;
      (split; [|by intros ? [= <-]]); [done|apply Number_plain_number].
Qed.

(** The type [number] of JSON schema without a slider, and an integer chosen from a list,
    are written as texts. *)
Theorem number_param_writes_text param i e :
  param_type param = JStr "number" → jtruthy (jget (param_fields param) "customComponent") = false →
  jget (param_fields param) "render" ≠ JStr "slider" →
  control_event param (control_of param) i e → ∃ s, getValueFromEvent e = JStr s.
Proof.
  intros Ht Hcc Hs He. rewrite (control_of_typed _ _ Ht Hcc) in He. simpl in He.
  rewrite (bool_decide_false (_ = JStr "slider")) in He by done.
  destruct (bool_decide (_ = JStr "textArea")); inversion He; subst; rewrite text_event_value;
    unfold text_display; simpl; destruct (param_enum param) as [[|]|]; by eexists.
Qed.

Theorem integer_enum_writes_text param i e x xs :
  param_type param = JStr "integer" → param_enum param = Some (x :: xs) →
  jtruthy (jget (param_fields param) "customComponent") = false →
  jget (param_fields param) "render" ≠ JStr "slider" →
  control_event param (control_of param) i e → ∃ s, getValueFromEvent e = JStr s.
Proof.
  intros Ht Hen Hcc Hs He. rewrite (control_of_typed _ _ Ht Hcc) in He. simpl in He.
  rewrite (bool_decide_false (_ = JStr "slider")) in He by done.
  destruct (bool_decide (_ = JStr "textArea")); inversion He; subst; rewrite text_event_value;
    unfold text_display; rewrite Hen; by eexists.
Qed.

(** ** Waiting for the user to stop typing *)

Lemma text_onChange_other id id' param e param' e' v b d pg :
  parseValues (defaultValues b) = Ok d → id ≠ id' → pg_values pg = v → pg_body pg = b →
  pg_timers pg = [mkPending id param e v b] →
  text_onChange id' param' e' pg =
  mkPage v b [mkPending id param e v b; mkPending id' param' e' v b].
Proof.
  intros Hd Hne Hv Hb Hts. unfold text_onChange. rewrite Hb, Hd, Hts, Hv, filter_cons.
  by rewrite decide_True.
Qed.

Lemma text_onChange_same id param e v b d timers :
  parseValues (defaultValues b) = Ok d → Forall (λ p, pd_id p = id) timers →
  text_onChange id param e (mkPage v b timers) = mkPage v b [mkPending id param e v b].
Proof.
  intros Hd Hts. unfold text_onChange. cbn [pg_values pg_body pg_timers]. rewrite Hd.
  f_equal. assert (filter (λ p, pd_id p ≠ id) timers = []) as ->; [|done].
  induction Hts as [|p timers Hp _ IH]; [done|]. rewrite filter_cons, decide_False by auto. done.
Qed.

(** Of what is typed into one input only the last text is written, once: the handler
    runs on the values of the form as a change of the final text does. *)
Theorem debounce_writes_last id param es e pg d :
  pg_timers pg = [] → parseValues (defaultValues (pg_body pg)) = Ok d →
  fire (text_onChange id param e (foldl (λ pg e, text_onChange id param e pg) pg es)) =
  change_now param e pg.
Proof.
  destruct pg as [v b timers]. cbn [pg_timers pg_body]. intros -> Hd.
  assert (∃ timers, foldl (λ pg e, text_onChange id param e pg) (mkPage v b []) es =
            mkPage v b timers ∧ Forall (λ p, pd_id p = id) timers) as (timers & -> & Hts).
  { induction es as [|e' es IH] using rev_ind; [by exists []|]. rewrite foldl_app.
    destruct IH as (timers & -> & Hts). simpl.
    rewrite (text_onChange_same _ _ _ _ _ d) by done. eexists. split; [done|]. by repeat constructor. }
  by rewrite (text_onChange_same _ _ _ _ _ d).
Qed.

(** The values after a handler. *)
Lemma run_handler_text param e v b pg d s :
  parseValues (defaultValues b) = Ok d →
  setValue (appValues v) (param_path param) (getValueFromEvent e) = Ok s →
  appValues (pg_values (run_handler param e v b pg)) = s.
Proof. intros Hd Hs. unfold run_handler. by rewrite Hd, Hs. Qed.

Lemma run_handler_timers param e v b pg : pg_timers (run_handler param e v b pg) = pg_timers pg.
Proof. unfold run_handler. by destruct (parseValues _). Qed.

(** Two inputs changed within the delay: the handler of the second one starts from the
    values before the first one was written, so the first edit is lost. *)
Theorem second_edit_drops_first id1 id2 p1 p2 e1 e2 pg d s :
  id1 ≠ id2 → pg_timers pg = [] → parseValues (defaultValues (pg_body pg)) = Ok d →
  setValue (appValues (pg_values pg)) (param_path p2) (getValueFromEvent e2) = Ok s →
  let pg' := fire (fire (text_onChange id2 p2 e2 (text_onChange id1 p1 e1 pg))) in
  appValues (pg_values pg') = s ∧ pg_timers pg' = [].
Proof.
  destruct pg as [v b timers]. cbn [pg_timers pg_body pg_values]. intros Hne -> Hd Hs.
  rewrite (text_onChange_same _ _ _ _ _ d) by done.
  rewrite (text_onChange_other id1 id2 p1 e1 p2 e2 v b d) by done. unfold fire. cbn [pg_timers].
  rewrite run_handler_timers. cbn [pg_timers pd_param pd_event pd_values pd_body].
  split; [by eapply run_handler_text|]. by rewrite run_handler_timers.
Qed.

(** Changed one after the other, both are written. *)
Theorem edits_in_turn id1 id2 p1 p2 e1 e2 pg d1 d2 s1 s2 :
  pg_timers pg = [] → parseValues (defaultValues (pg_body pg)) = Ok d1 → parseValues d1 = Ok d2 →
  setValue (appValues (pg_values pg)) (param_path p1) (getValueFromEvent e1) = Ok s1 →
  setValue s1 (param_path p2) (getValueFromEvent e2) = Ok s2 →
  appValues (pg_values (fire (text_onChange id2 p2 e2 (fire (text_onChange id1 p1 e1 pg))))) = s2.
Proof.
  destruct pg as [v b timers]. cbn [pg_timers pg_body pg_values]. intros -> Hd1 Hd2 Hs1 Hs2.
  rewrite (text_onChange_same _ _ _ _ _ d1) by done.
  set (pg1 := fire (mkPage v b _)).
  assert (∃ b1 v1 d, pg1 = mkPage v1 b1 [] ∧ appValues v1 = s1 ∧ parseValues (defaultValues b1) = Ok d)
    as (b1 & v1 & d & -> & <- & Hd).
  { subst pg1. unfold fire. cbn [pg_timers]. unfold run_handler.
    cbn [pd_param pd_event pd_values pd_body pg_values pg_body pg_timers]. rewrite Hd1, Hs1.
    do 3 eexists. split; [reflexivity|]. split; [reflexivity|].
    destruct (bool_decide_reflect (d1 ≠ defaultValues b)) as [|Heq]; cbn [defaultValues setf].
    - exact Hd2.
    - apply dec_stable in Heq. rewrite <- Heq. exact Hd2. }
  rewrite (text_onChange_same _ _ _ _ _ d) by done. unfold fire. cbn [pg_timers].
  by eapply run_handler_text.
Qed.
End input_facts.
