(* ===== verification/FormTabs.v ===== *)
(** * The tabs of the form of a chart

    The tabs of [DeploymentFormBody] (src/dashboard/src/components): which ones there are
    ([Tabs]), the mark of the tab of the changes ([DifferentialTab]), the differences it shows
    ([DifferentialSelector], [Differential]) and the editor of the values
    ([AdvancedDeploymentForm]). *)

From S2P Require Import Prelude.
From S2P Require Import Json.
From S2P Require Import Types.
From S2P Require Import Values.
From S2P Require Import FormParams.
From S2P Require Import DeploymentForm.

(** ** Tabs *)

Inductive form_tab := FormTab | YamlTab | ChangesTab.

Definition form_tabs `{YamlDocument} (b : form_body) : list form_tab :=
  (if shouldRenderBasicForm b then [FormTab] else []) ++ [YamlTab; ChangesTab].

(** The panels with whether they are hidden: [selected] is a position. *)
Definition Tabs {A} (selected : nat) (data : list A) : list (A * bool) :=
  imap (λ index children, (children, bool_decide (selected ≠ index))) data.

(** ** DifferentialSelector and Differential *)

Inductive deployment_event := Install | Upgrade.

Definition selector_oldValues (e : deployment_event) (deployedValues defaultValues : string)
    : string :=
  match e with Upgrade => deployedValues | Install => defaultValues end.

Definition emptyDiffText (e : deployment_event) : string :=
  match e with
  | Upgrade => "The values for the new release are identical to the deployed version."
  | Install => "No changes detected from chart defaults."
  end.

Inductive diff_view := NoDiff (text : string) | Diff (oldValues newValues : string) (dark : bool).

Definition Differential (oldValues newValues text theme : string) : diff_view :=
  if bool_decide (oldValues = newValues) then NoDiff text
  else Diff oldValues newValues (bool_decide (theme = "dark")).

Definition DifferentialSelector (e : deployment_event) (deployedValues defaultValues appValues theme : string)
    : diff_view :=
  Differential (selector_oldValues e deployedValues defaultValues) appValues (emptyDiffText e) theme.

(** ** DifferentialTab *)

Record diff_props := mkDiffProps {
  dp_event : deployment_event;
  dp_deployedValues : string;
  dp_defaultValues : string;
  dp_appValues : string;
}.

Record diff_tab := mkDiffTab {
  newChanges : bool;
  oldValues : string;
  dt_committed : option (diff_props * string);
}.
#[export] Instance eta_diff_tab : Eta diff_tab := λ t,
  mkDiffTab (newChanges t) (oldValues t) (dt_committed t).

Definition diff_init : diff_tab := mkDiffTab false "" None.
Definition setNewChangesFalse (t : diff_tab) : diff_tab := t <| newChanges := false |>.

Definition dp_values (p : diff_props) : deployment_event * string * string :=
  (dp_event p, dp_deployedValues p, dp_defaultValues p).

#[export] Instance deployment_event_eq_dec : EqDecision deployment_event.
Proof. solve_decision. Defined.

(** Whether a dependency changed since the previous render. *)
Definition diff_changed {A} `{EqDecision A} (f : diff_props → string → A) (p : diff_props)
    (t : diff_tab) : bool :=
  match dt_committed t with
  | None => true
  | Some (p', old) => bool_decide (f p' old ≠ f p (oldValues t))
  end.

(** A render and its two effects, on the values of the render. *)
Definition diff_render (p : diff_props) (t : diff_tab) : diff_tab :=
  let next :=
    if diff_changed (λ p _, dp_values p) p t
    then t <| oldValues := selector_oldValues (dp_event p) (dp_deployedValues p) (dp_defaultValues p) |>
    else t in
  let next :=
    if diff_changed (λ p old, (old, dp_appValues p)) p t && bool_decide (oldValues t ≠ "")
    then next <| newChanges := bool_decide (oldValues t ≠ dp_appValues p) |>
    else next in
  next <| dt_committed := Some (p, oldValues t) |>.

(** ** AdvancedDeploymentForm

    The timer is a variable of the render: a change only clears the timer of the same one. *)
Record editor := mkEditor { ed_timers : list string; ed_timeout : bool }.

Definition editor_render (e : editor) : editor := mkEditor (ed_timers e) false.

(** The timer of this render is the last one started, while it has not fired. *)
Definition editor_onChange (value : string) (e : editor) : editor :=
  if ed_timeout e then mkEditor (removelast (ed_timers e) ++ [value]) true
  else mkEditor (ed_timers e ++ [value]) true.

Inductive editor_event := EditorRender | EditorChange (value : string).
Definition editor_step (e : editor) (ev : editor_event) : editor :=
  match ev with EditorRender => editor_render e | EditorChange v => editor_onChange v e end.

(** All the timers fire, in the order they were started. *)
Definition editor_fire {S} (handleValuesChange : string → S → S) (e : editor) (s : S) : S :=
  foldl (λ s v, handleValuesChange v s) s (ed_timers e).

(** ** Facts *)

Definition compared (p : diff_props) : string :=
  selector_oldValues (dp_event p) (dp_deployedValues p) (dp_defaultValues p).

(** The tab has seen the values it is given. *)
Definition diff_ok (t : diff_tab) : Prop :=
  ∀ p old, dt_committed t = Some (p, old) → oldValues t = compared p.

Lemma diff_render_ok p t : diff_ok t → diff_ok (diff_render p t) ∧ oldValues (diff_render p t) = compared p.
Proof.
  intros Hok.
  assert (oldValues (diff_render p t) = compared p) as Hold.
  { unfold diff_render. cbn. destruct (diff_changed (λ p _, dp_values p) p t) eqn:Hc.
    - by repeat case_match.
    - assert (oldValues t = compared p) as Ht.
      { unfold diff_changed in Hc. unfold diff_ok in Hok. destruct (dt_committed t) as [[p' old]|]; [|done].
        apply bool_decide_eq_false, dec_stable in Hc. rewrite (Hok p' old eq_refl).
        unfold compared. unfold dp_values in Hc. by injection Hc as -> -> ->. }
      by repeat case_match. }
  split; [|done]. intros p' old [= <- _]. done.
Qed.

Lemma diff_render_changes p t :
  newChanges (diff_render p t) =
  if diff_changed (λ p old, (old, dp_appValues p)) p t && bool_decide (oldValues t ≠ "")
  then bool_decide (oldValues t ≠ dp_appValues p) else newChanges t.
Proof. unfold diff_render. by repeat case_match. Qed.

Lemma diff_render_committed p t : dt_committed (diff_render p t) = Some (p, oldValues t).
Proof. done. Qed.

(** When the values of the form change, the tab of the changes is marked exactly when there are
    differences to show, if the values they are compared with are not empty. *)
Theorem changes_marked p p' t theme :
  diff_ok t → dp_appValues p ≠ dp_appValues p' → compared p ≠ "" → compared p' ≠ "" →
  newChanges (diff_render p' (diff_render p' (diff_render p t))) = true ↔
  ∃ dark, DifferentialSelector (dp_event p') (dp_deployedValues p') (dp_defaultValues p')
            (dp_appValues p') theme = Diff (compared p') (dp_appValues p') dark.
Proof.
  intros Hok Hne Hp Hp'. destruct (diff_render_ok p t Hok) as [Hok1 H1].
  destruct (diff_render_ok p' _ Hok1) as [Hok2 H2].
  assert (newChanges (diff_render p' (diff_render p' (diff_render p t))) =
          bool_decide (compared p' ≠ dp_appValues p')) as ->.
  { rewrite diff_render_changes, H2, (bool_decide_true (compared p' ≠ "")), andb_true_r by done.
    unfold diff_changed. rewrite diff_render_committed, H1, H2.
    destruct (bool_decide_reflect ((compared p, dp_appValues p') ≠ (compared p', dp_appValues p')))
      as [Hc|Hc]; [done|]. apply dec_stable in Hc. injection Hc as Hc.
    rewrite diff_render_changes, H1, (bool_decide_true (compared p ≠ "")), andb_true_r by done.
    unfold diff_changed. rewrite diff_render_committed, bool_decide_true by (intros [=]; done).
    by rewrite Hc. }
  unfold DifferentialSelector, Differential. fold (compared p').
  destruct (bool_decide_reflect (compared p' = dp_appValues p')) as [Heq|Hneq].
  - rewrite bool_decide_false by (intros Hn; by apply Hn). split; [done|]. by intros [].
  - rewrite bool_decide_true by done. split; [by eexists|done].
Qed.

(** Compared with empty values the tab is never marked, whatever is written. *)
Lemma empty_never_marked ps t :
  diff_ok t → newChanges t = false → oldValues t = "" → Forall (λ p, compared p = "") ps →
  newChanges (foldl (λ t p, diff_render p t) t ps) = false.
Proof.
  intros Hok Hn Ho Hps. revert t Hok Hn Ho. induction Hps as [|p ps Hp _ IH]; intros t Hok Hn Ho; [done|].
  destruct (diff_render_ok p t Hok) as [Hok1 H1]. apply IH; [done| |by rewrite H1].
  rewrite diff_render_changes, Ho, (bool_decide_false ("" ≠ "")) by (by intros []). by rewrite andb_false_r.
Qed.

(** What is written last in the editor is what the form is left with, also when the page was
    rendered between two changes and both are submitted. *)
Lemma editor_last_wins evs v e s :
  appValues (editor_fire body_handleValuesChange (editor_onChange v (foldl editor_step e evs)) s) = v.
Proof. unfold editor_fire, editor_onChange. case_match; cbn [ed_timers]; by rewrite foldl_app. Qed.

(** Changes without a render in between are submitted once. *)
Lemma editor_gathers vs v timers :
  foldl (λ e v, editor_onChange v e) (mkEditor timers false) (vs ++ [v]) =
  mkEditor (timers ++ [v]) true.
Proof.
  revert v. induction vs as [|w vs IH] using rev_ind; intros v; [done|].
  rewrite foldl_app, IH. cbn. unfold editor_onChange. cbn [ed_timeout ed_timers].
  by rewrite removelast_last.
Qed.
