(* ===== verification/Auth.v ===== *)
(** * Asking the API server who the user is (the rest of src/dashboard/src/shared/Auth.ts)

    The requests of this file are sent with the default client of axios, whose
    failures come with the response of the server. *)

From S2P Require Import Prelude.
From S2P Require Import Json.
From S2P Require Import JsonText.
From S2P Require Import Browser.
From S2P Require Import Types.
From S2P Require Import Url.
From S2P Require Import KubeRef.
From S2P Require Import Actions.
From S2P Require Import Store.
From S2P Require Import Thunk.

(** A value in a template literal or in [join]: [String(v)]. *)
Fixpoint to_text (j : json) : string :=
  match j with
  | JUndefined => "undefined"
  | JNull => "null"
  | JBool b => bool_toString b
  | JNum n => print_Z n
  | JFloat s => s
  | JStr s => s
  | JArr l =>
    join "," (List.map (λ v, match v with JUndefined | JNull => "" | _ => to_text v end) l)
  | JObj _ => "[object Object]"
  end.

Section auth.
Context `{Router}.

(** The response of the error that is caught: only axios's own errors have one. *)
Definition error_response (e : AxiosError) : option AxiosResponse := axios_response e.

Definition token_accepted (res : option AxiosResponse) : outcome unit :=
  res ← require "status" res;
  if bool_decide (resp_status res = 401%Z) then Throws (mk_error Error "invalid token")
  else if bool_decide (resp_status res ≠ 403%Z) then
    Throws (mk_error Error (print_Z (resp_status res) +:+ ": " +:+ to_text (resp_data res)))
  else Ok ().

Definition validate_request (cluster token : string) : request :=
  mkRequest GET (api_k8s_base cluster +:+ "/") JUndefined []
    [("Authorization", "Bearer " +:+ token)].

Definition validateToken (cluster token : string) : prog unit :=
  after (http Axios (validate_request cluster token) T_raw)
    (λ r, match r with
          | inl _ => mret ()
          | inr e => lift (token_accepted (error_response e))
          end)
    (λ _, lift (token_accepted None)).

Definition is403FromAuthProxy (r : AxiosResponse) : bool :=
  let rejected :=
    bool_decide (resp_status r = 403%Z) &&
    (negb (jtruthy (resp_data r)) || negb (jtruthy (jget (resp_data r) "message"))) in
  match resp_data r with
  | JStr s => if truthy s && includes "system:serviceaccount" s then false else rejected
  | _ => rejected
  end.

Definition isAnonymous (response : AxiosResponse) : bool :=
  let m := jget (resp_data response) "message" in
  let msg := if jtruthy m then m else resp_data response in
  match msg with JStr s => includes "system:anonymous" s | _ => false end.

(** Whether the response to an anonymous request means there is a cookie. *)
Definition cookie_accepted (response : option AxiosResponse) : outcome bool :=
  response ← require "status" response;
  if bool_decide (resp_status response ≠ 403%Z) then Ok false
  else if is403FromAuthProxy response then Ok false
  else Ok (negb (isAnonymous response)).

Definition isAuthenticatedWithCookie (cluster : string) : prog bool :=
  after (http Axios (get_request (api_k8s_base cluster +:+ "/")) T_raw)
    (λ r, match r with
          | inl _ => mret true
          | inr e => lift (cookie_accepted (error_response e))
          end)
    (λ _, lift (cookie_accepted None)).

(** A refusal that only a user with a session gets: a 403 of the API server (its body has
    a message, or is a text about a service account) that is not about the anonymous
    user. *)
Definition refused_with_session (r : AxiosResponse) : bool :=
  bool_decide (resp_status r = 403%Z) &&
  match resp_data r with
  | JStr s => includes "system:serviceaccount" s && negb (includes "system:anonymous" s)
  | JObj fs =>
    let m := default JUndefined (assoc "message" fs) in
    jtruthy m && negb (match m with JStr s => includes "system:anonymous" s | _ => false end)
  | _ => false
  end.

Lemma cookie_accepted_table r :
  cookie_accepted r =
  match r with
  | None => Throws (undefined_access "status")
  | Some r => Ok (refused_with_session r)
  end.
Proof using.
  destruct r as [[status d]|]; [|done]. unfold cookie_accepted, is403FromAuthProxy,
    isAnonymous, refused_with_session. simpl. destruct (decide (status = 403%Z)) as [->|Hs]; [|by rewrite bool_decide_true, bool_decide_false].
  simpl. destruct d as [| |[]|n|s|s|l|fs]; simpl; try done.
  - by destruct (negb _).
  - by destruct (mantissa_nonzero s).
  - destruct (truthy s) eqn:Hts; simpl.
    + by destruct (includes "system:serviceaccount" s).
    + unfold truthy in Hts. apply bool_decide_eq_false, dec_stable in Hts. by subst s.
  - by destruct (jtruthy (default JUndefined (assoc "message" fs))) eqn:Hm.
Qed.
End auth.
