(* ===== verification/AuthActions.v ===== *)
(** * The thunks of src/dashboard/src/actions/auth.ts *)

From S2P Require Import Prelude.
From S2P Require Import Json.
From S2P Require Import JsonText.
From S2P Require Import Browser.
From S2P Require Import Types.
From S2P Require Import Url.
From S2P Require Import KubeRef.
From S2P Require Import Actions.
From S2P Require Import AuthReducer.
From S2P Require Import ConfigReducer.
From S2P Require Import ClusterReducer.
From S2P Require Import Store.
From S2P Require Import Thunk.
From S2P Require Import Auth.

Section auth_actions.
Context `{Lodash} `{Jwt} `{Location} `{Router} (boot : browser).

Definition authenticate (cluster token : string) (oidc : bool) : prog unit :=
  _ ← dispatch authenticating;
  try_catch
    (_ ← (if negb oidc then await (validateToken cluster token) else mret ());
     _ ← browse (setAuthToken token oidc);
     _ ← dispatch (setAuthenticated true oidc);
     if oidc then dispatch (setSessionExpired false) else mret ())
    (λ e, dispatch (authenticationError (error_toString e))).

Definition logout : prog unit :=
  b ← browse id;
  _ ← (if usingOIDCToken b then
         st ← getState;
         _ ← browse (unsetAuthCookie (IConfigState_oauthLogoutURI (s_config st)));
         mret ()
       else
         _ ← browse unsetAuthToken;
         _ ← dispatch (setAuthenticated false false);
         dispatch clearClusters);
  _ ← browse unsetStoredNamespace;
  mret ().

Definition expireSession : prog unit :=
  b ← browse id;
  _ ← (if usingOIDCToken b then dispatch (setSessionExpired true) else mret ());
  await logout.

Definition checkCookieAuthentication (cluster : string) : prog bool :=
  _ ← dispatch authenticating;
  isAuthed ← await (isAuthenticatedWithCookie cluster);
  _ ← (if isAuthed : bool then await (authenticate cluster "" true)
       else dispatch (setAuthenticated false false));
  mret isAuthed.

(** ** Facts *)

(** The token is checked unless the auth proxy is in charge. *)
Definition token_check (E : env) (cluster token : string) (oidc : bool) (m : machine)
    : outcome unit :=
  if oidc then Ok ()
  else match env_reply E (m_ticks m) Axios (validate_request cluster token) T_raw with
       | Ok (inl _) => Ok ()
       | Ok (inr e) => token_accepted (axios_response e)
       | Throws _ => Throws (undefined_access "status")
       end.

Lemma getAuthToken_setAuthToken token oidc b :
  getAuthToken (setAuthToken token oidc b) =
  if truthy token then Some token else getAuthToken b.
Proof using.
  unfold getAuthToken, setAuthToken. destruct (truthy token);
    rewrite !getItem_setItem; by case_bool_decide.
Qed.

Lemma usingOIDCToken_setAuthToken token oidc b :
  usingOIDCToken (setAuthToken token oidc b) = oidc.
Proof using.
  unfold usingOIDCToken, setAuthToken. destruct (truthy token); rewrite !getItem_setItem; simpl;
    by destruct oidc.
Qed.

(** The machine once the token was checked. *)
Definition token_checked (E : env) (cluster token : string) (m : machine) : machine :=
  do_tick boot E (do_tick boot E
    (m_log (EvRequest Axios (validate_request cluster token)) (dispatched boot authenticating m))).

(** C5: Authentication ends in one of two states: when the token is accepted (or is left to
    the auth proxy) the browser holds it, with the kind of token it is, and the store says
    so; otherwise the store shows the error and no authentication under way, and the
    browser is as others left it during the check. *)
Theorem authenticate_post E cluster token oidc m :
  let '(r, m') := run boot E (authenticate cluster token oidc) m in
  r = Ok () ∧
  match token_check E cluster token oidc m with
  | Ok _ =>
    usingOIDCToken (w_browser (m_world m')) = oidc ∧
    (token ≠ "" → getAuthToken (w_browser (m_world m')) = Some token) ∧
    IAuthState_authenticated (s_auth (m_store m')) = true ∧
    IAuthState_authenticating (s_auth (m_store m')) = false ∧
    IAuthState_oidcAuthenticated (s_auth (m_store m')) = oidc ∧
    (oidc → IAuthState_sessionExpired (s_auth (m_store m')) = false)
  | Throws e =>
    IAuthState_authenticationError (s_auth (m_store m')) = Some (error_toString e) ∧
    IAuthState_authenticating (s_auth (m_store m')) = false ∧
    w_browser (m_world m') = w_browser (m_world (token_checked E cluster token m))
  end.
Proof using.
  unfold authenticate, token_check, token_checked. destruct oidc; simpl negb; cbn match.
  - run_steps. split; [done|].
    rewrite !dispatched_browser, !dispatched_auth by done. simpl.
    rewrite usingOIDCToken_setAuthToken, getAuthToken_setAuthToken. unfold truthy.
    split_and!; try done. intros Ht. rewrite bool_decide_true; done.
  - unfold validateToken. run_steps. read_machine.
    destruct (env_reply E (m_ticks m) Axios (validate_request cluster token) T_raw) as [[r|e]|e];
      run_reduce; run_steps.
    + split; [done|]. rewrite !dispatched_browser, !dispatched_auth by done. simpl.
      rewrite usingOIDCToken_setAuthToken, getAuthToken_setAuthToken. unfold truthy.
      split_and!; try done. intros Ht. rewrite bool_decide_true; done.
    + unfold error_response. destruct (token_accepted (axios_response e)) as [[]|e']; run_steps;
        (split; [done|]); rewrite !dispatched_browser, !dispatched_auth by done; simpl; [|done].
      rewrite usingOIDCToken_setAuthToken, getAuthToken_setAuthToken. unfold truthy.
      split_and!; try done. intros Ht. rewrite bool_decide_true; done.
    + change (token_accepted None) with (Throws (A:=unit) (undefined_access "status")).
      run_steps.
      split; [done|]. by rewrite !dispatched_browser, !dispatched_auth by done.
Qed.

Lemma usingOIDC_unsetStored b : usingOIDCToken (unsetStoredNamespace b) = usingOIDCToken b.
Proof using. unfold usingOIDCToken, unsetStoredNamespace. by rewrite getItem_removeItem. Qed.

(** Logging out forgets the token that was in use, the namespaces the browser stored and,
    unless the auth proxy is in charge, the user and the clusters of the store; with the
    auth proxy the browser is sent to its sign-out page, the configured one or the default,
    and the store is not touched. *)
Theorem logout_post E m :
  let '(r, m') := run boot E logout m in
  let b := w_browser (m_world m) in
  let b' := w_browser (m_world m') in
  r = Ok () ∧ getItem namespaceKey b' = None ∧
  if usingOIDCToken b then
    m_store m' = m_store m ∧ usingOIDCToken b' = false ∧ getAuthToken b' = getAuthToken b ∧
    assigned b' =
      Some (or_str (IConfigState_oauthLogoutURI (s_config (m_store m))) "/oauth2/sign_out")
  else
    getAuthToken b' = None ∧ assigned b' = assigned b ∧
    IAuthState_authenticated (s_auth (m_store m')) = false ∧
    IClustersState_clusters (s_clusters (m_store m')) =
      IClustersState_clusters (clusters_getInitialState boot).
Proof using.
  unfold logout. run_steps. destruct (usingOIDCToken (w_browser (m_world m))) eqn:Ho; run_steps.
  - cbn [do_browse m_put m_world m_store setf w_browser]. cbv zeta. simpl.
    set (uri := IConfigState_oauthLogoutURI (s_config (m_store m))).
    set (b := w_browser (m_world m)).
    assert (∀ k, k ≠ AuthTokenOIDCKey → k ≠ namespaceKey →
      getItem k (unsetStoredNamespace (unsetAuthCookie uri b)) = getItem k b) as Hkeep.
    { intros k H1' H2'. unfold unsetStoredNamespace. rewrite getItem_removeItem, bool_decide_false by done.
      change (getItem k (removeItem AuthTokenOIDCKey b) = getItem k b).
      rewrite getItem_removeItem. case_bool_decide; [|done]. by subst k. }
    split_and!; try done.
    + unfold unsetStoredNamespace. by rewrite getItem_removeItem, bool_decide_true.
    + rewrite usingOIDC_unsetStored. unfold usingOIDCToken.
      assert (getItem AuthTokenOIDCKey (unsetAuthCookie uri b) = None) as Hn; [|by rewrite Hn].
      change (getItem AuthTokenOIDCKey (removeItem AuthTokenOIDCKey b) = None).
      by rewrite getItem_removeItem, bool_decide_true.
    + by apply Hkeep.
  - set (m1 := do_browse unsetAuthToken (do_browse id m)).
    destruct (dispatched_state boot clearClusters (dispatched boot (setAuthenticated false false) m1))
      as (kw & _ & _ & _ & _ & _ & _ & _ & Hcl & _); [done|].
    split_and!; try done; rewrite ?do_browse_store, ?do_browse_browser.
    + unfold unsetStoredNamespace. by rewrite getItem_removeItem, bool_decide_true.
    + rewrite !dispatched_browser by done. unfold getAuthToken, unsetStoredNamespace.
      rewrite getItem_removeItem, bool_decide_false by done. unfold m1.
      rewrite !do_browse_browser. unfold unsetAuthToken.
      by rewrite getItem_removeItem, bool_decide_true.
Qed.

(** Whether the user has a session cookie is found with a request without a token: when
    it succeeds, or is refused as only a user with a session is, the user is signed in
    through the auth proxy; any other response signs the user out.  Without a response
    the check throws, and nothing ends the authentication that was announced. *)
Theorem checkCookie_verdict E cluster m :
  let req := get_request (api_k8s_base cluster +:+ "/") in
  let begin := [EvDispatch authenticating; EvRequest Axios req] in
  let verdict :=
    match env_reply E (m_ticks m) Axios req T_raw with
    | Ok (inl _) => Some true
    | Ok (inr e) => refused_with_session <$> axios_response e
    | Throws _ => None
    end in
  let '(r, m') := run boot E (checkCookieAuthentication cluster) m in
  match verdict with
  | Some true =>
    r = Ok true ∧ m_trace m' = m_trace m ++ begin ++
      [EvDispatch authenticating; EvDispatch (setAuthenticated true true);
       EvDispatch (setSessionExpired false)]
  | Some false =>
    r = Ok false ∧
    m_trace m' = m_trace m ++ begin ++ [EvDispatch (setAuthenticated false false)]
  | None => r = Throws (undefined_access "status") ∧ m_trace m' = m_trace m ++ begin
  end.
Proof using.
  intros req begin. unfold checkCookieAuthentication, isAuthenticatedWithCookie. fold req.
  subst begin. run_steps. read_machine.
  destruct (env_reply _ _ _ req T_raw) as [[resp|e]|e]; cbn match; run_steps.
  - unfold authenticate. simpl negb. cbn match. run_steps. read_machine. cbn match.
    split; [done|]. by rewrite <-?app_assoc.
  - unfold error_response. rewrite cookie_accepted_table.
    destruct (axios_response e) as [resp|]; simpl fmap; cbn match; [|by run_steps; read_machine].
    destruct (refused_with_session resp); run_steps.
    + unfold authenticate. simpl negb. cbn match. run_steps. read_machine. cbn match.
    split; [done|]. by rewrite <-?app_assoc.
    + read_machine. cbn match. split; [done|]. by rewrite <-?app_assoc.
  - rewrite cookie_accepted_table. by run_steps; read_machine.
Qed.
End auth_actions.
