(* ===== verification/AxiosInstance.v ===== *)
(** * The interceptors of src/dashboard/src/shared/AxiosInstance.ts

    Every request of [axiosWithAuth] goes through [addAuthHeaders] and every failure
    through [handleError], the handler [addErrorHandling] installs: it turns the
    failure into an error of the dashboard's own classes and expires the session when
    the failure says the user is no longer who they were. *)

From S2P Require Import Prelude.
From S2P Require Import Json.
From S2P Require Import JsonText.
From S2P Require Import Browser.
From S2P Require Import Types.
From S2P Require Import Url.
From S2P Require Import KubeRef.
From S2P Require Import Actions.
From S2P Require Import Store.
From S2P Require Import Thunk.
From S2P Require Import Auth.
From S2P Require Import AuthActions.

Definition authorization (b : browser) (headers : list (string * string)) : list (string * string) :=
  if truthy_opt (getAuthToken b)
  then obj_set "Authorization" ("Bearer " +:+ default "" (getAuthToken b)) headers else headers.

(** The request as it is sent. *)
Definition addAuthHeaders (b : browser) (r : request) : request :=
  mkRequest (req_method r) (req_url r) (req_body r) (req_params r) (authorization b (req_headers r)).

(** ** The message of a failure *)

(** The message of the response when it has one, else the one of the error.  Reading the
    message of a body that is [null] or [undefined] throws. *)
Definition error_message (err : AxiosError) : outcome string :=
  match axios_response err with
  | None => Ok (axios_message err)
  | Some r =>
    match resp_data r with
    | JUndefined => Throws (undefined_access "message")
    | JNull => Throws (mk_error TypeError "Cannot read property 'message' of null")
    | JStr s => Ok s
    | d =>
      let m := jget d "message" in
      Ok (if jtruthy m then to_text m else axios_message err)
    end
  end.

(** One missing permission of a 403, as the message describes it; a description that is
    not an object with a list of verbs makes the whole message unparseable. *)
Definition forbidden_action (j : json) : option string :=
  match j, jget j "verbs" with
  | JObj _, JArr verbs =>
    Some ("apiGroup: " +:+ String quote (to_text (jget j "apiGroup") +:+ String quote "") +:+
          ", resource: " +:+ String quote (to_text (jget j "resource") +:+ String quote "") +:+
          ", action: " +:+ String quote (join ", "
             ((λ v, match v with JUndefined | JNull => "" | _ => to_text v end) <$> verbs)
             +:+ String quote "") +:+
          ", " +:+ (if jtruthy (jget j "clusterWide") then "in all namespaces"
                    else "namespace: " +:+ to_text (jget j "namespace")))
  | _, _ => None
  end.

Definition forbidden_message (message : string) : string :=
  match JSON_parse message with
  | Ok (JArr roles) =>
    match mapM forbidden_action roles with
    | Some texts => "Forbidden error, missing permissions: " +:+ join "; " texts
    | None => message
    end
  | _ => message
  end.

(** The class of the error a status stands for. *)
Definition status_class (status : option Z) : err_class :=
  match status with
  | Some 401%Z => UnauthorizedError
  | Some 403%Z => ForbiddenError
  | Some 404%Z => NotFoundError
  | Some 409%Z => ConflictError
  | Some 422%Z => UnprocessableEntity
  | Some 500%Z => InternalServerError
  | _ => Error
  end.

(** ** What a failure means *)

(** The class of error each status is turned into. *)
Inductive error_class : option AxiosResponse → err_class → Prop :=
| class_no_response : error_class None Error
| class_401 d : error_class (Some (mkAxiosResponse 401 d)) UnauthorizedError
| class_403 d : error_class (Some (mkAxiosResponse 403 d)) ForbiddenError
| class_404 d : error_class (Some (mkAxiosResponse 404 d)) NotFoundError
| class_409 d : error_class (Some (mkAxiosResponse 409 d)) ConflictError
| class_422 d : error_class (Some (mkAxiosResponse 422 d)) UnprocessableEntity
| class_500 d : error_class (Some (mkAxiosResponse 500 d)) InternalServerError
| class_other status d :
  status ∉ [401; 403; 404; 409; 422; 500]%Z → error_class (Some (mkAxiosResponse status d)) Error.

(** A refusal by the proxy has no message and is no text about a service account. *)
Definition from_proxy (body : json) : Prop :=
  jtruthy (jget body "message") = false ∧
  ∀ s, body = JStr s → includes "system:serviceaccount" s = false.

(** A refusal of the anonymous user names it, in its message or as its text. *)
Definition about_anonymous (body : json) : Prop :=
  ∃ s, includes "system:anonymous" s ∧ (jget body "message" = JStr s ∨ body = JStr s).

(** The server no longer knows the user. *)
Definition user_refused (err : AxiosError) : Prop :=
  ∃ status body, axios_response err = Some (mkAxiosResponse status body) ∧
    (status = 401%Z ∨ status = 403%Z ∧ (from_proxy body ∨ about_anonymous body)).

(** The browser holds a session of the proxy in front of the dashboard. *)
Definition proxy_session (b : browser) : Prop :=
  localStorage b !! "kubeapps_auth_token_oidc" = Some "true".

(** With a session of the proxy, the proxy redirects the request to its login page, which the
    browser does not allow. *)
Definition proxy_unreachable (err : AxiosError) (b : browser) : Prop :=
  axios_response err = None ∧ axios_code err = None ∧ axios_message err = "Network Error" ∧
  proxy_session b.

#[global] Instance proxy_session_dec b : Decision (proxy_session b).
Proof. unfold proxy_session. apply _. Defined.

(** The dispatches that end a session. *)
Definition session_ends (b : browser) : list event :=
  if decide (proxy_session b) then [EvDispatch (setSessionExpired true)]
  else [EvDispatch (setAuthenticated false false); EvDispatch clearClusters].

Lemma error_class_of response : error_class response (status_class (resp_status <$> response)).
Proof.
  destruct response as [[status d]|]; [|constructor].
  destruct (decide (status ∈ [401; 403; 404; 409; 422; 500]%Z)) as [Hin|Hout].
  - apply list_elem_of_In in Hin. repeat (destruct Hin as [<-|Hin]; [cbn; constructor|]). done.
  - cut (status_class (Some status) = Error); [intros Hc; cbn [fmap option_fmap option_map resp_status];
      rewrite Hc; by constructor|].
    unfold status_class. repeat case_match; try done; destruct Hout; set_solver.
Qed.

Section axios.
Context `{Lodash} `{Jwt} `{Location} `{Router} (boot : browser).

Definition dispatchErrorAndLogout (m : string) : prog unit :=
  _ ← dispatch (authenticationError m);
  fork expireSession.

Definition network_expired (err : AxiosError) (b : browser) : bool :=
  bool_decide (axios_code err = None) && bool_decide (axios_message err = "Network Error") &&
  bool_decide (axios_response err = None) && usingOIDCToken b.

(** The switch on the status of the response. *)
Definition reject {A} (response : option AxiosResponse) (message : string) : prog A :=
  match response with
  | None => Throw (mk_error Error message)
  | Some response =>
    let status := resp_status response in
    if bool_decide (status = 401%Z) then
      _ ← dispatchErrorAndLogout message;
      Throw (mk_error UnauthorizedError message)
    else if bool_decide (status = 403%Z) then
      _ ← (if is403FromAuthProxy response || isAnonymous response
           then dispatchErrorAndLogout message else mret ());
      Throw (mk_error ForbiddenError (forbidden_message message))
    else Throw (mk_error (status_class (Some status)) message)
  end.

Definition handleError {A} (err : AxiosError) : prog A :=
  b ← browse id;
  _ ← (if network_expired err b then fork expireSession else mret ());
  message ← lift (error_message err);
  reject (axios_response err) message.

(** ** Facts *)

Definition needs_login (err : AxiosError) : bool :=
  match axios_response err with
  | Some r =>
    bool_decide (resp_status r = 401%Z) ||
    bool_decide (resp_status r = 403%Z) && (is403FromAuthProxy r || isAnonymous r)
  | None => false
  end.

(** What is dispatched when the session is expired, up to the first wait. *)
Definition expire_events (b : browser) : list event :=
  if usingOIDCToken b then [EvDispatch (setSessionExpired true)]
  else [EvDispatch (setAuthenticated false false); EvDispatch clearClusters].

Ltac sync := rewrite ?run_sync_bind, ?run_sync_browse, ?run_sync_getState, ?run_sync_ret,
  ?run_sync_await; rewrite ?run_sync_dispatch by done; cbn match.

Lemma run_sync_expireSession m :
  ∃ m', run_sync boot expireSession m = (Await (Ret ()), m') ∧
    m_trace m' = m_trace m ++ expire_events (w_browser (m_world m)).
Proof using.
  unfold expireSession, expire_events. repeat (progress sync).
  destruct (usingOIDCToken (w_browser (m_world m))) eqn:Ho; unfold logout; repeat (progress sync).
  - rewrite dispatched_browser, do_browse_id, Ho by done. repeat (progress sync).
    eexists. split; [reflexivity|]. by rewrite !do_browse_trace, dispatched_trace.
  - rewrite do_browse_id, Ho. repeat (progress sync).
    eexists. split; [reflexivity|].
    rewrite !do_browse_trace, !dispatched_trace, !do_browse_trace, <-app_assoc. done.
Qed.

Lemma fork_expireSession E m :
  ∃ m', run boot E (fork expireSession) m = (Ok (), m') ∧
    m_trace m' = m_trace m ++ expire_events (w_browser (m_world m)).
Proof using.
  destruct (run_sync_expireSession m) as (m' & Hm & Htr).
  rewrite run_fork, run_sync_bind, Hm. cbn match. by eexists.
Qed.

Lemma dispatchErrorAndLogout_performs E t m :
  ∃ m', run boot E (dispatchErrorAndLogout t) m = (Ok (), m') ∧
    m_trace m' = m_trace m ++ EvDispatch (authenticationError t) ::
      expire_events (w_browser (m_world m)).
Proof using.
  unfold dispatchErrorAndLogout. rewrite run_bind, run_dispatch_safe by done.
  destruct (fork_expireSession E (dispatched boot (authenticationError t) m)) as (m' & Hm & Htr).
  exists m'. rewrite Hm, Htr, dispatched_trace, dispatched_browser, <-app_assoc by done. done.
Qed.

Lemma reject_performs E response text m A :
  let status := resp_status <$> response in
  let '(r, m') := run boot E (reject (A:=A) response text) m in
  r = Throws (mk_error (status_class status)
        (if bool_decide (status = Some 403%Z) then forbidden_message text else text)) ∧
  m_trace m' = m_trace m ++
    (if match response with
        | Some r => bool_decide (resp_status r = 401%Z) ||
                    bool_decide (resp_status r = 403%Z) && (is403FromAuthProxy r || isAnonymous r)
        | None => false
        end
     then EvDispatch (authenticationError text) :: expire_events (w_browser (m_world m)) else []).
Proof using.
  destruct (dispatchErrorAndLogout_performs E text m) as (m' & Hm & Htr).
  intros status. subst status. destruct response as [r|]; [|by rewrite app_nil_r].
  unfold reject. cbn [fmap option_fmap option_map].
  destruct (decide (resp_status r = 401%Z)) as [H401|H401].
  { rewrite (bool_decide_true (resp_status r = 401%Z)) by done. cbn [orb]. cbn match.
    rewrite run_bind, Hm. cbn match. rewrite run_throw, Htr, H401. done. }
  rewrite (bool_decide_false (resp_status r = 401%Z)) by done. cbn [orb]. cbn match.
  destruct (decide (resp_status r = 403%Z)) as [H403|H403].
  { rewrite (bool_decide_true (resp_status r = 403%Z)) by done. cbn [andb]. cbn match.
    rewrite run_bind. destruct (is403FromAuthProxy r || isAnonymous r).
    - rewrite Hm. cbn match. rewrite run_throw, Htr, H403. done.
    - rewrite run_ret. cbn match. rewrite run_throw, H403, app_nil_r. done. }
  rewrite !(bool_decide_false (resp_status r = 403%Z)) by done. cbn [andb]. cbn match.
  rewrite run_throw, app_nil_r, bool_decide_false by congruence. done.
Qed.

Lemma handleError_trace E err m text A :
  error_message err = Ok text →
  let status := resp_status <$> axios_response err in
  let b := w_browser (m_world m) in
  let '(r, m') := run boot E (handleError (A:=A) err) m in
  r = Throws (mk_error (status_class status)
        (if bool_decide (status = Some 403%Z) then forbidden_message text else text)) ∧
  m_trace m' = m_trace m ++
    (if network_expired err b then expire_events b
     else if needs_login err then EvDispatch (authenticationError text) :: expire_events b
     else []).
Proof using.
  intros Htext status b. unfold handleError. rewrite run_bind, run_browse. cbn match.
  rewrite run_bind. fold b. destruct (network_expired err b) eqn:Hexp.
  - assert (axios_response err = None) as Hresp.
    { unfold network_expired in Hexp. rewrite !andb_true_iff, !bool_decide_eq_true in Hexp. tauto. }
    destruct (fork_expireSession E (do_browse id m)) as (m' & Hm & Htr).
    subst status. rewrite Hm. cbn match. rewrite run_bind, Htext, run_lift. cbn match.
    rewrite Hresp. unfold reject. rewrite run_throw, Htr, do_browse_trace, do_browse_id. done.
  - rewrite run_ret. cbn match. rewrite run_bind, Htext, run_lift. cbn match.
    pose proof (reject_performs E (axios_response err) text (do_browse id m) A) as Hrej.
    cbv zeta in Hrej. rewrite do_browse_id, do_browse_trace in Hrej. exact Hrej.
Qed.
Lemma expire_events_spec b : expire_events b = session_ends b.
Proof using.
  unfold expire_events, session_ends, usingOIDCToken, proxy_session.
  by repeat (case_bool_decide || case_decide).
Qed.

Lemma network_expired_spec err b : network_expired err b = true ↔ proxy_unreachable err b.
Proof using.
  unfold network_expired, proxy_unreachable, usingOIDCToken, proxy_session.
  rewrite !andb_true_iff, !bool_decide_eq_true. tauto.
Qed.

Lemma from_proxy_spec d :
  is403FromAuthProxy (mkAxiosResponse 403 d) = true ↔ from_proxy d.
Proof using.
  unfold is403FromAuthProxy, from_proxy. cbn [resp_status resp_data].
  rewrite bool_decide_true by done. cbn [andb].
  assert (∀ x, (negb (jtruthy x) || negb (jtruthy (jget x "message"))) =
    negb (jtruthy (jget x "message"))) as Hfalsy.
  { intros x. destruct x; cbn; rewrite ?orb_true_r; done. }
  rewrite Hfalsy. destruct d as [| |b|n|x|s|l|fs]; try (rewrite negb_true_iff; naive_solver).
  cbn. destruct (truthy s) eqn:Hs; [destruct (includes _ s) eqn:Hi|]; cbn; split; try done.
  - intros [_ Hno]. by rewrite (Hno s) in Hi.
  - by intros _; split; [|intros ? [= <-]].
  - intros _. split; [done|]. intros ? [= <-]. unfold truthy in Hs.
    apply bool_decide_eq_false, dec_stable in Hs. by subst s.
Qed.

Lemma about_anonymous_spec d : isAnonymous (mkAxiosResponse 403 d) = true ↔ about_anonymous d.
Proof using.
  unfold isAnonymous, about_anonymous. cbn [resp_data]. split.
  - destruct (jtruthy (jget d "message")); [destruct (jget d "message") eqn:Hm|destruct d eqn:Hm]; try done;
      intros Hi; (eexists; split; [by rewrite Hi|]); auto.
  - intros (x & Hi & [Hm|Hd]).
    + rewrite Hm. cbn [jtruthy]. destruct (truthy x) eqn:Ht; [by apply Is_true_true|].
      unfold truthy in Ht. apply bool_decide_eq_false, dec_stable in Ht. by subst x.
    + subst d. by apply Is_true_true.
Qed.

Lemma needs_login_spec err : needs_login err = true ↔ user_refused err.
Proof using.
  unfold needs_login, user_refused. destruct (axios_response err) as [[status d]|]; cbn.
  - rewrite orb_true_iff, andb_true_iff, orb_true_iff, !bool_decide_eq_true.
    split.
    + intros [->|[-> H12]]; [by eauto|]. do 2 eexists. split; [done|]. right. split; [done|].
      by rewrite <-from_proxy_spec, <-about_anonymous_spec.
    + intros (? & ? & [= <- <-] & [->|[-> H12]]); [by left|]. right. split; [done|].
      by rewrite from_proxy_spec, about_anonymous_spec.
  - split; [done|]. by intros (? & ? & ? & _).
Qed.

(** C6: A failed request reaches its caller as an error of the class of the status of the response
    (401, 403, 404, 409, 422, 500, any other) or, without a response, as an [Error].  The user is
    told and the session ended exactly when the status is 401, or is 403 and the refusal comes from
    the proxy or is about the anonymous user; a failure without a response ends the session, without
    a word, exactly when it is the "Network Error" without a code that a session of the proxy meets;
    nothing is dispatched otherwise. *)
Theorem handleError_performs E err m text A :
  error_message err = Ok text →
  let b := w_browser (m_world m) in
  let '(r, m') := run boot E (handleError (A:=A) err) m in
  (∃ cls, error_class (axios_response err) cls ∧
     r = Throws (mk_error cls (if decide (resp_status <$> axios_response err = Some 403%Z)
                               then forbidden_message text else text))) ∧
  (user_refused err →
     m_trace m' = m_trace m ++ EvDispatch (authenticationError text) :: session_ends b) ∧
  (proxy_unreachable err b → m_trace m' = m_trace m ++ [EvDispatch (setSessionExpired true)]) ∧
  (¬ user_refused err → ¬ proxy_unreachable err b → m_trace m' = m_trace m).
Proof using.
  intros Htext b. pose proof (handleError_trace E err m text A Htext) as Hp. cbv zeta in Hp. fold b in Hp.
  destruct (run boot E (handleError err) m) as [r m']. destruct Hp as [-> Htr].
  split; [eexists; split; [apply error_class_of|by rewrite decide_bool_decide]|]. rewrite Htr.
  pose proof (network_expired_spec err b) as Hn. pose proof (needs_login_spec err) as Hl.
  rewrite expire_events_spec. split_and!.
  - intros Hu. destruct (network_expired err b) eqn:En.
    + destruct (proj1 Hn eq_refl) as (Hnone & _). destruct Hu as (? & ? & Hsome & _). congruence.
    + by rewrite (proj2 Hl Hu).
  - intros Hu. rewrite (proj2 Hn Hu). destruct Hu as (_ & _ & _ & Hs). unfold session_ends.
    by rewrite decide_True.
  - intros Hnu Hnp. destruct (network_expired err b); [by destruct Hnp; apply Hn|].
    destruct (needs_login err); [by destruct Hnu; apply Hl|]. by rewrite app_nil_r.
Qed.
End axios.
