(* ===== verification/ChartsActions.v ===== *)
(** * The thunks of src/dashboard/src/actions/charts.ts

    [fetchChartVersionsAndSelectVersion] sorts in place an array the store holds too:
    the versions it was given are the payload of [receiveChartVersions].  [Mutate] is
    that write; arrays are told apart by their elements. *)

From S2P Require Import Prelude.
From S2P Require Import Json.
From S2P Require Import JsonText.
From S2P Require Import Browser.
From S2P Require Import Types.
From S2P Require Import Url.
From S2P Require Import KubeRef.
From S2P Require Import Actions.
From S2P Require Import ChartsReducer.
From S2P Require Import Store.
From S2P Require Import Thunk.
From S2P Require Import HelmServices.
From S2P Require Import Schema.
From S2P Require Import AppsActions.

#[export] Instance IChartVersion_eq_dec : EqDecision IChartVersion.
Proof.
  assert (EqDecision IRepo) by solve_decision.
  assert (EqDecision IMaintainer) by solve_decision.
  assert (EqDecision IChartAttributes) by solve_decision.
  assert (EqDecision IChartVersionAttributes) by solve_decision.
  solve_decision.
Defined.

Section charts_actions.
Context `{Lodash} `{Jwt} `{Location} `{Router} `{Yaml} `{Ajv} `{Semver} (boot : browser).

Definition chart_error (e : js_error) : prog unit :=
  dispatch (errorChart (mk_error FetchError (message e))).

Definition fetchCharts (cluster namespace repos : string) (page size : Z)
    (query : option string) : prog unit :=
  _ ← dispatch (requestCharts (Some page));
  try_catch
    (response ← await (Chart_fetchCharts cluster namespace repos page size query);
     dispatch (receiveCharts
       {| IReceiveChartsActionPayload_items := page_data response;
          IReceiveChartsActionPayload_page := page;
          IReceiveChartsActionPayload_totalPages :=
            IChartListMeta_totalPages (page_meta response) |}))
    chart_error.

Definition fetchChartCategories (cluster namespace : string) : prog unit :=
  _ ← dispatch requestChartsCategories;
  try_catch
    (categories ← await (Chart_fetchChartCategories cluster namespace);
     match categories with
     | Some categories => dispatch (receiveChartCategories categories)
     | None => mret ()
     end)
    (λ e, dispatch (errorChartCatetories (mk_error FetchError (message e)))).

Definition fetchChartVersions (cluster namespace id : string)
    : prog (option (list IChartVersion)) :=
  _ ← dispatch (requestCharts None);
  try_catch
    (versions ← await (Chart_fetchChartVersions cluster namespace id);
     _ ← match versions with
         | Some versions => dispatch (receiveChartVersions versions)
         | None => mret ()
         end;
     mret versions)
    (λ e, _ ← chart_error e; mret (Some [])).

(** The errors [getChart] passes over: the chart has no values, or no schema. *)
Definition unless_not_found {A} (d : A) (e : js_error) : prog A :=
  if bool_decide (constructor e ≠ NotFoundError) then Throw e else mret d.

(** The values and the schema are assigned one after the other: when there is no schema
    the values are kept. *)
Definition getChart (cluster namespace id version : string)
    : prog (option IChartVersion * string * json) :=
  chartVersion ← await (Chart_getChartVersion cluster namespace id version);
  match chartVersion with
  | Some _ =>
    '(values, schema) ←
      after (await (Chart_getValues cluster namespace id version))
        (λ values,
          after (await (Chart_getSchema cluster namespace id version))
            (λ schema, mret (values, schema))
            (unless_not_found (values, JObj [])))
        (unless_not_found ("", JObj []));
    mret (chartVersion, values, schema)
  | None => mret (chartVersion, "", JObj [])
  end.

Definition getChartVersion (cluster namespace id version : string) : prog unit :=
  try_catch
    (_ ← dispatch requestChart;
     '(chartVersion, values, schema) ← await (getChart cluster namespace id version);
     match chartVersion with
     | Some cv => dispatch (selectChartVersion cv (Some values) (Some schema))
     | None => mret ()
     end)
    chart_error.

Definition getDeployedChartVersion (cluster namespace id version : string) : prog unit :=
  try_catch
    (_ ← dispatch requestDeployedChartVersion;
     '(chartVersion, values, schema) ← await (getChart cluster namespace id version);
     match chartVersion with
     | Some cv => dispatch (receiveDeployedChartVersion cv (Some values) (Some schema))
     | None => mret ()
     end)
    chart_error.

Definition cv_version (cv : IChartVersion) : string :=
  IChartVersionAttributes_version (IChartVersion_attributes cv).

(** [(a, b) => semver.compare(b.attributes.version, a.attributes.version)] *)
Definition newest_first (a b : IChartVersion) : outcome Z :=
  semver_compare (cv_version b) (cv_version a).

(** The array of the store, when it is the one that was sorted. *)
Definition sort_stored (versions sorted : list IChartVersion) (s : IStoreState) : IStoreState :=
  let charts := s_charts s in
  if bool_decide (selected_versions (IChartState_selected charts) = versions) then
    mkIStoreState (s_router s) (s_apps s) (s_auth s)
      (charts <| IChartState_selected :=
                   (IChartState_selected charts) <| selected_versions := sorted |> |>)
      (s_config s) (s_kube s) (s_clusters s) (s_repos s) (s_operators s)
  else s.

(** The version that is selected: the requested one, or the newest. *)
Definition pick_version (sorted : list IChartVersion) (version : option string)
    : outcome IChartVersion :=
  newest ← require "attributes" (head sorted);
  if truthy_opt version then
    match find (λ v, bool_decide (cv_version v = default "" version)) sorted with
    | Some found => Ok found
    | None => Throws (mk_error Error "could not find chart version")
    end
  else Ok newest.

Definition fetchChartVersionsAndSelectVersion (cluster namespace id : string)
    (version : option string) : prog unit :=
  versions ← await (fetchChartVersions cluster namespace id);
  versions ← lift (require "length" versions);
  if bool_decide (0 < length versions) then
    sorted ← lift (sort_by newest_first versions);
    Mutate (sort_stored versions sorted)
      (cv ← lift (pick_version sorted version);
       dispatch (selectChartVersion cv None None))
  else mret ().

Definition getChartReadme (cluster namespace id version : string) : prog unit :=
  try_catch
    (readme ← await (Chart_getReadme cluster namespace id version);
     dispatch (selectReadme readme))
    (λ e, dispatch (errorReadme (error_toString e))).

(** ** Facts *)

(** What [getChart] answers: the values and the schema are optional for the server, any
    other failure is the failure of the whole. *)
Definition getChart_outcome (E : env) (cluster namespace id version : string) (n : nat)
    : outcome (option IChartVersion * string * json) * list request :=
  let cv_req := get_request (api_charts_getVersion cluster namespace id version) in
  let values_req := get_request (api_charts_getValues cluster namespace id version) in
  let schema_req := get_request (api_charts_getSchema cluster namespace id version) in
  let not_found {A} (e : js_error) (a : A) : outcome A :=
    if bool_decide (constructor e ≠ NotFoundError) then Throws e else Ok a in
  match env_reply E n axiosWithAuth cv_req T_chart_version with
  | Throws e => (Throws e, [cv_req])
  | Ok r =>
    match data r with
    | None => (Ok (None, "", JObj []), [cv_req])
    | Some cv =>
      match env_reply E (S (S n)) axiosWithAuth values_req T_string with
      | Throws e => (not_found e (Some cv, "", JObj []), [cv_req; values_req])
      | Ok values =>
        (match env_reply E (S (S (S (S n)))) axiosWithAuth schema_req T_json with
         | Throws e => not_found e (Some cv, values, JObj [])
         | Ok schema => Ok (Some cv, values, schema)
         end, [cv_req; values_req; schema_req])
      end
    end
  end.

Lemma getChart_performs E c ns id v m :
  let '(r, reqs) := getChart_outcome E c ns id v (m_ticks m) in
  performs boot E (getChart c ns id v) m r (EvRequest axiosWithAuth <$> reqs) [].
Proof using.
  unfold getChart_outcome, getChart, Chart_getChartVersion, Chart_getValues, Chart_getSchema.
  set (r1 := get_request _). set (r2 := get_request _). set (r3 := get_request _).
  unfold performs. run_steps. read_machine.
  destruct (env_reply E (m_ticks m) axiosWithAuth r1 T_chart_version) as [[[cv|]]|e];
    run_reduce; run_steps; read_machine; [|by (split_and!; rewrite ?app_nil_r)..].
  destruct (env_reply E (S (S (m_ticks m))) axiosWithAuth r2 T_string) as [values|e];
    run_reduce; run_steps; read_machine.
  - destruct (env_reply E _ axiosWithAuth r3 T_json) as [schema|e];
      run_reduce; run_steps; read_machine; unfold unless_not_found; try case_bool_decide;
      run_steps; read_machine; by (split_and!; rewrite ?app_nil_r).
  - unfold unless_not_found; case_bool_decide; run_steps; read_machine;
      by (split_and!; rewrite ?app_nil_r).
Qed.

(** Selecting a version of a chart shows its values and its schema when the server has
    them: a missing schema leaves the values and an empty schema, missing values leave
    both empty and no schema is asked for, and any other failure is reported instead of
    the version. *)
Theorem getChartVersion_performs E c ns id v m :
  let '(r, reqs) := getChart_outcome E c ns id v (m_ticks m) in
  performs boot E (getChartVersion c ns id v) m (Ok ())
    (EvDispatch requestChart :: (EvRequest axiosWithAuth <$> reqs) ++
     match r with
     | Ok (Some cv, values, schema) =>
       [EvDispatch (selectChartVersion cv (Some values) (Some schema))]
     | Ok (None, _, _) => []
     | Throws e => [EvDispatch (errorChart (mk_error FetchError (message e)))]
     end) [].
Proof using.
  pose proof (getChart_performs E c ns id v (dispatched boot requestChart m)) as Hg.
  rewrite dispatched_ticks in Hg.
  destruct (getChart_outcome E c ns id v (m_ticks m)) as [r reqs].
  apply performs_run in Hg as (m' & Hm & Htr & Hfk).
  unfold performs, getChartVersion, chart_error. run_steps. rewrite Hm. cbn match.
  destruct r as [[[[cv|] values] schema]|e]; run_steps; read_machine;
    rewrite Htr, Hfk, dispatched_trace, dispatched_forked, <-app_assoc, ?app_nil_r;
    by (split_and!; rewrite <-?app_assoc, ?app_nil_r).
Qed.

Definition versions_of (s : IStoreState) : list IChartVersion :=
  selected_versions (IChartState_selected (s_charts s)).

(** The machine when the versions have been received and the wait for them is over. *)
Definition versions_received (E : env) (req : request) (vs : list IChartVersion) (m : machine)
    : machine :=
  do_tick boot E (dispatched boot (receiveChartVersions vs)
    (do_tick boot E (do_tick boot E
      (m_log (EvRequest axiosWithAuth req) (dispatched boot (requestCharts None) m))))).

Lemma newest_first_total :
  total_cmp newest_first (λ v, Is_true (semver_valid (cv_version v))).
Proof using.
  destruct semver_total as [H1' H2' H3']. constructor; unfold newest_first.
  - intros x y Hx Hy. by apply H1'.
  - intros x y c Hx Hy Hc Hlt. by apply (H2' (cv_version y) (cv_version x) c).
  - intros x y z c d Hx Hy Hz Hxy Hc Hyz Hd.
    by apply (H3' (cv_version z) (cv_version y) (cv_version x) d c).
Qed.

(** With valid versions the newest one is selected, or the requested one when it is in
    the list and an exception when it is not; and the list the store shows is left sorted,
    newest first, although no action says so, unless it was replaced in the meantime. *)
Theorem select_newest_version E c ns id version m vs :
  let req := get_request (api_charts_listVersions c ns id) in
  let m1 := versions_received E req vs m in
  env_reply E (m_ticks m) axiosWithAuth req T_chart_versions = Ok (mkEnvelope (Some vs)) →
  vs ≠ [] → Forall (λ v, Is_true (semver_valid (cv_version v))) vs →
  ∃ newest sorted, newest ∈ vs ∧ sorted ≡ₚ vs ∧
    (∀ d, d ∈ vs → d = newest ∨
       ∃ k, semver_compare (cv_version d) (cv_version newest) = Ok k ∧ (k <= 0)%Z) ∧
    let selected :=
      if truthy_opt version
      then List.find (λ v, bool_decide (cv_version v = default "" version)) sorted
      else Some newest in
    let '(r, m') := run boot E (fetchChartVersionsAndSelectVersion c ns id version) m in
    r = (if selected then Ok () else Throws (mk_error Error "could not find chart version")) ∧
    m_trace m' = m_trace m ++
      [EvDispatch (requestCharts None); EvRequest axiosWithAuth req;
       EvDispatch (receiveChartVersions vs)] ++
      (if selected is Some cv then [EvDispatch (selectChartVersion cv None None)] else []) ∧
    versions_of (m_store m') =
      (if bool_decide (versions_of (m_store m1) = vs) then sorted else versions_of (m_store m1)).
Proof using.
  intros req m1 Hr Hne Hall.
  destruct (sort_by_total _ _ newest_first_total vs Hall) as (sorted & Hsort & Hs & Hp).
  destruct sorted as [|newest rest]; [by apply Permutation_nil in Hp|].
  exists newest, (newest :: rest). split; [rewrite <-Hp; left|]. split; [done|]. split.
  { intros d Hd. rewrite <-Hp in Hd. apply elem_of_cons in Hd as [->|Hd]; [by left|right].
    apply StronglySorted_inv in Hs as [_ Hs]. rewrite Forall_forall in Hs. by apply Hs. }
  intros selected.
  assert (run boot E (await (fetchChartVersions c ns id)) m = (Ok (Some vs), m1)) as Hfetch.
  { unfold fetchChartVersions, Chart_fetchChartVersions. fold req. run_steps. read_machine.
    rewrite Hr. run_reduce. run_steps. reflexivity. }
  assert (m_trace m1 = m_trace m ++ [EvDispatch (requestCharts None); EvRequest axiosWithAuth req;
    EvDispatch (receiveChartVersions vs)]) as Htr1.
  { subst m1. unfold versions_received. by read_machine. }
  unfold fetchChartVersionsAndSelectVersion. rewrite run_bind, Hfetch. cbn match.
  rewrite run_bind, run_lift. cbn [require]. cbn match.
  rewrite bool_decide_true by (destruct vs; [done|simpl; lia]).
  rewrite run_bind, run_lift, Hsort. cbn match. rewrite run_mutate, run_bind, run_lift.
  set (m2 := do_mutate (sort_stored vs (newest :: rest)) m1).
  assert (m_trace m2 = m_trace m1) as Htr2 by done.
  assert (versions_of (m_store m2) = (if bool_decide (versions_of (m_store m1) = vs)
    then newest :: rest else versions_of (m_store m1))) as Hstored.
  { subst m2. unfold do_mutate, m_put, sort_stored. cbn [m_store fst].
    unfold versions_of. by case_bool_decide. }
  assert (pick_version (newest :: rest) version =
    if selected is Some cv then Ok cv else Throws (mk_error Error "could not find chart version"))
    as ->.
  { unfold pick_version, selected, find. cbn [head require mbind outcome_bind].
    by destruct (truthy_opt version). }
  destruct selected as [cv|]; cbn match.
  - rewrite run_dispatch_safe by done. split; [done|]. split.
    + by rewrite dispatched_trace, Htr2, Htr1, <-app_assoc.
    + rewrite <-Hstored.
      destruct (dispatched_state boot (selectChartVersion cv None None) m2 I)
        as (kw & _ & _ & _ & Hch & _).
      unfold versions_of. by rewrite Hch.
  - split; [done|]. by rewrite Htr2, Htr1, app_nil_r.
Qed.
End charts_actions.
