(* ===== verification/NamespaceActions.v ===== *)
(** * The thunks of src/dashboard/src/actions/namespace.ts *)

From S2P Require Import Prelude.
From S2P Require Import Json.
From S2P Require Import JsonText.
From S2P Require Import Browser.
From S2P Require Import Types.
From S2P Require Import Url.
From S2P Require Import KubeRef.
From S2P Require Import Actions.
From S2P Require Import ConfigReducer.
From S2P Require Import ClusterReducer.
From S2P Require Import Store.
From S2P Require Import Thunk.
From S2P Require Import HelmServices.
From S2P Require Import KubeServices.

Section namespace_actions.
Context `{Lodash} `{Jwt} `{Location} `{Router} (boot : browser).

(** A write of [localStorage] that may throw before it is made. *)
Definition browse_or_throw (f : browser → outcome browser) : prog unit :=
  b ← browse (λ b, match f b with Ok b' => b' | Throws _ => b end);
  lift (_ ← f b; Ok ()).

Definition no_namespaces : js_error :=
  mk_error Error "The current account does not have access to any namespaces".

Definition resource_name (n : IResource) : string :=
  IResourceMetadata_name (IResource_metadata n).

Definition fetchNamespaces (cluster : string) : prog (list string) :=
  try_catch
    (namespaceList ← await (Namespace_list cluster);
     let namespaceStrings := resource_name <$> default [] namespaceList in
     if bool_decide (length namespaceStrings = 0) then
       _ ← dispatch (errorNamespaces cluster no_namespaces "list");
       mret []
     else
       _ ← dispatch (receiveNamespaces cluster namespaceStrings);
       mret namespaceStrings)
    (λ e,
     _ ← dispatch (errorNamespaces cluster e "list");
     mret []).

Definition createNamespace (cluster ns : string) : prog bool :=
  try_catch
    (_ ← await (Namespace_create cluster ns);
     _ ← dispatch (postNamespace cluster ns);
     _ ← fork (fetchNamespaces cluster);
     mret true)
    (λ e,
     _ ← dispatch (errorNamespaces cluster e "create");
     mret false).

Definition getNamespace (cluster ns : string) : prog bool :=
  try_catch
    (_ ← dispatch (requestNamespace cluster ns);
     namespace ← await (Namespace_get cluster ns);
     _ ← dispatch (receiveNamespace cluster namespace);
     mret true)
    (λ e,
     _ ← dispatch (errorNamespaces cluster e "get");
     mret false).

Definition setNamespace (cluster ns : string) : prog unit :=
  _ ← browse_or_throw (setStoredNamespace cluster ns);
  dispatch (setNamespaceState cluster ns).

Definition canCreate (cluster : string) : prog unit :=
  try_catch
    (allowed ← await (Kube_canI cluster "" "namespaces" "create" "");
     dispatch (setAllowCreate cluster allowed))
    (λ e, dispatch (errorNamespaces cluster e "get")).

(** ** Facts *)

Definition list_request (cluster : string) : request :=
  get_request (backend_namespaces_list cluster).

Definition create_request (cluster ns : string) : request :=
  post_request (api_k8s_namespaces cluster)
    (JObj [("apiVersion", JStr "v1"); ("kind", JStr "Namespace");
           ("metadata", JObj [("name", JStr ns)])]).

Lemma fetchNamespaces_starts c m :
  ∃ q, run_sync boot (fetchNamespaces c) m = (q, m_log (EvRequest axiosWithAuth (list_request c)) m)
    ∧ waiting q.
Proof using. eexists. split; [reflexivity|done]. Qed.

Lemma setStoredNamespace_get cluster ns b b' c :
  stored_ok b → setStoredNamespace cluster ns b = Ok b' → plain_key c →
  getStoredNamespace c b' = if bool_decide (c = cluster) then JStr ns else getStoredNamespace c b.
Proof using.
  intros Hok Hset Hc.
  destruct (setStoredNamespace_parse cluster ns b Hok) as (b2 & fs & Hb2 & Hfs & Hfs2 & _).
  rewrite Hset in Hb2. injection Hb2 as <-.
  unfold getStoredNamespace. rewrite Hfs, Hfs2, !get_key by done. simpl. rewrite assoc_obj_set.
  by case_bool_decide.
Qed.

(** Selecting a namespace is remembered: the store shows the cluster and the namespace,
    a later session reads it back from the browser, what the browser remembers of the
    other clusters is kept, and whatever token the browser holds stays. *)
Theorem setNamespace_remembers E c ns m :
  stored_ok (w_browser (m_world m)) → plain_key c →
  let '(r, m') := run boot E (setNamespace c ns) m in
  let b := w_browser (m_world m) in
  let b' := w_browser (m_world m') in
  r = Ok () ∧ stored_ok b' ∧
  getStoredNamespace c b' = JStr ns ∧
  (∀ c', plain_key c' → c' ≠ c → getStoredNamespace c' b' = getStoredNamespace c' b) ∧
  getAuthToken b' = getAuthToken b ∧
  IClustersState_currentCluster (s_clusters (m_store m')) = Some c ∧
  (IClustersState_clusters (s_clusters (m_store m')) !! c ≫= IClusterState_currentNamespace) =
    Some ns.
Proof using.
  intros Hok Hc. destruct (setStoredNamespace_parse c ns _ Hok) as (b2 & fs & Hb2 & _ & _ & Hok2).
  unfold setNamespace, browse_or_throw. rewrite !run_bind, run_browse. cbn match.
  rewrite run_lift, Hb2. cbn [mbind outcome_bind]. cbn match.
  rewrite run_dispatch_safe by done.
  set (m1 := do_browse _ m). assert (w_browser (m_world m1) = b2) as Hm1.
  { unfold m1. by rewrite do_browse_browser, Hb2. }
  assert (s_clusters (m_store (dispatched boot (setNamespaceState c ns) m1)) =
    set_entry c ((spread_entry (s_clusters (m_store m1))
                    (property_key (IClustersState_currentCluster (s_clusters (m_store m1)))))
                   <| IClusterState_currentNamespace := Some ns |>
                   <| IClusterState_error := None |>)
      ((s_clusters (m_store m1)) <| IClustersState_currentCluster := Some c |>)) as Hcl
    by reflexivity.
  rewrite dispatched_browser, Hm1 by done. rewrite Hcl.
  split_and!; try done.
  - rewrite (setStoredNamespace_get c ns _ b2 c Hok Hb2 Hc). by rewrite bool_decide_true.
  - intros c' Hc' Hne. rewrite (setStoredNamespace_get c ns _ b2 c' Hok Hb2 Hc').
    by rewrite bool_decide_false.
  - unfold setStoredNamespace in Hb2. destruct (parseStoredNS _); try done; injection Hb2 as <-;
      unfold getAuthToken; by rewrite getItem_setItem, bool_decide_false.
  - simpl. by rewrite lookup_insert_eq.
Qed.

(** A created namespace makes the list of namespaces be asked for again, without
    waiting for it; a refused one is reported as a failed creation and nothing is
    listed. *)
Theorem createNamespace_relists E c ns m :
  let '(r, m') := run boot E (createNamespace c ns) m in
  match env_reply E (m_ticks m) axiosWithAuth (create_request c ns) T_resource with
  | Ok _ =>
    r = Ok true ∧
    m_trace m' = m_trace m ++
      [EvRequest axiosWithAuth (create_request c ns); EvDispatch (postNamespace c ns);
       EvRequest axiosWithAuth (list_request c)] ∧
    length (m_forked m') = S (length (m_forked m))
  | Throws e =>
    r = Ok false ∧
    m_trace m' = m_trace m ++
      [EvRequest axiosWithAuth (create_request c ns);
       EvDispatch (errorNamespaces c e "create")] ∧
    m_forked m' = m_forked m
  end.
Proof using.
  unfold createNamespace, Namespace_create. fold (create_request c ns).
  unfold http. rewrite run_try, !run_bind, run_await, run_send_receive, run_lift. cbn match.
  destruct (env_reply _ _ _ _ _) as [res|e]; cbn match.
  - rewrite run_bind, run_dispatch_safe by done. cbn match. rewrite run_bind.
    destruct (fetchNamespaces_starts c (dispatched boot (postNamespace c ns)
      (do_tick boot E (do_tick boot E (m_log (EvRequest axiosWithAuth (create_request c ns)) m)))))
      as (q & Hq & Hw).
    rewrite (run_fork_waiting boot E _ _ _ _ Hq Hw). cbn match. rewrite run_ret. cbn match.
    cbn [m_fork m_trace m_forked m_log]. read_machine. split; [done|].
    split; [by rewrite <-?app_assoc|]. rewrite length_app. simpl. lia.
  - run_steps. read_machine. done.
Qed.
End namespace_actions.
