(* ===== verification/ReposActions.v ===== *)
(** * The thunks of src/dashboard/src/actions/repos.ts *)

From S2P Require Import Prelude.
From S2P Require Import Json.
From S2P Require Import JsonText.
From S2P Require Import Browser.
From S2P Require Import Types.
From S2P Require Import Url.
From S2P Require Import KubeRef.
From S2P Require Import Actions.
From S2P Require Import ConfigReducer.
From S2P Require Import ReposReducer.
From S2P Require Import ClusterReducer.
From S2P Require Import Store.
From S2P Require Import Thunk.
From S2P Require Import HelmServices.
From S2P Require Import Schema.
From S2P Require Import AppsActions.

(** [data[k]] of a value of type [any]: [null] and [undefined] have no properties. *)
Definition member (j : json) (k : string) : outcome json :=
  match j with
  | JNull | JUndefined => Throws (undefined_access k)
  | _ => Ok (jget j k)
  end.

Lemma member_Ok j k v : member j k = Ok v → v = jget j k.
Proof. destruct j; simpl; congruence. Qed.

Lemma member_at j k v : jget j k = v → v ≠ JUndefined → member j k = Ok v.
Proof. destruct j; simpl; congruence. Qed.

(** The current cluster, as the addresses of requests read it. *)
Definition currentCluster `{Router} (st : IStoreState) : string :=
  property_key (IClustersState_currentCluster (s_clusters st)).

(** The arguments [installRepo] and [updateRepo] share. *)
Record repo_args := mkRepoArgs {
  ra_name : string; ra_namespace : string; ra_repoURL : string; ra_type : string;
  ra_description : string; ra_authHeader : string; ra_authRegCreds : string; ra_customCA : string;
  ra_syncJobPodTemplate : string; ra_registrySecrets : list string;
  ra_ociRepositories : list string; ra_skipTLS : bool; ra_passCredentials : bool;
  ra_filter : option IAppRepositoryFilter;
}.

Section repos_actions.
Context `{Lodash} `{Jwt} `{Location} `{Router} `{Yaml} (boot : browser).

(** [catch (e) { dispatch(errorRepos(e, op)) }] *)
Definition or_errorRepos (op : repos_op) (p : prog unit) : prog unit :=
  try_catch p (λ e, dispatch (errorRepos e op)).

Definition succeeds_or_errorRepos (op : repos_op) (p : prog bool) : prog bool :=
  try_catch p (λ e, _ ← dispatch (errorRepos e op); mret false).

Definition deleteRepo (name namespace : string) : prog bool :=
  st ← getState;
  succeeds_or_errorRepos op_delete
    (_ ← await (AppRepository_delete (currentCluster st) namespace name);
     mret true).

Definition resyncRepo (name namespace : string) : prog unit :=
  st ← getState;
  or_errorRepos op_update
    (_ ← await (AppRepository_resync (currentCluster st) namespace name);
     mret ()).

Definition resyncAllRepos (repos : list IAppRepositoryKey) : prog unit :=
  for_each (λ repo, fork (resyncRepo (IAppRepositoryKey_name repo)
                            (IAppRepositoryKey_namespace repo))) repos.

Definition fetchRepoSecret (namespace name : string) : prog unit :=
  st ← getState;
  or_errorRepos op_fetch
    (secret ← await (Secret_get (currentCluster st) namespace name);
     dispatch (receiveReposSecret secret)).

Definition repo_uid (r : IAppRepository) : string := IK8sMetadata_uid (IK8sObject_metadata r).

Definition fetchRepos (namespace : string) (listGlobal : bool) : prog unit :=
  st ← getState;
  let kubeappsNamespace := IConfigState_kubeappsNamespace (s_config st) in
  or_errorRepos op_fetch
    (_ ← dispatch (requestRepos namespace);
     repos ← await (AppRepository_list (currentCluster st) namespace);
     if negb listGlobal || bool_decide (namespace = kubeappsNamespace) then
       dispatch (receiveRepos (IK8sList_items repos))
     else
       _ ← dispatch (requestRepos kubeappsNamespace);
       globalRepos ← await (AppRepository_list (currentCluster st) kubeappsNamespace);
       dispatch (receiveRepos
         (uniqBy repo_uid (IK8sList_items repos ++ IK8sList_items globalRepos)))).

Definition parsePodTemplate (syncJobPodTemplate : string) : outcome json :=
  if truthy syncJobPodTemplate then yaml_load syncJobPodTemplate else Ok (JObj []).

Definition installRepo (a : repo_args) : prog bool :=
  st ← getState;
  succeeds_or_errorRepos op_create
    (syncJobPodTemplateObj ← lift (parsePodTemplate (ra_syncJobPodTemplate a));
     _ ← dispatch addRepo;
     data ← await (AppRepository_create (currentCluster st) (ra_name a) (ra_namespace a)
              (ra_repoURL a) (ra_type a) (ra_description a) (ra_authHeader a)
              (ra_authRegCreds a) (ra_customCA a) syncJobPodTemplateObj (ra_registrySecrets a)
              (ra_ociRepositories a) (ra_skipTLS a) (ra_passCredentials a) (ra_filter a));
     _ ← dispatch (addedRepo (ICreateAppRepositoryResponse_appRepository data));
     mret true).

(** The secrets an updated repository uses are fetched again, each once. *)
Definition refetch_secrets (namespace : string) (repo : IAppRepository) : prog unit :=
  match IK8sObject_spec repo ≫= IAppRepositorySpec_auth with
  | Some auth =>
    secretName ←
      match IAppRepositoryAuth_header_secretKeyRef auth with
      | Some header =>
        _ ← fork (fetchRepoSecret namespace (ISecretKeyRef_name header));
        mret (ISecretKeyRef_name header)
      | None => mret ""
      end;
    match IAppRepositoryAuth_customCA_secretKeyRef auth with
    | Some customCA =>
      if bool_decide (secretName ≠ ISecretKeyRef_name customCA)
      then fork (fetchRepoSecret namespace (ISecretKeyRef_name customCA))
      else mret ()
    | None => mret ()
    end
  | None => mret ()
  end.

Definition updateRepo (a : repo_args) : prog bool :=
  st ← getState;
  succeeds_or_errorRepos op_update
    (syncJobPodTemplateObj ← lift (parsePodTemplate (ra_syncJobPodTemplate a));
     _ ← dispatch requestRepoUpdate;
     data ← await (AppRepository_update (currentCluster st) (ra_name a) (ra_namespace a)
              (ra_repoURL a) (ra_type a) (ra_description a) (ra_authHeader a)
              (ra_authRegCreds a) (ra_customCA a) syncJobPodTemplateObj (ra_registrySecrets a)
              (ra_ociRepositories a) (ra_skipTLS a) (ra_passCredentials a) (ra_filter a));
     let appRepository := ICreateAppRepositoryResponse_appRepository data in
     _ ← dispatch (repoUpdated appRepository);
     _ ← refetch_secrets (ra_namespace a) appRepository;
     mret true).

(** The namespace is read before the [try]: no entry for the current cluster is an
    exception of the thunk. *)
Definition validateRepo (repoURL type authHeader authRegCreds customCA : string)
    (ociRepositories : list string) (skipTLS passCredentials : bool) : prog bool :=
  st ← getState;
  entry ← lift (require "currentNamespace"
            (IClustersState_clusters (s_clusters st) !! currentCluster st));
  let namespace := property_key (IClusterState_currentNamespace entry) in
  succeeds_or_errorRepos op_validate
    (_ ← dispatch repoValidating;
     data ← await (AppRepository_validate (currentCluster st) namespace repoURL type authHeader
              authRegCreds customCA ociRepositories skipTLS passCredentials);
     code ← lift (member data "code");
     if bool_decide (code = JNum 200) then
       _ ← dispatch (repoValidated data);
       mret true
     else
       _ ← dispatch (errorRepos (mk_error Error (JSON_text data)) op_validate);
       mret false).

(** The repository is read outside of the [try]. *)
Definition checkChart (cluster repoNamespace repo chartName : string) : prog bool :=
  _ ← dispatch requestRepo;
  appRepository ← await (AppRepository_get cluster repoNamespace repo);
  try_catch
    (_ ← await (Chart_fetchChartVersions cluster repoNamespace (repo +:+ "/" +:+ chartName));
     _ ← dispatch (receiveRepo appRepository);
     mret true)
    (λ _,
     _ ← dispatch (errorChart (mk_error NotFoundError
           ("Chart " +:+ chartName +:+ " not found in the repository " +:+ repo +:+ ".")));
     mret false).

Definition fetchImagePullSecrets (namespace : string) : prog unit :=
  st ← getState;
  or_errorRepos op_fetch
    (_ ← dispatch (requestImagePullSecrets namespace);
     secrets ← await (Secret_list (currentCluster st) namespace
                 (Some "type=kubernetes.io/dockerconfigjson"));
     dispatch (receiveImagePullSecrets (IK8sList_items secrets))).

Definition createDockerRegistrySecret (name user password email server namespace : string)
    : prog bool :=
  st ← getState;
  succeeds_or_errorRepos op_fetch
    (secret ← await (Secret_createPullSecret (currentCluster st) name user password email server
                namespace);
     _ ← dispatch (createImagePullSecret secret);
     mret true).

(** ** Facts *)

Definition list_repos_request (cluster namespace : string) : request :=
  get_request (backend_apprepositories_list cluster namespace).

(** What [fetchRepos] finds, with the events up to there. *)
Definition fetchRepos_outcome (E : env) (st : IStoreState) (ns : string) (listGlobal : bool)
    (n : nat) : outcome (list IAppRepository) * list event :=
  let kns := IConfigState_kubeappsNamespace (s_config st) in
  let own := list_repos_request (currentCluster st) ns in
  let global := list_repos_request (currentCluster st) kns in
  let tr := [EvDispatch (requestRepos ns); EvRequest axiosWithAuth own] in
  match env_reply E n axiosWithAuth own T_repo_list with
  | Throws e => (Throws e, tr)
  | Ok l =>
    if negb listGlobal || bool_decide (ns = kns) then (Ok (IK8sList_items l), tr)
    else
      (match env_reply E (S (S n)) axiosWithAuth global T_repo_list with
       | Throws e => Throws e
       | Ok g => Ok (uniqBy repo_uid (IK8sList_items l ++ IK8sList_items g))
       end, tr ++ [EvDispatch (requestRepos kns); EvRequest axiosWithAuth global])
  end.

Lemma dispatched_repos a m :
  safe_action a → s_repos (m_store (dispatched boot a m)) = reposReducer (s_repos (m_store m)) a.
Proof using. intros Ha. destruct (dispatched_state boot a m Ha) as (kw & _ & _ & _ & _ & ? & _). done. Qed.

Lemma fetchRepos_run E ns g m :
  let '(o, tr) := fetchRepos_outcome E (m_store m) ns g (m_ticks m) in
  ∃ m1, m_trace m1 = m_trace m ++ tr ∧ m_forked m1 = m_forked m ∧
    run boot E (fetchRepos ns g) m =
    match o with
    | Ok repos => (Ok (), dispatched boot (receiveRepos repos) m1)
    | Throws e => (Ok (), dispatched boot (errorRepos e op_fetch) m1)
    end.
Proof using.
  unfold fetchRepos, fetchRepos_outcome, or_errorRepos, AppRepository_list.
  rewrite run_bind, run_getState. cbn match. run_steps. read_machine. fold (list_repos_request (currentCluster (m_store m)) ns).
  set (st := m_store m). set (kns := IConfigState_kubeappsNamespace (s_config st)).
  fold (list_repos_request (currentCluster st) kns).
  destruct (env_reply E (m_ticks m) _ _ T_repo_list) as [l|e]; cbn match.
  - destruct (negb g || bool_decide (ns = kns)).
    + run_steps. eexists. split; [|split]; cycle 2; [reflexivity|by read_machine..].
    + run_steps. read_machine.
      destruct (env_reply E (S (S (m_ticks m))) _ _ T_repo_list) as [gl|e]; run_steps;
        (eexists; split; [|split]; cycle 2; [reflexivity|by read_machine..]).
  - run_steps. eexists. split; [|split]; cycle 2; [reflexivity|by read_machine..].
Qed.

(** C9: Listing the repositories of a namespace together with the global ones shows every
    repository of the two lists once: no identifier twice, each one of theirs present, the
    namespace's own repositories first and in their order, and nothing else; and the
    repositories are no longer loading. *)
Theorem fetchRepos_merges E ns m l g :
  let cluster := currentCluster (m_store m) in
  let kns := IConfigState_kubeappsNamespace (s_config (m_store m)) in
  ns ≠ kns → NoDup (repo_uid <$> IK8sList_items l) →
  env_reply E (m_ticks m) axiosWithAuth (list_repos_request cluster ns) T_repo_list = Ok l →
  env_reply E (S (S (m_ticks m))) axiosWithAuth (list_repos_request cluster kns) T_repo_list
    = Ok g →
  let '(r, m') := run boot E (fetchRepos ns true) m in
  let shown := repos_repos (s_repos (m_store m')) in
  let both := IK8sList_items l ++ IK8sList_items g in
  r = Ok () ∧ NoDup (repo_uid <$> shown) ∧
  IK8sList_items l `prefix_of` shown ∧
  (∀ i, i ∈ repo_uid <$> shown ↔ i ∈ repo_uid <$> both) ∧ shown ⊆ both ∧
  fetching_repositories (repos_isFetchingElem (s_repos (m_store m'))) = false.
Proof using.
  intros cluster kns Hns Hnd Hl Hg. pose proof (fetchRepos_run E ns true m) as Hrun.
  unfold fetchRepos_outcome in Hrun. fold cluster kns in Hrun. rewrite Hl in Hrun. cbn match in Hrun.
  rewrite bool_decide_false in Hrun by done. simpl orb in Hrun. cbn match in Hrun.
  rewrite Hg in Hrun. destruct Hrun as (m1 & _ & _ & ->).
  rewrite dispatched_repos by done. set (repos := uniqBy _ _).
  assert (repos_repos (reposReducer (s_repos (m_store m1)) (receiveRepos repos)) = repos) as ->
    by done.
  split_and!; [done|apply uniqBy_NoDup| |by intros i; apply uniqBy_keys| |done].
  - rewrite <-(uniqBy_id repo_uid (IK8sList_items l)) at 1 by done. apply uniqBy_prefix.
  - intros r. apply uniqBy_elem_of.
Qed.

(** The requests of [refetch_secrets]. *)
Definition secrets_used (repo : IAppRepository) : list string :=
  match IK8sObject_spec repo ≫= IAppRepositorySpec_auth with
  | Some auth =>
    match IAppRepositoryAuth_header_secretKeyRef auth,
          IAppRepositoryAuth_customCA_secretKeyRef auth with
    | Some h, Some ca =>
      if bool_decide (ISecretKeyRef_name h ≠ ISecretKeyRef_name ca)
      then [ISecretKeyRef_name h; ISecretKeyRef_name ca] else [ISecretKeyRef_name h]
    | Some h, None => [ISecretKeyRef_name h]
    | None, Some ca =>
      if bool_decide ("" ≠ ISecretKeyRef_name ca) then [ISecretKeyRef_name ca] else []
    | None, None => []
    end
  | None => []
  end.

Definition secret_request (st : IStoreState) (ns name : string) : request :=
  get_request (api_k8s_secret (currentCluster st) ns name).

Lemma fork_fetchRepoSecret E ns name m :
  ∃ q, run boot E (fork (fetchRepoSecret ns name)) m =
    (Ok (), m_fork q (m_log (EvRequest axiosWithAuth (secret_request (m_store m) ns name)) m)).
Proof using.
  eexists. apply run_fork_waiting; [reflexivity|done].
Qed.

Lemma refetch_secrets_run E ns repo m :
  ∃ m', run boot E (refetch_secrets ns repo) m = (Ok (), m') ∧ m_store m' = m_store m ∧
    m_trace m' = m_trace m ++
      ((λ n, EvRequest axiosWithAuth (secret_request (m_store m) ns n)) <$> secrets_used repo) ∧
    length (m_forked m') = length (m_forked m) + length (secrets_used repo).
Proof using.
  unfold refetch_secrets, secrets_used.
  destruct (IK8sObject_spec repo ≫= IAppRepositorySpec_auth) as [[oh oca]|];
    [|exists m; rewrite app_nil_r; split_and!; try done; simpl; lia].
  cbn [IAppRepositoryAuth_header_secretKeyRef IAppRepositoryAuth_customCA_secretKeyRef].
  destruct oh as [h|]; rewrite !run_bind.
  - destruct (fork_fetchRepoSecret E ns (ISecretKeyRef_name h) m) as (q & ->).
    cbn beta match. rewrite run_ret. cbn beta match. set (m1 := m_fork _ _).
    destruct oca as [ca|]; [case_bool_decide|]; rewrite ?run_ret;
      [|eexists; (split; [reflexivity|]); split_and!; try done; subst m1; simpl;
        rewrite length_app; simpl; lia..].
    destruct (fork_fetchRepoSecret E ns (ISecretKeyRef_name ca) m1) as (q2 & ->).
    eexists. split; [reflexivity|]. subst m1. split_and!; [done| |].
    + simpl. by rewrite <-app_assoc.
    + simpl. rewrite !length_app. simpl. lia.
  - rewrite run_ret. cbn beta match.
    destruct oca as [ca|]; [case_bool_decide|]; rewrite ?run_ret;
      [|exists m; rewrite app_nil_r; split_and!; try done; simpl; lia..].
    destruct (fork_fetchRepoSecret E ns (ISecretKeyRef_name ca) m) as (q2 & ->).
    eexists. split; [reflexivity|]. split_and!; [done|done|].
    simpl. rewrite length_app. simpl. lia.
Qed.

Definition create_repo_request (st : IStoreState) (a : repo_args) (template : json) : request :=
  AppRepository_create_request (currentCluster st) (ra_name a) (ra_namespace a) (ra_repoURL a)
    (ra_type a) (ra_description a) (ra_authHeader a) (ra_authRegCreds a) (ra_customCA a) template
    (ra_registrySecrets a) (ra_ociRepositories a) (ra_skipTLS a) (ra_passCredentials a)
    (ra_filter a).

Definition update_repo_request (st : IStoreState) (a : repo_args) (template : json) : request :=
  AppRepository_update_request (currentCluster st) (ra_name a) (ra_namespace a) (ra_repoURL a)
    (ra_type a) (ra_description a) (ra_authHeader a) (ra_authRegCreds a) (ra_customCA a) template
    (ra_registrySecrets a) (ra_ociRepositories a) (ra_skipTLS a) (ra_passCredentials a)
    (ra_filter a).

(** No request that changes anything. *)
Definition reads_only (e : event) : Prop :=
  match e with EvRequest _ r => req_method r = GET | EvDispatch _ => True end.

Lemma installRepo_submits E a m template :
  parsePodTemplate (ra_syncJobPodTemplate a) = Ok template →
  let req := create_repo_request (m_store m) a template in
  let reply := env_reply E (m_ticks m) axiosWithAuth req T_repo_response in
  ∃ m' rest,
    run boot E (installRepo a) m = (Ok (match reply with Ok _ => true | Throws _ => false end), m') ∧
    m_trace m' = m_trace m ++ EvDispatch addRepo :: EvRequest axiosWithAuth req :: rest ∧
    Forall reads_only rest.
Proof using.
  intros Ht req reply. unfold installRepo, succeeds_or_errorRepos, AppRepository_create, http.
  rewrite run_bind, run_getState. cbn beta match.
  rewrite run_try, run_bind, run_lift, Ht. cbn beta match.
  rewrite run_bind, run_dispatch_safe by done. cbn beta match.
  rewrite run_bind, run_await, run_send_receive, run_lift.
  fold (create_repo_request (m_store m) a template). fold req. read_machine. fold reply.
  destruct reply as [d|e]; cbn beta match; run_steps; do 2 eexists;
    (split; [reflexivity|]); read_machine; (split; [by rewrite <-?app_assoc|by repeat constructor]).
Qed.

Lemma updateRepo_submits E a m template :
  parsePodTemplate (ra_syncJobPodTemplate a) = Ok template →
  let req := update_repo_request (m_store m) a template in
  let reply := env_reply E (m_ticks m) axiosWithAuth req T_repo_response in
  ∃ m' rest,
    run boot E (updateRepo a) m = (Ok (match reply with Ok _ => true | Throws _ => false end), m') ∧
    m_trace m' = m_trace m ++ EvDispatch requestRepoUpdate :: EvRequest axiosWithAuth req :: rest ∧
    Forall reads_only rest.
Proof using.
  intros Ht req reply. unfold updateRepo, succeeds_or_errorRepos, AppRepository_update, http.
  rewrite run_bind, run_getState. cbn beta match.
  rewrite run_try, run_bind, run_lift, Ht. cbn beta match.
  rewrite run_bind, run_dispatch_safe by done. cbn beta match.
  rewrite run_bind, run_await, run_send_receive, run_lift.
  fold (update_repo_request (m_store m) a template). fold req. read_machine. fold reply.
  destruct reply as [d|e]; cbn beta match;
    [|run_steps; do 2 eexists; (split; [reflexivity|]); read_machine;
      (split; [by rewrite <-?app_assoc|by repeat constructor])].
  set (m1 := do_tick _ _ _). set (repo := ICreateAppRepositoryResponse_appRepository d).
  rewrite run_bind, run_dispatch_safe by done. cbn beta match. rewrite run_bind.
  destruct (refetch_secrets_run E (ra_namespace a) repo (dispatched boot (repoUpdated repo) m1))
    as (m2 & -> & _ & Htr & _).
  cbn beta match. rewrite run_ret. cbn beta match. do 2 eexists. split; [reflexivity|].
  rewrite Htr, dispatched_trace. subst m1. read_machine. split; [by rewrite <-?app_assoc|].
  constructor; [done|]. apply Forall_fmap, Forall_forall. done.
Qed.

Lemma updated_repos state repo r :
  r ∈ repos_repos (reposReducer state (repoUpdated repo)) → same_repo r repo → r = repo.
Proof using.
  simpl. intros (r' & -> & Hr')%list_elem_of_fmap. destruct (same_repo r' repo) eqn:Hs; [done|].
  by rewrite Hs.
Qed.

(** C10: Updating a repository: a template that does not parse is reported and nothing is
    sent; otherwise the repository is sent, a refusal is reported, and an acceptance
    replaces the repository in the store and asks again, without waiting, for each of the
    secrets it now uses, once. *)
Theorem updateRepo_effects E a m :
  let st := m_store m in
  let '(r, m') := run boot E (updateRepo a) m in
  match parsePodTemplate (ra_syncJobPodTemplate a) with
  | Throws e =>
    r = Ok false ∧ m_trace m' = m_trace m ++ [EvDispatch (errorRepos e op_update)] ∧
    m_forked m' = m_forked m
  | Ok template =>
    let req := update_repo_request st a template in
    match env_reply E (m_ticks m) axiosWithAuth req T_repo_response with
    | Throws e =>
      r = Ok false ∧ m_forked m' = m_forked m ∧
      m_trace m' = m_trace m ++
        [EvDispatch requestRepoUpdate; EvRequest axiosWithAuth req;
         EvDispatch (errorRepos e op_update)]
    | Ok d =>
      let repo := ICreateAppRepositoryResponse_appRepository d in
      r = Ok true ∧ length (m_forked m') = length (m_forked m) + length (secrets_used repo) ∧
      m_trace m' = m_trace m ++
        [EvDispatch requestRepoUpdate; EvRequest axiosWithAuth req; EvDispatch (repoUpdated repo)]
        ++ ((λ n, EvRequest axiosWithAuth (secret_request (m_store m') (ra_namespace a) n))
              <$> secrets_used repo) ∧
      (∀ r', r' ∈ repos_repos (s_repos (m_store m')) → same_repo r' repo → r' = repo)
    end
  end.
Proof using.
  intros st. unfold updateRepo, succeeds_or_errorRepos, AppRepository_update.
  rewrite run_bind, run_getState. cbn beta match. fold st. unfold http.
  rewrite run_try, run_bind, run_lift.
  destruct (parsePodTemplate _) as [template|e]; cbn beta match;
    [|by run_steps; read_machine].
  rewrite run_bind, run_dispatch_safe by done. cbn beta match.
  rewrite run_bind, run_await, run_send_receive, run_lift. fold (update_repo_request st a template).
  read_machine. destruct (env_reply _ _ _ _ _) as [d|e]; cbn beta match;
    [|by run_steps; read_machine].
  set (m1 := do_tick _ _ _). set (repo := ICreateAppRepositoryResponse_appRepository d).
  rewrite run_bind, run_dispatch_safe by done. cbn beta match. rewrite run_bind.
  destruct (refetch_secrets_run E (ra_namespace a) repo (dispatched boot (repoUpdated repo) m1))
    as (m2 & -> & Hst & Htr & Hfk).
  cbn beta match. rewrite run_ret. cbn beta match.
  rewrite Hfk, Htr, Hst, dispatched_forked, dispatched_trace. subst m1. read_machine.
  split_and!; [done|done|by rewrite <-?app_assoc|].
  intros r'. rewrite dispatched_repos by done. apply updated_repos.
Qed.

(** The filter of a repository is sent under the name the backend reads when it is
    created, and under another name when it is updated: the backend, which reads
    [filterRule], is never told of a filter that was changed. *)
Theorem update_loses_filter st a template :
  let sent req := jget (jget (req_body req) "appRepository") "filterRule" in
  sent (create_repo_request st a template) = filter_json (ra_filter a) ∧
  sent (update_repo_request st a template) = JUndefined ∧
  (∀ f, ra_filter a = Some f → filter_json (ra_filter a) ≠ JUndefined) ∧
  ∀ k, k ≠ "filter" → k ≠ "filterRule" →
    jget (jget (req_body (update_repo_request st a template)) "appRepository") k =
    jget (jget (req_body (create_repo_request st a template)) "appRepository") k.
Proof using.
  intros sent. split_and!; [done..|by intros f ->|].
  intros k Hf Hr. cbn. unfold jget, default, id, assoc. repeat case_bool_decide; congruence.
Qed.

(** A repository is valid when the backend answers with the code 200: the thunk answers
    true and the store keeps no validation error; any other answer, and any failure of the
    request, is kept as the validation error and answered with false; and in every case
    no validation is left under way. *)
Theorem validateRepo_verdict E url type header creds ca oci tls pass m entry :
  let st := m_store m in
  IClustersState_clusters (s_clusters st) !! currentCluster st = Some entry →
  let req := AppRepository_validate_request (currentCluster st)
    (property_key (IClusterState_currentNamespace entry)) url type header creds ca oci tls pass in
  let verdict :=
    d ← env_reply E (m_ticks m) axiosWithAuth req T_json;
    code ← member d "code";
    if bool_decide (code = JNum 200) then Ok d else Throws (mk_error Error (JSON_text d)) in
  let '(r, m') := run boot E (validateRepo url type header creds ca oci tls pass) m in
  r = Ok (match verdict with Ok _ => true | Throws _ => false end) ∧
  m_trace m' = m_trace m ++
    [EvDispatch repoValidating; EvRequest axiosWithAuth req;
     match verdict with
     | Ok d => EvDispatch (repoValidated d)
     | Throws e => EvDispatch (errorRepos e op_validate)
     end] ∧
  repos_validating (s_repos (m_store m')) = false ∧
  errors_validate (repos_errors_ (s_repos (m_store m'))) =
    match verdict with Ok _ => None | Throws e => Some e end.
Proof using.
  intros st Hentry req verdict. unfold validateRepo, succeeds_or_errorRepos, AppRepository_validate.
  rewrite run_bind, run_getState. cbn beta match. fold st. rewrite run_bind, run_lift, Hentry.
  cbn beta match delta [require]. fold req. unfold http.
  rewrite run_try, run_bind, run_dispatch_safe by done. cbn beta match.
  rewrite run_bind, run_await, run_send_receive, run_lift. read_machine.
  unfold verdict. clear verdict.
  destruct (env_reply _ _ _ _ _) as [d|e]; cbn beta match delta [mbind outcome_bind].
  1: rewrite run_bind, run_lift; destruct (member d "code") as [code|e]; cbn beta match delta [mbind outcome_bind].
  1: case_bool_decide.
  all: run_steps; rewrite ?dispatched_repos by done; read_machine;
    (split_and!; [done|by rewrite <-?app_assoc|done..]).
Qed.
End repos_actions.
