(* ===== verification/OperatorsActions.v ===== *)
(** * The thunks of src/dashboard/src/actions/operators.ts

    The lists of operators and of cluster service versions are sorted by name with a
    comparator that never answers 0: the language leaves the order of objects with the
    same name open, and the statements below do not depend on it.  [getResources] sends
    all its requests at once and handles the responses as they arrive; other thunks run
    between any two of them. *)

From S2P Require Import Prelude.
From S2P Require Import Json.
From S2P Require Import JsonText.
From S2P Require Import Browser.
From S2P Require Import Types.
From S2P Require Import Url.
From S2P Require Import KubeRef.
From S2P Require Import Actions.
From S2P Require Import OperatorsReducer.
From S2P Require Import Store.
From S2P Require Import Thunk.
From S2P Require Import HelmServices.
From S2P Require Import KubeServices.

(** ** Sorting by name *)
Section by_name.
Context {A : Type} (name : A → string).

(** [(o1, o2) => o1.metadata.name > o2.metadata.name ? 1 : -1] *)
Definition by_name (o1 o2 : A) : outcome Z :=
  Ok (if String.ltb (name o2) (name o1) then 1 else -1)%Z.

Lemma ltb_leb s t : String.ltb t s = negb (String.leb s t).
Proof using. unfold String.ltb, String.leb. rewrite String.compare_antisym. by destruct (s ?= t)%string. Qed.

Lemma by_name_le x y : cmp_le by_name x y ↔ String.le (name x) (name y).
Proof using.
  unfold cmp_le, by_name, String.le. rewrite ltb_leb.
  destruct (String.leb (name x) (name y)); simpl; split; try done.
  - intros _. by eexists.
  - intros (c & [= <-] & ?). lia.
Qed.

Lemma by_name_total : total_cmp by_name (λ _, True).
Proof using.
  constructor.
  - intros x y _ _. by eexists.
  - intros x y c _ _ Hc Hlt. apply by_name_le.
    destruct (total String.le (name x) (name y)) as [Hle|]; [|done].
    apply by_name_le in Hle as (d & Hd & Hle). rewrite Hc in Hd. injection Hd as ->. lia.
  - intros x y z c d _ _ _ Hc Hcle Hd Hdle. apply by_name_le.
    etrans; apply by_name_le; by eexists.
Qed.

Lemma sort_by_name l :
  ∃ r, sort_by by_name l = Ok r ∧ r ≡ₚ l ∧ StronglySorted String.le (name <$> r).
Proof using.
  destruct (sort_by_total _ _ by_name_total l) as (r & Hr & Hs & Hp).
  { by apply Forall_true. }
  exists r. split_and!; [done..|]. clear Hr Hp.
  induction Hs as [|x r Hs IH Hx]; simpl; constructor; [done|].
  rewrite Forall_fmap. eapply Forall_impl; [done|]. intros y. apply by_name_le.
Qed.
End by_name.

Section operators_actions.
Context `{Lodash} `{Jwt} `{Location} `{Router} (boot : browser).

(** Other thunks run before the next response is handled. *)
Definition turn : prog unit := Await (Ret ()).

Definition checkOLMInstalled (cluster namespace : string) : prog bool :=
  _ ← dispatch checkingOLM;
  try_catch
    (installed ← await (Operators_isOLMInstalled cluster namespace);
     _ ← (if installed : bool then dispatch OLMInstalled else mret ());
     mret installed)
    (λ e, _ ← dispatch (errorOLMCheck e); mret false).

Definition operator_name (o : IPackageManifest) : string :=
  IResourceMetadata_name (IResource_metadata o).
Definition csv_name (c : IClusterServiceVersion) : string :=
  IResourceMetadata_name (IResource_metadata c).

Definition getOperators (cluster namespace : string) : prog unit :=
  _ ← dispatch requestOperators;
  try_catch
    (operators ← await (Operators_getOperators cluster namespace);
     sortedOp ← lift (sort_by (by_name operator_name) operators);
     dispatch (receiveOperators sortedOp))
    (λ e, dispatch (errorOperators e)).

Definition getOperator (cluster namespace operatorName : string) : prog unit :=
  _ ← dispatch requestOperator;
  try_catch
    (operator ← await (Operators_getOperator cluster namespace operatorName);
     dispatch (receiveOperator operator))
    (λ e, dispatch (errorOperators e)).

Definition getCSVs (cluster namespace : string) : prog (list IClusterServiceVersion) :=
  _ ← dispatch requestCSVs;
  try_catch
    (csvs ← await (Operators_getCSVs cluster namespace);
     sortedCSVs ← lift (sort_by (by_name csv_name) csvs);
     _ ← dispatch (receiveCSVs sortedCSVs);
     mret sortedCSVs)
    (λ e, _ ← dispatch (errorCSVs e); mret []).

Definition getCSV (cluster namespace name : string) : prog (option IClusterServiceVersion) :=
  _ ← dispatch requestCSV;
  try_catch
    (csv ← await (Operators_getCSV cluster namespace name);
     _ ← dispatch (receiveCSV csv);
     mret (Some csv))
    (λ e, _ ← dispatch (errorCSVs e); mret None).

Definition createResource (cluster namespace apiVersion resource : string) (body : json)
    : prog bool :=
  _ ← dispatch creatingResource;
  try_catch
    (r ← await (Operators_createResource cluster namespace apiVersion resource body);
     _ ← dispatch (resourceCreated r);
     mret true)
    (λ e, _ ← dispatch (errorResourceCreate e); mret false).

Definition deleteResource (cluster namespace plural : string) (resource : IResource)
    : prog bool :=
  _ ← dispatch deletingResource;
  try_catch
    (_ ← await (Operators_deleteResource cluster namespace (IResource_apiVersion resource) plural
           (IResourceMetadata_name (IResource_metadata resource)));
     _ ← dispatch resourceDeleted;
     mret true)
    (λ e, _ ← dispatch (errorResourceDelete e); mret false).

Definition updateResource (cluster namespace apiVersion resource name : string) (body : json)
    : prog bool :=
  _ ← dispatch updatingResource;
  try_catch
    (r ← await (Operators_updateResource cluster namespace apiVersion resource name body);
     _ ← dispatch (resourceUpdated r);
     mret true)
    (λ e, _ ← dispatch (errorResourceUpdate e); mret false).

(** The plural and the group. *)
Definition parseCRD (crdName : string) : string * string :=
  let parsedCRD := split_on "." crdName in
  (match parsedCRD with p :: _ => p | [] => "" end, join "." (slice_from 1 parsedCRD)).

Definition crd_apiVersion (crd : IClusterServiceVersionCRD) : string :=
  (parseCRD (IClusterServiceVersionCRD_name crd)).2 +:+ "/" +:+ IClusterServiceVersionCRD_version crd.
Definition crd_plural (crd : IClusterServiceVersionCRD) : string :=
  (parseCRD (IClusterServiceVersionCRD_name crd)).1.

Definition crd_request (cluster namespace : string) (crd : IClusterServiceVersionCRD) : request :=
  listResources_request cluster namespace (crd_apiVersion crd) (crd_plural crd).

(** The responses in the order they arrive. *)
Fixpoint collect_resources (arrived : list (nat * outcome (IK8sList IResource)))
    (resources : list IResource) : prog (list IResource) :=
  match arrived with
  | [] => mret resources
  | (_, Ok csvResources) :: rest =>
    _ ← turn;
    collect_resources rest (resources ++ IK8sList_items csvResources)
  | (_, Throws e) :: rest =>
    _ ← turn;
    _ ← dispatch (errorCustomResource e);
    collect_resources rest resources
  end.

Definition getResources (cluster namespace : string) : prog (list IResource) :=
  _ ← dispatch requestCustomResources;
  csvs ← await (getCSVs cluster namespace);
  let crds := csvs ≫= λ csv, default [] (owned_crds csv) in
  arrived ← http_all axiosWithAuth (crd_request cluster namespace <$> crds) T_resource_list;
  resources ← await (collect_resources arrived []);
  _ ← dispatch (receiveCustomResources resources);
  mret resources.

Definition getResource (cluster namespace csvName crdName resourceName : string) : prog unit :=
  _ ← dispatch requestCustomResource;
  csv ← await (getCSV cluster namespace csvName);
  match csv with
  | Some c =>
    definitions ← lift (require "owned"
                    (IClusterServiceVersionSpec_customresourcedefinitions (IResource_spec c)));
    match definitions ≫= find (λ c, bool_decide (IClusterServiceVersionCRD_name c = crdName)) with
    | Some crd =>
      try_catch
        (resource ← await (Operators_getResource cluster namespace (crd_apiVersion crd)
                       (crd_plural crd) resourceName);
         dispatch (receiveCustomResource resource))
        (λ e, dispatch (errorCustomResource e))
    | None =>
      dispatch (errorCustomResource (mk_error Error
        ("Not found a valid CRD definition for " +:+ csvName +:+ "/" +:+ crdName)))
    end
  | None =>
    dispatch (errorCustomResource (mk_error Error
      ("CSV " +:+ csvName +:+ " not found in " +:+ namespace)))
  end.

Definition createOperator (cluster namespace name channel installPlanApproval csv : string)
    : prog bool :=
  _ ← dispatch creatingOperator;
  try_catch
    (r ← await (Operators_createOperator cluster namespace name channel installPlanApproval csv);
     _ ← dispatch (operatorCreated r);
     mret true)
    (λ e, _ ← dispatch (errorOperatorCreate e); mret false).

Definition listSubscriptions (cluster namespace : string) : prog bool :=
  _ ← dispatch requestSubscriptions;
  try_catch
    (globalSubs ← await (Operators_listSubscriptions cluster "operators");
     items ← (if bool_decide (namespace ≠ "operators") then
                r ← await (Operators_listSubscriptions cluster namespace);
                mret (IK8sList_items globalSubs ++ IK8sList_items r)
              else mret (IK8sList_items globalSubs));
     _ ← dispatch (receiveSubscriptions items);
     mret true)
    (λ e, _ ← dispatch (errorSubscriptionList e); mret false).

(** ** Facts *)

Lemma dispatched_operators a m :
  safe_action a →
  s_operators (m_store (dispatched boot a m)) = operatorReducer (s_operators (m_store m)) a.
Proof using.
  intros Ha. destruct (dispatched_state boot a m Ha) as (kw & _ & _ & _ & _ & _ & ? & _). done.
Qed.

(** The responses that are resources, and those that are errors. *)
Definition arrived_items (arrived : list (nat * outcome (IK8sList IResource))) : list IResource :=
  arrived ≫= λ p, match p.2 with Ok l => IK8sList_items l | Throws _ => [] end.
Definition arrived_errors (arrived : list (nat * outcome (IK8sList IResource))) : list js_error :=
  arrived ≫= λ p, match p.2 with Ok _ => [] | Throws e => [e] end.

Lemma collect_resources_run E arrived resources m :
  performs boot E (collect_resources arrived resources) m
    (Ok (resources ++ arrived_items arrived))
    ((λ e, EvDispatch (errorCustomResource e)) <$> arrived_errors arrived) [].
Proof using.
  unfold performs. revert resources m.
  induction arrived as [|[i [l|e]] arrived IH]; intros resources m; cbn [collect_resources].
  - unfold arrived_items. simpl. by rewrite !app_nil_r.
  - unfold turn. rewrite run_bind. cbn [run]. destruct (IH (resources ++ IK8sList_items l) (do_tick boot E m))
      as (Hr & Htr & Hfk). rewrite Hr, Htr, Hfk. read_machine.
    done.
  - unfold turn. rewrite run_bind. cbn [run].
    rewrite run_bind, run_dispatch_safe by done.
    destruct (IH resources (dispatched boot (errorCustomResource e) (do_tick boot E m)))
      as (Hr & Htr & Hfk). rewrite Hr, Htr, Hfk. read_machine.
    done.
Qed.

Definition csvs_request (cluster namespace : string) : request :=
  get_request (api_k8s_operators_clusterServiceVersions cluster namespace).

(** [getCSVs] answers the list it shows, and an empty one on a failure. *)
Lemma getCSVs_run E c ns m :
  ∃ sorted, sorted ≡ₚ match env_reply E (m_ticks m) axiosWithAuth (csvs_request c ns) T_csvs with
                      | Ok l => IK8sList_items l
                      | Throws _ => []
                      end ∧
    StronglySorted String.le (csv_name <$> sorted) ∧
    performs boot E (getCSVs c ns) m (Ok sorted)
      [EvDispatch requestCSVs; EvRequest axiosWithAuth (csvs_request c ns);
       match env_reply E (m_ticks m) axiosWithAuth (csvs_request c ns) T_csvs with
       | Ok _ => EvDispatch (receiveCSVs sorted)
       | Throws e => EvDispatch (errorCSVs e)
       end] [] ∧
    m_ticks (run boot E (getCSVs c ns) m).2 = S (S (m_ticks m)).
Proof using.
  unfold performs, getCSVs, Operators_getCSVs. fold (csvs_request c ns). run_steps. read_machine.
  destruct (env_reply E (m_ticks m) _ _ T_csvs) as [l|e].
  - destruct (sort_by_name csv_name (IK8sList_items l)) as (r & Hr & Hp & Hs). exists r.
    run_steps. rewrite Hr. run_steps. read_machine. by rewrite ?app_nil_r.
  - exists []. run_steps. read_machine. rewrite ?app_nil_r. split_and!; try done. constructor.
Qed.

Lemma arrived_items_perm a a' : a ≡ₚ a' → arrived_items a ≡ₚ arrived_items a'.
Proof using. apply bind_Permutation. Qed.
Lemma arrived_errors_perm a a' : a ≡ₚ a' → arrived_errors a ≡ₚ arrived_errors a'.
Proof using. apply bind_Permutation. Qed.

Lemma imap_bind_snd {A B C} (g : A → B) (f : B → list C) l :
  (imap (λ i x, (i, g x)) l ≫= λ p, f p.2) = ((g <$> l) ≫= f).
Proof using.
  assert (snd <$> imap (λ i x, (i, g x)) l = g <$> l) as <- by (rewrite fmap_imap; apply imap_const).
  by rewrite list_fmap_bind.
Qed.

(** C15: Listing the custom resources of a namespace: one request for each resource
    definition that its operators own, all sent before any answer; in whatever order the
    answers arrive, what is shown is the resources of the answers, each as often as it was
    answered, every failed request is reported once, and one failure does not hide the
    resources of the others. *)
Theorem getResources_merges E c ns m :
  let reply := env_reply E (m_ticks m) axiosWithAuth (csvs_request c ns) T_csvs in
  let csvs := match reply with Ok l => IK8sList_items l | Throws _ => [] end in
  let answers sorted :=
    (λ crd, env_reply E (3 + m_ticks m) axiosWithAuth (crd_request c ns crd) T_resource_list)
      <$> (sorted ≫= λ csv, default [] (owned_crds csv)) in
  ∃ sorted shown errors,
    sorted ≡ₚ csvs ∧
    shown ≡ₚ (answers sorted ≫= λ a, match a with Ok l => IK8sList_items l | Throws _ => [] end) ∧
    errors ≡ₚ (answers sorted ≫= λ a, match a with Ok _ => [] | Throws e => [e] end) ∧
    performs boot E (getResources c ns) m (Ok shown)
      ([EvDispatch requestCustomResources; EvDispatch requestCSVs;
        EvRequest axiosWithAuth (csvs_request c ns);
        EvDispatch (match reply with Ok _ => receiveCSVs sorted | Throws e => errorCSVs e end)]
       ++ ((λ crd, EvRequest axiosWithAuth (crd_request c ns crd))
             <$> (sorted ≫= λ csv, default [] (owned_crds csv)))
       ++ ((λ e, EvDispatch (errorCustomResource e)) <$> errors)
       ++ [EvDispatch (receiveCustomResources shown)]) [] ∧
    operators_resources (s_operators (m_store (run boot E (getResources c ns) m).2)) = shown.
Proof using.
  intros reply csvs answers.
  destruct (getCSVs_run E c ns (dispatched boot requestCustomResources m))
    as (sorted & Hp & _ & Hperf & Ht).
  rewrite dispatched_ticks in *. fold reply in Hp, Hperf. fold csvs in Hp.
  destruct (performs_run _ _ _ _ _ _ _ Hperf) as (m1 & Hrun & Htr & Hfk). rewrite Hrun in Ht. cbn [snd] in Ht.
  set (crds := sorted ≫= λ csv, default [] (owned_crds csv)).
  set (reqs := crd_request c ns <$> crds).
  set (arrived := arrivals E (m_ticks (do_tick boot E m1)) axiosWithAuth reqs T_resource_list).
  destruct (collect_resources_run E arrived [] (do_tick boot E (log_requests axiosWithAuth reqs
    (do_tick boot E m1)))) as (Hr2 & Htr2 & Hfk2).
  set (m2 := (run boot E (collect_resources arrived []) _).2) in *.
  assert (arrived ≡ₚ imap (λ i crd, (i, env_reply E (3 + m_ticks m) axiosWithAuth
    (crd_request c ns crd) T_resource_list)) crds) as Harr.
  { unfold arrived. rewrite (arrivals_perm E). unfold reqs. rewrite imap_fmap, do_tick_ticks, Ht. done. }
  assert (run boot E (getResources c ns) m =
    (Ok (arrived_items arrived), dispatched boot (receiveCustomResources (arrived_items arrived))
                                   (do_tick boot E m2))) as Hgo.
  { unfold getResources. rewrite run_bind, run_dispatch_safe by done. cbn beta match.
    rewrite run_bind, run_await, Hrun. cbn beta match zeta. fold crds. fold reqs.
    rewrite run_bind.
    pose proof (run_http_all boot E axiosWithAuth reqs T_resource_list (do_tick boot E m1)) as Hall.
    cbn [denote] in Hall. rewrite Hall. fold arrived. cbn beta match.
    rewrite run_bind, run_await. rewrite (surjective_pairing (run boot E (collect_resources _ _) _)).
    fold m2. rewrite Hr2. cbn beta match. rewrite run_bind, run_dispatch_safe by done.
    cbn beta match. rewrite run_ret. done. }
  exists sorted, (arrived_items arrived), (arrived_errors arrived). split_and!; [done| | | |].
  - etrans; [apply arrived_items_perm, Harr|]. apply reflexive_eq.
    apply (imap_bind_snd _ (λ a, match a with Ok l => IK8sList_items l | Throws _ => [] end)).
  - etrans; [apply arrived_errors_perm, Harr|]. apply reflexive_eq.
    apply (imap_bind_snd _ (λ a, match a with Ok _ => [] | Throws e => [e] end)).
  - unfold performs. rewrite Hgo. cbn [fst snd]. rewrite dispatched_trace, dispatched_forked, do_tick_trace, do_tick_forked, Htr2, Hfk2.
    read_machine. rewrite Htr, Hfk. read_machine. rewrite ?app_nil_r, <-?app_assoc.
    split_and!; try done. unfold reqs. rewrite <-list_fmap_compose. by destruct reply.
  - rewrite Hgo. cbn [snd]. by rewrite dispatched_operators.
Qed.

(** The requests of the creation of an operator: the group is looked for, created when
    there is none, and only then the subscription is created. *)
Definition createOperator_outcome (E : env) (c ns name channel approval csv : string) (n : nat)
    : outcome IResource * list request :=
  let groups := get_request (api_k8s_operators_operatorGroups c ns) in
  let new_group := post_request (api_k8s_operators_operatorGroups c ns) (operatorGroup_body ns) in
  let subscription := post_request (api_k8s_operators_subscription c ns name)
                        (subscription_body ns name channel approval csv) in
  let subscribe k := env_reply E (k + n) axiosWithAuth subscription T_resource in
  if decide (ns = "operators") then (subscribe 1, [subscription])
  else match env_reply E n axiosWithAuth groups T_resource_list with
       | Throws e => (Throws e, [groups])
       | Ok l =>
         match IK8sList_items l with
         | _ :: _ => (subscribe 2, [groups; subscription])
         | [] =>
           match env_reply E (S n) axiosWithAuth new_group T_resource_list with
           | Throws e => (Throws e, [groups; new_group])
           | Ok _ => (subscribe 3, [groups; new_group; subscription])
           end
         end
       end.

(** An operator is subscribed to only in a namespace that has an operator group: in
    the namespace of the global operators none is needed, elsewhere one is created first
    when there is none, and no subscription is sent when the group could not be found or
    created; the outcome is what the thunk answers and reports. *)
Theorem createOperator_group_first E c ns name channel approval csv m :
  let '(o, reqs) := createOperator_outcome E c ns name channel approval csv (m_ticks m) in
  performs boot E (createOperator c ns name channel approval csv) m
    (Ok (match o with Ok _ => true | Throws _ => false end))
    (EvDispatch creatingOperator :: (EvRequest axiosWithAuth <$> reqs) ++
     [match o with
      | Ok r => EvDispatch (operatorCreated r)
      | Throws e => EvDispatch (errorOperatorCreate e)
      end]) [].
Proof using.
  unfold createOperator_outcome, performs, createOperator, Operators_createOperator,
    Operators_createOperatorGroupIfNotExists.
  set (groups := get_request _). set (new_group := post_request _ (operatorGroup_body ns)).
  set (subscription := post_request _ (subscription_body _ _ _ _ _)).
  destruct (decide (ns = "operators")) as [Hns|Hns];
    [rewrite bool_decide_true by done|rewrite bool_decide_false by done];
    run_steps; read_machine.
  - destruct (env_reply E _ _ subscription T_resource); run_steps; read_machine; by rewrite ?app_nil_r.
  - destruct (env_reply E _ _ groups T_resource_list) as [l|e]; run_steps; read_machine;
      [|by rewrite ?app_nil_r].
    destruct (IK8sList_items l) as [|g gs]; cbn [length];
      [rewrite bool_decide_false by lia|rewrite bool_decide_true by lia]; run_steps; read_machine.
    + destruct (env_reply E _ _ new_group T_resource_list) as [l'|e]; run_steps; read_machine;
        [|by rewrite ?app_nil_r].
      destruct (env_reply E _ _ subscription T_resource); run_steps; read_machine; by rewrite ?app_nil_r.
    + destruct (env_reply E _ _ subscription T_resource); run_steps; read_machine; by rewrite ?app_nil_r.
Qed.
End operators_actions.
