(* ===== verification/KubeActions.v ===== *)
(** * The thunks of src/dashboard/src/actions/kube.tsx

    The listeners that [getAndWatchResource] registers are described, with what they
    do, in KubeWatch.v. *)

From S2P Require Import Prelude.
From S2P Require Import Json.
From S2P Require Import JsonText.
From S2P Require Import Browser.
From S2P Require Import Types.
From S2P Require Import Url.
From S2P Require Import KubeRef.
From S2P Require Import Actions.
From S2P Require Import KubeReducer.
From S2P Require Import Store.
From S2P Require Import Thunk.
From S2P Require Import HelmServices.
From S2P Require Import KubeServices.

Section kube_actions.
Context `{Lodash} `{Jwt} `{Location} `{Router} `{LodashMatches} (boot : browser).

Definition getResourceKinds (cluster : string) : prog unit :=
  _ ← dispatch requestResourceKinds;
  try_catch
    (groups ← await (Kube_getAPIGroups cluster);
     kinds ← await (Kube_getResourceKinds cluster groups);
     dispatch (receiveResourceKinds kinds))
    (λ e, dispatch (receiveKindsError e)).

Definition being_fetched (st : IStoreState) (key : string) : bool :=
  match IKubeState_items (s_kube st) !! key with
  | Some existing => IKubeItem_isFetching existing
  | None => false
  end.

Definition getResource (ref : ResourceRef) (polling : bool) : prog unit :=
  let key := getResourceURL ref in
  st ← getState;
  if being_fetched st key then mret ()
  else
    _ ← (if negb polling then dispatch (requestResource key) else mret ());
    try_catch
      (r ← await (ResourceRef_getResource ref);
       dispatch (receiveResource key r))
      (λ e, dispatch (receiveResourceError key e)).

Definition getAndWatchResource (ref : ResourceRef) : prog unit :=
  _ ← fork (getResource ref false);
  dispatch (openWatchResource ref (on_message ref) (on_error ref)).

(** ** Facts *)

Definition ref_request (ref : ResourceRef) : request := get_request (getResourceURL ref).

(** The object a response is shown as. *)
Definition shown_object (ref : ResourceRef) (o : kube_object) : kube_object :=
  match kube_object_items o with
  | Some items =>
    mkKubeObject (kube_object_props o) (Some (List.filter (lodash_matches (ref_filter ref)) items))
  | None => o
  end.

Lemma shown_item key item m :
  IKubeState_items (s_kube (m_store (dispatched boot (receiveResource key item) m))) !! key =
    Some (received item).
Proof using.
  apply lookup_insert_eq.
Qed.

Lemma error_item key e m :
  IKubeState_items (s_kube (m_store (dispatched boot (receiveResourceError key e) m))) !! key =
    Some {| IKubeItem_isFetching := false; IKubeItem_item := None; IKubeItem_error := Some e |}.
Proof using.
  apply lookup_insert_eq.
Qed.

(** A resource that is being fetched is not asked for again, and nothing changes;
    otherwise it is asked for once, at the address of the reference, with no sign of
    loading when it is polled, and the cache ends with the answer under that address: the
    object, a list without the items the filter of the reference leaves out, or the
    error. *)
Theorem getResource_caches E ref polling m :
  let key := getResourceURL ref in
  let '(r, m') := run boot E (getResource ref polling) m in
  r = Ok () ∧ m_forked m' = m_forked m ∧
  if being_fetched (m_store m) key then m' = m
  else
    let reply := env_reply E (m_ticks m) axiosWithAuth (ref_request ref) T_kube_object in
    m_trace m' = m_trace m ++
      (if polling then [] else [EvDispatch (requestResource key)]) ++
      [EvRequest axiosWithAuth (ref_request ref);
       EvDispatch (match reply with
                   | Ok o => receiveResource key (shown_object ref o)
                   | Throws e => receiveResourceError key e
                   end)] ∧
    IKubeState_items (s_kube (m_store m')) !! key =
      Some (match reply with
            | Ok o => received (shown_object ref o)
            | Throws e => {| IKubeItem_isFetching := false; IKubeItem_item := None;
                             IKubeItem_error := Some e |}
            end).
Proof using.
  intros key. unfold getResource, ResourceRef_getResource, Kube_getResource. fold key.
  change (get_request _) with (ref_request ref). rewrite run_bind, run_getState. cbn beta match.
  destruct (being_fetched (m_store m) key); [by rewrite run_ret|].
  assert (∃ m0, run boot E (if negb polling then dispatch (requestResource key) else mret ()) m =
    (Ok (), m0) ∧ m_ticks m0 = m_ticks m ∧ m_forked m0 = m_forked m ∧
    m_trace m0 = m_trace m ++ (if polling then [] else [EvDispatch (requestResource key)]))
    as (m0 & Hm0 & Ht & Hfk & Htr).
  { destruct polling; simpl negb; cbn match.
    - rewrite run_ret. exists m. by rewrite app_nil_r.
    - rewrite run_dispatch_safe by done. eexists. split; [done|]. by read_machine. }
  rewrite run_bind, Hm0. cbn beta match. run_steps. read_machine. rewrite Ht.
  destruct (env_reply E (m_ticks m) _ (ref_request ref) T_kube_object) as [o|e]; run_steps.
  - unfold shown_object. destruct (kube_object_items o); run_steps; rewrite shown_item;
      read_machine; rewrite Hfk, Htr; by rewrite <-?app_assoc.
  - rewrite error_item. read_machine. rewrite Hfk, Htr. by rewrite <-?app_assoc.
Qed.

(** The kinds are those of the listings: a version with the resources it lists. *)
Definition listing : Type := string * option (list api_resource).

Definition kind_of (version : string) (r : api_resource) : IKind :=
  {| IKind_apiVersion := version; IKind_plural := api_resource_name r;
     IKind_namespaced := api_resource_namespaced r |}.

Definition lists (ls : list listing) (version : string) (r : api_resource) : Prop :=
  ∃ l, (version, Some l) ∈ ls ∧ r ∈ l ∧ includes "/" (api_resource_name r) = false.

Definition kinds_of (kinds : gmap string IKind) (ls : list listing) : Prop :=
  (∀ kind i, kinds !! kind = Some i →
     ∃ version r, lists ls version r ∧ api_resource_kind r = kind ∧ i = kind_of version r) ∧
  (∀ version r, lists ls version r → is_Some (kinds !! api_resource_kind r)).

Lemma addResource_lookup v kinds r kind :
  addResource v kinds r !! kind =
  if negb (includes "/" (api_resource_name r)) && bool_decide (api_resource_kind r = kind)
  then Some (kind_of v r) else kinds !! kind.
Proof using.
  unfold addResource. destruct (includes _ _); simpl; [done|]. case_bool_decide as Hk.
  - subst. by rewrite lookup_insert_eq.
  - by rewrite lookup_insert_ne.
Qed.

Lemma addResources_kinds v l kinds ls :
  kinds_of kinds ls → kinds_of (addResources v l kinds) ((v, l) :: ls).
Proof using.
  intros [Hs Hc]. unfold addResources. destruct l as [l|]; simpl; cycle 1.
  { split.
    - intros kind i Hi. destruct (Hs kind i Hi) as (v' & r & (l & Hl & Hr) & Hk).
      exists v', r. split; [|done]. exists l. split; [by right|done].
    - intros v' r (l & Hl & Hr). apply (Hc v' r). exists l. split; [|done].
      by apply elem_of_cons in Hl as [[=]|Hl]. }
  induction l as [|r l IH] using rev_ind.
  { split.
    - intros kind i Hi. destruct (Hs kind i Hi) as (v' & r & (l & Hl & Hr) & Hk).
      exists v', r. split; [|done]. exists l. split; [by right|done].
    - intros v' r (l & Hl & Hr & Hsub). simpl. apply elem_of_cons in Hl as [[= -> ->]|Hl].
      + by apply elem_of_nil in Hr.
      + apply (Hc v' r). by exists l. }
  rewrite foldl_app. simpl. destruct IH as [IHs IHc]. split.
  - intros kind i. rewrite addResource_lookup. case_match eqn:Ht.
    + intros [= <-]. apply andb_true_iff in Ht as [Hsub Hk%bool_decide_eq_true].
      exists v, r. split; [|done]. exists (l ++ [r]). split; [left|].
      split; [apply elem_of_app; right; left|by apply negb_true_iff].
    + intros Hi. destruct (IHs kind i Hi) as (v' & r' & (k & Hk & Hr & Hsub) & Hrest).
      exists v', r'. split; [|done]. apply elem_of_cons in Hk as [[= -> ->]|Hk].
      * exists (l ++ [r]). split; [left|]. split; [apply elem_of_app; by left|done].
      * exists k. split; [by right|done].
  - intros v' r' (k & Hk & Hr & Hsub). rewrite addResource_lookup. case_match; [by eexists|].
    apply elem_of_cons in Hk as [[= -> ->]|Hk].
    + apply elem_of_app in Hr as [Hr|Hr%list_elem_of_singleton].
      * apply (IHc v r'). exists l. split; [left|done].
      * subst r'. rewrite Hsub, bool_decide_true in *; done.
    + apply (IHc v' r'). exists k. split; [by right|done].
Qed.

Lemma kinds_of_equiv kinds ls ls' :
  (∀ x, x ∈ ls ↔ x ∈ ls') → kinds_of kinds ls → kinds_of kinds ls'.
Proof using.
  intros Hls [Hs Hc]. split.
  - intros kind i Hi. destruct (Hs kind i Hi) as (v & r & (l & Hl & Hr) & Hk).
    exists v, r. split; [|done]. exists l. split; [by apply Hls|done].
  - intros v r (l & Hl & Hr). apply (Hc v r). exists l. split; [by apply Hls|done].
Qed.

(** The group lists among the responses. *)
Definition arrived_lists (groups : list string)
    (arrived : list (nat * outcome (option (list api_resource)))) : list listing :=
  arrived ≫= λ p, match p.2 with Ok l => [(default "" (groups !! p.1), l)] | Throws _ => [] end.

Lemma add_groups_run E groups arrived kinds ls m :
  kinds_of kinds ls →
  (∃ i e, (i, Throws e) ∈ arrived ∧ run boot E (add_groups groups arrived kinds) m = (Throws e, m))
  ∨ ((∀ i e, (i, Throws e) ∉ arrived) ∧
     ∃ kinds', run boot E (add_groups groups arrived kinds) m = (Ok kinds', m) ∧
       kinds_of kinds' (arrived_lists groups arrived ++ ls)).
Proof using.
  revert kinds ls. induction arrived as [|[i [l|e]] arrived IH]; intros kinds ls Hk; simpl.
  - right. split; [intros i e Hin; by apply elem_of_nil in Hin|]. by exists kinds.
  - destruct (IH (addResources (default "" (groups !! i)) l kinds)
      ((default "" (groups !! i), l) :: ls)) as [(j & e & Hin & Hr)|(Hno & kinds' & Hr & Hk')].
    + by apply addResources_kinds.
    + left. exists j, e. split; [by right|done].
    + right. split.
      * intros j e [[=]|Hin]%elem_of_cons. by apply (Hno j e).
      * exists kinds'. split; [done|]. eapply kinds_of_equiv; [|done].
        intros x. unfold arrived_lists. simpl. rewrite !elem_of_cons, !elem_of_app, !elem_of_cons. tauto.
  - left. exists i, e. split; [left|done].
Qed.

Definition group_request (cluster groupVersion : string) : request :=
  get_request (api_k8s_base cluster +:+ "/apis/" +:+ groupVersion).

(** The kinds of a cluster: the core API and every group are asked, in one round; when
    all answer, each kind that is found is one a group lists, under its version and its
    plural, and each kind that is listed is found, subresources aside; when one fails the
    whole does, with the failure of one that failed. *)
Theorem getResourceKinds_listed E c groups m :
  let core := get_request (api_k8s_base c +:+ "/api/v1") in
  let reply g := env_reply E (S (m_ticks m)) axiosWithAuth (group_request c g) T_api_resources in
  let r := (run boot E (Kube_getResourceKinds c groups) m).1 in
  match env_reply E (m_ticks m) axiosWithAuth core T_api_resources with
  | Throws e => r = Throws e
  | Ok l =>
    (∃ g e, g ∈ groups ∧ reply g = Throws e ∧ r = Throws e) ∨
    ∃ kinds, r = Ok kinds ∧
      kinds_of kinds (("v1", l) ::
        (groups ≫= λ g, match reply g with Ok lg => [(g, lg)] | Throws _ => [] end)) ∧
      ∀ g, g ∈ groups → ∃ lg, reply g = Ok lg
  end.
Proof using.
  intros core reply. cbv zeta. unfold Kube_getResourceKinds. fold core. unfold http.
  rewrite run_bind, run_send_receive, run_lift.
  destruct (env_reply _ _ _ core T_api_resources) as [l|e]; cbn beta match zeta; [|done].
  set (m1 := do_tick _ _ _).
  assert (m_ticks m1 = S (m_ticks m)) as Ht by (subst m1; by rewrite do_tick_ticks).
  fold (group_request c). rewrite run_bind.
  pose proof (run_http_all boot E axiosWithAuth (group_request c <$> groups) T_api_resources m1) as Hall.
  cbn [denote] in Hall. rewrite Hall. clear Hall. cbn beta match.
  set (arrived := arrivals _ _ _ _ _). set (m2 := do_tick _ _ _).
  assert (∀ i o, (i, o) ∈ arrived ↔ ∃ g, groups !! i = Some g ∧ o = reply g) as Harr.
  { intros i o. unfold arrived. rewrite (arrivals_perm E), Ht. rewrite elem_of_lookup_imap.
    split.
    - intros (j & r & [= -> ->] & Hj). rewrite list_lookup_fmap in Hj.
      destruct (groups !! j) as [g|]; [|done]. injection Hj as <-. by exists g.
    - intros (g & Hg & ->). exists i, (group_request c g). rewrite list_lookup_fmap, Hg. done. }
  assert (kinds_of (addResources "v1" l ∅) [("v1", l)]) as Hcore.
  { apply addResources_kinds. split; [by intros ? ?; rewrite lookup_empty|].
    intros v r (k & Hk & _). by apply elem_of_nil in Hk. }
  destruct (add_groups_run E groups arrived _ _ m2 Hcore)
    as [(i & e & Hin & ->)|(Hno & kinds & -> & Hk)]; cbn [fst].
  - left. apply Harr in Hin as (g & Hg & He). exists g, e. split_and!; try done.
    by eapply list_elem_of_lookup_2.
  - right. exists kinds. split; [done|]. split.
    + eapply kinds_of_equiv; [|done]. intros [v k]. rewrite elem_of_app, !elem_of_cons.
      unfold arrived_lists. rewrite !list_elem_of_bind. split.
      * intros [([i o] & Hx & Hin)|[Hx|[]%elem_of_nil]]; [|by left]. right.
        apply Harr in Hin as (g & Hg & ->). exists g. simpl in Hx. rewrite Hg in Hx.
        split; [done|by eapply list_elem_of_lookup_2].
      * intros [Hx|(g & Hx & [i Hg]%list_elem_of_lookup)]; [by right; left|].
        left. exists (i, reply g). simpl. rewrite Hg. split; [done|]. apply Harr. by exists g.
    + intros g [i Hi]%list_elem_of_lookup. destruct (reply g) as [lg|e] eqn:Hr; [by eexists|].
      destruct (Hno i e). apply Harr. exists g. by rewrite Hr.
Qed.
End kube_actions.
