(* ===== verification/CatalogActions.v ===== *)
(** * The thunks of src/dashboard/src/actions/catalog.ts

    The parameters of a service are an object; its empty fields are left out of the
    request.  The order of the keys of an object is that of its fields. *)

From S2P Require Import Prelude.
From S2P Require Import Json.
From S2P Require Import JsonText.
From S2P Require Import Browser.
From S2P Require Import Types.
From S2P Require Import Url.
From S2P Require Import KubeRef.
From S2P Require Import Actions.
From S2P Require Import ConfigReducer.
From S2P Require Import ClusterReducer.
From S2P Require Import Store.
From S2P Require Import Thunk.
From S2P Require Import HelmServices.
From S2P Require Import Schema.
From S2P Require Import AppsActions.
From S2P Require Import KubeServices.
From S2P Require Import ReposActions.

Section catalog_actions.
Context `{Lodash} `{Jwt} `{Location} `{Router} (boot : browser).

Definition succeeds_or_errorCatalog (op : catalog_op) (p : prog bool) : prog bool :=
  try_catch p (λ e, _ ← dispatch (errorCatalog e op); mret false).

Definition or_errorCatalog (op : catalog_op) (p : prog unit) : prog unit :=
  try_catch p (λ e, dispatch (errorCatalog e op)).

Definition provision (releaseName namespace className planName : string)
    (parameters : list (string * json)) : prog bool :=
  st ← getState;
  succeeds_or_errorCatalog catalog_create
    (let filteredParams := JObj (removeEmptyFields parameters) in
     _ ← await (ServiceInstance_create (currentCluster st) releaseName namespace className
           planName filteredParams);
     mret true).

Definition addBinding (bindingName instanceName namespace : string)
    (parameters : list (string * json)) : prog bool :=
  st ← getState;
  succeeds_or_errorCatalog catalog_create
    (let filteredParams := JObj (removeEmptyFields parameters) in
     _ ← await (ServiceBinding_create bindingName instanceName (currentCluster st) namespace
           filteredParams);
     mret true).

Definition removeBinding (name namespace : string) : prog bool :=
  st ← getState;
  succeeds_or_errorCatalog catalog_delete
    (_ ← await (ServiceBinding_delete (currentCluster st) namespace name);
     mret true).

Definition deprovision (instance : IServiceInstance) : prog bool :=
  st ← getState;
  succeeds_or_errorCatalog catalog_deprovision
    (_ ← await (ServiceCatalog_deprovisionInstance (currentCluster st) instance);
     mret true).

Definition sync (broker : IServiceBroker) : prog unit :=
  st ← getState;
  or_errorCatalog catalog_update
    (_ ← await (ServiceCatalog_syncBroker (IConfigState_kubeappsCluster (s_config st)) broker);
     mret ()).

Definition getBindings (ns : option string) : prog unit :=
  st ← getState;
  _ ← dispatch requestBindingsWithSecrets;
  or_errorCatalog catalog_fetch
    (bindingsWithSecrets ← await (ServiceBinding_list
                             (IConfigState_kubeappsCluster (s_config st)) ns);
     dispatch (receiveBindingsWithSecrets bindingsWithSecrets)).

Definition getBrokers : prog unit :=
  st ← getState;
  _ ← dispatch requestBrokers;
  or_errorCatalog catalog_fetch
    (brokers ← await (ServiceCatalog_getServiceBrokers (currentCluster st));
     dispatch (receiveBrokers brokers)).

Definition getClasses : prog unit :=
  st ← getState;
  _ ← dispatch requestClasses;
  or_errorCatalog catalog_fetch
    (classes ← await (ServiceCatalog_getServiceClasses (currentCluster st));
     dispatch (receiveClasses classes)).

Definition getInstances (ns : option string) : prog unit :=
  st ← getState;
  _ ← dispatch requestInstances;
  or_errorCatalog catalog_fetch
    (instances ← await (ServiceInstance_list (currentCluster st) ns);
     dispatch (receiveInstances instances)).

Definition getPlans : prog unit :=
  st ← getState;
  _ ← dispatch requestPlans;
  or_errorCatalog catalog_fetch
    (plans ← await (ServiceCatalog_getServicePlans (currentCluster st));
     dispatch (receivePlans plans)).

Definition checkCatalogInstalled : prog bool :=
  st ← getState;
  isServiceCatalogInstalled ←
    await (ServiceCatalog_isCatalogInstalled (currentCluster st));
  _ ← (if isServiceCatalogInstalled : bool then dispatch installed else dispatch notInstalled);
  mret isServiceCatalogInstalled.

(** ** Facts *)

Definition bindings_request (st : IStoreState) (ns : option string) : request :=
  getItems_request (IConfigState_kubeappsCluster (s_config st)) "servicebindings" ns.
Definition binding_secret_request (st : IStoreState) (b : IServiceBinding) : request :=
  get_request (api_k8s_secret (IConfigState_kubeappsCluster (s_config st))
                 (IServiceBinding_metadata_namespace b) (IServiceBinding_spec_secretName b)).

Lemma arrivals_find E n c rs t i r :
  rs !! i = Some r →
  find (λ p : nat * outcome (denote t), bool_decide (p.1 = i)) (arrivals E n c rs t) =
  Some (i, env_reply E n c r t).
Proof using.
  intros Hi.
  assert (∀ p, p ∈ arrivals E n c rs t →
    ∃ r, rs !! p.1 = Some r ∧ p.2 = env_reply E n c r t) as Hall.
  { intros p. rewrite (arrivals_perm E). intros (j & r' & -> & Hj)%elem_of_lookup_imap. by exists r'. }
  assert ((i, env_reply E n c r t) ∈ arrivals E n c rs t) as Hin.
  { rewrite (arrivals_perm E), elem_of_lookup_imap. by exists i, r. }
  revert Hall Hin. unfold find. induction (arrivals E n c rs t) as [|p l IH]; intros Hall Hin.
  - by apply elem_of_nil in Hin.
  - simpl. case_bool_decide as Hp.
    + destruct (Hall p) as (r' & Hr' & Hp2); [left|]. destruct p as [j o]. simpl in *. subst. congruence.
    + apply elem_of_cons in Hin as [<-|Hin]; [done|]. apply IH; [|done].
      intros q Hq. apply Hall. by right.
Qed.

(** C13: The bindings are shown with their secrets: one request for each, all sent at once;
    in whatever order the answers arrive each binding is shown, in the order of the list,
    with the secret that was answered for it, and a secret that could not be read leaves
    its binding without one and does not hide the others. *)
Theorem getBindings_pairs E ns m :
  let st := m_store m in
  let req := bindings_request st ns in
  let secret b := env_reply E (2 + m_ticks m) axiosWithAuth (binding_secret_request st b)
                    T_k8s_secret in
  performs boot E (getBindings ns) m (Ok ())
    ([EvDispatch requestBindingsWithSecrets; EvRequest axiosWithAuth req] ++
     match env_reply E (m_ticks m) axiosWithAuth req T_bindings with
     | Throws e => [EvDispatch (errorCatalog e catalog_fetch)]
     | Ok l =>
       ((λ b, EvRequest axiosWithAuth (binding_secret_request st b)) <$> IK8sList_items l) ++
       [EvDispatch (receiveBindingsWithSecrets
          ((λ b, {| IServiceBindingWithSecret_binding := b;
                    IServiceBindingWithSecret_secret :=
                      match secret b with Ok s => Some s | Throws _ => None end |})
             <$> IK8sList_items l))]
     end) [].
Proof using.
  intros st req secret. unfold performs, getBindings, or_errorCatalog, ServiceBinding_list.
  rewrite run_bind, run_getState. cbn beta match. fold st. fold (bindings_request st ns). fold req.
  unfold http. rewrite run_bind, run_dispatch_safe by done. cbn beta match.
  rewrite run_try, run_bind, run_await, run_bind, run_await, run_send_receive, run_lift. read_machine.
  destruct (env_reply _ _ _ req T_bindings) as [l|e]; cbn beta match zeta;
    [|run_steps; read_machine; by rewrite app_nil_r].
  set (m1 := do_tick _ _ (do_tick _ _ _)).
  assert (m_ticks m1 = 2 + m_ticks m) as Ht by (subst m1; by read_machine).
  rewrite run_bind.
  set (reqs := (λ binding, get_request _) <$> IK8sList_items l).
  pose proof (run_http_all boot E axiosWithAuth reqs T_k8s_secret m1) as Hall.
  cbn [denote] in Hall. rewrite Hall. clear Hall. cbn beta match. rewrite run_ret. cbn beta match.
  assert (with_secrets (IK8sList_items l) (arrivals E (m_ticks m1) axiosWithAuth reqs T_k8s_secret) =
    (λ b, {| IServiceBindingWithSecret_binding := b;
             IServiceBindingWithSecret_secret :=
               match secret b with Ok s => Some s | Throws _ => None end |}) <$> IK8sList_items l)
    as ->.
  { unfold with_secrets. apply list_eq. intros i. rewrite list_lookup_imap, list_lookup_fmap.
    destruct (IK8sList_items l !! i) as [b|] eqn:Hi; [|done]. simpl. do 2 f_equal.
    assert (reqs !! i = Some (binding_secret_request st b)) as Hreq.
    { subst reqs. by rewrite list_lookup_fmap, Hi. }
    pose proof (arrivals_find E (m_ticks m1) axiosWithAuth reqs T_k8s_secret i _ Hreq) as Hf.
    cbn [denote] in Hf. rewrite Hf, Ht. subst secret. simpl. by destruct (env_reply _ _ _ _ _). }
  rewrite run_dispatch_safe by done. cbn [fst snd]. subst m1. read_machine. subst reqs.
  rewrite <-list_fmap_compose. rewrite ?app_nil_r, <-?app_assoc. done.
Qed.

(** Provisioning a service sends, in their order, exactly the parameters that hold, at
    some depth, a number or a string that is not empty (a boolean holds neither, so it is
    left out); the answer of the thunk is whether the request succeeded, and a failure is
    reported. *)
Theorem provision_parameters E releaseName ns className planName params m :
  ∃ sent,
    let req := post_request (ServiceInstance_getLink (currentCluster (m_store m)) (Some ns) None)
       (JObj [("apiVersion", JStr "servicecatalog.k8s.io/v1beta1");
              ("kind", JStr "ServiceInstance");
              ("metadata", JObj [("name", JStr releaseName)]);
              ("spec", JObj
                 [("clusterServiceClassExternalName", JStr className);
                  ("clusterServicePlanExternalName", JStr planName);
                  ("parameters", JObj sent)])]) in
    sent `sublist_of` params ∧
    (∀ kv, kv ∈ sent ↔ kv ∈ params ∧ has_content kv.2) ∧
    match env_reply E (m_ticks m) axiosWithAuth req T_json with
    | Ok _ => performs boot E (provision releaseName ns className planName params) m (Ok true)
                [EvRequest axiosWithAuth req] []
    | Throws e => performs boot E (provision releaseName ns className planName params) m (Ok false)
                    [EvRequest axiosWithAuth req; EvDispatch (errorCatalog e catalog_create)] []
    end.
Proof using.
  exists (removeEmptyFields params). intros req. split_and!.
  - unfold removeEmptyFields. clear. induction params as [|kv params IH]; simpl; [constructor|].
    destruct (negb _); by constructor.
  - intros kv. unfold removeEmptyFields. rewrite list_elem_of_In, filter_In, <-list_elem_of_In.
    by rewrite negb_true_iff, isEmptyDeep_false.
  - unfold performs, provision, succeeds_or_errorCatalog, ServiceInstance_create.
    rewrite run_bind, run_getState. cbn beta match zeta. change (post_request _ _) with req.
    run_steps. read_machine. destruct (env_reply _ _ _ req T_json); run_steps; read_machine;
      by rewrite ?app_nil_r.
Qed.
End catalog_actions.
