(* ===== verification/ConfigActions.v ===== *)
(** * The thunks of src/dashboard/src/actions/config.ts *)

From S2P Require Import Prelude.
From S2P Require Import Json.
From S2P Require Import JsonText.
From S2P Require Import Browser.
From S2P Require Import Types.
From S2P Require Import Url.
From S2P Require Import KubeRef.
From S2P Require Import Actions.
From S2P Require Import ConfigReducer.
From S2P Require Import ClusterReducer.
From S2P Require Import Store.
From S2P Require Import Thunk.
From S2P Require Import HelmServices.
From S2P Require Import KubeServices.

Section config_actions.
Context `{Lodash} `{Jwt} `{Location} `{Router} (boot : browser).

Definition getConfig : prog unit :=
  _ ← dispatch requestConfig;
  try_catch
    (config ← await Config_getConfig;
     dispatch (receiveConfig config))
    (λ e, dispatch (errorConfig e)).

Definition getTheme_thunk : prog unit :=
  b ← browse id;
  let theme := getTheme b in
  dispatch (receiveTheme theme).

Definition setTheme_thunk (theme : string) : prog unit :=
  _ ← browse (setTheme theme);
  dispatch (setThemeState theme).

(** ** Facts *)

(** The store, the page and the next session agree on the theme. *)
Definition theme_is (theme : string) (m : machine) : Prop :=
  IConfigState_theme (s_config (m_store m)) = theme ∧
  bodyTheme (w_browser (m_world m)) = Some theme ∧
  getTheme (w_browser (m_world m)) = theme.

(** A theme that is chosen, and the theme found at the start, is the one the store
    shows, the one of the page, and the one a later session finds; the theme at the start
    is never empty. *)
Theorem theme_agrees E theme m :
  let found := getTheme (w_browser (m_world m)) in
  (let '(r, m') := run boot E getTheme_thunk m in r = Ok () ∧ theme_is found m' ∧ found ≠ "") ∧
  (let '(r, m') := run boot E (setTheme_thunk theme) m in
   r = Ok () ∧ (theme ≠ "" → theme_is theme m')).
Proof using.
  intros found. split.
  - unfold getTheme_thunk. rewrite run_bind, run_browse. cbn beta match. fold found.
    rewrite run_dispatch_safe by done. pose proof (getTheme_nonempty (w_browser (m_world m))) as Hne.
    fold found in Hne. split_and!; [done| |done]. split_and!; [done..|].
    change (w_browser _) with (setTheme found (w_browser (m_world m))). by apply getTheme_setTheme.
  - unfold setTheme_thunk. rewrite run_bind, run_browse. cbn beta match.
    rewrite run_dispatch_safe by done. split; [done|]. intros Hne. split_and!; [done..|].
    change (w_browser _) with (setTheme theme (w_browser (m_world m))). by apply getTheme_setTheme.
Qed.

(** Loading the configuration starts from the configuration of the start of the session
    and ends loaded, with the answer's clusters as the clusters of the store and the first
    of them current, or with the error and not loaded. *)
Theorem getConfig_post E m :
  let reply := env_reply E (m_ticks m) axios (get_request "config.json") T_config in
  let '(r, m') := run boot E getConfig m in
  r = Ok () ∧
  m_trace m' = m_trace m ++
    [EvDispatch requestConfig; EvRequest axios (get_request "config.json");
     match reply with
     | Ok config => EvDispatch (receiveConfig config)
     | Throws e => EvDispatch (errorConfig e)
     end] ∧
  match reply with
  | Ok config =>
    IConfigState_loaded (s_config (m_store m')) = true ∧
    IConfigState_clusters (s_config (m_store m')) = IConfig_clusters config ∧
    IClustersState_currentCluster (s_clusters (m_store m')) = head (IConfig_clusters config) ∧
    (∀ c, c ∈ IConfig_clusters config ↔
       is_Some (IClustersState_clusters (s_clusters (m_store m')) !! c))
  | Throws e => IConfigState_error (s_config (m_store m')) = Some e
  end.
Proof using.
  intros reply. unfold getConfig, Config_getConfig. run_steps. read_machine. fold reply.
  destruct reply as [config|e]; run_steps; read_machine; (split; [done|]);
    (split; [by rewrite <-?app_assoc|]); [|done].
  split_and!; [done..|].
  intros c. change (IClustersState_clusters _) with (config_clusters (IConfig_clusters config)).
  rewrite config_clusters_lookup. case_bool_decide; naive_solver.
Qed.
End config_actions.
