(* ===== verification/Jq.v ===== *)
(** * Filter rules (src/dashboard/src/shared/jq.ts)

    The rule of a repository's filter is an expression of jq with variables;
    [toFilterRule] writes one from the fields of a form and [toParams] reads the fields
    back.  The variables of a rule are an object, in the order they were assigned. *)

From S2P Require Import Prelude.
From S2P Require Import Json.
From S2P Require Import JsonText.
From S2P Require Import Types.

Definition var_name (i : nat) : string := "$var" +:+ print_N (N.of_nat i).

Definition toFilterRule (names : string) (regex exclude : bool) : IAppRepositoryFilter :=
  let filter :=
    if regex then
      {| IAppRepositoryFilter_jq := ".name | test($var)";
         IAppRepositoryFilter_variables := Some [("$var", names)] |}
    else
      let namesArray := trim <$> split_on "," names in
      let variables := (imap (λ i n, (var_name i, n)) namesArray) in
      let jq := join " or " (imap (λ i _, ".name == " +:+ var_name i) namesArray) in
      {| IAppRepositoryFilter_jq := jq; IAppRepositoryFilter_variables := Some variables |} in
  if exclude then
    {| IAppRepositoryFilter_jq := IAppRepositoryFilter_jq filter +:+ " | not";
       IAppRepositoryFilter_variables := IAppRepositoryFilter_variables filter |}
  else filter.

Record filter_params := mkFilterParams {
  params_names : string; params_regex : bool; params_exclude : bool;
}.

Definition toParams (rule : IAppRepositoryFilter) : filter_params :=
  {| params_regex := includes "| test" (IAppRepositoryFilter_jq rule);
     params_exclude := includes "| not" (IAppRepositoryFilter_jq rule);
     params_names := join ", " (snd <$> default [] (IAppRepositoryFilter_variables rule)) |}.

(** ** Trimming *)

Lemma rev_app_spec s t : String.rev_app s t = String.rev s +:+ t.
Proof.
  unfold String.rev. revert t. induction s as [|a s IH]; intros t; [done|].
  change (String.rev_app s (String a t) = String.rev_app s (String a "") +:+ t).
  rewrite IH, (IH (String a "")). by rewrite str_app_assoc.
Qed.

Lemma rev_cons a s : String.rev (String a s) = String.rev s +:+ String a "".
Proof. exact (rev_app_spec s (String a "")). Qed.

Lemma rev_app_distr s t : String.rev (s +:+ t) = String.rev t +:+ String.rev s.
Proof.
  induction s as [|a s IH]; [by rewrite str_app_nil_l, str_app_nil_r|].
  by rewrite str_app_cons, !rev_cons, IH, str_app_assoc.
Qed.

Lemma rev_involutive s : String.rev (String.rev s) = s.
Proof. induction s as [|a s IH]; [done|]. by rewrite rev_cons, rev_app_distr, IH. Qed.

(** Trimming removes a prefix. *)
Lemma trim_left_suffix s : ∃ p, s = p +:+ trim_left s.
Proof.
  induction s as [|a s [p IH]]; [by exists ""|]. cbn [trim_left].
  destruct (Ascii.is_space a); [|by exists ""]. exists (String a p). by rewrite str_app_cons, <-IH.
Qed.

Lemma trim_left_idemp s : trim_left (trim_left s) = trim_left s.
Proof.
  induction s as [|a s IH]; [done|]. cbn [trim_left]. destruct (Ascii.is_space a) eqn:Ha; [done|].
  cbn [trim_left]. by rewrite Ha.
Qed.

(** No white space in front. *)
Lemma trim_left_prefix s t : trim_left (s +:+ t) = s +:+ t → trim_left s = s.
Proof.
  destruct s as [|a s]; [done|]. rewrite str_app_cons. cbn [trim_left].
  destruct (Ascii.is_space a); [|done]. intros Heq.
  destruct (trim_left_suffix (s +:+ t)) as [p Hp]. rewrite Heq in Hp.
  apply (f_equal String.length) in Hp. rewrite (str_length_app p) in Hp. simpl in Hp. lia.
Qed.

Lemma trim_fixed s : trim_left (trim s) = trim s ∧ trim_left (String.rev (trim s)) = String.rev (trim s).
Proof.
  unfold trim. rewrite rev_involutive. split; [|apply trim_left_idemp].
  destruct (trim_left_suffix (String.rev (trim_left s))) as [p Hp].
  set (u := trim_left (String.rev (trim_left s))) in *.
  apply (trim_left_prefix _ (String.rev p)). rewrite <-rev_app_distr, <-Hp, rev_involutive.
  apply trim_left_idemp.
Qed.

Lemma trim_trim s : trim (trim s) = trim s.
Proof.
  destruct (trim_fixed s) as [Hl Hr]. unfold trim at 1. by rewrite Hl, Hr, rev_involutive.
Qed.

Lemma trim_space s : trim (String " " (trim s)) = trim s.
Proof. rewrite <-(trim_trim s) at 2. done. Qed.

Lemma str_all_trim_left f s : str_all f s → str_all f (trim_left s).
Proof.
  destruct (trim_left_suffix s) as [p Hp]. rewrite Hp at 1. rewrite str_all_app. by intros [_ ?]%andb_True.
Qed.

Lemma str_all_rev f s : str_all f (String.rev s) = str_all f s.
Proof.
  induction s as [|a s IH]; [done|]. rewrite rev_cons, str_all_app, IH. simpl.
  by rewrite andb_true_r, andb_comm.
Qed.

Lemma lacks_trim c s : lacks c s → lacks c (trim s).
Proof.
  unfold lacks, trim. intros Hs. rewrite str_all_rev. apply str_all_trim_left.
  rewrite str_all_rev. by apply str_all_trim_left.
Qed.

(** ** Rules *)

Lemma split_on_pieces c s : Forall (λ w, Is_true (lacks c w)) (split_on c s).
Proof.
  induction s as [|a s IH]; simpl; [by repeat constructor|]. case_bool_decide as Ha; [by constructor|].
  pose proof (split_on_nonempty c s). destruct (split_on c s) as [|w ws]; [done|].
  apply Forall_cons in IH as [Hw Hws]. constructor; [|done]. unfold lacks in *. simpl.
  by rewrite bool_decide_false.
Qed.

Lemma starts_with_app_ne c p s t :
  lacks c s → s ≠ "" → starts_with (String c p) (s +:+ t) = false.
Proof.
  destruct s as [|a s]; [done|]. unfold lacks. rewrite str_app_cons. simpl.
  intros [Ha _]%andb_True _. rewrite bool_decide_false; [done|]. intros ->.
  by rewrite bool_decide_true in Ha.
Qed.

(** A pattern is not found before the first occurrence of its first character. *)
Lemma includes_skip c p s t : lacks c s → includes (String c p) (s +:+ t) = includes (String c p) t.
Proof.
  induction s as [|a s IH]; intros Hs; [done|].
  rewrite str_app_cons. change (starts_with (String c p) (String a s +:+ t) ||
    includes (String c p) (s +:+ t) = includes (String c p) t).
  rewrite (starts_with_app_ne c p (String a s) t Hs) by done. simpl. apply IH.
  unfold lacks in Hs. simpl in Hs. by apply andb_True in Hs as [_ Hs].
Qed.

Lemma lacks_app c s t : lacks c (s +:+ t) ↔ lacks c s ∧ lacks c t.
Proof. unfold lacks. by rewrite str_all_app, andb_True. Qed.

Lemma lacks_var_name i : lacks "|" (var_name i).
Proof. unfold var_name. apply lacks_app. split; [done|]. by apply print_N_lacks. Qed.

Lemma lacks_join c sep l : lacks c sep → Forall (λ w, Is_true (lacks c w)) l → lacks c (join sep l).
Proof.
  intros Hs. induction 1 as [|w l Hw Hl IH]; [done|]. destruct l as [|w' l]; [done|].
  change (lacks c (w +:+ sep +:+ join sep (w' :: l))). rewrite !lacks_app. done.
Qed.

Lemma names_rule_lacks l :
  lacks "|" (join " or " (imap (λ i (_ : string), ".name == " +:+ var_name i) l)).
Proof.
  apply lacks_join; [done|]. apply Forall_forall. intros w (i & x & -> & _)%elem_of_lookup_imap.
  apply lacks_app. split; [done|]. apply lacks_var_name.
Qed.

Lemma toFilterRule_flags names regex exclude :
  params_regex (toParams (toFilterRule names regex exclude)) = regex ∧
  params_exclude (toParams (toFilterRule names regex exclude)) = exclude.
Proof.
  unfold toFilterRule, toParams. destruct regex; [by destruct exclude|].
  set (l := trim <$> split_on "," names). pose proof (names_rule_lacks l) as Hl.
  destruct exclude; cbn [IAppRepositoryFilter_jq params_regex params_exclude].
  - by rewrite !includes_skip.
  - rewrite <-(str_app_nil_r (join " or " _)). by rewrite !includes_skip.
Qed.

Lemma toFilterRule_names names exclude :
  params_names (toParams (toFilterRule names false exclude)) = join ", " (trim <$> split_on "," names).
Proof.
  unfold toFilterRule, toParams. set (l := trim <$> split_on "," names).
  assert (snd <$> imap (λ i n, (var_name i, n)) l = l) as Hl.
  { rewrite fmap_imap. etrans; [apply (imap_const id)|apply list_fmap_id]. }
  destruct exclude; cbn [params_names IAppRepositoryFilter_variables default from_option]; unfold id;
    by rewrite Hl.
Qed.

(** Splitting what was joined with a comma and a space gives the trimmed words back. *)
Lemma trim_split_join l :
  l ≠ [] → Forall (λ w, Is_true (lacks "," w) ∧ trim w = w) l →
  trim <$> split_on "," (join ", " l) = l.
Proof.
  intros Hne Hl. destruct l as [|w l]; [done|].
  assert (join ", " (w :: l) = join "," (w :: (String " " <$> l))) as ->.
  { clear. revert w. induction l as [|x l IH]; intros w; [done|].
    change (w +:+ String "," (String " " (join ", " (x :: l))) =
      w +:+ String "," (join "," (String " " x :: (String " " <$> l)))).
    rewrite IH. by destruct l. }
  apply Forall_cons in Hl as [[Hw Ht] Hl].
  rewrite split_join; [|done|].
  - simpl. rewrite Ht. f_equal. rewrite <-list_fmap_compose.
    induction Hl as [|x l [_ Hx] Hl IH]; [done|]. simpl. f_equal; [|by apply IH].
    rewrite <-Hx at 1. by rewrite trim_space.
  - constructor; [done|]. apply Forall_fmap. eapply Forall_impl; [done|]. by intros x [Hx _].
Qed.

(** Opening the filter of a repository and saving it unchanged keeps the rule: the fields
    read from a rule the form wrote are the flags that were given and the names, and writing
    the rule from these fields again gives the same rule. *)
Theorem filter_rule_roundtrip names regex exclude :
  let rule := toFilterRule names regex exclude in
  let p := toParams rule in
  params_regex p = regex ∧ params_exclude p = exclude ∧
  params_names p = (if regex then names else join ", " (trim <$> split_on "," names)) ∧
  toFilterRule (params_names p) (params_regex p) (params_exclude p) = rule.
Proof.
  intros rule p. destruct (toFilterRule_flags names regex exclude) as [Hr He].
  subst rule p. rewrite Hr, He. split_and!; [done..| |]; destruct regex; try by destruct exclude.
  - apply toFilterRule_names.
  - rewrite toFilterRule_names. unfold toFilterRule. rewrite trim_split_join; [done| |].
    + pose proof (split_on_nonempty "," names). by destruct (split_on "," names).
    + apply Forall_fmap. eapply Forall_impl; [apply split_on_pieces|].
      intros w Hw. simpl. split; [by apply lacks_trim|apply trim_trim].
Qed.
