(* ===== verification/RepoForm.v ===== *)
(** * The form of a repository (src/dashboard/src/components/Config/AppRepoList)

    [AppRepoForm] keeps the fields of a repository as local state, fills them from an
    existing repository and its secret with effects, asks the server to validate them, and
    hands them to [installRepo] or [updateRepo] ([AppRepoAddButton]).  A failed validation
    can be overridden by submitting again.

    The fields a text can be [undefined] in are options.  [yaml_dump] is js-yaml's [dump]. *)

From S2P Require Import Prelude.
From S2P Require Import Json.
From S2P Require Import JsonText.
From S2P Require Import Browser.
From S2P Require Import Types.
From S2P Require Import Url.
From S2P Require Import KubeRef.
From S2P Require Import Actions.
From S2P Require Import ClusterReducer.
From S2P Require Import Store.
From S2P Require Import Thunk.
From S2P Require Import HelmServices.
From S2P Require Import Schema.
From S2P Require Import AppsActions.
From S2P Require Import ReposActions.
From S2P Require Import Jq.

(** ** atob *)

Definition base64_value (a : ascii) : option N :=
  let n := N_of_ascii a in
  (if (65 <=? n) && (n <=? 90) then Some (n - 65)
   else if (97 <=? n) && (n <=? 122) then Some (n - 71)
   else if (48 <=? n) && (n <=? 57) then Some (n + 4)
   else if n =? 43 then Some 62 else if n =? 47 then Some 63 else None)%N.

Definition invalid_character : js_error :=
  mk_error Error "The string to be decoded is not correctly encoded.".

(** The bytes of two, three or four digits. *)
Definition bytes2 (a b : ascii) : option string :=
  x ← base64_value a; y ← base64_value b;
  Some (String (ascii_of_N (x * 4 + y / 16)) "").
Definition bytes3 (a b c : ascii) : option string :=
  x ← base64_value a; y ← base64_value b; z ← base64_value c;
  Some (String (ascii_of_N (x * 4 + y / 16)) (String (ascii_of_N (y mod 16 * 16 + z / 4)) "")).
Definition bytes4 (a b c d : ascii) : option string :=
  x ← base64_value a; y ← base64_value b; z ← base64_value c; w ← base64_value d;
  Some (String (ascii_of_N (x * 4 + y / 16)) (String (ascii_of_N (y mod 16 * 16 + z / 4))
    (String (ascii_of_N (z mod 4 * 64 + w)) ""))).

(** Digits in groups of four; the last group may be short, or padded to four. *)
Fixpoint decode_groups (s : string) : option string :=
  match s with
  | EmptyString => Some ""
  | String a (String b EmptyString) => bytes2 a b
  | String a (String b (String c EmptyString)) => bytes3 a b c
  | String a (String b (String c (String d s'))) =>
    if bool_decide (s' = "") && bool_decide (d = "="%char) then
      if bool_decide (c = "="%char) then bytes2 a b else bytes3 a b c
    else g ← bytes4 a b c d; r ← decode_groups s'; Some (g +:+ r)
  | _ => None
  end.

Fixpoint strip_spaces (s : string) : string :=
  match s with
  | EmptyString => ""
  | String a s' => if Ascii.is_space a then strip_spaces s' else String a (strip_spaces s')
  end.

(** The text of the characters whose codes are the decoded bytes. *)
Definition atob (s : string) : outcome string :=
  match decode_groups (strip_spaces s) with
  | Some bytes => Ok (of_latin1 bytes)
  | None => Throws invalid_character
  end.

(** ** The state *)

Definition AUTH_METHOD_NONE : string := "none".
Definition AUTH_METHOD_BASIC : string := "basic".
Definition AUTH_METHOD_BEARER : string := "bearer".
Definition AUTH_METHOD_CUSTOM : string := "custom".
Definition AUTH_METHOD_REGISTRY_SECRET : string := "registry".
Definition TYPE_HELM : string := "helm".
Definition TYPE_OCI : string := "oci".

Record repo_form := mkRepoForm {
  authMethod : string;
  user : string;
  password : option string;
  authHeader : string;
  token : option string;
  name : string;
  description : string;
  url : string;
  customCA : string;
  syncJobPodTemplate : string;
  type : string;
  ociRepositories : string;
  skipTLS : bool;
  passCredentials : bool;
  filterNames : string;
  filterRegex : bool;
  filterExclude : bool;
  selectedImagePullSecret : string;
  validated : option bool;
}.
#[export] Instance eta_repo_form : Eta repo_form := λ f,
  mkRepoForm (authMethod f) (user f) (password f) (authHeader f) (token f) (name f)
    (description f) (url f) (customCA f) (syncJobPodTemplate f) (type f) (ociRepositories f)
    (skipTLS f) (passCredentials f) (filterNames f) (filterRegex f) (filterExclude f)
    (selectedImagePullSecret f) (validated f).

Definition spec_of (repo : option IAppRepository) : option IAppRepositorySpec :=
  repo ≫= IK8sObject_spec.

Definition repo_form_init (repo : option IAppRepository) : repo_form :=
  {| authMethod := AUTH_METHOD_NONE; user := ""; password := Some ""; authHeader := "";
     token := Some ""; name := ""; description := ""; url := ""; customCA := "";
     syncJobPodTemplate := ""; type := TYPE_HELM; ociRepositories := "";
     skipTLS := default false (spec_of repo ≫= IAppRepositorySpec_tlsInsecureSkipVerify);
     passCredentials := default false (spec_of repo ≫= IAppRepositorySpec_passCredentials);
     filterNames := ""; filterRegex := false; filterExclude := false;
     selectedImagePullSecret := ""; validated := None |}.

(** ** The effects *)

(** The pull secret the repository already uses is selected. *)
Definition pull_secret_effect (imagePullSecrets : list ISecret) (repo : option IAppRepository)
    (f : repo_form) : repo_form :=
  foldl (λ f pullSecret,
    let secretName := IResourceMetadata_name (ISecret_metadata pullSecret) in
    if some (λ s, bool_decide (s = secretName))
         (default [] (spec_of repo ≫= IAppRepositorySpec_dockerRegistrySecrets))
    then f <| selectedImagePullSecret := secretName |> else f) f imagePullSecrets.

Section form.
Context `{YamlDump}.

(** The fields of the repository. *)
Definition repo_effect (repo : option IAppRepository) (f : repo_form) : repo_form :=
  match repo with
  | None => f
  | Some r =>
    let spec := IK8sObject_spec r in
    let f :=
      f <| name := IK8sMetadata_name (IK8sObject_metadata r) |>
        <| url := default "" (IAppRepositorySpec_url <$> spec) |>
        <| type := default "" (IAppRepositorySpec_type <$> spec) |>
        <| description := or_opt_str (spec ≫= IAppRepositorySpec_description) "" |>
        <| syncJobPodTemplate :=
             match spec ≫= IAppRepositorySpec_syncJobPodTemplate with
             | Some t => if jtruthy t then yaml_dump t else ""
             | None => ""
             end |>
        <| ociRepositories :=
             match spec ≫= IAppRepositorySpec_ociRepositories with
             | Some l => join ", " l
             | None => ""
             end |>
        <| skipTLS := default false (spec ≫= IAppRepositorySpec_tlsInsecureSkipVerify) |>
        <| passCredentials := default false (spec ≫= IAppRepositorySpec_passCredentials) |> in
    match spec ≫= IAppRepositorySpec_filterRule with
    | Some rule =>
      if truthy (IAppRepositoryFilter_jq rule) then
        let p := toParams rule in
        f <| filterRegex := params_regex p |> <| filterExclude := params_exclude p |>
          <| filterNames := params_names p |>
      else f
    | None => f
    end
  end.
End form.

(** The secrets the repository refers to, each once. *)
Definition secrets_to_fetch (repo : option IAppRepository) : list string :=
  match spec_of repo ≫= IAppRepositorySpec_auth with
  | Some auth =>
    let secrets :=
      match IAppRepositoryAuth_customCA_secretKeyRef auth with
      | Some ca => [ISecretKeyRef_name ca]
      | None => []
      end in
    match IAppRepositoryAuth_header_secretKeyRef auth with
    | Some header =>
      if bool_decide (ISecretKeyRef_name header ∈ secrets) then secrets
      else secrets ++ [ISecretKeyRef_name header]
    | None => secrets
    end
  | None => []
  end.

(** [secret.data[key]], when it is not empty. *)
Definition secret_data (secret : ISecret) (key : string) : option string :=
  match ISecret_data secret !! key with
  | Some v => if truthy v then Some v else None
  | None => None
  end.

(** [authHeader.split(" ")[1]]. *)
Definition second_word (s : string) : option string := split_on " " s !! 1.

(** [atob(text)], where [undefined] is converted to a text. *)
Definition atob_opt (o : option string) : outcome string := atob (default "undefined" o).

(** The part of the effect that reads the authorization header; [header] is the text of
    the secret. *)
Definition header_effect (header : string) (f : repo_form) : outcome repo_form :=
  if starts_with "Basic" (authHeader f) then
    decoded ← atob_opt (second_word (authHeader f));
    let userPass := split_on ":" decoded in
    Ok (f <| user := default "" (userPass !! 0) |> <| password := userPass !! 1 |>
          <| authMethod := AUTH_METHOD_BASIC |>)
  else if starts_with "Bearer" (authHeader f) then
    Ok (f <| token := second_word (authHeader f) |> <| authMethod := AUTH_METHOD_BEARER |>)
  else
    let f := f <| authMethod := AUTH_METHOD_CUSTOM |> in
    h ← atob header;
    Ok (f <| authHeader := h |>).

Definition secret_effect (secret : option ISecret) (f : repo_form) : outcome repo_form :=
  match secret with
  | None => Ok f
  | Some s =>
    f ← match secret_data s "ca.crt" with
        | Some ca => text ← atob ca; Ok (f <| customCA := text |>)
        | None => Ok f
        end;
    f ← match secret_data s "authorizationHeader" with
        | Some header => header_effect header f
        | None => Ok f
        end;
    Ok (match secret_data s ".dockerconfigjson" with
        | Some _ => f <| authMethod := AUTH_METHOD_REGISTRY_SECRET |>
        | None => f
        end)
  end.

(** ** Submitting *)

(** The user and the password are encoded by [btoa], which throws when one of their characters
    is beyond Latin-1. *)
Definition finalHeader (f : repo_form) : outcome string :=
  if decide (authMethod f = AUTH_METHOD_CUSTOM) then Ok (authHeader f)
  else if decide (authMethod f = AUTH_METHOD_BASIC) then
    code ← btoa (user f +:+ ":" +:+ default "undefined" (password f));
    Ok ("Basic " +:+ code)
  else if decide (authMethod f = AUTH_METHOD_BEARER) then
    Ok ("Bearer " +:+ default "undefined" (token f))
  else Ok "".

Definition dockerRegCreds (f : repo_form) : string :=
  if decide (authMethod f = AUTH_METHOD_REGISTRY_SECRET) then selectedImagePullSecret f else "".

Definition ociRepoList (f : repo_form) : list string :=
  if truthy (ociRepositories f) then trim <$> split_on "," (ociRepositories f) else [].

(** Without a scheme, https is assumed. *)
Definition finalURL (f : repo_form) : string :=
  if starts_with "http" (url f) then url f else "https://" +:+ url f.

Definition submitted_filter (f : repo_form) : option IAppRepositoryFilter :=
  if bool_decide (type f = TYPE_HELM) && bool_decide (filterNames f ≠ "")
  then Some (toFilterRule (filterNames f) (filterRegex f) (filterExclude f)) else None.

Definition submit_args (namespace header : string) (f : repo_form) : repo_args :=
  {| ra_name := name f; ra_namespace := namespace; ra_repoURL := finalURL f; ra_type := type f;
     ra_description := description f; ra_authHeader := header;
     ra_authRegCreds := dockerRegCreds f; ra_customCA := customCA f;
     ra_syncJobPodTemplate := syncJobPodTemplate f;
     ra_registrySecrets :=
       if truthy (selectedImagePullSecret f) then [selectedImagePullSecret f] else [];
     ra_ociRepositories := ociRepoList f; ra_skipTLS := skipTLS f;
     ra_passCredentials := passCredentials f; ra_filter := submitted_filter f |}.

(** What is sent to be validated. *)
Record validation_args := mkValidationArgs {
  va_url : string; va_type : string; va_header : outcome string; va_creds : string; va_ca : string;
  va_oci : list string; va_tls : bool; va_pass : bool;
}.
Definition validation_of (f : repo_form) : validation_args :=
  mkValidationArgs (finalURL f) (type f) (finalHeader f) (dockerRegCreds f) (customCA f)
    (ociRepoList f) (skipTLS f) (passCredentials f).

Section install.
Context `{Lodash} `{Jwt} `{Location} `{Router} `{Yaml} (boot : browser).

(** [AppRepoAddButton]: an existing repository is updated. *)
Definition onSubmit (repo : option IAppRepository) (a : repo_args) : prog bool :=
  match repo with Some _ => updateRepo a | None => installRepo a end.

Definition validate_form (header : string) (f : repo_form) : prog bool :=
  validateRepo (finalURL f) (type f) header (dockerRegCreds f) (customCA f)
    (ociRepoList f) (skipTLS f) (passCredentials f).

(** The form that is left and whether the modal closes.  An exception of [btoa] rejects the
    promise, which nothing awaits. *)
Definition install (repo : option IAppRepository) (namespace : string) (f : repo_form)
    : prog (repo_form * bool) :=
  header ← lift (finalHeader f);
  let force := bool_decide (validated f = Some false) in
  r ← (if negb (default false (validated f)) && negb force then
         v ← await (validate_form header f);
         mret (f <| validated := Some v |>, (v : bool))
       else mret (f, default false (validated f)));
  let '(f', currentlyValidated) := r : repo_form * bool in
  if currentlyValidated || force then
    success ← await (onSubmit repo (submit_args namespace header f));
    mret (f', success)
  else mret (f', false).
End install.

(** ** The handlers *)

Inductive form_event :=
| NameChange (v : string)
| DescriptionChange (v : string)
| URLChange (v : string)
| AuthHeaderChange (v : string)
| AuthTokenChange (v : string)
| CustomCAChange (v : string)
| AuthRadioButtonChange (v : string)
| TypeRadioButtonChange (v : string)
| UserChange (v : string)
| PasswordChange (v : string)
| SyncJobPodTemplateChange (v : string)
| OCIRepositoriesChange (v : string)
| SkipTLSChange
| PassCredentialsChange
| FilterNamesChange (v : string)
| FilterRegexChange
| FilterExcludeChange
| SelectPullSecret (v : string).

Definition handle (e : form_event) (f : repo_form) : repo_form :=
  match e with
  | NameChange v => f <| name := v |>
  | DescriptionChange v => f <| description := v |>
  | URLChange v => f <| url := v |> <| validated := None |>
  | AuthHeaderChange v => f <| authHeader := v |> <| validated := None |>
  | AuthTokenChange v => f <| token := Some v |> <| validated := None |>
  | CustomCAChange v => f <| customCA := v |> <| validated := None |>
  | AuthRadioButtonChange v => f <| authMethod := v |> <| validated := None |>
  | TypeRadioButtonChange v => f <| type := v |> <| validated := None |>
  | UserChange v => f <| user := v |> <| validated := None |>
  | PasswordChange v => f <| password := Some v |> <| validated := None |>
  | SyncJobPodTemplateChange v => f <| syncJobPodTemplate := v |> <| validated := None |>
  | OCIRepositoriesChange v => f <| ociRepositories := v |> <| validated := None |>
  | SkipTLSChange => f <| skipTLS := negb (skipTLS f) |> <| validated := None |>
  | PassCredentialsChange =>
    f <| passCredentials := negb (passCredentials f) |> <| validated := None |>
  | FilterNamesChange v => f <| filterNames := v |>
  | FilterRegexChange => f <| filterRegex := negb (filterRegex f) |>
  | FilterExcludeChange => f <| filterExclude := negb (filterExclude f) |>
  | SelectPullSecret v => f <| selectedImagePullSecret := v |>
  end.

(** A JSON message with a code and a message is shown as a text. *)
Definition parseValidationError (e : js_error) : string :=
  match JSON_parse (message e) with
  | Ok JNull => message e
  | Ok parsed =>
    if jtruthy (jget parsed "code") && jtruthy (jget parsed "message") then
      "Code: " +:+ jtext (jget parsed "code") +:+ ". Message: " +:+ jtext (jget parsed "message")
    else message e
  | Throws _ => message e
  end.

Definition shouldEnableDockerRegistryCreds (namespace kubeappsNamespace : string) : bool :=
  bool_decide (namespace ≠ kubeappsNamespace).

Definition submit_label (validating : bool) (repo : option IAppRepository) (f : repo_form) : string :=
  if validating then "Validating..."
  else (match repo with Some _ => "Update" | None => "Install" end) +:+ " Repo " +:+
       (if bool_decide (validated f = Some false) then "(force)" else "").

(** ** Base64 *)

Lemma base64_value_char n : (n < 64)%N → base64_value (base64_char n) = Some n.
Proof.
  intros Hn. assert (forallb (λ i, bool_decide (base64_value (base64_char (N.of_nat i)) =
    Some (N.of_nat i))) (seq 0 64) = true) as H by (by vm_compute).
  rewrite forallb_forall in H. specialize (H (N.to_nat n)).
  rewrite N2Nat.id in H. apply bool_decide_eq_true in H; [done|]. apply in_seq. lia.
Qed.

Lemma base64_char_plain n : (n < 64)%N →
  bool_decide (base64_char n = "="%char) = false ∧ Ascii.is_space (base64_char n) = false ∧
  base64_char n ≠ " "%char ∧ (N_of_ascii (base64_char n) <? 128)%N = true.
Proof.
  intros Hn. assert (forallb (λ i, negb (bool_decide (base64_char (N.of_nat i) = "="%char)) &&
    negb (Ascii.is_space (base64_char (N.of_nat i))) &&
    bool_decide (base64_char (N.of_nat i) ≠ " "%char) &&
    (N_of_ascii (base64_char (N.of_nat i)) <? 128)%N) (seq 0 64) = true) as H by (by vm_compute).
  rewrite forallb_forall in H. specialize (H (N.to_nat n)). rewrite N2Nat.id in H.
  rewrite !andb_true_iff, !negb_true_iff, bool_decide_eq_true in H.
  destruct H as [[[? ?] ?] ?]; [|done].
  apply in_seq. lia.
Qed.

(** The digits of one, two and three bytes. *)
Lemma byte_bound a : (N_of_ascii a < 256)%N.
Proof. apply N_ascii_bounded. Qed.

Ltac digit_bounds :=
  repeat match goal with
  | a : ascii |- _ =>
    lazymatch goal with
    | _ : (N_of_ascii a < 256)%N |- _ => fail
    | _ => pose proof (byte_bound a)
    end
  end.

Ltac byte_arith := zify; Z.to_euclidean_division_equations; lia.

Lemma ascii_of_byte n a : n = N_of_ascii a → ascii_of_N n = a.
Proof. intros ->. apply ascii_N_embedding. Qed.

Lemma bytes2_digits a :
  bytes2 (base64_char (N_of_ascii a / 4)) (base64_char (N_of_ascii a mod 4 * 16)) =
  Some (String a "").
Proof.
  digit_bounds. unfold bytes2. rewrite !base64_value_char by byte_arith. cbn. do 2 f_equal.
  apply ascii_of_byte. byte_arith.
Qed.

Lemma bytes3_digits a b :
  bytes3 (base64_char (N_of_ascii a / 4))
    (base64_char (N_of_ascii a mod 4 * 16 + N_of_ascii b / 16))
    (base64_char (N_of_ascii b mod 16 * 4)) = Some (String a (String b "")).
Proof.
  digit_bounds. unfold bytes3. rewrite !base64_value_char by byte_arith. cbn. do 2 f_equal.
  - apply ascii_of_byte. byte_arith.
  - f_equal. apply ascii_of_byte. byte_arith.
Qed.

Lemma bytes4_digits a b d :
  bytes4 (base64_char (N_of_ascii a / 4))
    (base64_char (N_of_ascii a mod 4 * 16 + N_of_ascii b / 16))
    (base64_char (N_of_ascii b mod 16 * 4 + N_of_ascii d / 64))
    (base64_char (N_of_ascii d mod 64)) = Some (String a (String b (String d ""))).
Proof.
  digit_bounds. unfold bytes4. rewrite !base64_value_char by byte_arith. cbn. do 2 f_equal.
  - apply ascii_of_byte. byte_arith.
  - f_equal; [|f_equal].
    + apply ascii_of_byte. byte_arith.
    + apply ascii_of_byte. byte_arith.
Qed.

Lemma string_ind3 (P : string → Prop) :
  P "" → (∀ a, P (String a "")) → (∀ a b, P (String a (String b ""))) →
  (∀ a b d s, P s → P (String a (String b (String d s)))) → ∀ s, P s.
Proof.
  intros H0 H1 H2 H3. fix IH 1. intros [|a [|b [|d s]]]; [exact H0|apply H1|apply H2|].
  apply H3. apply IH.
Qed.

Lemma base64_cons3 a b d s : ∃ g1 g2 g3 g4,
  base64 (String a (String b (String d s))) = String g1 (String g2 (String g3 (String g4 (base64 s)))) ∧
  bytes4 g1 g2 g3 g4 = Some (String a (String b (String d ""))) ∧
  bool_decide (g4 = "="%char) = false.
Proof.
  do 4 eexists. split; [reflexivity|]. split; [apply bytes4_digits|].
  digit_bounds. apply base64_char_plain. byte_arith.
Qed.

Lemma decode_base64 s : decode_groups (base64 s) = Some s.
Proof.
  induction s as [|a|a b|a b d s IH] using string_ind3; [done| | |].
  - exact (bytes2_digits a).
  - pose proof (bytes3_digits a b) as H3. digit_bounds.
    cbn [base64 decode_groups]. rewrite (proj1 (base64_char_plain (N_of_ascii b mod 16 * 4)%N ltac:(byte_arith))).
    exact H3.
  - destruct (base64_cons3 a b d s) as (g1 & g2 & g3 & g4 & -> & Hg & Heq).
    cbn [decode_groups]. by rewrite Heq, andb_false_r, Hg, IH.
Qed.

Definition base64_digit (c : ascii) : bool :=
  negb (Ascii.is_space c) && bool_decide (c ≠ " "%char) && (N_of_ascii c <? 128)%N.

Lemma base64_digits s : str_all base64_digit (base64 s).
Proof.
  assert (∀ n, (n < 64)%N → base64_digit (base64_char n) = true) as Hc.
  { intros n Hn. unfold base64_digit. destruct (base64_char_plain n Hn) as (_ & -> & Hs & ->).
    by rewrite bool_decide_true. }
  induction s as [|a|a b|a b d s IH] using string_ind3; [done|..]; digit_bounds;
    cbn [base64 str_all]; rewrite !Hc by byte_arith; done.
Qed.

Lemma base64_all (f : ascii → bool) s : (∀ c, base64_digit c → f c) → str_all f (base64 s).
Proof. intros Hf. exact (str_all_impl _ _ _ Hf (base64_digits s)). Qed.

Lemma strip_spaces_id s : str_all (λ c, negb (Ascii.is_space c)) s → strip_spaces s = s.
Proof.
  induction s as [|a s IH]; [done|]. simpl. rewrite andb_True. intros [Ha Hs].
  destruct (Ascii.is_space a); [done|]. by rewrite IH.
Qed.

(** *** Latin-1 *)

Definition is_ascii (s : string) : Prop := str_all (λ c, N_of_ascii c <? 128)%N s.

Lemma latin1_ascii s : is_ascii s → latin1 s = Some s.
Proof.
  unfold is_ascii. induction s as [|a s IH]; [done|]. simpl. rewrite andb_True. intros [Ha Hs].
  destruct (N_of_ascii a <? 128)%N; [|done]. by rewrite IH.
Qed.

Lemma two_bytes a c :
  (194 ≤ N_of_ascii a ≤ 195)%N → (128 ≤ N_of_ascii c < 192)%N →
  let n := ((N_of_ascii a - 192) * 64 + (N_of_ascii c - 128))%N in
  (128 ≤ n < 256)%N ∧ (192 + n / 64)%N = N_of_ascii a ∧ (128 + n mod 64)%N = N_of_ascii c.
Proof. intros Ha Hc n. subst n. byte_arith. Qed.

Lemma of_latin1_latin1 s b : latin1 s = Some b → of_latin1 b = s.
Proof.
  revert b. remember (String.length s) as n eqn:Hn. revert s Hn.
  induction n as [n IH] using lt_wf_ind. intros [|a s] -> b; simpl; [by intros [= <-]|].
  destruct (N_of_ascii a <? 128)%N eqn:Ha.
  - intros (b' & Hb & ->)%fmap_Some. simpl. rewrite Ha. f_equal.
    by eapply IH; [|done|exact Hb]; simpl; lia.
  - destruct s as [|c s]; [done|]. destruct (_ && _) eqn:Hac; [|done].
    intros (b' & Hb & ->)%fmap_Some. rewrite !andb_true_iff, !N.leb_le, N.ltb_lt in Hac.
    destruct (two_bytes a c) as (Hbound & H1 & H2); [lia..|]. cbn [of_latin1].
    rewrite (N_ascii_embedding ((N_of_ascii a - 192) * 64 + (N_of_ascii c - 128))) by lia.
    rewrite (proj2 (N.ltb_ge _ 128%N)) by lia.
    rewrite H1, H2, !ascii_N_embedding. do 2 f_equal. by eapply IH; [|done|exact Hb]; simpl; lia.
Qed.

Lemma of_latin1_ascii s : is_ascii s → of_latin1 s = s.
Proof. intros Hs. by apply of_latin1_latin1, latin1_ascii. Qed.

Lemma base64_ascii s : is_ascii (base64 s).
Proof. apply base64_all. intros c. unfold base64_digit. rewrite !andb_True. tauto. Qed.

(** Decoding gives the characters whose codes were encoded. *)
Lemma atob_base64 bytes : atob (base64 bytes) = Ok (of_latin1 bytes).
Proof.
  unfold atob. rewrite strip_spaces_id.
  - by rewrite decode_base64.
  - apply base64_all. intros c. unfold base64_digit. rewrite !andb_True. tauto.
Qed.

(** Decoding inverts encoding, where it does not throw. *)
Theorem atob_btoa s t : btoa s = Ok t → atob t = Ok s.
Proof.
  unfold btoa. destruct (latin1 s) as [b|] eqn:Hb; [|done]. intros [= <-].
  by rewrite atob_base64, (of_latin1_latin1 s b).
Qed.

(** ** The authorization of an existing repository *)

(** A secret with an authorization header, and no docker credentials or certificate. *)
Record header_secret (s : ISecret) (header : string) : Prop := {
  hs_header : ISecret_data s !! "authorizationHeader" = Some (base64 header);
  hs_ca : ISecret_data s !! "ca.crt" = None;
  hs_docker : ISecret_data s !! ".dockerconfigjson" = None;
}.

Lemma base64_truthy s : s ≠ "" → truthy (base64 s) = true.
Proof. destruct s as [|a [|b [|d s]]]; done. Qed.

Lemma secret_effect_header s header f :
  header_secret s header → header ≠ "" →
  secret_effect (Some s) f = header_effect (base64 header) f.
Proof.
  intros [Hh Hc Hd] Hne. unfold secret_effect, secret_data. rewrite Hh, Hc, Hd, base64_truthy by done.
  cbn. by destruct (header_effect _ _).
Qed.

Lemma basic_words b : str_all (λ c, bool_decide (c ≠ " "%char)) b →
  second_word ("Basic " +:+ b) = Some b.
Proof.
  intros Hb. unfold second_word.
  change ("Basic " +:+ b) with ("Basic" +:+ String " " b). rewrite split_on_app_sep by done.
  rewrite split_on_lacks; [done|]. unfold lacks. clear -Hb.
  induction b as [|a b IH]; [done|]. simpl in *. rewrite andb_True in *. destruct Hb as [Ha Hb].
  split; [|by apply IH]. apply bool_decide_unpack in Ha. by rewrite bool_decide_false.
Qed.

Lemma basic_header_ascii code : is_ascii code → is_ascii ("Basic " +:+ code).
Proof. unfold is_ascii. rewrite str_all_app, andb_True. done. Qed.

(** The form of a repository with basic authorization, as the two runs of the effect leave
    it: the first reads the header, the second the user and the password. *)
Lemma basic_effect s u p code f :
  btoa (u +:+ ":" +:+ p) = Ok code → header_secret s ("Basic " +:+ code) → lacks ":" u →
  starts_with "Basic" (authHeader f) = false → starts_with "Bearer" (authHeader f) = false →
  ∃ f1 f2, secret_effect (Some s) f = Ok f1 ∧ secret_effect (Some s) f1 = Ok f2 ∧
    authMethod f2 = AUTH_METHOD_BASIC ∧ user f2 = u ∧ password f2 = split_on ":" p !! 0 ∧
    authHeader f2 = "Basic " +:+ code.
Proof.
  intros Hcode Hs Hu H1 H2. set (header := "Basic " +:+ code) in *.
  assert (base64_digits_of : str_all base64_digit code).
  { revert Hcode. unfold btoa. destruct (latin1 _); [|done]. intros [= <-]. apply base64_digits. }
  assert (atob (base64 header) = Ok header) as Hheader.
  { rewrite atob_base64, of_latin1_ascii; [done|]. apply basic_header_ascii.
    eapply str_all_impl; [|exact base64_digits_of]. intros c. unfold base64_digit.
    rewrite !andb_True. tauto. }
  rewrite (secret_effect_header s header) by done. unfold header_effect at 1.
  rewrite H1, H2, Hheader. cbn [mbind outcome_bind]. do 2 eexists. split; [reflexivity|].
  rewrite (secret_effect_header s header) by done. unfold header_effect. cbn [authHeader setf].
  change (starts_with "Basic" header) with true. cbn iota.
  assert (second_word header = Some code) as ->.
  { apply basic_words. eapply str_all_impl; [|exact base64_digits_of]. intros c.
    unfold base64_digit. rewrite !andb_True. tauto. }
  unfold atob_opt. cbn [default from_option id]. rewrite (atob_btoa _ _ Hcode).
  cbn [mbind outcome_bind].
  change (u +:+ ":" +:+ p) with (u +:+ String ":" p). rewrite split_on_app_sep by done.
  split; [reflexivity|]. done.
Qed.

(** C33: A user and a password without a colon, of characters of Latin-1: opening the form of the
    repository that was created with them shows both again, and submitting it again sends the same
    header.  ([finalHeader] yields a header only when [btoa] accepts the characters.  The secret
    of the repository holds the header it was given, in base64.) *)
Theorem basic_auth_roundtrip s f g p header :
  authMethod f = AUTH_METHOD_BASIC → password f = Some p → lacks ":" (user f) → lacks ":" p →
  finalHeader f = Ok header → header_secret s header → authHeader g = "" →
  ∃ g1 g2, secret_effect (Some s) g = Ok g1 ∧ secret_effect (Some s) g1 = Ok g2 ∧
    authMethod g2 = AUTH_METHOD_BASIC ∧ user g2 = user f ∧ password g2 = password f ∧
    finalHeader g2 = Ok header.
Proof.
  intros Hm Hp Hu Hlp Hf Hs Hg. unfold finalHeader in Hf. rewrite Hm, Hp in Hf.
  rewrite decide_False, decide_True in Hf by done.
  apply bind_Ok in Hf as (code & Hcode & [= <-]). cbn [default from_option id] in Hcode.
  destruct (basic_effect s (user f) p code g Hcode Hs Hu) as
    (g1 & g2 & Hg1 & Hg2 & Hm2 & Hu2 & Hp2 & _); [by rewrite Hg..|].
  rewrite split_on_lacks in Hp2 by done. exists g1, g2. split_and!; try done; [by rewrite Hp2, Hp|].
  unfold finalHeader. rewrite Hm2, Hu2, Hp2. rewrite decide_False, decide_True by done.
  cbn [default from_option id lookup list_lookup]. by rewrite Hcode.
Qed.

(** A password with a colon is cut at it. *)
Theorem password_cut_at_colon s u p1 p2 code g :
  lacks ":" u → lacks ":" p1 → btoa (u +:+ ":" +:+ p1 +:+ ":" +:+ p2) = Ok code →
  header_secret s ("Basic " +:+ code) → authHeader g = "" →
  ∃ g1 g2, secret_effect (Some s) g = Ok g1 ∧ secret_effect (Some s) g1 = Ok g2 ∧
    password g2 = Some p1.
Proof.
  intros Hu Hp Hcode Hs Hg.
  destruct (basic_effect s u (p1 +:+ ":" +:+ p2) code g Hcode Hs Hu) as
    (g1 & g2 & Hg1 & Hg2 & _ & _ & Hp2 & _); [by rewrite Hg..|].
  exists g1, g2. split_and!; [done..|]. rewrite Hp2.
  change (p1 +:+ ":" +:+ p2) with (p1 +:+ String ":" p2). by rewrite split_on_app_sep.
Qed.

(** The header after the effect: the one of the secret, unless a basic or bearer header
    was there. *)
Lemma secret_effect_authHeader s f f' :
  secret_effect (Some s) f = Ok f' →
  match secret_data s "authorizationHeader" with
  | Some header =>
    if starts_with "Basic" (authHeader f) || starts_with "Bearer" (authHeader f)
    then authHeader f' = authHeader f else atob header = Ok (authHeader f')
  | None => authHeader f' = authHeader f
  end.
Proof.
  unfold secret_effect. intros (g0 & Hca & (g1 & Hh & [= <-])%bind_Ok)%bind_Ok.
  assert (authHeader g0 = authHeader f) as H0.
  { destruct (secret_data s "ca.crt"); [|by simplify_eq].
    apply bind_Ok in Hca as (? & _ & [= <-]). done. }
  assert (authHeader (match secret_data s ".dockerconfigjson" with
    | Some _ => g1 <| authMethod := AUTH_METHOD_REGISTRY_SECRET |> | None => g1 end) =
    authHeader g1) as -> by (by destruct (secret_data s ".dockerconfigjson")).
  destruct (secret_data s "authorizationHeader") as [header|]; [|congruence].
  unfold header_effect in Hh. rewrite H0 in Hh. destruct (starts_with "Basic" _); cbn [orb].
  { apply bind_Ok in Hh as (? & _ & [= <-]). done. }
  destruct (starts_with "Bearer" _); [by injection Hh as <-|].
  by apply bind_Ok in Hh as (h & Hatob & [= <-]).
Qed.

(** C39: The effect that reads the secret runs at most twice: it runs again when the header has
    changed, and the second run leaves the header alone. *)
Theorem secret_effect_settles secret f f1 f2 :
  secret_effect secret f = Ok f1 → secret_effect secret f1 = Ok f2 →
  authHeader f2 = authHeader f1.
Proof.
  destruct secret as [s|]; [|simpl; congruence].
  intros H1%secret_effect_authHeader H2%secret_effect_authHeader.
  destruct (secret_data s "authorizationHeader") as [h|]; [|done].
  destruct (starts_with "Basic" (authHeader f1) || _) eqn:E1; [done|].
  destruct (starts_with "Basic" (authHeader f) || _) eqn:E; [|congruence].
  rewrite <- H1 in E. congruence.
Qed.

(** The user cannot change the custom header of an existing repository: whatever is typed,
    the effect puts the header of the secret back; characters that are not ASCII come back as one
    character for each of their bytes. *)
Theorem custom_header_restored s header f v :
  header_secret s header → header ≠ "" →
  starts_with "Basic" v = false → starts_with "Bearer" v = false →
  ∃ f', secret_effect (Some s) (handle (AuthHeaderChange v) f) = Ok f' ∧
    authHeader f' = of_latin1 header ∧ (is_ascii header → authHeader f' = header) ∧
    authMethod f' = AUTH_METHOD_CUSTOM.
Proof.
  intros Hs Hne H1 H2. rewrite (secret_effect_header s header) by done. unfold header_effect.
  cbn [handle authHeader setf]. rewrite H1, H2, atob_base64. eexists.
  split; [reflexivity|]. split_and!; [done| |done]. exact (of_latin1_ascii header).
Qed.

Lemma some_is n (used : list string) :
  some (λ s, bool_decide (s = n)) used = bool_decide (n ∈ used).
Proof.
  unfold some. apply eq_true_iff_eq. rewrite existsb_exists, bool_decide_eq_true. split.
  - intros (x & Hx & Hb). apply bool_decide_eq_true in Hb as ->. by apply list_elem_of_In.
  - intros Hn. exists n. by rewrite bool_decide_eq_true, <- list_elem_of_In.
Qed.

(** The last secret of the repository is selected; without one, the selection stays. *)
Lemma pull_secret_effect_last secrets repo f :
  selectedImagePullSecret (pull_secret_effect secrets repo f) =
  default (selectedImagePullSecret f)
    (last (filter (λ n, n ∈ default [] (spec_of repo ≫= IAppRepositorySpec_dockerRegistrySecrets))
      ((λ s, IResourceMetadata_name (ISecret_metadata s)) <$> secrets))).
Proof.
  unfold pull_secret_effect. revert f.
  induction secrets as [|s secrets IH] using rev_ind; intros f; [done|].
  rewrite foldl_app, fmap_app, filter_app. cbn [foldl fmap list_fmap]. rewrite some_is, filter_cons.
  destruct (bool_decide_reflect (IResourceMetadata_name (ISecret_metadata s) ∈
    default [] (spec_of repo ≫= IAppRepositorySpec_dockerRegistrySecrets))) as [Hin|Hin].
  - by rewrite decide_True, filter_nil, last_snoc by done.
  - rewrite decide_False, filter_nil, app_nil_r by done. apply IH.
Qed.

(** Nor the pull secret of a repository that has one. *)
Theorem pull_secret_restored secrets repo f v secretName :
  filter (λ n, n ∈ default [] (spec_of repo ≫= IAppRepositorySpec_dockerRegistrySecrets))
    ((λ s, IResourceMetadata_name (ISecret_metadata s)) <$> secrets) = [secretName] →
  selectedImagePullSecret (pull_secret_effect secrets repo (handle (SelectPullSecret v) f)) =
  secretName.
Proof. intros Hf. by rewrite pull_secret_effect_last, Hf. Qed.

(** ** Validation *)

(** What has been validated is what is submitted: a change of any field that is part of
    the validation forgets its verdict.  The exception is the pull secret. *)
Theorem handle_forgets_validation e f :
  (∀ v, e ≠ SelectPullSecret v) → validated (handle e f) ≠ None →
  validation_of (handle e f) = validation_of f ∧ validated (handle e f) = validated f.
Proof. intros He. destruct e; simpl; try done; by destruct (He v). Qed.

Theorem select_pull_secret_keeps_validation f v :
  authMethod f = AUTH_METHOD_REGISTRY_SECRET → selectedImagePullSecret f ≠ v →
  validated (handle (SelectPullSecret v) f) = validated f ∧
  validation_of (handle (SelectPullSecret v) f) ≠ validation_of f.
Proof.
  intros Hm Hne. split; [done|]. unfold validation_of, dockerRegCreds. intros [= Heq].
  cbn [handle authMethod selectedImagePullSecret setf] in Heq. rewrite Hm in Heq.
  rewrite !decide_True in Heq by done. done.
Qed.

(** *** What the requests say of the form *)

(** The header and the registry credentials that go with the way of authorization chosen. *)
Inductive credentials (f : repo_form) : string → string → Prop :=
| no_credentials : authMethod f = AUTH_METHOD_NONE → credentials f "" ""
| custom_credentials : authMethod f = AUTH_METHOD_CUSTOM → credentials f (authHeader f) ""
| basic_credentials p code :
  authMethod f = AUTH_METHOD_BASIC → password f = Some p → btoa (user f +:+ ":" +:+ p) = Ok code →
  credentials f ("Basic " +:+ code) ""
| bearer_credentials t :
  authMethod f = AUTH_METHOD_BEARER → token f = Some t → credentials f ("Bearer " +:+ t) ""
| registry_credentials :
  authMethod f = AUTH_METHOD_REGISTRY_SECRET → credentials f "" (selectedImagePullSecret f).

Definition sent_field (req : request) (k : string) : json :=
  jget (jget (req_body req) "appRepository") k.

(** What is validated and what is submitted have in common. *)
Record describes (f : repo_form) (header creds : string) (req : request) : Prop := {
  ds_repoURL : sent_field req "repoURL" =
    JStr (if starts_with "http" (url f) then url f else "https://" +:+ url f);
  ds_type : sent_field req "type" = JStr (type f);
  ds_authHeader : sent_field req "authHeader" = JStr header;
  ds_authRegCreds : sent_field req "authRegCreds" = JStr creds;
  ds_customCA : sent_field req "customCA" = JStr (customCA f);
  ds_ociRepositories : sent_field req "ociRepositories" =
    JStrs (if decide (ociRepositories f = "") then [] else trim <$> split_on "," (ociRepositories f));
  ds_skipTLS : sent_field req "tlsInsecureSkipVerify" = JBool (skipTLS f);
  ds_passCredentials : sent_field req "passCredentials" = JBool (passCredentials f);
}.

Definition repositories_url (cl ns : string) : string :=
  "api/v1/clusters/" +:+ cl +:+ "/" +:+ (if decide (ns = "") then "" else "namespaces/" +:+ ns +:+ "/")
  +:+ "apprepositories".

Record checks (cl ns : string) (f : repo_form) (header creds : string) (req : request) : Prop := {
  ck_method : req_method req = POST;
  ck_url : req_url req = repositories_url cl ns +:+ "/validate";
  ck_describes : describes f header creds req;
}.

(** A new repository is created; an existing one is replaced, and its filter is sent under
    another name (see [ReposActions.update_loses_filter]). *)
Record submits (repo : option IAppRepository) (cl ns : string) (f : repo_form)
    (header creds : string) (template : json) (req : request) : Prop := {
  sb_method : req_method req = match repo with Some _ => PUT | None => POST end;
  sb_url : req_url req =
    match repo with
    | Some _ => repositories_url cl ns +:+ "/" +:+ name f
    | None => repositories_url cl ns
    end;
  sb_describes : describes f header creds req;
  sb_name : sent_field req "name" = JStr (name f);
  sb_description : sent_field req "description" = JStr (description f);
  sb_template : sent_field req "syncJobPodTemplate" = template;
  sb_registrySecrets : sent_field req "registrySecrets" =
    JStrs (if decide (selectedImagePullSecret f = "") then [] else [selectedImagePullSecret f]);
  sb_filter : sent_field req (match repo with Some _ => "filter" | None => "filterRule" end) =
    (if decide (type f = TYPE_HELM ∧ filterNames f ≠ "")
     then filter_json (Some (toFilterRule (filterNames f) (filterRegex f) (filterExclude f)))
     else JUndefined);
}.

(** The events of one submission, and whether the server accepts it: what follows the request
    changes nothing more on the server. *)
Inductive submission (E : env) (repo : option IAppRepository) (cl ns : string) (f : repo_form)
    (header creds : string) (template : json) : bool → list event → Prop :=
| submission_intro n req rest :
  submits repo cl ns f header creds template req → Forall reads_only rest →
  submission E repo cl ns f header creds template
    (match env_reply E n axiosWithAuth req T_repo_response with Ok _ => true | Throws _ => false end)
    (EvDispatch (match repo with Some _ => requestRepoUpdate | None => addRepo end)
       :: EvRequest axiosWithAuth req :: rest).

Lemma credentials_final f header creds :
  credentials f header creds → finalHeader f = Ok header ∧ dockerRegCreds f = creds.
Proof.
  unfold finalHeader, dockerRegCreds.
  intros [Hm|Hm|p code Hm Hp Hc|t Hm Ht|Hm]; rewrite Hm; cbn; rewrite ?Hp, ?Ht; cbn; rewrite ?Hc; done.
Qed.

Lemma repositories_url_base cl ns : backend_apprepositories_base cl ns = repositories_url cl ns.
Proof. by destruct ns. Qed.

Lemma ociRepoList_sent f :
  JStrs (ociRepoList f) =
  JStrs (if decide (ociRepositories f = "") then [] else trim <$> split_on "," (ociRepositories f)).
Proof. unfold ociRepoList. by destruct (ociRepositories f). Qed.

Lemma checks_form cl ns f header creds :
  dockerRegCreds f = creds →
  checks cl ns f header creds
    (AppRepository_validate_request cl ns (finalURL f) (type f) header (dockerRegCreds f) (customCA f)
       (ociRepoList f) (skipTLS f) (passCredentials f)).
Proof.
  intros <-. split; [done| |split; try done; apply ociRepoList_sent].
  by rewrite <-repositories_url_base.
Qed.

Lemma submitted_filter_sent f :
  filter_json (submitted_filter f) =
  if decide (type f = TYPE_HELM ∧ filterNames f ≠ "")
  then filter_json (Some (toFilterRule (filterNames f) (filterRegex f) (filterExclude f)))
  else JUndefined.
Proof. unfold submitted_filter. repeat case_bool_decide; case_decide; cbn; naive_solver. Qed.

Lemma submits_form `{Router} st repo ns f header creds template :
  dockerRegCreds f = creds →
  submits repo (currentCluster st) ns f header creds template
    ((match repo with Some _ => update_repo_request | None => create_repo_request end)
       st (submit_args ns header f) template).
Proof.
  intros <-. destruct repo; split; try done; try (by rewrite <-repositories_url_base);
    try (split; try done; apply ociRepoList_sent); try apply submitted_filter_sent.
  all: unfold sent_field; cbn; by destruct (selectedImagePullSecret f).
Qed.

Section install_facts.
Context `{Lodash} `{Jwt} `{Location} `{Router} `{Yaml} (boot : browser).

Lemma onSubmit_submission E repo ns f header creds template m :
  dockerRegCreds f = creds → parsePodTemplate (syncJobPodTemplate f) = Ok template →
  ∃ m' accepted tr, run boot E (onSubmit repo (submit_args ns header f)) m = (Ok accepted, m') ∧
    submission E repo (currentCluster (m_store m)) ns f header creds template accepted tr ∧
    m_trace m' = m_trace m ++ tr.
Proof using.
  intros Hcreds Ht. pose proof (submits_form (m_store m) repo ns f header creds template Hcreds) as Hsub.
  destruct repo; [destruct (updateRepo_submits boot E (submit_args ns header f) m template Ht)
      as (m' & rest & Hrun & Htr & Hrest)
    |destruct (installRepo_submits boot E (submit_args ns header f) m template Ht)
      as (m' & rest & Hrun & Htr & Hrest)].
  all: do 3 eexists; split; [exact Hrun|]; split; [by apply submission_intro|exact Htr].
Qed.

(** The end of [install], from a form [g] that is left. *)
Lemma submit_step E repo ns f header creds template m (g : repo_form) :
  dockerRegCreds f = creds → parsePodTemplate (syncJobPodTemplate f) = Ok template →
  ∃ m' accepted tr,
    run boot E (success ← await (onSubmit repo (submit_args ns header f)); mret (g, success)) m =
      (Ok (g, accepted), m') ∧
    submission E repo (currentCluster (m_store m)) ns f header creds template accepted tr ∧
    m_trace m' = m_trace m ++ tr.
Proof using.
  intros Hc Ht. destruct (onSubmit_submission E repo ns f header creds template m Hc Ht)
    as (m' & accepted & tr & Hrun & Hsub & Htr).
  exists (do_tick boot E m'), accepted, tr. rewrite run_bind, run_await, Hrun. cbn beta match.
  rewrite run_ret, do_tick_trace. done.
Qed.

(** C32: The form of a repository.  It is submitted at once when it was validated before, with
    success or (a second click) without; otherwise it is validated first, submitted when the server
    answers with the code 200, and not submitted when it answers anything else, or not at all.  What
    is validated and what is submitted are the fields of the form, one by one, with https assumed
    for an address without a scheme and the header and credentials of the way of authorization
    chosen; it is submitted once, as a new repository or in the place of the existing one; the modal
    closes when the server accepts it.  ([credentials] leaves out a user and a password that [btoa]
    does not accept, and the texts that were never given; the template of the synchronization is
    assumed to parse.) *)
Theorem install_guarded E repo ns f header creds template entry m :
  credentials f header creds → parsePodTemplate (syncJobPodTemplate f) = Ok template →
  IClustersState_clusters (s_clusters (m_store m)) !! currentCluster (m_store m) = Some entry →
  ∃ m' f' closes,
    run boot E (install repo ns f) m = (Ok (f', closes), m') ∧
    match validated f with
    | Some _ =>
      f' = f ∧ ∃ tr, m_trace m' = m_trace m ++ tr ∧
        submission E repo (currentCluster (m_store m)) ns f header creds template closes tr
    | None =>
      ∃ check,
        checks (currentCluster (m_store m)) (property_key (IClusterState_currentNamespace entry))
          f header creds check ∧
        let answer := env_reply E (m_ticks m) axiosWithAuth check T_json in
        (∀ d, answer = Ok d → jget d "code" = JNum 200 →
           f' = f <| validated := Some true |> ∧
           ∃ m1 tr, m_trace m1 = m_trace m ++
               [EvDispatch repoValidating; EvRequest axiosWithAuth check; EvDispatch (repoValidated d)] ∧
             m_trace m' = m_trace m1 ++ tr ∧
             submission E repo (currentCluster (m_store m1)) ns f header creds template closes tr) ∧
        ((∀ d, answer = Ok d → jget d "code" ≠ JNum 200) →
           f' = f <| validated := Some false |> ∧ closes = false ∧
           ∃ e, m_trace m' = m_trace m ++
             [EvDispatch repoValidating; EvRequest axiosWithAuth check;
              EvDispatch (errorRepos e op_validate)])
    end.
Proof using.
  intros [Hh Hc]%credentials_final Ht Hentry.
  unfold install. rewrite run_bind, run_lift, Hh. cbn beta match.
  destruct (validated f) as [v|] eqn:Hv.
  - destruct (submit_step E repo ns f header creds template m f Hc Ht)
      as (m' & closes & tr & Hrun & Hsub & Htr).
    exists m', f, closes. split; [|by eauto 6].
    rewrite run_bind. destruct v; cbn [default from_option id negb andb];
      rewrite ?(bool_decide_true (Some false = Some false)) by done; cbn [negb];
      rewrite run_ret; cbn beta match; exact Hrun.
  - rewrite bool_decide_false by done. cbn [default from_option id negb andb].
    rewrite run_bind, run_bind, run_await.
    pose proof (validateRepo_verdict boot E (finalURL f) (type f) header (dockerRegCreds f) (customCA f)
      (ociRepoList f) (skipTLS f) (passCredentials f) m entry Hentry) as Hval.
    pose proof (checks_form (currentCluster (m_store m))
      (property_key (IClusterState_currentNamespace entry)) f header creds Hc) as Hck.
    unfold validate_form. destruct (run boot E (validateRepo _ _ _ _ _ _ _ _) m) as [r m1].
    set (check := AppRepository_validate_request _ _ _ _ _ _ _ _ _ _) in *.
    destruct Hval as (-> & Htr1 & _ & _). cbn beta match. rewrite run_ret. cbn beta match.
    destruct (_ ≫= _ : outcome json) as [d|e] eqn:Hverdict; cbn [orb].
    + apply bind_Ok in Hverdict as (d' & Hreply & (code & Hcode & Hd)%bind_Ok).
      apply member_Ok in Hcode as ->. case_bool_decide as H200; [|done]. injection Hd as ->.
      destruct (submit_step E repo ns f header creds template (do_tick boot E m1)
        (f <| validated := Some true |>) Hc Ht) as (m' & closes & tr & Hrun & Hsub & Htr).
      eexists m', _, closes. split; [exact Hrun|]. exists check. split; [exact Hck|].
      rewrite Hreply. split.
      * intros d0 [= <-] _. split; [done|]. exists (do_tick boot E m1), tr.
        split; [by rewrite do_tick_trace|by split].
      * intros Hno. by destruct (Hno d).
    + rewrite run_ret. eexists _, _, _. split; [reflexivity|]. exists check. split; [exact Hck|]. split.
      * intros d Hreply H200. rewrite Hreply in Hverdict. cbn [mbind outcome_bind] in Hverdict.
        rewrite (member_at d "code" (JNum 200) H200) in Hverdict by done.
        cbn [mbind outcome_bind] in Hverdict. by rewrite bool_decide_true in Hverdict.
      * intros _. split_and!; [done|done|]. exists e. by rewrite do_tick_trace, Htr1.
Qed.

(** With a character that [btoa] does not accept nothing is asked and nothing is reported: the
    promise of [install] is rejected. *)
Theorem beyond_latin1_not_submitted E repo ns f p m :
  authMethod f = AUTH_METHOD_BASIC → password f = Some p → latin1 (user f +:+ ":" +:+ p) = None →
  run boot E (install repo ns f) m = (Throws beyond_latin1, m).
Proof using.
  intros Hm Hp Hl. unfold install, finalHeader. rewrite run_bind, run_lift, Hm, Hp. cbn.
  unfold btoa. cbn in Hl. by rewrite Hl.
Qed.
End install_facts.
