(* ===== verification/Utils.v ===== *)
(** * Helpers of the views (src/dashboard/src/shared/utils.ts)

    Positions in a string are counted in bytes: for the texts of the language that is
    exact on ASCII. *)

From S2P Require Import Prelude.
From S2P Require Import Json.
From S2P Require Import JsonText.
From S2P Require Import Types.
From S2P Require Import Url.
From S2P Require Import KubeRef.

(** The characters of [/[-[\]/{}()*+?.\\^$|]/g]. *)
Definition special_chars : list ascii :=
  ["-"; "["; "]"; "/"; "{"; "}"; "("; ")"; "*"; "+"; "?"; "."; "\"; "^"; "$"; "|"]%char.

Fixpoint escapeRegExp (str : string) : string :=
  match str with
  | EmptyString => ""
  | String a s =>
    if bool_decide (a ∈ special_chars) then String "\" (String a (escapeRegExp s))
    else String a (escapeRegExp s)
  end.

Definition MAX_DESC_LENGTH : nat := 90.

(** [s.lastIndexOf(c, from)]; [None] stands for -1. *)
Fixpoint lastIndexOf (c : ascii) (s : string) (from : nat) : option nat :=
  match s with
  | EmptyString => None
  | String a s' =>
    match (match from with 0 => None | S f => lastIndexOf c s' f end) with
    | Some i => Some (S i)
    | None => if bool_decide (a = c) then Some 0 else None
    end
  end.

(** [desc.substr(0, -1)] is the empty string. *)
Definition trimDescription (desc : string) : string :=
  if bool_decide (MAX_DESC_LENGTH < String.length desc) then
    match lastIndexOf " " desc MAX_DESC_LENGTH with
    | Some i => String.substring 0 i desc
    | None => ""
    end +:+ "..."
  else desc.

(** The entries of the cache for the references, lists as one entry for each item. *)
Definition flattenResources (refs : list ResourceRef)
    (resources : gmap string (IKubeItem kube_object)) : list (IKubeItem kube_object) :=
  refs ≫= λ ref,
    match resources !! getResourceURL ref with
    | Some kubeItem =>
      match IKubeItem_item kubeItem ≫= kube_object_items with
      | Some items =>
        (λ i, {| IKubeItem_isFetching := IKubeItem_isFetching kubeItem;
                 IKubeItem_item := Some (KResource i);
                 IKubeItem_error := IKubeItem_error kubeItem |}) <$> items
      | None => [kubeItem]
      end
    | None => []
    end.

(** ** Facts *)

(** Reading a pattern of escaped and plain characters. *)
Fixpoint unescape (p : string) : option string :=
  match p with
  | EmptyString => Some ""
  | String a p' =>
    if bool_decide (a = "\"%char) then
      match p' with
      | String b p'' => String b <$> unescape p''
      | EmptyString => None
      end
    else if bool_decide (a ∈ special_chars) then None else String a <$> unescape p'
  end.

(** An escaped text is a pattern that stands for the text itself: every character with a
    meaning in a pattern is behind a backslash, and reading it back gives the text. *)
Theorem escapeRegExp_literal s : unescape (escapeRegExp s) = Some s.
Proof.
  induction s as [|a s IH]; [done|]. cbn [escapeRegExp]. case_bool_decide as Ha.
  - cbn [unescape]. rewrite bool_decide_true by done. by rewrite IH.
  - cbn [unescape]. rewrite bool_decide_false, bool_decide_false by (done || by intros ->; apply Ha; set_solver).
    by rewrite IH.
Qed.

Lemma lastIndexOf_Some c s from i :
  lastIndexOf c s from = Some i →
  i ≤ from ∧ String.get i s = Some c ∧ ∀ j, i < j → j ≤ from → String.get j s ≠ Some c.
Proof.
  revert from i. induction s as [|a s IH]; intros from i; [done|]. cbn [lastIndexOf].
  destruct from as [|f].
  - case_bool_decide; [|done]. intros [= <-]. subst. split_and!; [lia|done|]. intros. lia.
  - destruct (lastIndexOf c s f) as [k|] eqn:Hk.
    + intros [= <-]. destruct (IH f k Hk) as (Hle & Hget & Hmax).
      split_and!; [lia|done|]. intros [|j] Hj Hjf; [lia|]. apply (Hmax j); lia.
    + case_bool_decide; [|done]. intros [= <-]. subst. split_and!; [lia|done|].
      intros [|j] Hj Hjf; [lia|]. cbn [String.get]. revert Hk Hjf. clear. revert f j.
      induction s as [|b s IH]; intros f j; [by destruct j|]. cbn [lastIndexOf].
      destruct f as [|f].
      * case_bool_decide; [done|]. intros _ Hj. replace j with 0 by lia. simpl. congruence.
      * destruct (lastIndexOf c s f) eqn:Hf; [done|]. case_bool_decide; [done|].
        intros _ Hj. destruct j as [|j]; simpl; [congruence|]. apply (IH f j Hf). lia.
Qed.

Lemma substring_length n s : n ≤ String.length s → String.length (String.substring 0 n s) = n.
Proof.
  revert n. induction s as [|a s IH]; intros [|n] Hn; simpl in *; try done; [lia|].
  f_equal. apply IH. lia.
Qed.

Lemma get_length i s c : String.get i s = Some c → i < String.length s.
Proof.
  revert i. induction s as [|a s IH]; intros [|i]; simpl; try done; [lia|].
  intros Hi%IH. lia.
Qed.

Lemma substring_prefix n s : ∃ t, s = String.substring 0 n s +:+ t.
Proof.
  revert n. induction s as [|a s IH]; intros [|n]; [by exists ""..|by eexists|]. simpl.
  destruct (IH n) as [t Ht]. exists t. by rewrite str_app_cons, <-Ht.
Qed.

(** A description is never longer than ninety characters and an ellipsis; a short one is
    shown as it is; of a long one a beginning is shown that stops before a blank, the last
    one there is room for, or nothing when its first word is too long. *)
Theorem trimDescription_fits desc :
  String.length (trimDescription desc) ≤ MAX_DESC_LENGTH + 3 ∧
  (String.length desc ≤ MAX_DESC_LENGTH → trimDescription desc = desc) ∧
  (MAX_DESC_LENGTH < String.length desc →
   ∃ shown rest, trimDescription desc = shown +:+ "..." ∧ desc = shown +:+ rest ∧
     (shown = "" ∨ String.get (String.length shown) desc = Some " "%char ∧
      ∀ j, String.length shown < j → j ≤ MAX_DESC_LENGTH → String.get j desc ≠ Some " "%char)).
Proof.
  unfold trimDescription. case_bool_decide as Hlen; cycle 1.
  { split_and!; [lia|done|]. intros. lia. }
  destruct (lastIndexOf " " desc MAX_DESC_LENGTH) as [i|] eqn:Hi.
  - apply lastIndexOf_Some in Hi as (Hle & Hget & Hmax).
    assert (String.length (String.substring 0 i desc) = i) as Hs.
    { apply substring_length. apply get_length in Hget. lia. }
    split_and!; [rewrite str_length_app, Hs; cbn; unfold MAX_DESC_LENGTH in *; lia|lia|]. intros _.
    destruct (substring_prefix i desc) as [rest Hrest]. exists (String.substring 0 i desc), rest.
    split_and!; [done|done|right]. by rewrite Hs.
  - rewrite str_app_nil_l. split_and!; [cbn; unfold MAX_DESC_LENGTH; lia|lia|]. intros _. exists "", desc. split_and!; [done..|by left].
Qed.

(** What the list of entries is flattened to. *)
Lemma flattenResources_app refs refs' resources :
  flattenResources (refs ++ refs') resources =
  flattenResources refs resources ++ flattenResources refs' resources.
Proof. apply bind_app. Qed.
