(* ===== verification/Routes.v ===== *)
(** * The routes of the application (src/dashboard/src/containers/RoutesContainer)

    The paths of [Routes.tsx] as the texts they are, and what is rendered at a location:
    [PrivateRoute] and [LoginForm] decide between a page, the login form and redirections.
    The containers of a chart read the parameters of its path.

    Matching a path is react-router's: [match_path] is a parameter, and [PathMatching] states
    what its documentation (path-to-regexp) says of the paths of the table: [:name] is one
    segment that is not empty, [:name(text)] that text, the rest is literal, without regard to
    case, and the whole location has to match.  A location is its [pathname] as react-router
    receives it; the percent sequences the package history decodes are not modelled. *)

From S2P Require Import Prelude.
From S2P Require Import Json.
From S2P Require Import Types.
From S2P Require Import Url.

(** ** What react-router promises *)

Definition params_t : Type := list (string * string).

Inductive segment :=
| Literal (s : string)
| Param (name : string)
| Fixed (prefix name text suffix : string).

(** One segment of a path of the table. *)
Definition parse_segment (s : string) : segment :=
  match split_on ":" s with
  | [prefix; rest] =>
    match split_on "(" rest with
    | [name; r] =>
      match split_on ")" r with
      | [text; suffix] => Fixed prefix name text suffix
      | _ => Literal s
      end
    | _ => Param rest
    end
  | _ => Literal s
  end.

Definition parse_path (path : string) : list segment :=
  parse_segment <$> filter (λ s, Is_true (truthy s)) (split_on "/" path).

Definition match_segment (p : segment) (s : string) : option params_t :=
  match p with
  | Literal l => if bool_decide (toLowerCase l = toLowerCase s) then Some [] else None
  | Param name => if truthy s then Some [(name, s)] else None
  | Fixed prefix name text suffix =>
    if bool_decide (toLowerCase (prefix +:+ text +:+ suffix) = toLowerCase s)
    then Some [(name, String.substring (String.length prefix) (String.length text) s)] else None
  end.

Fixpoint match_segments (ps : list segment) (ss : list string) : option params_t :=
  match ps, ss with
  | [], [] => Some []
  | p :: ps', s :: ss' =>
    m ← match_segment p s; ms ← match_segments ps' ss'; Some (m ++ ms)
  | _, _ => None
  end.

(** The location with these segments. *)
Definition location_of (segs : list string) : string := "/" +:+ join "/" segs.

(** No slash in a segment, and none at the end of the location. *)
Definition plain_segments (segs : list string) : Prop :=
  Forall (λ s, Is_true (lacks "/" s)) segs ∧ last segs ≠ Some "".

(** ** The table *)

Inductive component :=
| AppList | AppView | AppUpgradeContainer | AppNewContainer | CatalogContainer
| ChartViewContainer | OperatorsListContainer | OperatorViewContainer | OperatorNewContainer
| OperatorInstanceCreateContainer | OperatorInstanceViewContainer | OperatorInstanceUpdateContainer
| AppRepoList | ApiDocs | LoginFormContainer.

Definition privateRoutes : list (string * component) :=
  [("/c/:cluster/ns/:namespace/apps", AppList);
   ("/c/:cluster/ns/:namespace/apps/:releaseName", AppView);
   ("/c/:cluster/ns/:namespace/apps/:releaseName/upgrade", AppUpgradeContainer);
   ("/c/:cluster/ns/:namespace/apps/new/:repo/:id/versions/:version", AppNewContainer);
   ("/c/:cluster/ns/:namespace/apps/new-from-:global(global)/:repo/:id/versions/:version",
    AppNewContainer);
   ("/c/:cluster/ns/:namespace/catalog", CatalogContainer);
   ("/c/:cluster/ns/:namespace/catalog/:repo", CatalogContainer);
   ("/c/:cluster/ns/:namespace/charts/:repo/:id", ChartViewContainer);
   ("/c/:cluster/ns/:namespace/:global(global)-charts/:repo/:id", ChartViewContainer);
   ("/c/:cluster/ns/:namespace/charts/:repo/:id/versions/:version", ChartViewContainer);
   ("/c/:cluster/ns/:namespace/:global(global)-charts/:repo/:id/versions/:version",
    ChartViewContainer);
   ("/c/:cluster/ns/:namespace/operators", OperatorsListContainer);
   ("/c/:cluster/ns/:namespace/operators/:operator", OperatorViewContainer);
   ("/c/:cluster/ns/:namespace/operators/new/:operator", OperatorNewContainer);
   ("/c/:cluster/ns/:namespace/operators-instances/new/:csv/:crd", OperatorInstanceCreateContainer);
   ("/c/:cluster/ns/:namespace/operators-instances/:csv/:crd/:instanceName",
    OperatorInstanceViewContainer);
   ("/c/:cluster/ns/:namespace/operators-instances/:csv/:crd/:instanceName/update",
    OperatorInstanceUpdateContainer);
   ("/c/:cluster/ns/:namespace/config/repos", AppRepoList);
   ("/docs", ApiDocs)].

Definition routes : list (string * component) := [("/login", LoginFormContainer)].

Class PathMatching (match_path : string → string → option params_t) := {
  match_path_plain path segs :
    path ∈ "/" :: (routes ++ privateRoutes).*1 → plain_segments segs →
    match_path path (location_of segs) = match_segments (parse_path path) segs;
}.

(** ** What is rendered *)

(** A location to go to, and the [from] of its state. *)
Inductive view :=
| LoadingWrapper
| Redirect (to : string) (from : option string)
| Page (c : component) (params : params_t)
| SessionExpired
| NotFound.

Definition rootNamespacedRedirect (authenticated : bool) (cluster currentNamespace : string) : view :=
  if authenticated then
    if negb (truthy cluster) || negb (truthy currentNamespace) then LoadingWrapper
    else Redirect (app_apps_list cluster currentNamespace) None
  else Redirect "/login" None.

(** [PrivateRoute]. *)
Definition renderRouteIfAuthenticated (authenticated sessionExpired : bool) (location : string)
    (c : component) (params : params_t) : view :=
  if authenticated then Page c params
  else if sessionExpired then SessionExpired else Redirect "/login" (Some location).

Section switch.
Context (match_path : string → string → option params_t).

(** [Switch]: the first route that matches. *)
Fixpoint find_route (rs : list (string * component)) (pathname : string)
    : option (component * params_t) :=
  match rs with
  | [] => None
  | (path, c) :: rs' =>
    match match_path path pathname with
    | Some params => Some (c, params)
    | None => find_route rs' pathname
    end
  end.

Definition render (authenticated sessionExpired : bool) (cluster currentNamespace pathname : string)
    : view :=
  match match_path "/" pathname with
  | Some _ => rootNamespacedRedirect authenticated cluster currentNamespace
  | None =>
    match find_route routes pathname with
    | Some (c, params) => Page c params
    | None =>
      match find_route privateRoutes pathname with
      | Some (c, params) =>
        renderRouteIfAuthenticated authenticated sessionExpired pathname c params
      | None => NotFound
      end
    end
  end.
End switch.

(** ** LoginForm *)

Inductive login_view :=
| LoginLoading
| LoginRedirect (to : string)
| LoginWith (oauth : bool) (error : option string) (replaced : option string).

(** [replaced] is the address the window is sent to, when the form itself is skipped. *)
Definition LoginForm (authenticating cookieChecked authenticated : bool) (from : option string)
    (oauthLoginURI : string) (authProxySkipLoginPage : bool) (authenticationError : option string)
    : login_view :=
  if authenticating || negb cookieChecked then LoginLoading
  else if authenticated then LoginRedirect (default "/" from)
  else LoginWith (truthy oauthLoginURI) authenticationError
         (if truthy oauthLoginURI && authProxySkipLoginPage then Some oauthLoginURI else None).

(** [handleSubmit]: what [authenticate] is called with. *)
Definition login_handleSubmit (cluster token : string) : option (string * string) :=
  if truthy token then Some (cluster, token) else None.

(** [mapStateToProps] of [LoginFormContainer]. *)
Definition login_oauthLoginURI (authProxyEnabled : bool) (oauthLoginURI : string) : string :=
  if authProxyEnabled then oauthLoginURI else "".

(** ** The parameters of a chart *)

Definition param_of (params : params_t) (name : string) : option string := assoc name params.

Definition text_param (params : params_t) (name : string) : string :=
  default "undefined" (param_of params name).

(** [mapStateToProps] of [ChartViewContainer] and [AppNewContainer]. *)
Definition chartID (params : params_t) : string :=
  text_param params "repo" +:+ "/" +:+ text_param params "id".

Definition chartNamespace (kubeappsNamespace : string) (params : params_t) : string :=
  if bool_decide (param_of params "global" = Some "global") then kubeappsNamespace
  else text_param params "namespace".

(** ** The links of the application *)

(** The addresses the components link to, with their arguments other than the cluster and
    the namespace of the location. *)
Inductive link :=
| AppsList | AppsGet (releaseName : string) | AppsUpgrade (releaseName : string)
| AppsNew (cv : IChartVersion) (version globalNamespace : string)
| CatalogLink | RepoLink (repo : string)
| ChartsGet (chartName : string) (repo : IRepo) (globalNamespace : string)
| OperatorsView (name : string) | OperatorsList | OperatorsNew (name : string)
| InstancesView (csvName crdName resourceName : string)
| InstancesUpdate (csvName crdName instanceName : string)
| InstancesNew (csvName crdName : string)
| ConfigRepos | ConfigOperators.

Definition link_url (cluster namespace : string) (l : link) : string :=
  match l with
  | AppsList => app_apps_list cluster namespace
  | AppsGet r => app_apps_get cluster namespace r
  | AppsUpgrade r => app_apps_upgrade cluster namespace r
  | AppsNew cv version g => app_apps_new cluster namespace cv version g
  | CatalogLink => app_catalog cluster namespace
  | RepoLink repo => app_repo cluster namespace repo
  | ChartsGet name repo g => app_charts_get cluster namespace name repo g
  | OperatorsView name => app_operators_view cluster namespace name
  | OperatorsList => app_operators_list cluster namespace
  | OperatorsNew name => app_operators_new cluster namespace name
  | InstancesView csv crd name => app_operatorInstances_view cluster namespace csv crd name
  | InstancesUpdate csv crd name => app_operatorInstances_update cluster namespace csv crd name
  | InstancesNew csv crd => app_operatorInstances_new cluster namespace csv crd
  | ConfigRepos => app_config_apprepositories cluster namespace
  | ConfigOperators => app_config_operators cluster namespace
  end.

Definition is_global (repo : IRepo) (globalNamespace : string) : bool :=
  bool_decide (globalNamespace = IRepo_namespace repo).

(** What a link names: the page it is meant to lead to and the parameters of that page. *)
Definition link_target (l : link) : component * params_t :=
  match l with
  | AppsList => (AppList, [])
  | AppsGet r => (AppView, [("releaseName", r)])
  | AppsUpgrade r => (AppUpgradeContainer, [("releaseName", r)])
  | AppsNew cv version g =>
    let chart := IChartVersion_relationships_chart_data cv in
    let repo := IChartAttributes_repo chart in
    (AppNewContainer,
     (if is_global repo g then [("global", "global")] else []) ++
     [("repo", IRepo_name repo); ("id", encodeURIComponent (IChartAttributes_name chart));
      ("version", version)])
  | CatalogLink => (CatalogContainer, [])
  | RepoLink repo => (CatalogContainer, [("repo", repo)])
  | ChartsGet name repo g =>
    (ChartViewContainer,
     (if is_global repo g then [("global", "global")] else []) ++
     [("repo", IRepo_name repo); ("id", encodeURIComponent name)])
  | OperatorsView name => (OperatorViewContainer, [("operator", name)])
  | OperatorsList | ConfigOperators => (OperatorsListContainer, [])
  | OperatorsNew name => (OperatorNewContainer, [("operator", name)])
  | InstancesView csv crd name =>
    (OperatorInstanceViewContainer, [("csv", csv); ("crd", crd); ("instanceName", name)])
  | InstancesUpdate csv crd name =>
    (OperatorInstanceUpdateContainer, [("csv", csv); ("crd", crd); ("instanceName", name)])
  | InstancesNew csv crd => (OperatorInstanceCreateContainer, [("csv", csv); ("crd", crd)])
  | ConfigRepos => (AppRepoList, [])
  end.

(** The names a link puts in its address as they are. *)
Definition link_names (l : link) : list string :=
  match l with
  | AppsGet r | AppsUpgrade r => [r]
  | AppsNew cv version _ =>
    [IRepo_name (IChartAttributes_repo (IChartVersion_relationships_chart_data cv)); version]
  | RepoLink repo => [repo]
  | ChartsGet _ repo _ => [IRepo_name repo]
  | OperatorsView name | OperatorsNew name => [name]
  | InstancesView csv crd name | InstancesUpdate csv crd name => [csv; crd; name]
  | InstancesNew csv crd => [csv; crd]
  | _ => []
  end.

(** The name of its chart, which it escapes. *)
Definition link_chart (l : link) : option string :=
  match l with
  | AppsNew cv _ _ => Some (IChartAttributes_name (IChartVersion_relationships_chart_data cv))
  | ChartsGet name _ _ => Some name
  | _ => None
  end.

Definition seg_ok (s : string) : Prop := truthy s ∧ lacks "/" s.

(** The address of the instance of an operator called "new" is the one of the form that
    creates an instance. *)
Definition link_clear (l : link) : Prop :=
  match l with InstancesView csv _ _ => toLowerCase csv ≠ "new" | _ => True end.

Definition link_ok (l : link) : Prop :=
  Forall seg_ok (link_names l) ∧ (∀ c, link_chart l = Some c → truthy c) ∧ link_clear l.

Definition link_segments (cluster namespace : string) (l : link) : list string :=
  ["c"; cluster; "ns"; namespace] ++
  match l with
  | AppsList => ["apps"]
  | AppsGet r => ["apps"; r]
  | AppsUpgrade r => ["apps"; r; "upgrade"]
  | AppsNew cv version g =>
    let chart := IChartVersion_relationships_chart_data cv in
    let repo := IChartAttributes_repo chart in
    ["apps"; if is_global repo g then "new-from-global" else "new"; IRepo_name repo;
     encodeURIComponent (IChartAttributes_name chart); "versions"; version]
  | CatalogLink => ["catalog"]
  | RepoLink repo => ["catalog"; repo]
  | ChartsGet name repo g =>
    [if is_global repo g then "global-charts" else "charts"; IRepo_name repo;
     encodeURIComponent name]
  | OperatorsView name => ["operators"; name]
  | OperatorsList | ConfigOperators => ["operators"]
  | OperatorsNew name => ["operators"; "new"; name]
  | InstancesView csv crd name => ["operators-instances"; csv; crd; name]
  | InstancesUpdate csv crd name => ["operators-instances"; csv; crd; name; "update"]
  | InstancesNew csv crd => ["operators-instances"; "new"; csv; crd]
  | ConfigRepos => ["config"; "repos"]
  end.

Lemma link_url_segments cluster namespace l :
  link_url cluster namespace l = location_of (link_segments cluster namespace l).
Proof.
  destruct l; unfold location_of, link_segments, link_url, app_apps_new, app_charts_get, app_apps_upgrade,
    app_apps_get, app_repo, app_config_apprepositories, app_config_operators, app_operators_list,
    app_operators_view, app_operators_new, app_operatorInstances_view, app_operatorInstances_update,
    app_operatorInstances_new, app_catalog, app_apps_list, is_global; cbn [join app]; str_norm;
    repeat case_bool_decide; subst; try done; str_norm; done.
Qed.

Lemma link_segments_plain cluster namespace l :
  seg_ok cluster → seg_ok namespace → link_ok l →
  plain_segments (link_segments cluster namespace l).
Proof.
  intros [Hc Hc'] [Hn Hn'] (Hnames & Hchart & _). unfold plain_segments, link_segments.
  assert (∀ s, seg_ok s → s ≠ "") as Hne by (by intros s [Hs _] ->).
  destruct l; simpl in *; decompose_Forall; unfold seg_ok in *; destruct_and?;
    (split; [repeat first [apply Forall_nil | apply Forall_cons; split]; try done;
       try apply encodeURIComponent_lacks_slash; by case_match
     | simpl; try done; intros [= Heq]; try (by subst);
       specialize (Hchart _ eq_refl) as Ht; apply encodeURIComponent_truthy in Ht;
       by rewrite Heq in Ht]).
Qed.

(** The table with its paths parsed, and the first row that matches. *)
Definition parsed_routes : list (list segment * component) :=
  Eval vm_compute in prod_map parse_path id <$> privateRoutes.

Fixpoint find_segments (rs : list (list segment * component)) (segs : list string)
    : option (component * params_t) :=
  match rs with
  | [] => None
  | (ps, c) :: rs' =>
    match match_segments ps segs with
    | Some params => Some (c, params)
    | None => find_segments rs' segs
    end
  end.

(** Every private path but the last is below a namespace. *)
Definition at_namespace : list segment :=
  [Literal "c"; Param "cluster"; Literal "ns"; Param "namespace"].

Definition parsed_tails : list (list segment * component) :=
  Eval vm_compute in prod_map (drop 4) id <$> take 18 parsed_routes.

Lemma find_segments_below rs segs cluster namespace :
  truthy cluster → truthy namespace →
  find_segments ((prod_map (app at_namespace) id <$> rs) ++ [([Literal "docs"], ApiDocs)])
    ("c" :: cluster :: "ns" :: namespace :: segs) =
  prod_map id (app [("cluster", cluster); ("namespace", namespace)]) <$> find_segments rs segs.
Proof.
  intros Hc%Is_true_true_1 Hn%Is_true_true_1.
  induction rs as [|[ps c] rs IH]; [done|]. cbn [fmap list_fmap app prod_map find_segments fst snd].
  assert (match_segments (at_namespace ++ ps) ("c" :: cluster :: "ns" :: namespace :: segs)
    = app [("cluster", cluster); ("namespace", namespace)] <$> match_segments ps segs) as Hm.
  { unfold at_namespace. cbn [app match_segments match_segment]. rewrite Hc, Hn.
    by destruct (match_segments ps segs). }
  rewrite Hm. destruct (match_segments ps segs); [done|]. apply IH.
Qed.

Lemma find_segments_parsed segs cluster namespace :
  truthy cluster → truthy namespace →
  find_segments parsed_routes ("c" :: cluster :: "ns" :: namespace :: segs) =
  prod_map id (app [("cluster", cluster); ("namespace", namespace)]) <$>
    find_segments parsed_tails segs.
Proof. apply (find_segments_below parsed_tails). Qed.

(** Compares the literals of the paths. *)
Ltac eval_literals :=
  repeat match goal with
  | |- context [bool_decide (toLowerCase (String ?x ?a) = toLowerCase (String ?y ?b))] =>
    let v := eval vm_compute in (bool_decide (toLowerCase (String x a) = toLowerCase (String y b))) in
    lazymatch v with true => idtac | false => idtac end;
    change (bool_decide (toLowerCase (String x a) = toLowerCase (String y b))) with v
  end; cbn [mbind option_bind app].

Section links.
Context {match_path : string → string → option params_t} `{!PathMatching match_path}.

Lemma find_route_segments segs :
  plain_segments segs →
  find_route match_path privateRoutes (location_of segs) = find_segments parsed_routes segs.
Proof.
  intros Hs. change parsed_routes with (prod_map parse_path id <$> privateRoutes).
  assert (∀ rs, rs ⊆ privateRoutes →
    find_route match_path rs (location_of segs)
      = find_segments (prod_map parse_path id <$> rs) segs) as H; [|by apply H].
  induction rs as [|[path c] rs IH]; intros Hrs; [done|]. cbn [find_route fmap list_fmap prod_map].
  rewrite match_path_plain; [|apply list_elem_of_further, list_elem_of_fmap; exists (path, c);
    split; [done|]; apply elem_of_app; right; apply Hrs; by left|done].
  cbn [find_segments prod_map fst snd]. rewrite IH; [done|]. intros x Hx. apply Hrs. by right.
Qed.

Lemma find_link_segments cluster namespace l :
  seg_ok cluster → seg_ok namespace → link_ok l →
  find_segments parsed_routes (link_segments cluster namespace l)
  = Some ((link_target l).1,
          ("cluster", cluster) :: ("namespace", namespace) :: (link_target l).2).
Proof.
  intros [Hc _] [Hn _] (Hnames & Hchart & Hclear).
  destruct l; cbn [link_names link_chart link_clear link_target fst snd] in *; unfold seg_ok in *;
    rewrite ?Forall_cons in Hnames; try specialize (Hchart _ eq_refl);
    try apply encodeURIComponent_truthy, Is_true_true_1 in Hchart;
    unfold link_segments;
    try match goal with |- context [is_global ?r ?g] => destruct (is_global r g) end;
    cbn [app]; rewrite find_segments_parsed by done;
    cbn [find_segments parsed_tails match_segments match_segment app]; destruct_and?;
    repeat match goal with H : Is_true (truthy _) |- _ => apply Is_true_true_1 in H end;
    repeat match goal with H : truthy _ = true |- _ => try rewrite H; clear H end;
    eval_literals; repeat (case_bool_decide; cbn [mbind option_bind app]; try done); done.
Qed.

Lemma link_leads cluster namespace l :
  seg_ok cluster → seg_ok namespace → link_ok l →
  find_route match_path privateRoutes (link_url cluster namespace l)
  = Some ((link_target l).1,
          ("cluster", cluster) :: ("namespace", namespace) :: (link_target l).2).
Proof.
  intros Hc Hn Hl. rewrite link_url_segments, find_route_segments by (by apply link_segments_plain).
  by apply find_link_segments.
Qed.

(** Every address the components link to is the route of the page it is meant for, with the
    names it was built from as the parameters. *)
Theorem links_lead_to_pages cluster namespace l :
  seg_ok cluster → seg_ok namespace → link_ok l →
  find_route match_path privateRoutes (link_url cluster namespace l)
  = Some ((link_target l).1,
          ("cluster", cluster) :: ("namespace", namespace) :: (link_target l).2).
Proof. apply link_leads. Qed.

(** The chart a link names is the one its page asks for: its identifier, in the namespace of
    its repository, for a repository of the namespace or a global one. *)
Lemma chart_params_of_link cluster namespace name repo g :
  seg_ok cluster → seg_ok namespace → seg_ok (IRepo_name repo) → truthy name →
  ∃ params,
    find_route match_path privateRoutes
      (link_url cluster namespace (ChartsGet name repo g)) = Some (ChartViewContainer, params) ∧
    chartID params = IRepo_name repo +:+ "/" +:+ encodeURIComponent name ∧
    chartNamespace g params = (if is_global repo g then IRepo_namespace repo else namespace).
Proof.
  intros Hc Hn Hr Ht. eexists. split.
  - assert (link_ok (ChartsGet name repo g)).
    { split; [by apply Forall_singleton|]. split; [by intros ? [= <-]|done]. }
    rewrite link_url_segments, find_route_segments by (by apply link_segments_plain).
    by apply find_link_segments.
  - unfold is_global. cbn [link_target snd]. unfold is_global. by case_bool_decide; subst.
Qed.

(** With no namespace selected (all of them), the link to the catalog leads nowhere. *)
Lemma catalog_of_all_namespaces cluster :
  seg_ok cluster → find_route match_path privateRoutes (app_catalog cluster "") = None.
Proof.
  intros [Hc Hl]. change (app_catalog cluster "") with (link_url cluster "" CatalogLink).
  rewrite link_url_segments, find_route_segments.
  - apply Is_true_true_1 in Hc. unfold link_segments.
    cbn [find_segments parsed_routes match_segments match_segment app]. by rewrite Hc.
  - split; [by repeat constructor|done].
Qed.

(** C20: The page a private address stands for is rendered with a session only.  Without one, the
    session having not expired, the user is sent to log in, and from there, once
    authenticated, back to that address, which then renders the page. *)
Theorem private_pages_need_session cluster ns segs c params :
  plain_segments segs → segs ≠ [] →
  find_route match_path routes (location_of segs) = None →
  find_route match_path privateRoutes (location_of segs) = Some (c, params) →
  let at_ authenticated expired :=
    render match_path authenticated expired cluster ns (location_of segs) in
  (∀ authenticated expired c' params',
     at_ authenticated expired = Page c' params' ↔
     authenticated = true ∧ c' = c ∧ params' = params) ∧
  at_ false true = SessionExpired ∧
  ∃ from, at_ false false = Redirect "/login" from ∧
    ∀ uri skip err, LoginForm false true true from uri skip err = LoginRedirect (location_of segs).
Proof.
  intros Hs Hne Hpub Hpriv at_.
  assert (∀ a e, at_ a e = renderRouteIfAuthenticated a e (location_of segs) c params) as Hat.
  { intros a e. unfold at_, render.
    rewrite match_path_plain by (done || by left).
    change (parse_path "/") with (@nil segment). destruct segs as [|s segs]; [done|].
    cbn [match_segments]. by rewrite Hpub, Hpriv. }
  split; [|split].
  - intros [] []; rewrite Hat; simpl; naive_solver.
  - by rewrite Hat.
  - eexists. rewrite Hat. by split.
Qed.

(** An address no row of the tables matches is not found, with a session or without. *)
Lemma unknown_address authenticated expired cluster ns segs :
  plain_segments segs → segs ≠ [] →
  find_route match_path routes (location_of segs) = None →
  find_route match_path privateRoutes (location_of segs) = None →
  render match_path authenticated expired cluster ns (location_of segs) = NotFound.
Proof.
  intros Hs Hne Hpub Hpriv. unfold render. rewrite match_path_plain by (done || by left).
  change (parse_path "/") with (@nil segment). destruct segs as [|s segs]; [done|].
  cbn [match_segments]. by rewrite Hpub, Hpriv.
Qed.

(** The first page goes to the applications of the current namespace once both are known. *)
Lemma root_redirects authenticated expired cluster ns :
  render match_path authenticated expired cluster ns "/" =
  if authenticated then
    if truthy cluster && truthy ns then Redirect (app_apps_list cluster ns) None
    else LoadingWrapper
  else Redirect "/login" None.
Proof.
  unfold render. change "/" with (location_of []) at 2.
  rewrite match_path_plain by (by left || by split). cbn.
  unfold rootNamespacedRedirect. by destruct authenticated, (truthy cluster), (truthy ns).
Qed.
End links.
