(* ===== verification/Session.v ===== *)
(** * The session of the user

    What the thunks of src/dashboard/src/actions/auth.ts, the slice [auth] of the store and the
    items of the browser make together: a session, specified as a machine of five states
    ([session_spec]), which the code implements ([session_refines]).  The rest of the program
    works in between ([quiet]): it dispatches and uses the browser, but not on the session;
    a failure that expires the session (src/dashboard/src/shared/AxiosInstance.ts) is a step
    [Expire] of its own.  Signing in and checking the cookie are what the page of the login
    does (src/dashboard/src/components/LoginForm/LoginForm.tsx and its container): with an
    auth proxy it checks the cookie when it is opened, and without one it shows the form that
    takes a token. *)

From S2P Require Import Prelude.
From S2P Require Import Json.
From S2P Require Import JsonText.
From S2P Require Import Browser.
From S2P Require Import Types.
From S2P Require Import Url.
From S2P Require Import KubeRef.
From S2P Require Import Actions.
From S2P Require Import AuthReducer.
From S2P Require Import ConfigReducer.
From S2P Require Import ClusterReducer.
From S2P Require Import KubeReducer.
From S2P Require Import Store.
From S2P Require Import Thunk.
From S2P Require Import Auth.
From S2P Require Import AuthActions.
From S2P Require Import AxiosInstance.
From S2P Require Import Routes.

(** ** The specification *)

(** Signed in with a token, or through the auth proxy with a cookie; a cookie the page was
    opened with is to be checked; on the way to the sign-out page of the proxy the store
    still has the user. *)
Inductive session :=
| SignedOut
| WithToken (token : string)
| WithCookie
| CookieUnchecked
| Leaving.

#[export] Instance session_eq_dec : EqDecision session.
Proof. solve_decision. Defined.

Inductive session_op :=
| SignIn (token : string)
| CheckCookie
| SignOut
| Expire
| Reload
| OtherWork.

(** The user has a session, for the store. *)
Definition signed_in (s : session) : bool :=
  match s with SignedOut | CookieUnchecked => false | _ => true end.

(** No cookie was found. *)
Definition after_check (s : session) : session :=
  match s with WithCookie => CookieUnchecked | Leaving => SignedOut | s => s end.

Definition after_leaving (s : session) : session :=
  match s with WithCookie => Leaving | _ => SignedOut end.

Definition after_reload (s : session) : session :=
  match s with WithCookie => CookieUnchecked | Leaving => SignedOut | s => s end.

(** With an auth proxy or without one. *)
Inductive session_spec (proxy : bool) : session → session_op → session → Prop :=
| spec_signed_in s token :
    proxy = false → signed_in s = false → session_spec proxy s (SignIn token) (WithToken token)
| spec_token_refused s token :
    proxy = false → signed_in s = false → session_spec proxy s (SignIn token) s
| spec_cookie_found s : proxy = true → session_spec proxy s CheckCookie WithCookie
| spec_no_cookie s : proxy = true → session_spec proxy s CheckCookie (after_check s)
| spec_sign_out s : session_spec proxy s SignOut (after_leaving s)
| spec_expire s : session_spec proxy s Expire (after_leaving s)
| spec_reload s : session_spec proxy s Reload (after_reload s)
| spec_other s : session_spec proxy s OtherWork s.

(** Runs of a machine with labelled steps. *)
Inductive runs {C O : Type} (step : C → O → C → Prop) : C → list O → C → Prop :=
| runs_nil c : runs step c [] c
| runs_snoc c ops c1 op c2 : runs step c ops c1 → step c1 op c2 → runs step c (ops ++ [op]) c2.

Lemma runs_snoc_inv {C O} (step : C → O → C → Prop) c ops op c2 :
  runs step c (ops ++ [op]) c2 → ∃ c1, runs step c ops c1 ∧ step c1 op c2.
Proof.
  remember (ops ++ [op]) as l eqn:Hl. destruct 1 as [|c ops1 c1 op1 c2 H1 H2].
  - by destruct ops.
  - apply app_inj_tail in Hl as [-> ->]. by exists c1.
Qed.

Section program.
Context `{Lodash} `{Jwt} `{Location} `{Router}.

(** ** The page of the login *)

(** [mapStateToProps] of the container. *)
Definition login_uri (st : IStoreState) : string :=
  login_oauthLoginURI (IConfigState_authProxyEnabled (s_config st)) (IConfigState_oauthLoginURI (s_config st)).

(** The cluster, as an address of the backends names it. *)
Definition login_cluster (st : IStoreState) : string :=
  property_key (IClustersState_currentCluster (s_clusters st)).

Definition login_page (st : IStoreState) (cookieChecked : bool) (from : option string) : login_view :=
  LoginForm (IAuthState_authenticating (s_auth st)) cookieChecked
    (IAuthState_authenticated (s_auth st)) from (login_uri st)
    (IConfigState_authProxySkipLoginPage (s_config st)) (IAuthState_authenticationError (s_auth st)).

(** The effect of the page, and what its form dispatches. *)
Definition login_effect (st : IStoreState) : option (prog bool) :=
  if truthy (login_uri st)
  then Some (checkCookieAuthentication (login_cluster st)) else None.

Definition login_submit (st : IStoreState) (token : string) : option (prog unit) :=
  '(cluster, token) ← login_handleSubmit (login_cluster st) token;
  Some (authenticate cluster token false).

(** ** The program *)

(** The rest of the program leaves the session alone. *)
Record quiet (E : env) : Prop := {
  quiet_actions n : Forall (λ a, listens sl_auth a = false) (env_actions E n);
  quiet_browser n b k :
    k = AuthTokenKey ∨ k = AuthTokenOIDCKey → getItem k (env_browser E n b) = getItem k b;
}.

(** The page as it is opened in a browser. *)
Definition page_opened (b : browser) (m : machine) : machine :=
  mkMachine (store_initialState b) (mkWorld b kube_world_empty) (m_ticks m) (m_trace m) [].

(** The configuration has an auth proxy to log in with. *)
Definition has_proxy (m : machine) : bool := truthy (login_uri (m_store m)).

(** A page, opened in a browser as it was then, and what happens to it. *)
Inductive session_step (proxy : bool) : browser * machine → session_op → browser * machine → Prop :=
| step_sign_in boot m E token p checked from error replaced :
    quiet E → has_proxy m = proxy →
    login_page (m_store m) checked from = LoginWith false error replaced →
    login_submit (m_store m) token = Some p →
    session_step proxy (boot, m) (SignIn token) (boot, (run boot E p m).2)
| step_check_cookie boot m E p :
    quiet E → has_proxy m = proxy → login_effect (m_store m) = Some p →
    session_step proxy (boot, m) CheckCookie (boot, (run boot E p m).2)
| step_sign_out boot m E :
    quiet E → session_step proxy (boot, m) SignOut (boot, (run boot E logout m).2)
| step_expire boot m E :
    quiet E → session_step proxy (boot, m) Expire (boot, (run boot E expireSession m).2)
| step_reload boot m :
    session_step proxy (boot, m) Reload
      (w_browser (m_world m), page_opened (w_browser (m_world m)) m)
| step_other boot m E :
    quiet E → session_step proxy (boot, m) OtherWork (boot, do_tick boot E m).

(** ** The states of the program *)

(** What the browser and the store hold of the session: the token, whether it is a cookie,
    and whether the user is signed in. *)
Definition credentials (b : browser) : option string * bool := (getAuthToken b, usingOIDCToken b).

Definition session_data (m : machine) : option string * bool * bool :=
  (credentials (w_browser (m_world m)), IAuthState_authenticated (s_auth (m_store m))).

Definition data_of (s : session) : option string * bool * bool :=
  match s with
  | SignedOut => (None, false, false)
  | WithToken t => (Some t, false, true)
  | WithCookie => (None, true, true)
  | CookieUnchecked => (None, true, false)
  | Leaving => (None, false, true)
  end.

(** With an auth proxy no token is taken. *)
Definition takes (proxy : bool) (s : session) : Prop :=
  match s with WithToken t => t ≠ "" ∧ proxy = false | _ => True end.

Definition in_session (proxy : bool) (s : session) (m : machine) : Prop :=
  session_data m = data_of s ∧ takes proxy s.

(** ** Other work *)

Lemma configReducer_credentials i s a b : credentials (configReducer i s a b).2 = credentials b.
Proof using.
  unfold credentials, getAuthToken, usingOIDCToken. destruct a as [| | |a| | | | | |]; try done.
  destruct a; try done. cbn [configReducer snd]. unfold setTheme. by rewrite !getItem_setItem, !bool_decide_false by done.
Qed.

Lemma store_dispatch_browser boot a s :
  w_browser (store_dispatch boot a s).2.2 =
  (configReducer (config_initialState boot) (s_config s.1) a (w_browser s.2)).2.
Proof using.
  unfold store_dispatch, rootReducer.
  destruct (configReducer _ (s_config s.1) a (w_browser s.2)) as [config b].
  destruct (kubeReducer (s_kube s.1) a b (w_kube s.2)) as [[kube|e] kw]; [|done].
  cbn [mbind outcome_bind]. by destruct (clusterReducer _ (s_clusters s.1) a b).
Qed.

Lemma store_run_session boot actions s :
  Forall (λ a, listens sl_auth a = false) actions →
  s_auth (store_run boot actions s).1 = s_auth s.1 ∧
  credentials (w_browser (store_run boot actions s).2) = credentials (w_browser s.2).
Proof using.
  intros Ha. revert s. induction Ha as [|a actions Ha _ IH]; intros s; [done|].
  change (store_run boot (a :: actions) s) with (store_run boot actions (store_dispatch boot a s).2).
  destruct (IH (store_dispatch boot a s).2) as [-> ->].
  rewrite store_dispatch_browser, configReducer_credentials. split; [|done].
  destruct (store_dispatch_frame boot a s) as (_ & Hf & _). by apply Hf.
Qed.

Lemma do_tick_session boot E m :
  quiet E →
  s_auth (m_store (do_tick boot E m)) = s_auth (m_store m) ∧
  credentials (w_browser (m_world (do_tick boot E m))) = credentials (w_browser (m_world m)).
Proof using.
  intros [Ha Hb]. unfold do_tick.
  destruct (store_run_session boot _ (m_store m, m_world m) (Ha (m_ticks m))) as [Hs Hc].
  destruct (store_run boot _ _) as [s w]. cbn [fst snd m_store m_world] in *. split; [done|].
  rewrite <-Hc. unfold credentials, getAuthToken, usingOIDCToken. cbn [w_browser setf].
  rewrite !Hb by auto. done.
Qed.

(** ** What the steps of the thunks do to the session *)

Lemma session_tick boot E m : quiet E → session_data (do_tick boot E m) = session_data m.
Proof using. intros HE. unfold session_data. by destruct (do_tick_session boot E m HE) as [-> ->]. Qed.

Lemma session_log e m : session_data (m_log e m) = session_data m.
Proof using. done. Qed.

Lemma session_browse f m :
  session_data (do_browse f m) =
  (credentials (f (w_browser (m_world m))), (session_data m).2).
Proof using. done. Qed.

(** Whether the user is signed in after an action. *)
Definition user_after (a : action) (user : bool) : bool :=
  match a with
  | AAuth (setAuthenticated authenticated _) => authenticated
  | AAuth authenticating => false
  | _ => user
  end.

Lemma session_dispatched boot a m :
  safe_action a → listens sl_config a = false →
  session_data (dispatched boot a m) =
  ((session_data m).1, user_after a (session_data m).2).
Proof using.
  intros Ha Hc. unfold session_data. rewrite dispatched_browser, dispatched_auth by done.
  by destruct a as [|[]| | | | | | | |].
Qed.

Lemma credentials_set token oidc b :
  credentials (setAuthToken token oidc b) =
  (if truthy token then Some token else (credentials b).1, oidc).
Proof using. unfold credentials. by rewrite getAuthToken_setAuthToken, usingOIDCToken_setAuthToken. Qed.

Lemma credentials_unset b : credentials (unsetAuthToken b) = (None, (credentials b).2).
Proof using.
  unfold credentials, getAuthToken, usingOIDCToken, unsetAuthToken.
  rewrite !getItem_removeItem. by repeat case_bool_decide.
Qed.

Lemma credentials_unset_cookie uri b :
  credentials (unsetAuthCookie uri b) = ((credentials b).1, false).
Proof using.
  change (credentials (unsetAuthCookie uri b)) with (credentials (removeItem AuthTokenOIDCKey b)).
  unfold credentials, getAuthToken, usingOIDCToken.
  rewrite !getItem_removeItem. by repeat case_bool_decide.
Qed.

Lemma credentials_unset_namespace b : credentials (unsetStoredNamespace b) = credentials b.
Proof using.
  unfold credentials, getAuthToken, usingOIDCToken, unsetStoredNamespace.
  rewrite !getItem_removeItem. by repeat case_bool_decide.
Qed.

Lemma credentials_session m : credentials (w_browser (m_world m)) = (session_data m).1.
Proof using. done. Qed.

Hint Rewrite session_log session_browse credentials_session credentials_set credentials_unset credentials_unset_cookie
  credentials_unset_namespace : session.

Ltac read_session :=
  repeat (first [progress autorewrite with session
                |rewrite session_tick by done
                |rewrite session_dispatched by done]; cbn [fst snd user_after id]).

Lemma authenticate_session boot E cluster token m :
  quiet E → token ≠ "" → (session_data m).2 = false →
  let m' := (run boot E (authenticate cluster token false) m).2 in
  session_data m' = (Some token, false, true) ∨ session_data m' = session_data m.
Proof using.
  intros HE Ht Hout. unfold authenticate, validateToken. cbn [negb].
  destruct (session_data m) as [c a] eqn:Hm. cbn [snd] in Hout. subst a.
  run_steps. read_machine.
  destruct (env_reply E (m_ticks m) Axios (validate_request cluster token) T_raw) as [[r|e]|e];
    run_reduce; run_steps.
  - left. read_session. unfold truthy. by rewrite bool_decide_true.
  - unfold error_response. destruct (token_accepted (axios_response e)) as [[]|e']; run_steps.
    + left. read_session. unfold truthy. by rewrite bool_decide_true.
    + right. read_session. by rewrite Hm.
  - change (token_accepted None) with (Throws (A:=unit) (undefined_access "status")).
    run_steps. right. read_session. by rewrite Hm.
Qed.

Lemma checkCookie_session boot E cluster m :
  quiet E →
  let m' := (run boot E (checkCookieAuthentication cluster) m).2 in
  session_data m' = ((session_data m).1.1, true, true) ∨
  session_data m' = ((session_data m).1, false).
Proof using.
  intros HE. unfold checkCookieAuthentication, isAuthenticatedWithCookie, authenticate.
  cbn [negb]. run_steps. read_machine.
  destruct (env_reply _ _ _ _ T_raw) as [[resp|e]|e]; run_reduce; run_steps.
  - left. by read_session.
  - unfold error_response. destruct (cookie_accepted (axios_response e)) as [[|]|e']; run_steps;
      [left|right|right]; by read_session.
  - rewrite cookie_accepted_table. run_steps. right. by read_session.
Qed.

(** Where the session ends: the token is forgotten, or the browser leaves for the page of
    the proxy. *)
Definition data_after_leaving (d : option string * bool * bool) : option string * bool * bool :=
  let '(token, cookie, user) := d in if cookie : bool then (token, false, user) else (None, false, false).

Lemma logout_session boot E m :
  session_data (run boot E logout m).2 = data_after_leaving (session_data m).
Proof using.
  unfold logout. run_steps.
  change (usingOIDCToken (w_browser (m_world m))) with (session_data m).1.2.
  destruct (session_data m) as [[token cookie] user] eqn:Hm. cbn [fst snd].
  destruct cookie; run_steps; read_session; by rewrite Hm.
Qed.

Lemma expireSession_session boot E m :
  quiet E → session_data (run boot E expireSession m).2 = data_after_leaving (session_data m).
Proof using.
  intros HE. unfold expireSession. run_steps.
  change (usingOIDCToken (w_browser (m_world m))) with (session_data m).1.2.
  destruct (session_data m) as [[token cookie] user] eqn:Hm. cbn [fst snd].
  assert (∀ m1, session_data m1 = session_data m →
    session_data (let '(r, m2) := run boot E logout m1 in (r, do_tick boot E m2)).2 =
    data_after_leaving (token, cookie, user)) as Hl.
  { intros m1 H1'. pose proof (logout_session boot E m1) as Hl.
    rewrite H1', Hm in Hl. destruct (run boot E logout m1) as [r m2].
    cbn [snd] in *. by rewrite session_tick. }
  destruct cookie; run_steps; apply Hl; by read_session.
Qed.

Lemma page_opened_session b m :
  session_data (page_opened b m) =
  (credentials b, bool_decide (or_opt_str (getAuthToken b) "" ≠ "")).
Proof using. done. Qed.

(** ** The refinement *)

Lemma data_signed_in proxy s m :
  in_session proxy s m → signed_in s = IAuthState_authenticated (s_auth (m_store m)).
Proof using. intros [Hd _]. unfold session_data in Hd. destruct s; by simplify_eq/=. Qed.

Lemma data_token proxy s m :
  in_session proxy s m → getAuthToken (w_browser (m_world m)) = (data_of s).1.1.
Proof using. by intros [<- _]. Qed.

Lemma data_leaving s : data_after_leaving (data_of s) = data_of (after_leaving s).
Proof using. by destruct s. Qed.

(** The form is there for a user who is signed out, where there is no proxy. *)
Lemma login_form_shown st checked from error replaced :
  login_page st checked from = LoginWith false error replaced →
  truthy (login_uri st) = false ∧ IAuthState_authenticated (s_auth st) = false.
Proof using.
  unfold login_page, LoginForm. destruct (_ || _); [done|].
  destruct (IAuthState_authenticated (s_auth st)); [done|]. by intros [= -> _ _].
Qed.

Lemma login_submit_Some st token p :
  login_submit st token = Some p →
  token ≠ "" ∧ p = authenticate (login_cluster st) token false.
Proof using.
  unfold login_submit, login_handleSubmit, truthy. case_bool_decide; [|done].
  by intros [= <-].
Qed.

Lemma sign_in_simulated proxy boot m E token p checked from error replaced s :
  quiet E → has_proxy m = proxy →
  login_page (m_store m) checked from = LoginWith false error replaced →
  login_submit (m_store m) token = Some p → in_session proxy s m →
  ∃ s', session_spec proxy s (SignIn token) s' ∧ in_session proxy s' (run boot E p m).2.
Proof using.
  intros HE Hp [Hu Hout]%login_form_shown [Ht ->]%login_submit_Some Hs.
  unfold has_proxy in Hp. rewrite Hu in Hp. subst proxy.
  pose proof (data_signed_in _ _ _ Hs) as Hin. rewrite Hout in Hin. destruct Hs as [Hd Hk].
  destruct (authenticate_session boot E (login_cluster (m_store m))
    token m) as [Hr|Hr]; try done.
  - exists (WithToken token). by split; [constructor|].
  - exists s. split; [by constructor|]. by split; [rewrite Hr|].
Qed.

Lemma check_simulated proxy boot m E p s :
  quiet E → has_proxy m = proxy → login_effect (m_store m) = Some p → in_session proxy s m →
  ∃ s', session_spec proxy s CheckCookie s' ∧ in_session proxy s' (run boot E p m).2.
Proof using.
  unfold has_proxy, login_effect. intros HE Hp Hl [Hd Hk].
  rewrite Hp in Hl. destruct proxy; simplify_eq.
  destruct (checkCookie_session boot E (login_cluster (m_store m)) m)
    as [Hr|Hr]; [done|..]; rewrite Hd in Hr.
  - exists WithCookie. split; [by constructor|]. split; [|done].
    rewrite Hr. destruct s; try done. by destruct Hk.
  - exists (after_check s). split; [by constructor|].
    destruct s; try (by split). by destruct Hk.
Qed.

(** A page opened in a browser with the credentials of a session. *)
Lemma page_opened_in_session proxy s b m :
  credentials b = (data_of s).1 → takes proxy s → in_session proxy (after_reload s) (page_opened b m).
Proof using.
  intros Hb Hk. split; [|by destruct s]. rewrite page_opened_session.
  change (getAuthToken b) with (credentials b).1. rewrite Hb.
  destruct s as [|t| | |]; try done. destruct Hk as [Hne _].
  cbn [data_of fst or_opt_str]. unfold or_str, truthy.
  by rewrite (bool_decide_true (t ≠ "")), (bool_decide_true (t ≠ "")).
Qed.

(** Every step of the program is a step of the specification. *)
Lemma session_step_simulated proxy c op c' s :
  session_step proxy c op c' → in_session proxy s c.2 →
  ∃ s', session_spec proxy s op s' ∧ in_session proxy s' c'.2.
Proof using.
  intros Hstep Hs. pose proof Hs as [Hd Hk].
  destruct Hstep as [boot m E token p checked from error replaced HE Hp Hv Hl|boot m E p HE Hp Hl
    |boot m E HE|boot m E HE|boot m|boot m E HE]; cbn [snd] in *.
  - by eapply sign_in_simulated.
  - by eapply check_simulated.
  - exists (after_leaving s). split; [constructor|]. split; [|by destruct s].
    by rewrite logout_session, Hd, data_leaving.
  - exists (after_leaving s). split; [constructor|]. split; [|by destruct s].
    by rewrite expireSession_session, Hd, data_leaving by done.
  - exists (after_reload s). split; [constructor|]. apply page_opened_in_session; [|done].
    by rewrite <-Hd.
  - exists s. split; [constructor|]. by split; [rewrite session_tick|].
Qed.

(** The headers of a request in a session: the token goes with it, if there is one. *)
Definition session_headers (s : session) (headers : list (string * string))
    : list (string * string) :=
  match s with WithToken t => obj_set "Authorization" ("Bearer " +:+ t) headers | _ => headers end.

Lemma in_session_headers proxy s m r :
  in_session proxy s m →
  req_headers (addAuthHeaders (w_browser (m_world m)) r) = session_headers s (req_headers r).
Proof using.
  intros Hs. unfold addAuthHeaders, authorization. cbn [req_headers].
  rewrite (data_token _ _ _ Hs). destruct Hs as [_ Hk]. destruct s; try done.
  destruct Hk as [Ht _]. cbn. unfold truthy. by rewrite bool_decide_true.
Qed.

(** A logout and a reload end any session. *)
Lemma spec_ends proxy ops s0 s :
  runs (session_spec proxy) s0 (ops ++ [SignOut; Reload]) s → s = SignedOut.
Proof using.
  intros Hr. change [SignOut; Reload] with ([SignOut] ++ [Reload]) in Hr. rewrite app_assoc in Hr.
  apply runs_snoc_inv in Hr as (s2 & (s1 & _ & H1')%runs_snoc_inv & H2').
  inversion H1'; inversion H2'; subst. by destruct s1.
Qed.

(** C22: The page of the login, the thunks of the authentication, their slice of the store and
    the items of the browser implement the session.  From a page opened in a browser that
    holds no credentials, a token or a cookie, whatever the servers answer and whatever else the
    program does in between, every run of sign-ins, checks of the cookie, sign-outs, expiries and
    reloads is a run of the specification from that session: the store has a user and the browser a cookie when the session does,
    and a request carries a token in a session with a token only, and that token; with an
    auth proxy there is no such session; after a sign-out and a reload there is none at all. *)
Theorem session_refines proxy s0 b m ops c :
  credentials b = (data_of s0).1 → takes proxy s0 →
  runs (session_step proxy) (b, page_opened b m) ops c →
  ∃ s, runs (session_spec proxy) (after_reload s0) ops s ∧
    IAuthState_authenticated (s_auth (m_store c.2)) = signed_in s ∧
    usingOIDCToken (w_browser (m_world c.2)) =
      bool_decide (s = WithCookie ∨ s = CookieUnchecked) ∧
    (∀ r, req_headers (addAuthHeaders (w_browser (m_world c.2)) r) =
       session_headers s (req_headers r)) ∧
    (∀ t, proxy = true → s ≠ WithToken t) ∧
    (∀ ops', ops = ops' ++ [SignOut; Reload] → s = SignedOut).
Proof using.
  intros Hb Hk Hr.
  assert (∃ s, runs (session_spec proxy) (after_reload s0) ops s ∧ in_session proxy s c.2) as (s & Hs & Hin).
  { remember (b, page_opened b m) as c0 eqn:Hc0. induction Hr as [c|c ops c1 op c2 _ IH Hstep]; subst.
    - exists (after_reload s0). split; [constructor|]. by apply page_opened_in_session.
    - destruct IH as (s & Hs & Hin); [done|].
      destruct (session_step_simulated proxy c1 op c2 s Hstep Hin) as (s' & Hop & Hin').
      exists s'. split; [by econstructor|done]. }
  exists s. split_and!; [done|by rewrite <-(data_signed_in proxy s c.2)| | | |].
  - change (usingOIDCToken (w_browser (m_world c.2))) with (session_data c.2).1.2.
    destruct Hin as [-> _]. by destruct s.
  - intros r. by eapply in_session_headers.
  - intros t -> ->. by destruct Hin as [_ [_ ?]].
  - intros ops' ->. by eapply spec_ends.
Qed.

End program.
