(* ===== verification/Header.v ===== *)
(** * The header (src/dashboard/src/components/Header)

    [ContextSelector] changes the cluster and the namespace, [Header] shows the navigation
    and asks for the namespaces of the cluster, [Menu] links to the configuration and
    toggles the theme.

    Changing the context rewrites the location: the part that names the cluster and the
    namespace is replaced, by a text in which [replace] reads dollar signs. *)

From S2P Require Import Prelude.
From S2P Require Import Json.
From S2P Require Import Browser.
From S2P Require Import Types.
From S2P Require Import Url.
From S2P Require Import KubeRef.
From S2P Require Import Actions.
From S2P Require Import ClusterReducer.
From S2P Require Import Store.
From S2P Require Import Thunk.
From S2P Require Import HelmServices.
From S2P Require Import KubeServices.
From S2P Require Import NamespaceActions.
From S2P Require Import ConfigActions.
From S2P Require Import AuthActions.
From S2P Require Import Routes.

(** ** ContextSelector *)

(** A namespace that is missing is kept as the empty text. *)
Record context_selector := mkContextSelector {
  cs_open : bool;
  cs_cluster : string;
  cs_namespace : string;
  cs_newNSModalIsOpen : bool;
  cs_newNS : string;
}.
#[export] Instance eta_context_selector : Eta context_selector := λ s,
  mkContextSelector (cs_open s) (cs_cluster s) (cs_namespace s) (cs_newNSModalIsOpen s) (cs_newNS s).

(** [clusters.clusters[name].currentNamespace]. *)
Definition namespace_of (clusters : IClustersState) (name : string) : outcome (option string) :=
  IClusterState_currentNamespace <$>
    require "currentNamespace" (IClustersState_clusters clusters !! name).

(** [clusters.currentCluster], as a key. *)
Definition current_key (clusters : IClustersState) : string :=
  property_key (IClustersState_currentCluster clusters).

Definition selector_init (clusters : IClustersState) : outcome context_selector :=
  namespaceSelected ← namespace_of clusters (current_key clusters);
  Ok (mkContextSelector false (current_key clusters) (default "" namespaceSelected) false "").

(** The effects that follow the current namespace and the selected cluster. *)
Definition selected_effect (namespaceSelected : string) (s : context_selector) : context_selector :=
  s <| cs_namespace := namespaceSelected |>.
Definition cluster_effect (clusters : IClustersState) (s : context_selector)
    : outcome context_selector :=
  ns ← namespace_of clusters (cs_cluster s); Ok (s <| cs_namespace := default "" ns |>).

Definition toggleOpen (s : context_selector) : context_selector :=
  s <| cs_open := negb (cs_open s) |>.
Definition openNewNSModal (s : context_selector) : context_selector :=
  s <| cs_newNSModalIsOpen := true |>.
Definition closeNewNSModal (s : context_selector) : context_selector :=
  s <| cs_newNSModalIsOpen := false |>.
Definition onChangeNewNS (value : string) (s : context_selector) : context_selector :=
  s <| cs_newNS := value |>.

(** The match of [nsRegex] (a slash, a "c", the cluster, "ns", the namespace and a slash): its
    group, its text, and what follows it. *)
Definition ns_route (pathname : string) : option (string * string * string) :=
  match match_group "/c/" pathname with
  | (Some group, rest) =>
    match match_group "/ns/" rest with
    | (Some namespace, String a r) =>
      if bool_decide (a = "/"%char)
      then Some (group, "/c/" +:+ group +:+ "/ns/" +:+ namespace +:+ "/", r) else None
    | _ => None
    end
  | _ => None
  end.

(** The second argument of [replace], with a match at the start of the text and one group: "$$" is
    a dollar sign, "$&" the match, "$1" (or "$01") the group, and "$`" and "$'" what comes before and
    after the match. *)
Fixpoint replacement (group matched after s : string) : string :=
  match s with
  | String a s' =>
    if bool_decide (a = "$"%char) then
      match s' with
      | String c s'' =>
        if bool_decide (c = "$"%char) then "$" +:+ replacement group matched after s''
        else if bool_decide (c = "&"%char) then matched +:+ replacement group matched after s''
        else if bool_decide (c = "`"%char) then replacement group matched after s''
        else if bool_decide (c = "'"%char) then after +:+ replacement group matched after s''
        else if bool_decide (c = "1"%char) then group +:+ replacement group matched after s''
        else
          match s'' with
          | String d s3 =>
            if bool_decide (c = "0"%char) && bool_decide (d = "1"%char)
            then group +:+ replacement group matched after s3
            else String a (replacement group matched after s')
          | EmptyString => String a (replacement group matched after s')
          end
      | EmptyString => s
      end
    else String a (replacement group matched after s')
  | EmptyString => ""
  end.

Lemma replacement_plain group matched after s : lacks "$" s → replacement group matched after s = s.
Proof.
  unfold lacks. induction s as [|a s IH]; [done|]. simpl. rewrite andb_True, negb_True.
  intros [Ha Hs]. rewrite bool_decide_false by (by intros ->; apply Ha, bool_decide_pack). by rewrite IH.
Qed.

Definition changed_location (cluster namespace pathname search : string) : option string :=
  '(group, matched, rest) ← ns_route pathname;
  Some (replacement group matched rest ("/c/" +:+ cluster +:+ "/ns/" +:+ namespace +:+ "/")
        +:+ rest +:+ search).

Inductive selector_view :=
| SelectorView (currentCluster namespaceSelected : string) (namespaces : list string)
    (error : option string) (canCreateNS : bool).

Definition ContextSelector (clusters : IClustersState) (s : context_selector)
    : outcome selector_view :=
  entry ← require "currentNamespace" (IClustersState_clusters clusters !! current_key clusters);
  selected ← require "namespaces" (IClustersState_clusters clusters !! cs_cluster s);
  namespaces ← require "map" (IClusterState_namespaces selected);
  Ok (SelectorView (default "" (IClustersState_currentCluster clusters))
        (default "" (IClusterState_currentNamespace entry)) namespaces
        (if cs_newNSModalIsOpen s
         then (λ e, "An error occurred: " +:+ message e.2) <$> IClusterState_error entry else None)
        (default false (IClusterState_canCreateNS entry))).

Section selector.
Context `{Lodash} `{Jwt} `{Location} `{Router} (boot : browser).

(** What the effect that follows the current namespace asks for. *)
Definition namespace_effect (clusters : IClustersState) (namespaceSelected : string) : prog unit :=
  if truthy namespaceSelected
  then fork (getNamespace (current_key clusters) namespaceSelected) else mret ().

Definition selectCluster (value : string) (s : context_selector) : prog context_selector :=
  _ ← fork (fetchNamespaces value); mret (s <| cs_cluster := value |>).

Definition selectNamespace (value : string) (s : context_selector) : context_selector :=
  s <| cs_namespace := value |>.

(** The state that is left and the location it moves to. *)
Definition changeContext (pathname search : string) (s : context_selector)
    : prog (context_selector * option string) :=
  _ ← fork (setNamespace (cs_cluster s) (cs_namespace s));
  mret (s <| cs_open := false |>,
        changed_location (cs_cluster s) (cs_namespace s) pathname search).

Definition createNewNS (s : context_selector) : prog (context_selector * option string) :=
  created ← await (createNamespace (cs_cluster s) (cs_newNS s));
  if created : bool then
    _ ← fork (setNamespace (cs_cluster s) (cs_newNS s));
    mret (s <| cs_newNSModalIsOpen := false |> <| cs_open := false |>,
          Some (app_apps_list (cs_cluster s) (cs_newNS s)))
  else mret (s, None).
End selector.

(** ** Header and Menu *)

Record header := mkHeader {
  showNav : bool;
  routesToRender : list (string * string);
}.

Definition Header (authenticated : bool) (clusters : IClustersState) : outcome header :=
  ns ← namespace_of clusters (current_key clusters);
  let cluster := default "undefined" (IClustersState_currentCluster clusters) in
  Ok {| showNav := authenticated && truthy_opt (IClustersState_currentCluster clusters) && truthy_opt ns;
        routesToRender := [("Applications", app_apps_list cluster (default "undefined" ns));
                           ("Catalog", app_catalog cluster (default "undefined" ns))] |}.

(** The links of the menu. *)
Definition menu_links (clusters : IClustersState) : outcome (list string) :=
  ns ← namespace_of clusters (current_key clusters);
  let cluster := default "undefined" (IClustersState_currentCluster clusters) in
  Ok [app_config_apprepositories cluster (default "undefined" ns);
      app_config_operators cluster (default "undefined" ns); "/docs"].

Definition toggled (theme : string) : string :=
  if bool_decide (theme = SupportedThemes_dark) then SupportedThemes_light else SupportedThemes_dark.

Section menu.
Context `{Lodash} `{Jwt} `{Location} `{Router} (boot : browser).

Definition toggleTheme (theme : string) : prog unit := setTheme_thunk (toggled theme).

(** What the header asks for when there is a session and a cluster. *)
Definition header_effect (authenticated : bool) (currentCluster : option string) : prog unit :=
  if authenticated && truthy_opt currentCluster then
    _ ← fork (fetchNamespaces (default "" currentCluster));
    fork (canCreate (default "" currentCluster))
  else mret ().
End menu.

(** ** Facts *)

Lemma ns_route_plain c ns rest :
  lacks "/" c → lacks "/" ns →
  ns_route ("/c/" +:+ c +:+ "/ns/" +:+ ns +:+ String "/" rest) =
  Some (c, "/c/" +:+ c +:+ "/ns/" +:+ ns +:+ "/", rest).
Proof.
  intros Hc Hns. unfold ns_route. rewrite match_group_app; [|done|by right; eexists].
  rewrite match_group_app; [|done|by right; eexists]. by rewrite bool_decide_true.
Qed.

Lemma location_below c ns segs :
  segs ≠ [] → location_of ("c" :: c :: "ns" :: ns :: segs) =
  "/c/" +:+ c +:+ "/ns/" +:+ ns +:+ String "/" (join "/" segs).
Proof. intros Hne. destruct segs as [|s segs]; [done|]. unfold location_of. cbn [join]. by str_norm. Qed.

Section facts.
Context {match_path : string → string → option params_t} `{!PathMatching match_path}.
Context `{Lodash} `{Jwt}.

(** C23: Changing the context on a page below a cluster and a namespace moves to the same page,
    with the same other parameters, below the new ones; arriving there makes them the current
    cluster and namespace of the store.  (The new names hold no dollar sign, which [replace] would
    read in its second argument.) *)
Theorem context_change_keeps_page c ns segs page params s i clusters b :
  seg_ok c → seg_ok ns → seg_ok (cs_cluster s) → seg_ok (cs_namespace s) →
  lacks "$" (cs_cluster s) → lacks "$" (cs_namespace s) →
  segs ≠ [] → plain_segments segs →
  find_route match_path privateRoutes (location_of ("c" :: c :: "ns" :: ns :: segs))
    = Some (page, params) →
  ∃ to rest,
    changed_location (cs_cluster s) (cs_namespace s)
      (location_of ("c" :: c :: "ns" :: ns :: segs)) "" = Some to ∧
    params = ("cluster", c) :: ("namespace", ns) :: rest ∧
    find_route match_path privateRoutes to =
      Some (page, ("cluster", cs_cluster s) :: ("namespace", cs_namespace s) :: rest) ∧
    ∃ clusters', clusterReducer i clusters (LOCATION_CHANGE to) b = Ok clusters' ∧
      current_key clusters' = cs_cluster s ∧
      namespace_of clusters' (current_key clusters') = Ok (Some (cs_namespace s)).
Proof using All.
  intros [Hc Hlc] [Hns Hlns] [Hc' Hlc'] [Hns' Hlns'] Hdc Hdn Hne [Hsegs Hlast] Hroute.
  assert (∀ x y, Is_true (lacks "/" x) → Is_true (lacks "/" y) →
    plain_segments ("c" :: x :: "ns" :: y :: segs)) as Hplain.
  { intros x y Hx Hy. split; [by repeat (apply Forall_cons; split)|]. by destruct segs. }
  rewrite find_route_segments in Hroute by (by apply Hplain).
  rewrite find_segments_parsed in Hroute by done.
  apply fmap_Some in Hroute as ([page' rest] & Hfind & [= -> ->]).
  exists (location_of ("c" :: cs_cluster s :: "ns" :: cs_namespace s :: segs)), rest. split_and!.
  - unfold changed_location. rewrite (location_below c), ns_route_plain by done. cbn [mbind option_bind].
    rewrite replacement_plain.
    + rewrite location_below by done. f_equal. rewrite str_app_nil_r. by str_norm.
    + unfold lacks in *. rewrite !str_all_app, !andb_True. done.
  - done.
  - rewrite find_route_segments by (by apply Hplain).
    rewrite find_segments_parsed by done. by rewrite Hfind.
  - rewrite location_below by done.
    destruct (navigate_path i clusters b (cs_cluster s) (cs_namespace s) (join "/" segs))
      as (clusters' & Hred & Hcur & Hcn & _); [by intros Heq; rewrite Heq in Hc'|by intros Heq; rewrite Heq in Hns'|done|done|].
    exists clusters'. split; [exact Hred|]. unfold current_key, namespace_of.
    unfold current_entry in Hcn. rewrite Hcur in *. cbn [property_key default from_option] in *.
    split; [done|]. destruct (_ !! _); [|done]. cbn in *. by injection Hcn as ->.
Qed.

(** The header can be rendered whenever the current cluster has an entry, which the reducer
    keeps ([clusterReducer_safety]). *)
Lemma header_renders authenticated clusters :
  cluster_ok clusters ↔ ∃ h, Header authenticated clusters = Ok h.
Proof using.
  unfold cluster_ok, current_entry, Header, namespace_of, current_key. split.
  - intros [e ->]. by eexists.
  - intros [h Hh]. destruct (IClustersState_clusters clusters !! _); [by eexists|done].
Qed.
End facts.
