(* ===== verification/Regex.v ===== *)
(** * Regular expressions

    The patterns the dashboard tests strings with, as far as they are regular: classes of
    characters, concatenation, alternatives and repetition.  [matches] is what a pattern
    anchored at both ends accepts; [rx_test] decides it by derivatives, and the two agree
    ([rx_test_matches]). *)

From S2P Require Import Prelude.

Inductive regex :=
| REmpty
| REps
| RChar (f : ascii → bool)
| RSeq (r s : regex)
| RAlt (r s : regex)
| RStar (r : regex).

Inductive matches : regex → string → Prop :=
| matches_eps : matches REps ""
| matches_char (f : ascii → bool) a : f a → matches (RChar f) (String a "")
| matches_seq r s x y : matches r x → matches s y → matches (RSeq r s) (x +:+ y)
| matches_alt_l r s x : matches r x → matches (RAlt r s) x
| matches_alt_r r s x : matches s x → matches (RAlt r s) x
| matches_star_nil r : matches (RStar r) ""
| matches_star_cons r x y : matches r x → matches (RStar r) y → matches (RStar r) (x +:+ y).

(** ** Notation of patterns *)

Definition ROpt (r : regex) : regex := RAlt REps r.
Definition RPlus (r : regex) : regex := RSeq r (RStar r).
(** [r{m,n}] with [n = m + k], and [r{m,}]. *)
Fixpoint RTimes (m : nat) (r : regex) : regex :=
  match m with 0 => REps | S m => RSeq r (RTimes m r) end.
Fixpoint RUpTo (k : nat) (r : regex) : regex :=
  match k with 0 => REps | S k => ROpt (RSeq r (RUpTo k r)) end.
Definition RBetween (m k : nat) (r : regex) : regex := RSeq (RTimes m r) (RUpTo k r).
Definition RAtLeast (m : nat) (r : regex) : regex := RSeq (RTimes m r) (RStar r).
Fixpoint RString (s : string) : regex :=
  match s with
  | EmptyString => REps
  | String a s' => RSeq (RChar (λ b, bool_decide (a = b))) (RString s')
  end.

(** ** The decision *)

Fixpoint nullable (r : regex) : bool :=
  match r with
  | REmpty | RChar _ => false
  | REps | RStar _ => true
  | RSeq r s => nullable r && nullable s
  | RAlt r s => nullable r || nullable s
  end.

(** Concatenation and alternative that keep derivatives small. *)
Definition seq (r s : regex) : regex :=
  match r with REmpty => REmpty | REps => s | _ => RSeq r s end.
Definition alt (r s : regex) : regex :=
  match r, s with REmpty, _ => s | _, REmpty => r | _, _ => RAlt r s end.

Fixpoint derivative (a : ascii) (r : regex) : regex :=
  match r with
  | REmpty | REps => REmpty
  | RChar f => if f a then REps else REmpty
  | RSeq r s =>
    let d := seq (derivative a r) s in
    if nullable r then alt d (derivative a s) else d
  | RAlt r s => alt (derivative a r) (derivative a s)
  | RStar r => seq (derivative a r) (RStar r)
  end.

Fixpoint rx_test (r : regex) (s : string) : bool :=
  match s with
  | EmptyString => nullable r
  | String a s' => rx_test (derivative a r) s'
  end.

(** ** Correctness *)

Lemma nullable_matches r : nullable r ↔ matches r "".
Proof.
  split.
  - induction r as [| |f|r IHr s IHs|r IHr s IHs|r IHr]; simpl; intros Hn; try done.
    + constructor.
    + rewrite andb_True in Hn. change "" with ("" +:+ ""). constructor; naive_solver.
    + rewrite orb_True in Hn. destruct Hn; [apply matches_alt_l|apply matches_alt_r]; auto.
    + constructor.
  - intros Hm. remember "" as x eqn:Hx.
    induction Hm as [|f a|r s x y Hr IHr Hs IHs|r s x Hr IHr|r s x Hs IHs| |]; simpl; try done;
      rewrite ?andb_True, ?orb_True.
    + destruct x, y; try done. auto.
    + auto.
    + auto.
Qed.

Lemma matches_empty x : ¬ matches REmpty x.
Proof. by inversion 1. Qed.

Lemma matches_seq_iff r s x :
  matches (RSeq r s) x ↔ ∃ x1 x2, x = x1 +:+ x2 ∧ matches r x1 ∧ matches s x2.
Proof.
  split; [inversion 1; subst; eauto|]. intros (x1 & x2 & -> & H1 & H2). by constructor.
Qed.

Lemma matches_alt_iff r s x : matches (RAlt r s) x ↔ matches r x ∨ matches s x.
Proof. split; [inversion 1; subst; auto|]. intros [?|?]; by constructor. Qed.

Lemma matches_eps_iff x : matches REps x ↔ x = "".
Proof. split; [by inversion 1|]. intros ->. constructor. Qed.

Lemma seq_matches r s x : matches (seq r s) x ↔ matches (RSeq r s) x.
Proof.
  rewrite matches_seq_iff. destruct r; simpl; try apply matches_seq_iff; split.
  - by intros ?%matches_empty.
  - by intros (? & ? & _ & ?%matches_empty & _).
  - intros Hs. exists "", x. split_and!; [done|constructor|done].
  - by intros (? & ? & -> & ->%matches_eps_iff & ?).
Qed.

Lemma alt_matches r s x : matches (alt r s) x ↔ matches (RAlt r s) x.
Proof.
  rewrite matches_alt_iff. pose proof (matches_empty x).
  destruct r; simpl; [tauto|..]; destruct s; rewrite ?matches_alt_iff; tauto.
Qed.

(** A repetition is empty or begins with a round that reads something. *)
Lemma matches_star_inv r y :
  matches (RStar r) y →
  y = "" ∨ ∃ a x1 x2, y = String a x1 +:+ x2 ∧ matches r (String a x1) ∧ matches (RStar r) x2.
Proof.
  intros Hm. remember (RStar r) as rs eqn:Hrs.
  induction Hm as [| | | | | |r' x1 x2 H1 _ H2 IH]; simplify_eq; [by left|].
  destruct x1 as [|b x1]; [rewrite str_app_nil_l; by apply IH|]. right. eauto 6.
Qed.

Lemma derivative_matches a r x : matches (derivative a r) x ↔ matches r (String a x).
Proof.
  revert x. induction r as [| |f|r IHr s IHs|r IHr s IHs|r IHr]; intros x; simpl.
  - split; [intros []%matches_empty|inversion 1].
  - split; [intros []%matches_empty|inversion 1].
  - destruct (f a) eqn:Hf; split.
    + inversion 1; subst. constructor. by rewrite Hf.
    + inversion 1; subst. constructor.
    + intros []%matches_empty.
    + inversion 1; subst. by rewrite Hf in *.
  - assert (matches (seq (derivative a r) s) x ↔
      ∃ x1 x2, x = x1 +:+ x2 ∧ matches r (String a x1) ∧ matches s x2) as Hd.
    { rewrite seq_matches, matches_seq_iff. split.
      - intros (x1 & x2 & ? & ?%IHr & ?). eauto.
      - intros (x1 & x2 & ? & ?%IHr & ?). eauto. }
    assert (matches (RSeq r s) (String a x) ↔
      matches (seq (derivative a r) s) x ∨ matches r "" ∧ matches (derivative a s) x) as ->.
    { rewrite Hd, IHs, matches_seq_iff. split.
      - intros (x1 & x2 & Heq & H1 & H2). destruct x1 as [|b x1]; simpl in Heq; [right; split; [done|by rewrite Heq]|].
        rewrite str_app_cons in Heq. injection Heq as <- ->. left. by exists x1, x2.
      - intros [(x1 & x2 & -> & H1 & H2)|[H1 H2]]; [by exists (String a x1), x2|].
        by exists "", (String a x). }
    destruct (nullable r) eqn:Hn.
    + assert (matches r "") as Hr by (apply nullable_matches; by rewrite Hn).
      rewrite alt_matches, matches_alt_iff. tauto.
    + split; [auto|]. intros [?|[Hr _]]; [done|]. apply nullable_matches in Hr. by rewrite Hn in Hr.
  - by rewrite alt_matches, !matches_alt_iff, IHr, IHs.
  - rewrite seq_matches, matches_seq_iff. split.
    + intros (x1 & x2 & -> & H1%IHr & H2).
      change (String a (x1 +:+ x2)) with (String a x1 +:+ x2). by constructor.
    + intros [?|(b & x1 & x2 & Heq & H1 & H2)]%matches_star_inv; [done|].
      rewrite str_app_cons in Heq. injection Heq as <- ->. exists x1, x2. by rewrite IHr.
Qed.

Theorem rx_test_matches r x : rx_test r x ↔ matches r x.
Proof.
  revert r. induction x as [|a x IH]; intros r; simpl; [apply nullable_matches|].
  rewrite IH. apply derivative_matches.
Qed.

(** ** Characters *)

(** The characters a pattern can read. *)
Fixpoint alphabet (r : regex) (a : ascii) : bool :=
  match r with
  | REmpty | REps => false
  | RChar f => f a
  | RSeq r s | RAlt r s => alphabet r a || alphabet s a
  | RStar r => alphabet r a
  end.

Lemma matches_alphabet r x : matches r x → str_all (alphabet r) x.
Proof.
  induction 1 as [|f a Hf|r s x y _ IHr _ IHs|r s x _ IH|r s x _ IH| |r x y _ IHx _ IHy]; simpl.
  - done.
  - by rewrite andb_True.
  - rewrite str_all_app, andb_True. split; eapply str_all_impl; try eassumption;
      simpl; intros a; rewrite orb_True; auto.
  - eapply str_all_impl; [|exact IH]. intros a. rewrite orb_True. auto.
  - eapply str_all_impl; [|exact IH]. intros a. rewrite orb_True. auto.
  - done.
  - by rewrite str_all_app, andb_True.
Qed.
