(* ===== verification/Catalog.v ===== *)
(** * The catalog (src/dashboard/src/components/Catalog)

    The filters of the catalog live in the query of the address: [filtersToQuery] writes
    them, an effect reads them back from the query the package qs has parsed, and the
    lists of charts and of operators are filtered with them.  [CatalogItems] merges and
    sorts what is left.

    The filters are an object from names to lists of texts, kept in the order of its keys.
    [qs_parse] is qs's [parse] with [ignoreQueryPrefix]. *)

From Stdlib Require Import Sorted.
From S2P Require Import Prelude.
From S2P Require Import Json.
From S2P Require Import JsonText.
From S2P Require Import Types.
From S2P Require Import Url.
From S2P Require Import KubeServices.
From S2P Require Import Utils.

(** ** Texts *)

(** [category.replace(/([a-z])([A-Z][a-z])/g, "$1 $2")]. *)
Definition is_lower (a : ascii) : bool := ((97 <=? N_of_ascii a) && (N_of_ascii a <=? 122))%N.
Definition is_upper (a : ascii) : bool := ((65 <=? N_of_ascii a) && (N_of_ascii a <=? 90))%N.

Fixpoint split_words (s : string) : string :=
  match s with
  | EmptyString => ""
  | String a s1 =>
    match s1 with
    | String b (String c s3) =>
      if is_lower a && is_upper b && is_lower c
      then String a (String " " (String b (String c (split_words s3))))
      else String a (split_words s1)
    | _ => String a (split_words s1)
    end
  end.

Definition categoryToReadable (category : string) : string :=
  if bool_decide (category = "") then "Unknown" else trim_left (split_words category).

Definition getOperatorCategories (c : IClusterServiceVersion) : list string :=
  categoryToReadable <$>
    split_on "," (default ""
      (IResourceMetadata_annotations (IResource_metadata c) !! "categories")).

(** [f.replace(/,/g, "__")] and [a.replace(/__/g, ",")]. *)
Fixpoint hide_commas (s : string) : string :=
  match s with
  | EmptyString => ""
  | String a s' => if bool_decide (a = ","%char) then "__" +:+ hide_commas s'
                   else String a (hide_commas s')
  end.

Fixpoint show_commas (s : string) : string :=
  match s with
  | EmptyString => ""
  | String a s' =>
    match s' with
    | String b s'' =>
      if bool_decide (a = "_"%char) && bool_decide (b = "_"%char) then String "," (show_commas s'')
      else String a (show_commas s')
    | EmptyString => String a ""
    end
  end.

(** ** Filters and the query *)

Definition filters_t : Type := list (string * list string).

Definition SEARCH : string := "Search".
Definition TYPE : string := "Type".
Definition REPO : string := "Repository".
Definition CATEGORY : string := "Category".
Definition OPERATOR_PROVIDER : string := "Provider".
Definition filterNames : list string := [SEARCH; TYPE; REPO; CATEGORY; OPERATOR_PROVIDER].

Definition initialFilterState : filters_t := (λ f, (f, [])) <$> filterNames.

(** [filters[name]], for a name of [filterNames]. *)
Definition filter_of (filters : filters_t) (name : string) : list string :=
  default [] (assoc name filters).

Definition filterQuery (kv : string * list string) : string :=
  kv.1 +:+ "=" +:+ join "," ((λ f, encodeURIComponent (hide_commas f)) <$> kv.2).

Definition filtersToQuery (filters : filters_t) : string :=
  let activeFilters := filter (λ kv, kv.2 ≠ []) filters in
  if bool_decide (0 < length activeFilters)
  then "?" +:+ join "&" (filterQuery <$> activeFilters) else "".

(** [propsFilter[filter]?.toString() || ""]. *)
Definition filterValue (j : json) : string := item_text j.

Definition spread (base new : filters_t) : filters_t :=
  foldl (λ fs kv, obj_set kv.1 kv.2 fs) base new.

(** [newFilters]. *)
Definition query_filters (propsFilter : list (string * json)) : filters_t :=
  (λ kv, (kv.1, show_commas <$> split_on "," (filterValue kv.2))) <$> propsFilter.

(** The effect that follows the query. *)
Definition filters_from_query (propsFilter : list (string * json)) : filters_t :=
  spread initialFilterState (query_filters propsFilter).

Definition searchFilter (propsFilter : list (string * json)) : string :=
  show_commas (item_text (default JUndefined (assoc SEARCH propsFilter))).
Definition reposFilter (filters : filters_t) : string := join "," (filter_of filters REPO).

(** The keys of the queries the dashboard writes: those of the list of applications, of the list
    of operators and of the filters of the catalog. *)
Definition query_names : list string := ["q"; "allns"; "Capability"] ++ filterNames.

Definition encoded_query (kvs : list (string * list string)) : string :=
  "?" +:+ join "&" ((λ kv, kv.1 +:+ "=" +:+ join "," (encodeURIComponent <$> kv.2)) <$> kvs).

Class Qs := {
  qs_parse : string → list (string * json);
  qs_parse_empty : qs_parse "" = [];
  (* A query of some of these keys, each once: the values are decoded, commas stay as they are. *)
  qs_parse_query kvs :
    kvs ≠ [] → NoDup kvs.*1 →
    Forall (λ kv, kv.1 ∈ query_names ∧ kv.2 ≠ [] ∧ Forall (λ v, Is_true (valid_utf8 v)) kv.2) kvs →
    qs_parse (encoded_query kvs) = (λ kv, (kv.1, JStr (join "," kv.2))) <$> kvs;
}.

(** ** The state of the component *)

Record catalog := mkCatalog {
  filters : filters_t;
  page : Z;
  hasRequestedFirstPage : bool;
  hasLoadedFirstPage : bool;
}.
#[export] Instance eta_catalog : Eta catalog := λ c,
  mkCatalog (filters c) (page c) (hasRequestedFirstPage c) (hasLoadedFirstPage c).

Definition catalog_init : catalog := mkCatalog initialFilterState 1 false false.

Definition filters_effect (propsFilter : list (string * json)) (c : catalog) : catalog :=
  c <| filters := filters_from_query propsFilter |>.

Definition first_page_effect (isFetching : bool) (c : catalog) : catalog :=
  let requested := hasRequestedFirstPage c in
  let c := if isFetching then c <| hasRequestedFirstPage := true |> else c in
  if requested && negb isFetching then c <| hasLoadedFirstPage := true |> else c.

(** When the cluster, the namespace, the repositories or the search change. *)
Definition reset_effect (c : catalog) : catalog := c <| page := 1%Z |>.

Definition increaseRequestedPage (c : catalog) : catalog := c <| page := (page c + 1)%Z |>.
Definition setPageWithContext (error : option js_error) (c : catalog) : catalog :=
  match error with None => increaseRequestedPage c | Some _ => c end.

Definition shows_charts (fs : filters_t) : bool :=
  match filter_of fs TYPE with
  | [] => true
  | l => bool_decide ("Charts" ∈ l)
  end.

(** The end of the list comes into view. *)
Definition on_intersection (isIntersecting isFetching hasFinishedFetching : bool)
    (error : option js_error) (c : catalog) : catalog :=
  if isIntersecting && shows_charts (filters c) && negb isFetching && negb hasFinishedFetching &&
     hasLoadedFirstPage c
  then setPageWithContext error c else c.

(** The location pushed by the filters. *)
Definition pushFilters (cluster namespace : string) (fs : filters_t) : string :=
  app_catalog cluster namespace +:+ filtersToQuery fs.
Definition addFilter (type value : string) (fs : filters_t) : filters_t :=
  obj_set type (filter_of fs type ++ [value]) fs.
Definition removeFilter (type value : string) (fs : filters_t) : filters_t :=
  obj_set type (filter (λ v, v ≠ value) (filter_of fs type)) fs.
Definition clearAllFilters : filters_t := [].
Definition setSearchFilter (searchTerm : string) (fs : filters_t) : filters_t :=
  obj_set SEARCH (if truthy (trim_left searchTerm) then [trim_left searchTerm] else []) fs.

(** [FilterGroup]: a checkbox adds the option or removes it. *)
Definition toggleFilter (name targetValue : string) (fs : filters_t) : filters_t :=
  if bool_decide (targetValue ∈ filter_of fs name) then removeFilter name targetValue fs
  else addFilter name targetValue fs.

(** The repositories fetched for the page. *)
Definition fetchRepos_args (cluster namespace kubeappsCluster kubeappsNamespace : string)
    : string * bool :=
  if negb (bool_decide (cluster = kubeappsCluster)) || bool_decide (namespace = kubeappsNamespace)
  then (kubeappsNamespace, false) else (namespace, true).

(** ** Filtering *)

Definition uniq (l : list string) : list string :=
  foldl (λ acc x, if bool_decide (x ∈ acc) then acc else acc ++ [x]) [] l.

Definition allProviders (csvs : list IClusterServiceVersion) : list string :=
  uniq ((λ c, IClusterServiceVersionSpec_provider_name (IResource_spec c)) <$> csvs).
Definition allCategories (categories : list IChartCategory) (csvs : list IClusterServiceVersion)
    : list string :=
  sort_strings (uniq (((λ c, categoryToReadable (IChartCategory_name c)) <$> categories) ++
                      (csvs ≫= getOperatorCategories))).

(** [l.length === 0 || l.includes(x)]. *)
Definition empty_or_includes (l : list string) (x : string) : bool :=
  bool_decide (l = []) || bool_decide (x ∈ l).

Definition keeps_chart (fs : filters_t) (c : IChart) : bool :=
  empty_or_includes (filter_of fs TYPE) "Charts" &&
  bool_decide (filter_of fs OPERATOR_PROVIDER = []) &&
  empty_or_includes (filter_of fs REPO) (IRepo_name (IChartAttributes_repo (IChart_attributes c))) &&
  empty_or_includes (filter_of fs CATEGORY)
    (categoryToReadable (IChartAttributes_category (IChart_attributes c))).

Definition filteredCharts (fs : filters_t) (charts : list IChart) : list IChart :=
  filter (λ c, keeps_chart fs c) charts.

(** [new RegExp(escapeRegExp(search), "i").test(text)]: the pattern is the text itself
    ([Utils.escapeRegExp_literal]). *)
Definition search_test (search text : string) : bool :=
  includes (toLowerCase search) (toLowerCase text).

Definition csv_name_matches (search : string) (c : IClusterServiceVersion) : bool :=
  search_test search (IResourceMetadata_name (IResource_metadata c)) ||
  match IClusterServiceVersionSpec_customresourcedefinitions (IResource_spec c) with
  | Some (Some owned) =>
    some (λ crd, search_test search (IClusterServiceVersionCRD_displayName crd)) owned
  | _ => false
  end.

Definition keeps_csv (fs : filters_t) (search : string) (c : IClusterServiceVersion) : bool :=
  empty_or_includes (filter_of fs TYPE) "Operators" &&
  bool_decide (filter_of fs REPO = []) &&
  csv_name_matches search c &&
  empty_or_includes (filter_of fs OPERATOR_PROVIDER)
    (IClusterServiceVersionSpec_provider_name (IResource_spec c)) &&
  (bool_decide (filter_of fs CATEGORY = []) ||
   some (λ k, bool_decide (k ∈ getOperatorCategories c)) (filter_of fs CATEGORY)).

Definition filteredCSVs (fs : filters_t) (search : string) (csvs : list IClusterServiceVersion)
    : list IClusterServiceVersion :=
  filter (λ c, keeps_csv fs search c) csvs.

(** Nothing to show and nothing asked for. *)
Definition empty_catalog (fs : filters_t) (hasFinishedFetching : bool) (search : string)
    (charts : list IChart) (csvs : list IClusterServiceVersion) : bool :=
  bool_decide (fs = initialFilterState) && hasFinishedFetching && negb (truthy search) &&
  bool_decide (charts = []) && bool_decide (csvs = []).

(** The labels of the active filters. *)
Definition filter_summary (fs : filters_t) : list string :=
  fs ≫= λ kv, (λ v, kv.1 +:+ ": " +:+ v) <$> filter (λ v, truthy v) kv.2.

(** ** CatalogItems *)

Record catalog_item := mkCatalogItem {
  item_type : string;
  item_key : string;
  item_id : string;
  item_name : string;
  item_icon : option string;
  item_version : string;
  item_description : string;
  item_repo : option IRepo;
  item_csv : option string;
}.

(** [trimStart(text, "/")]. *)
Fixpoint trim_slashes (s : string) : string :=
  match s with
  | String a s' => if bool_decide (a = "/"%char) then trim_slashes s' else s
  | EmptyString => ""
  end.

Definition chart_item (c : IChart) : catalog_item :=
  let attributes := IChart_attributes c in
  {| item_type := "chart";
     item_key := "chart/" +:+ IRepo_name (IChartAttributes_repo attributes) +:+ "/" +:+ IChart_id c;
     item_id := IChart_id c;
     item_name := IChartAttributes_name attributes;
     item_icon :=
       match IChartAttributes_icon attributes with
       | Some icon => if truthy icon then Some ("api/assetsvc/" +:+ trim_slashes icon) else None
       | None => None
       end;
     item_version :=
       IChartVersionAttributes_app_version (IChart_relationships_latestChartVersion_data c);
     item_description := IChartAttributes_description attributes;
     item_repo := Some (IChartAttributes_repo attributes);
     item_csv := None |}.

Definition crd_item (placeholder : string) (csv : IClusterServiceVersion)
    (crd : IClusterServiceVersionCRD) : catalog_item :=
  let csv_name := IResourceMetadata_name (IResource_metadata csv) in
  {| item_type := "operator";
     item_key := "operator/" +:+ csv_name +:+ "/" +:+ IClusterServiceVersionCRD_name crd;
     item_id := IClusterServiceVersionCRD_name crd;
     item_name := or_str (IClusterServiceVersionCRD_displayName crd)
                         (IClusterServiceVersionCRD_name crd);
     item_icon := Some (getIcon placeholder csv);
     item_version := IClusterServiceVersionCRD_version crd;
     item_description := IClusterServiceVersionCRD_description crd;
     item_repo := None;
     item_csv := Some csv_name |}.

Definition crd_items (placeholder : string) (csvs : list IClusterServiceVersion)
    : list catalog_item :=
  csvs ≫= λ csv,
    match IClusterServiceVersionSpec_customresourcedefinitions (IResource_spec csv) with
    | Some (Some owned) => crd_item placeholder csv <$> owned
    | _ => []
    end.

(** [a.name.toLowerCase() > b.name.toLowerCase() ? 1 : -1]: it never answers 0, so the order
    of items with the same name is that of the implementation of [sort]. *)
Definition compare_items (a b : catalog_item) : outcome Z :=
  let x := toLowerCase (item_name a) in
  let y := toLowerCase (item_name b) in
  Ok (if bool_decide (String.le x y) then -1 else 1)%Z.

Definition sortedItems (placeholder : string) (charts : list IChart)
    (csvs : list IClusterServiceVersion) (isFetching : bool) (page : Z)
    : outcome (list catalog_item) :=
  if isFetching && bool_decide (page = 1%Z) then Ok []
  else sort_by compare_items ((chart_item <$> charts) ++ crd_items placeholder csvs).

Inductive items_view := NoMatch | Items (l : list catalog_item).

Definition CatalogItems (placeholder : string) (charts : list IChart)
    (csvs : list IClusterServiceVersion) (isFetching hasFinishedFetching : bool) (page : Z)
    : outcome items_view :=
  items ← sortedItems placeholder charts csvs isFetching page;
  Ok (if hasFinishedFetching && bool_decide (items = []) then NoMatch else Items items).

(** ** One card (ChartCatalogItem.tsx, OperatorCatalogItem.tsx) *)

Record info_card := mkInfoCard {
  card_title : string;
  card_link : string;
  card_info : string;
  card_icon : string;
  card_description : string;
  card_tag : string;
}.

Definition ChartCatalogItem (placeholder cluster namespace kubeappsNamespace : string)
    (repo : IRepo) (i : catalog_item) : outcome info_card :=
  title ← decodeURIComponent (item_name i);
  Ok {| card_title := title;
        card_link := app_charts_get cluster namespace (item_name i) repo kubeappsNamespace;
        card_info := item_version i;
        card_icon := or_opt_str (item_icon i) placeholder;
        card_description := trimDescription (item_description i);
        card_tag := IRepo_name repo |}.

Definition OperatorCatalogItem (placeholder cluster namespace csv : string) (i : catalog_item)
    : info_card :=
  {| card_title := item_name i;
     card_link := app_operatorInstances_new cluster namespace csv (item_id i);
     card_info := or_str (item_version i) "-";
     card_icon := or_opt_str (item_icon i) placeholder;
     card_description := trimDescription (item_description i);
     card_tag := default "" (head (split_on "." csv)) |}.

Definition CatalogItem (placeholder cluster namespace kubeappsNamespace : string)
    (i : catalog_item) : outcome info_card :=
  match item_repo i, item_csv i with
  | Some repo, _ => ChartCatalogItem placeholder cluster namespace kubeappsNamespace repo i
  | None, csv => Ok (OperatorCatalogItem placeholder cluster namespace (default "" csv) i)
  end.

(** ** The round trip of the filters *)

(** Texts that survive hiding their commas: no double underscore, and no underscore right
    before a comma. *)
Fixpoint unambiguous (s : string) : bool :=
  match s with
  | EmptyString => true
  | String a s' =>
    negb (bool_decide (a = "_"%char) &&
          match s' with
          | String b _ => bool_decide (b = "_"%char) || bool_decide (b = ","%char)
          | EmptyString => false
          end) && unambiguous s'
  end.

Lemma hide_commas_head s b r :
  hide_commas s = String b r →
  ∃ a t, s = String a t ∧ (b = a ∧ a ≠ ","%char ∨ b = "_"%char ∧ a = ","%char).
Proof.
  destruct s as [|a t]; [done|]. simpl. case_bool_decide; intros [= <- _]; eexists _, _; eauto.
Qed.

Lemma show_double s : show_commas ("__" +:+ s) = String "," (show_commas s).
Proof. done. Qed.

Lemma show_hide_commas s : unambiguous s → show_commas (hide_commas s) = s.
Proof.
  induction s as [|a s IH]; [done|]. cbn [unambiguous hide_commas]. rewrite andb_True.
  intros [Ha Hs]. destruct (bool_decide_reflect (a = ","%char)) as [->|Hc].
  { by rewrite show_double, IH. }
  cbn [show_commas]. destruct (hide_commas s) as [|b r] eqn:Hh.
  { destruct s as [|c s]; [done|]. cbn in Hh. by destruct (bool_decide (c = _)). }
  destruct (hide_commas_head _ _ _ Hh) as (c & t & -> & Hb).
  assert (bool_decide (a = "_"%char) && bool_decide (b = "_"%char) = false) as ->.
  { destruct (bool_decide (a = "_"%char)); [|done]. simpl in Ha.
    rewrite negb_orb, andb_True in Ha. destruct Ha as [H1 H2].
    apply bool_decide_false. intros ->. destruct Hb as [[<- _]|[_ ->]]; done. }
  by rewrite IH.
Qed.

Lemma hide_commas_lacks s : lacks "," (hide_commas s).
Proof.
  unfold lacks. induction s as [|a s IH]; [done|]. simpl. case_bool_decide; simpl; [done|].
  rewrite bool_decide_false by done. done.
Qed.

Lemma hide_commas_valid pend s :
  Forall (λ r, 128 ≤ r.1)%N pend → valid_utf8_from pend s → valid_utf8_from pend (hide_commas s).
Proof.
  revert pend. induction s as [|a s IH]; intros pend Hr; [done|]. simpl.
  destruct (utf8_next pend (byte_of a)) as [pend'|] eqn:Hn; [|done]. intros Hv.
  pose proof (utf8_next_ranges _ _ _ Hn Hr) as Hr'.
  case_bool_decide as Hc.
  - subst a. assert (pend = []) as ->.
    { eapply (utf8_next_plain pend (byte_of ",")); [done|by rewrite Hn|done]. }
    simpl in Hn. injection Hn as <-. simpl. by apply IH.
  - simpl. rewrite Hn. by apply IH.
Qed.

Lemma fmap_fixes {A} (f : A → A) l : Forall (λ x, f x = x) l → f <$> l = l.
Proof. induction 1 as [|x l Hx _ IH]; [done|]. rewrite fmap_cons. by rewrite Hx, IH. Qed.

Section roundtrip.
Context `{Qs}.

Lemma query_values vs :
  vs ≠ [] → Forall (λ v, Is_true (unambiguous v)) vs →
  show_commas <$> split_on "," (join "," (hide_commas <$> vs)) = vs.
Proof.
  intros Hne Hvs. rewrite split_join.
  - rewrite <- list_fmap_compose. apply fmap_fixes. eapply Forall_impl; [exact Hvs|].
    intros v. apply show_hide_commas.
  - by destruct vs.
  - apply Forall_fmap, Forall_forall. intros v _. apply hide_commas_lacks.
Qed.

Lemma obj_set_middle k (v w : list string) pre post :
  k ∉ pre.*1 → obj_set k v (pre ++ (k, w) :: post) = pre ++ (k, v) :: post.
Proof using.
  induction pre as [|[k' w'] pre IH]; simpl; [by rewrite bool_decide_true|].
  intros [Hne Hin]%not_elem_of_cons. rewrite bool_decide_false by done. by rewrite IH.
Qed.

(** The filters that are set, over the initial ones with the same names. *)
Lemma spread_active (fs : filters_t) :
  NoDup fs.*1 → spread ((λ f, (f, [])) <$> fs.*1) (filter (λ kv, kv.2 ≠ []) fs) = fs.
Proof using.
  assert (∀ pre, NoDup (pre ++ fs).*1 →
    spread (pre ++ ((λ f, (f, [])) <$> fs.*1)) (filter (λ kv, kv.2 ≠ []) fs) = pre ++ fs) as Hpre;
    [|by intros; apply (Hpre [])].
  induction fs as [|[k vs] fs IH]; intros pre Hnd; [done|].
  rewrite !fmap_cons. cbn [fst snd]. unfold filters_t. rewrite filter_cons.
  assert (k ∉ pre.*1) as Hk.
  { rewrite fmap_app in Hnd. apply NoDup_app in Hnd as (_ & Hnd & _). intros Hin.
    apply (Hnd k Hin). by left. }
  replace (pre ++ (k, vs) :: fs) with ((pre ++ [(k, vs)]) ++ fs) in * by (by rewrite <- app_assoc).
  case_decide as Hvs.
  - unfold spread in *. cbn [foldl fst snd]. rewrite obj_set_middle by done.
    specialize (IH (pre ++ [(k, vs)]) Hnd). rewrite <- !app_assoc in *. exact IH.
  - cbn [snd] in Hvs. subst vs.
    specialize (IH (pre ++ [(k, [])]) Hnd). rewrite <- !app_assoc in *. exact IH.
Qed.

(** What is read back from the query is what was written to it. *)
Lemma active_roundtrip (fs : filters_t) :
  NoDup fs.*1 → Forall (λ kv, kv.1 ∈ query_names) fs →
  Forall (λ kv, Forall (λ v, Is_true (unambiguous v) ∧ Is_true (valid_utf8 v)) kv.2) fs →
  query_filters (qs_parse (filtersToQuery fs)) = filter (λ kv, kv.2 ≠ []) fs.
Proof.
  intros Hnd Hk Hv. unfold query_filters, filtersToQuery.
  set (active := filter (λ kv : string * list string, kv.2 ≠ []) fs).
  assert (Forall (λ kv : string * list string, kv ∈ fs ∧ kv.2 ≠ []) active) as Hact.
  { apply Forall_forall. intros kv Hkv. subst active. apply list_elem_of_filter in Hkv. tauto. }
  assert (NoDup active.*1) as Hnda.
  { subst active. eapply sublist_NoDup; [exact Hnd|]. apply fmap_sublist, sublist_filter. }
  clearbody active. destruct active as [|a active]; [by rewrite qs_parse_empty|].
  rewrite bool_decide_true by (simpl; lia).
  assert ("?" +:+ join "&" (filterQuery <$> a :: active) =
    encoded_query ((λ kv : string * list string, (kv.1, hide_commas <$> kv.2)) <$> a :: active)) as ->.
  { unfold encoded_query. do 2 f_equal. rewrite <- list_fmap_compose. apply list_fmap_ext.
    intros i [k vs] _. unfold filterQuery. simpl. by rewrite <- list_fmap_compose. }
  rewrite qs_parse_query.
  - rewrite <- !list_fmap_compose. apply fmap_fixes. eapply Forall_impl; [exact Hact|].
    intros [k vs] [Hin Hne]. simpl in *. f_equal.
    apply query_values; [done|]. eapply Forall_forall in Hv; [|exact Hin].
    eapply Forall_impl; [exact Hv|]. by intros v [? _].
  - done.
  - by rewrite <- list_fmap_compose.
  - apply Forall_fmap. eapply Forall_impl; [exact Hact|]. intros [k vs] [Hin Hne]. simpl in *.
    eapply Forall_forall in Hk; [|exact Hin]. eapply Forall_forall in Hv; [|exact Hin].
    split_and!; [done|by destruct vs|]. apply Forall_fmap. eapply Forall_impl; [exact Hv|].
    intros v [_ Hu]. simpl. by apply hide_commas_valid.
Qed.

(** C19: The filters a user sets come back from the address they are written to, whatever
    commas, ampersands or accents their values have; the exceptions are a double
    underscore and an underscore right before a comma. *)
Theorem filters_roundtrip fs :
  fs.*1 = filterNames →
  Forall (λ kv, Forall (λ v, Is_true (unambiguous v) ∧ Is_true (valid_utf8 v)) kv.2) fs →
  filters_from_query (qs_parse (filtersToQuery fs)) = fs.
Proof.
  intros Hnames Hv. assert (NoDup fs.*1) as Hnd.
  { rewrite Hnames. apply (bool_decide_unpack _). by vm_compute. }
  unfold filters_from_query, initialFilterState. rewrite active_roundtrip; [|done|..|exact Hv].
  - rewrite <- Hnames. by apply spread_active.
  - apply Forall_forall. intros kv Hkv. assert (kv.1 ∈ filterNames) as Hin.
    { rewrite <- Hnames. by apply list_elem_of_fmap_2. }
    unfold query_names. set_solver.
Qed.

End roundtrip.

(** A double underscore in a value is read back as a comma. *)
Theorem underscores_become_comma u v :
  lacks "_" u → lacks "," u → unambiguous v →
  show_commas (hide_commas (u +:+ "__" +:+ v)) = u +:+ "," +:+ v.
Proof.
  intros Hu Hc Hv. induction u as [|a u IH].
  - rewrite !str_app_nil_l. change (hide_commas ("__" +:+ v)) with ("__" +:+ hide_commas v).
    by rewrite show_double, show_hide_commas.
  - unfold lacks in *. simpl in Hu, Hc. rewrite andb_True in Hu, Hc. destruct Hu as [Ha Hu], Hc as [Hca Hc].
    apply negb_True in Ha, Hca.
    assert (bool_decide (a = "_"%char) = false) as Ha' by (by apply not_true_is_false; intros E; rewrite E in Ha).
    assert (bool_decide (a = ","%char) = false) as Hc' by (by apply not_true_is_false; intros E; rewrite E in Hca).
    rewrite !(str_app_cons a u). cbn [hide_commas]. rewrite Hc'. cbn [show_commas].
    destruct (hide_commas (u +:+ "__" +:+ v)) as [|b r] eqn:Hh.
    { destruct u as [|c u]; [done|]. rewrite str_app_cons in Hh. cbn [hide_commas] in Hh.
      by destruct (bool_decide (c = ","%char)). }
    rewrite Ha'. cbn [andb]. by rewrite IH.
Qed.

(** ** The checkboxes, the pages and the list *)

Lemma assoc_toggle name v fs :
  filter_of (obj_set name v fs) name = v.
Proof. unfold filter_of. rewrite assoc_obj_set, bool_decide_true by done. done. Qed.

Lemma obj_set_twice name (u v : list string) fs : obj_set name u (obj_set name v fs) = obj_set name u fs.
Proof.
  induction fs as [|[k w] fs IH]; simpl; [by rewrite bool_decide_true|].
  case_bool_decide; simpl; [by rewrite bool_decide_true|]. rewrite bool_decide_false by done.
  by rewrite IH.
Qed.

Lemma obj_set_id name v (fs : filters_t) : assoc name fs = Some v → obj_set name v fs = fs.
Proof.
  induction fs as [|[k w] fs IH]; simpl; [done|]. case_bool_decide; [by intros [= ->]; subst|].
  intros Hk. by rewrite IH.
Qed.

(** Checking an option and unchecking it leaves the filters as they were. *)
Theorem toggleFilter_involutive name option fs l :
  assoc name fs = Some l → option ∉ l →
  toggleFilter name option (toggleFilter name option fs) = fs.
Proof.
  intros Hl Hnot. unfold toggleFilter at 2. unfold filter_of. rewrite Hl. simpl.
  rewrite bool_decide_false by done. unfold addFilter, filter_of. rewrite Hl. simpl.
  unfold toggleFilter. rewrite assoc_toggle, bool_decide_true by set_solver.
  unfold removeFilter. rewrite assoc_toggle, obj_set_twice, filter_app, filter_cons, filter_nil.
  rewrite decide_False by auto. rewrite app_nil_r.
  assert (filter (λ v, v ≠ option) l = l) as ->.
  { clear -Hnot. induction l as [|x l IH]; [done|]. apply not_elem_of_cons in Hnot as [Hx Hnot].
    rewrite filter_cons, decide_True by auto. by rewrite IH. }
  by apply obj_set_id.
Qed.

(** What happens to the state of the catalog. *)
Inductive catalog_step : catalog → catalog → Prop :=
| step_query q c : catalog_step c (filters_effect q c)
| step_fetching b c : catalog_step c (first_page_effect b c)
| step_reset c : catalog_step c (reset_effect c)
| step_scroll i f h e c : catalog_step c (on_intersection i f h e c).

Definition catalog_ok (c : catalog) : Prop :=
  (1 <= page c)%Z ∧ ((1 < page c)%Z → hasLoadedFirstPage c) ∧
  (hasLoadedFirstPage c → hasRequestedFirstPage c) ∧
  Forall (λ n, is_Some (assoc n (filters c))) filterNames.

Lemma initial_names : Forall (λ n, is_Some (assoc n initialFilterState)) filterNames.
Proof. repeat constructor; by eexists. Qed.

Lemma assoc_spread n new base :
  is_Some (assoc n base) → is_Some (assoc n (spread base new)).
Proof.
  unfold spread. revert base. induction new as [|kv new IH]; intros base Hb; [done|]. simpl.
  apply IH. rewrite assoc_obj_set. case_bool_decide; eauto.
Qed.

Lemma catalog_step_ok c c' : catalog_step c c' → catalog_ok c → catalog_ok c'.
Proof.
  intros Hstep (H1 & H2 & H3 & H4).
  inversion Hstep as [q d|b d|d|i f h e d]; subst; unfold catalog_ok; simpl.
  - split_and!; [done..|]. unfold filters_from_query. eapply Forall_impl; [exact initial_names|].
    intros n. apply assoc_spread.
  - unfold first_page_effect. destruct b; simpl.
    + rewrite andb_false_r. simpl. split_and!; auto.
    + rewrite andb_true_r. destruct (hasRequestedFirstPage c) eqn:Hr; simpl; rewrite ?Hr; auto.
  - split_and!; [lia|lia|done|done].
  - unfold on_intersection. destruct (_ && hasLoadedFirstPage c) eqn:Hl; [|by auto].
    apply andb_true_iff in Hl as [_ Hl]. unfold setPageWithContext.
    destruct e; [by auto|]. simpl. rewrite Hl in *. split_and!; [lia|done|done|done].
Qed.

(** No page but the first is asked for before the first one has been requested and has
    arrived, and the filters always have the five names. *)
Theorem catalog_pages_in_order c :
  rtc catalog_step catalog_init c →
  (1 <= page c)%Z ∧ ((1 < page c)%Z → hasLoadedFirstPage c) ∧
  (hasLoadedFirstPage c → hasRequestedFirstPage c) ∧
  Forall (λ n, is_Some (assoc n (filters c))) filterNames.
Proof.
  assert (∀ c c', rtc catalog_step c c' → catalog_ok c → catalog_ok c') as Hrtc.
  { induction 1; eauto using catalog_step_ok. }
  intros Hrun. apply (Hrtc _ _ Hrun). split_and!; [done|done|done|apply initial_names].
Qed.

Lemma Sorted_weaken {A} (R S : A → A → Prop) l :
  (∀ x y, R x y → S x y) → Sorted R l → Sorted S l.
Proof.
  intros HRS. induction 1 as [|x l Hl IH Hx]; constructor; [done|]. destruct Hx; constructor; auto.
Qed.

(** The list shows every chart and every custom resource once; items with distinct names
    come in the alphabetical order of their names without regard to case. *)
Theorem sortedItems_sorted placeholder charts csvs isFetching page :
  isFetching = false ∨ page ≠ 1%Z →
  let items := (chart_item <$> charts) ++ crd_items placeholder csvs in
  ∃ l, sortedItems placeholder charts csvs isFetching page = Ok l ∧ l ≡ₚ items ∧
    Sorted (λ a b, String.le (toLowerCase (item_name a)) (toLowerCase (item_name b))) l.
Proof.
  intros Hf items. unfold sortedItems. fold items.
  assert (isFetching && bool_decide (page = 1%Z) = false) as ->.
  { destruct Hf as [->|Hp]; [done|]. rewrite bool_decide_false by done. apply andb_false_r. }
  assert (total_cmp compare_items (λ _, True)) as Hcmp.
  { constructor.
    - intros x y _ _. eexists. done.
    - intros x y c _ _ [= <-] Hc. eexists. split; [done|].
      case_bool_decide as H1; case_bool_decide as H2; try lia. exfalso.
      destruct (String.le_total (toLowerCase (item_name x)) (toLowerCase (item_name y))); done.
    - intros x y z c d _ _ _ [= <-] Hc [= <-] Hd. eexists. split; [done|].
      case_bool_decide as H1; [|lia]. case_bool_decide as H2; [|lia].
      rewrite bool_decide_true; [lia|]. by etrans. }
  destruct (sort_by_total _ _ Hcmp items) as (l & Hl & Hs & Hp); [by apply Forall_forall|].
  exists l. split; [done|]. split; [done|]. apply StronglySorted_Sorted in Hs.
  eapply Sorted_weaken; [|exact Hs]. intros x y (c & [= <-] & Hc).
  by case_bool_decide; [|lia].
Qed.
