(* ===== verification/CatalogPaging.v ===== *)
(** * The paging of the catalog

    The page src/dashboard/src/components/Catalog/Catalog.tsx as React runs it, with the slice
    of the charts and the requests it has sent: a commit renders the page and runs the effects
    whose dependencies changed since the commit before, and answers arrive in any order.
    [catalog_complete]: for one search, whatever the order, a list that says it is finished has
    every chart of every page; [catalog_reaches_end]: it can be finished.  When the search changes
    that is not so: the answers to the old search are still taken ([late_answer_listed]), and the
    page asked for first is that of the old search ([new_search_skips_pages]).

    The observers of the end of the list are never disconnected: those of earlier renders stay
    as long as its element does, and call the handler of their render.  The other effects of the
    page concern other slices ([Pages]); to this one they are changes of the store. *)

From S2P Require Import Prelude.
From S2P Require Import Json.
From S2P Require Import JsonText.
From S2P Require Import Browser.
From S2P Require Import Types.
From S2P Require Import Url.
From S2P Require Import KubeRef.
From S2P Require Import Actions.
From S2P Require Import ChartsReducer.
From S2P Require Import Store.
From S2P Require Import Thunk.
From S2P Require Import HelmServices.
From S2P Require Import Schema.
From S2P Require Import AppsActions.
From S2P Require Import ChartsActions.
From S2P Require Import Catalog.

(** ** The state *)

(** What [fetchCharts] is called with. *)
Record chart_query := mkChartQuery {
  cq_cluster : string;
  cq_namespace : string;
  cq_repos : string;
  cq_page : Z;
  cq_size : Z;
  cq_search : string;
}.
#[export] Instance chart_query_eq_dec : EqDecision chart_query.
Proof. solve_decision. Defined.

(** The properties that come from the location. *)
Record catalog_route := mkCatalogRoute {
  cr_cluster : string;
  cr_namespace : string;
  cr_filter : list (string * json);
}.

(** The values of a render, which its effects and its handlers see. *)
Record rendered := mkRendered {
  rd_route : catalog_route;
  rd_catalog : catalog;
  rd_charts : IChartState;
}.

(** [pg_fresh]: the query was parsed anew since the last commit, as it is at every change of the
    store; [pg_observers]: the renders that observe the end of the list; [pg_flight]: the
    requests that are not answered, in the order they were sent. *)
Record paging := mkPaging {
  pg_route : catalog_route;
  pg_fresh : bool;
  pg_catalog : catalog;
  pg_charts : IChartState;
  pg_rendered : option rendered;
  pg_observers : list rendered;
  pg_flight : list chart_query;
}.
#[export] Instance eta_paging : Eta paging := λ g,
  mkPaging (pg_route g) (pg_fresh g) (pg_catalog g) (pg_charts g) (pg_rendered g)
    (pg_observers g) (pg_flight g).

(** The page as it is mounted, with the charts the store has. *)
Definition paging_mount (route : catalog_route) (charts : IChartState) : paging :=
  mkPaging route true catalog_init charts None [] [].

Definition snapshot (g : paging) : rendered := mkRendered (pg_route g) (pg_catalog g) (pg_charts g).

Definition query_of (r : rendered) : chart_query :=
  {| cq_cluster := cr_cluster (rd_route r); cq_namespace := cr_namespace (rd_route r);
     cq_repos := reposFilter (filters (rd_catalog r)); cq_page := page (rd_catalog r);
     cq_size := IChartState_size (rd_charts r); cq_search := searchFilter (cr_filter (rd_route r)) |}.

(** The dependencies of the effect that starts the list again. *)
Definition search_of (r : rendered) : string * string * string * string :=
  (cr_cluster (rd_route r), cr_namespace (rd_route r), reposFilter (filters (rd_catalog r)),
   searchFilter (cr_filter (rd_route r))).

Definition first_page_deps (r : rendered) : bool * bool :=
  (hasRequestedFirstPage (rd_catalog r), IChartState_isFetching (rd_charts r)).

Definition deps_changed {A} `{EqDecision A} (f : rendered → A) (before : option rendered)
    (r : rendered) : bool :=
  match before with None => true | Some r' => bool_decide (f r' ≠ f r) end.

(** The element at the end of the list. *)
Definition shows_border (r : rendered) : bool :=
  negb (IChartState_hasFinishedFetching (rd_charts r)) && negb (IChartState_isFetching (rd_charts r)).

(** ** The steps *)

Section paging.
Context `{Lodash}.

Definition charts_dispatch (a : ChartsAction) (charts : IChartState) : IChartState :=
  chartsReducer charts (ACharts a).

(** The effects of a commit on the state of the component, in their order. *)
Definition catalog_effects (fresh : bool) (before : option rendered) (r : rendered) : catalog :=
  let c := rd_catalog r in
  let c := if fresh then filters_effect (cr_filter (rd_route r)) c else c in
  let c := if deps_changed first_page_deps before r
           then first_page_effect (IChartState_isFetching (rd_charts r)) c else c in
  if deps_changed search_of before r then reset_effect c else c.

(** And on the slice. *)
Definition charts_effects (before : option rendered) (r : rendered) : IChartState :=
  let charts := if deps_changed query_of before r
                then charts_dispatch (requestCharts (Some (page (rd_catalog r)))) (rd_charts r)
                else rd_charts r in
  if deps_changed search_of before r then charts_dispatch resetRequestCharts charts else charts.

Definition commit_page (g : paging) : paging :=
  let r := snapshot g in
  let before := pg_rendered g in
  {| pg_route := pg_route g;
     pg_fresh := deps_changed query_of before r || deps_changed search_of before r;
     pg_catalog := catalog_effects (pg_fresh g) before r;
     pg_charts := charts_effects before r;
     pg_rendered := Some r;
     pg_observers :=
       if shows_border r
       then (match before with
             | Some r' => if shows_border r' then pg_observers g else []
             | None => []
             end) ++ [r]
       else [];
     pg_flight := pg_flight g ++ (if deps_changed query_of before r then [query_of r] else []) |}.

(** What [fetchCharts] dispatches at the end. *)
Definition charts_answer (q : chart_query) (r : outcome charts_page) : ChartsAction :=
  match r with
  | Ok p => receiveCharts
      {| IReceiveChartsActionPayload_items := page_data p;
         IReceiveChartsActionPayload_page := cq_page q;
         IReceiveChartsActionPayload_totalPages := IChartListMeta_totalPages (page_meta p) |}
  | Throws e => errorChart (mk_error FetchError (message e))
  end.

(** The slice after an action; the store has changed. *)
Definition in_store (f : IChartState → IChartState) (g : paging) : paging :=
  g <| pg_charts := f (pg_charts g) |> <| pg_fresh := true |>.

Definition arrive (i : nat) (r : outcome charts_page) (g : paging) : paging :=
  match pg_flight g !! i with
  | Some q => (in_store (charts_dispatch (charts_answer q r)) g) <| pg_flight := delete i (pg_flight g) |>
  | None => g
  end.

(** An observer calls the handler of its render, which sets the page to the one after its own. *)
Definition scroll (i : nat) (g : paging) : paging :=
  match pg_observers g !! i with
  | Some r =>
    let c := on_intersection true (IChartState_isFetching (rd_charts r))
               (IChartState_hasFinishedFetching (rd_charts r))
               (selected_error (IChartState_selected (rd_charts r))) (rd_catalog r) in
    if bool_decide (page c = page (rd_catalog r)) then g
    else g <| pg_catalog := (pg_catalog g) <| page := page c |> |>
  | None => g
  end.

(** [forceRetry] of the last render. *)
Definition forceRetry (g : paging) : paging :=
  match pg_rendered g with
  | Some r =>
    (in_store (λ charts, charts_dispatch (requestCharts (Some (page (rd_catalog r))))
                 (charts_dispatch clearErrorChart charts)) g)
      <| pg_flight := pg_flight g ++ [query_of r] |>
  | None => g
  end.

Inductive paging_event :=
| Commit
| VisitCatalog (route : catalog_route)
| Arrive (i : nat) (r : outcome charts_page)
| Scroll (i : nat)
| Retry
| CategoriesFail (e : js_error)
| OtherChange.

Definition paging_step (g : paging) (e : paging_event) : paging :=
  match e with
  | Commit => commit_page g
  | VisitCatalog route => g <| pg_route := route |> <| pg_fresh := true |>
  | Arrive i r => arrive i r g
  | Scroll i => scroll i g
  | Retry => forceRetry g
  | CategoriesFail e => in_store (charts_dispatch (errorChartCatetories e)) g
  | OtherChange => in_store id g
  end.

Definition paging_run (g : paging) (es : list paging_event) : paging := foldl paging_step g es.

Lemma arrive_next g i q r : pg_flight g !! i = Some q →
  arrive i r g =
  {| pg_route := pg_route g; pg_fresh := true; pg_catalog := pg_catalog g;
     pg_charts := charts_dispatch (charts_answer q r) (pg_charts g); pg_rendered := pg_rendered g;
     pg_observers := pg_observers g; pg_flight := delete i (pg_flight g) |}.
Proof using. intros Hq. unfold arrive. by rewrite Hq. Qed.

End paging.

(** ** The requests are those of the thunk *)

Section thunk.
Context `{Lodash} `{Jwt} `{Location} `{Router} `{Yaml} `{Ajv} `{Semver} (boot : browser).

Definition fetch_query (q : chart_query) : prog unit :=
  fetchCharts (cq_cluster q) (cq_namespace q) (cq_repos q) (cq_page q) (cq_size q) (Some (cq_search q)).

Definition chart_request (q : chart_query) : request :=
  get_request (api_charts_list (cq_cluster q) (cq_namespace q) (cq_repos q) (cq_page q) (cq_size q)
                 (Some (cq_search q))).

(** A request is announced, sent, and its answer dispatched as [charts_answer] says. *)
Lemma fetch_query_performs E q m :
  performs boot E (fetch_query q) m (Ok ())
    [EvDispatch (requestCharts (Some (cq_page q))); EvRequest axiosWithAuth (chart_request q);
     EvDispatch (charts_answer q (env_reply E (m_ticks m) axiosWithAuth (chart_request q) T_charts_page))]
    [].
Proof using.
  unfold fetch_query, fetchCharts, Chart_fetchCharts, chart_error, chart_request. perform.
Qed.
End thunk.

(** ** One search *)

Section one_search.
Context `{Lodash}.

(** The search, and the pages the server has for it. *)
Context (cluster namespace repos search : string) (size : Z).
Context (answers : Z → list IChart) (total : Z).

Definition query (p : Z) : chart_query := mkChartQuery cluster namespace repos p size search.

Definition server (p : Z) : charts_page := mkChartsPage (answers p) (mkIChartListMeta total).

(** A location of the search: the repositories it selects are those of the search. *)
Definition route_here (route : catalog_route) : Prop :=
  cr_cluster route = cluster ∧ cr_namespace route = namespace ∧
  reposFilter (filters_from_query (cr_filter route)) = repos ∧
  searchFilter (cr_filter route) = search.

(** The events of one search: the location stays one of the search, and the answers are those of
    the server. *)
Definition allowed (g : paging) (e : paging_event) : Prop :=
  match e with
  | VisitCatalog route => route_here route
  | Arrive i r => ∀ q, pg_flight g !! i = Some q → r = Ok (server (cq_page q))
  | _ => True
  end.

Definition answered_step (g g' : paging) : Prop := ∃ e, allowed g e ∧ g' = paging_step g e.

Definition listed (charts : IChartState) (l : list IChart) : Prop :=
  ∀ x, x ∈ l → IChart_id x ∈ chart_ids charts.

Definition render_in (m : Z) (r : rendered) : Prop :=
  query_of r = query (page (rd_catalog r)) ∧ (1 <= page (rd_catalog r) <= m)%Z.

(** The pages asked for are those up to [m]; each is on its way or listed. *)
Record paging_inv (m : Z) (g : paging) : Prop := {
  inv_route : route_here (pg_route g);
  inv_repos : reposFilter (filters (pg_catalog g)) = repos;
  inv_size : IChartState_size (pg_charts g) = size;
  inv_page : (1 <= page (pg_catalog g) <= m + 1)%Z;
  inv_rendered : ∃ r, pg_rendered g = Some r ∧ render_in m r;
  inv_observers : Forall (render_in m) (pg_observers g);
  inv_flight : Forall (λ q, q = query (cq_page q) ∧ (1 <= cq_page q <= m)%Z) (pg_flight g);
  inv_asked p : (1 <= p <= m)%Z → query p ∈ pg_flight g ∨ listed (pg_charts g) (answers p);
  inv_only i : i ∈ chart_ids (pg_charts g) →
    ∃ p, (1 <= p <= m)%Z ∧ i ∈ IChart_id <$> answers p;
  inv_finished : IChartState_hasFinishedFetching (pg_charts g) → (total <= m)%Z;
  inv_fetching : pg_flight g = [] → IChartState_isFetching (pg_charts g) = false;
  inv_once : charts_ok (pg_charts g);
}.

(** A page that is about to start the search: it is at its first page, nothing is on its way,
    and what was rendered before, if anything, was another search. *)
Record starts (g : paging) : Prop := {
  start_route : route_here (pg_route g);
  start_repos : reposFilter (filters (pg_catalog g)) = repos;
  start_size : IChartState_size (pg_charts g) = size;
  start_page : page (pg_catalog g) = 1%Z;
  start_before : deps_changed search_of (pg_rendered g) (snapshot g) = true;
  start_observers : pg_observers g = [];
  start_flight : pg_flight g = [];
}.

Lemma query_here g :
  route_here (pg_route g) → reposFilter (filters (pg_catalog g)) = repos →
  IChartState_size (pg_charts g) = size →
  query_of (snapshot g) = query (page (pg_catalog g)).
Proof using.
  intros (Hc & Hn & _ & Hs) Hr Hz. unfold query_of, query.
  cbn [snapshot rd_route rd_catalog rd_charts]. by rewrite Hc, Hn, Hs, Hr, Hz.
Qed.

Lemma search_of_query r r' : query_of r = query (page (rd_catalog r)) →
  query_of r' = query (page (rd_catalog r')) → search_of r = search_of r'.
Proof using. unfold query_of, query, search_of. intros [=] [=]. congruence. Qed.

(** The effects keep the filters of the search. *)
Lemma catalog_effects_repos fresh before r :
  route_here (rd_route r) → reposFilter (filters (rd_catalog r)) = repos →
  reposFilter (filters (catalog_effects fresh before r)) = repos.
Proof using.
  intros (_ & _ & Hr & _) Hc. unfold catalog_effects, first_page_effect, filters_effect.
  destruct fresh, (deps_changed first_page_deps before r), (deps_changed search_of before r);
    repeat case_match; done.
Qed.

Lemma catalog_effects_page fresh before r :
  page (catalog_effects fresh before r) =
  if deps_changed search_of before r then 1%Z else page (rd_catalog r).
Proof using.
  unfold catalog_effects, first_page_effect, filters_effect.
  destruct fresh, (deps_changed first_page_deps before r), (deps_changed search_of before r);
    repeat case_match; done.
Qed.

Lemma query_search r r' : query_of r' = query_of r → search_of r' = search_of r.
Proof using. unfold query_of, search_of. intros [=]. congruence. Qed.

Lemma search_changed_query before r :
  deps_changed search_of before r = true → deps_changed query_of before r = true.
Proof using.
  destruct before as [r'|]; [|done]. cbn [deps_changed]. rewrite !bool_decide_eq_true.
  intros Hs Hq. by apply Hs, query_search.
Qed.

Lemma charts_effects_size before r :
  IChartState_size (charts_effects before r) = IChartState_size (rd_charts r).
Proof using.
  unfold charts_effects. by destruct (deps_changed query_of before r), (deps_changed search_of before r).
Qed.

Lemma commit_starts g : starts g → paging_inv 1 (commit_page g).
Proof using.
  intros [Hr Hc Hz Hp Hb Ho Hf]. pose proof (search_changed_query _ _ Hb) as Hq.
  pose proof (query_here g Hr Hc Hz) as Hqg. rewrite Hp in Hqg.
  assert (render_in 1 (snapshot g)) as Hin by (unfold render_in; cbn [rd_catalog snapshot]; rewrite Hp; by split).
  constructor; cbn [commit_page pg_route pg_catalog pg_charts pg_rendered pg_observers pg_flight].
  - done.
  - by apply catalog_effects_repos.
  - by rewrite charts_effects_size.
  - rewrite catalog_effects_page, Hb. lia.
  - by exists (snapshot g).
  - rewrite Ho. destruct (shows_border _); [|constructor].
    destruct (pg_rendered g) as [r'|]; [destruct (shows_border r')|]; by apply Forall_singleton.
  - rewrite Hf, Hq, Hqg. by apply Forall_singleton.
  - intros p Hp'. assert (p = 1%Z) as -> by lia. left. rewrite Hf, Hq, Hqg. by left.
  - intros i. unfold charts_effects. rewrite Hb. unfold chart_ids. cbn. by intros ?%elem_of_nil.
  - unfold charts_effects. rewrite Hb. by cbn.
  - rewrite Hf, Hq. done.
  - unfold charts_effects. rewrite Hb. apply NoDup_nil_2.
Qed.

Lemma render_in_mono m m' r : (m <= m')%Z → render_in m r → render_in m' r.
Proof using. unfold render_in. intros ? [? ?]. split; [done|lia]. Qed.

Lemma commit_inv m g : paging_inv m g → ∃ m', (m <= m')%Z ∧ paging_inv m' (commit_page g).
Proof using.
  intros [Hr Hc Hz Hp (r & Hre & Hrin) Ho Hf Ha Hi Hfin Hft Hok].
  pose proof (query_here g Hr Hc Hz) as Hqg. set (p := page (pg_catalog g)) in *.
  assert (deps_changed search_of (pg_rendered g) (snapshot g) = false) as Hs.
  { rewrite Hre. cbn [deps_changed]. apply bool_decide_eq_false. intros Hn. apply Hn.
    destruct Hrin as [Hrq _]. by eapply search_of_query. }
  exists (Z.max m p). split; [lia|].
  assert (render_in (Z.max m p) (snapshot g)) as Hin by (split; [done|cbn [snapshot rd_catalog]; fold p; lia]).
  assert (deps_changed query_of (pg_rendered g) (snapshot g) = false → (p <= m)%Z) as Hsame.
  { rewrite Hre. cbn [deps_changed]. rewrite bool_decide_eq_false. intros Hn.
    destruct Hrin as [Hrq Hrp]. apply dec_stable in Hn. rewrite Hrq, Hqg in Hn. unfold query in Hn.
    injection Hn as Hn. fold p in Hn. lia. }
  constructor; cbn [commit_page pg_route pg_catalog pg_charts pg_rendered pg_observers pg_flight].
  - done.
  - by apply catalog_effects_repos.
  - by rewrite charts_effects_size.
  - rewrite catalog_effects_page, Hs. cbn [snapshot rd_catalog]. fold p. lia.
  - by exists (snapshot g).
  - destruct (shows_border _); [|constructor]. apply Forall_app. split; [|by apply Forall_singleton].
    rewrite Hre. destruct (shows_border r); [|constructor].
    eapply Forall_impl; [exact Ho|]. intros x. apply render_in_mono. lia.
  - apply Forall_app. split.
    + eapply Forall_impl; [exact Hf|]. intros q [? ?]. split; [done|lia].
    + destruct (deps_changed query_of _ _); [|constructor]. apply Forall_singleton. rewrite Hqg.
      cbn [query cq_page]. split; [done|lia].
  - intros p' Hp'. unfold charts_effects. rewrite Hs. rewrite elem_of_app.
    destruct (decide (p' = p)) as [->|Hne].
    + destruct (deps_changed query_of _ _) eqn:Hd.
      * left. right. rewrite Hqg. by left.
      * destruct (Ha p) as [?|?]; [specialize (Hsame eq_refl); lia|by left; left|by right].
    + destruct (Ha p') as [?|Hl]; [lia|by left; left|right]. by destruct (deps_changed query_of _ _).
  - intros i Hi'. destruct (Hi i) as (p' & ? & ?); [|exists p'; split; [lia|done]].
    unfold charts_effects in Hi'. rewrite Hs in Hi'. by destruct (deps_changed query_of _ _).
  - unfold charts_effects. rewrite Hs. intros Hh. assert (total <= m)%Z; [|lia]. apply Hfin.
    by destruct (deps_changed query_of _ _).
  - unfold charts_effects. rewrite Hs. destruct (deps_changed query_of _ _).
    + intros Hnil. by destruct (pg_flight g).
    + rewrite app_nil_r. apply Hft.
  - unfold charts_effects. rewrite Hs. destruct (deps_changed query_of _ _); [|done].
    by apply chartsReducer_ok.
Qed.

(** What an answer of the server does to the slice. *)
Lemma answer_ids charts p i :
  i ∈ chart_ids (charts_dispatch (charts_answer (query p) (Ok (server p))) charts) ↔
  i ∈ chart_ids charts ∨ i ∈ IChart_id <$> answers p.
Proof using.
  unfold charts_dispatch, chart_ids. cbn. by rewrite uniqBy_keys, fmap_app, elem_of_app.
Qed.

Lemma elem_of_delete_ne {A} (l : list A) i x y : l !! i = Some y → x ∈ l → x ≠ y → x ∈ delete i l.
Proof using.
  intros Hi Hx Hne. rewrite (delete_take_drop l i).
  rewrite <-(take_drop_middle l i y Hi) in Hx. apply elem_of_app in Hx as [Hx|Hx]; apply elem_of_app;
    [by left|]. apply elem_of_cons in Hx as [?|?]; [done|by right].
Qed.

Lemma arrive_inv m i r g :
  (∀ q, pg_flight g !! i = Some q → r = Ok (server (cq_page q))) →
  paging_inv m g → paging_inv m (arrive i r g).
Proof using.
  intros Hans Hinv. unfold arrive. destruct (pg_flight g !! i) as [q|] eqn:Hq; [|done].
  rewrite (Hans q eq_refl). destruct Hinv as [Hr Hc Hz Hp Hre Ho Hf Ha Hi Hfin Hft Hok].
  pose proof Hf as Hq'. rewrite Forall_forall in Hq'.
  destruct (Hq' q) as [Hqq Hqp]; [by eapply list_elem_of_lookup_2|].
  rewrite Hqq. set (p := cq_page q) in *. change (cq_page (query p)) with p.
  constructor; try done; cbn [in_store pg_flight pg_charts setf].
  - apply Forall_delete. done.
  - intros p' Hp'. destruct (decide (p' = p)) as [->|Hne].
    + right. intros x Hx. apply answer_ids. right. by apply list_elem_of_fmap_2.
    + destruct (Ha p' Hp') as [Hin|Hl].
      * left. eapply elem_of_delete_ne; [exact Hq|done|]. rewrite Hqq. unfold query. by intros [= ->].
      * right. intros x Hx. apply answer_ids. left. by apply Hl.
  - intros j Hj. apply answer_ids in Hj as [Hj|Hj]; [by apply Hi|]. by exists p.
  - cbn. rewrite bool_decide_spec. lia.
  - by apply chartsReducer_ok.
Qed.

Lemma scroll_inv m i g : paging_inv m g → paging_inv m (scroll i g).
Proof using.
  intros Hinv. unfold scroll. destruct (pg_observers g !! i) as [r|] eqn:Hr; [|done].
  assert (render_in m r) as [_ Hrp].
  { pose proof (inv_observers _ _ Hinv) as Ho. rewrite Forall_forall in Ho.
    apply Ho. by eapply list_elem_of_lookup_2. }
  case_bool_decide as Hne; [done|].
  destruct Hinv; constructor; try done. cbn [pg_catalog setf page].
  unfold on_intersection, setPageWithContext in *. repeat case_match; try done. cbn in *. lia.
Qed.

Lemma same_store_inv m (f : IChartState → IChartState) g :
  (∀ c, IChartState_items (f c) = IChartState_items c ∧ IChartState_size (f c) = IChartState_size c ∧
     IChartState_hasFinishedFetching (f c) = IChartState_hasFinishedFetching c ∧
     (IChartState_isFetching c = false → IChartState_isFetching (f c) = false)) →
  paging_inv m g → paging_inv m (in_store f g).
Proof using.
  intros Hf [Hr Hc Hz Hp Hre Ho Hfl Ha Hi Hfin Hft Hok].
  destruct (Hf (pg_charts g)) as (Hit & Hsz & Hfn & Hfe).
  assert (chart_ids (f (pg_charts g)) = chart_ids (pg_charts g)) as Hids by (unfold chart_ids; by rewrite Hit).
  constructor; try done; cbn [in_store pg_charts setf]; unfold listed, charts_ok in *;
    rewrite ?Hids, ?Hsz, ?Hfn; auto.
Qed.

Lemma retry_inv m g : paging_inv m g → paging_inv m (forceRetry g).
Proof using.
  intros [Hr Hc Hz Hp (r & Hre & Hrq & Hrp) Ho Hf Ha Hi Hfin Hft Hok]. unfold forceRetry. rewrite Hre.
  constructor; try done; cbn [in_store pg_charts pg_flight pg_rendered setf].
  - by exists r.
  - apply Forall_app. split; [done|]. apply Forall_singleton. rewrite Hrq. done.
  - intros p Hp'. rewrite elem_of_app. destruct (Ha p Hp'); [by left; left|by right].
  - intros Hnil. by destruct (pg_flight g).
Qed.

Lemma answered_step_inv m g g' :
  answered_step g g' → paging_inv m g → ∃ m', (m <= m')%Z ∧ paging_inv m' g'.
Proof using.
  intros (e & He & ->) Hinv. destruct e as [|route|i r|i| |e|]; cbn [paging_step].
  - by apply commit_inv.
  - exists m. split; [lia|]. by destruct Hinv.
  - exists m. split; [lia|]. by apply arrive_inv.
  - exists m. split; [lia|]. by apply scroll_inv.
  - exists m. split; [lia|]. by apply retry_inv.
  - exists m. split; [lia|]. by apply same_store_inv.
  - exists m. split; [lia|]. by apply same_store_inv.
Qed.

Lemma answered_inv m g g' :
  rtc answered_step g g' → paging_inv m g → ∃ m', paging_inv m' g'.
Proof using.
  intros Hrun. revert m. induction Hrun as [g|g g1 g2 Hstep _ IH]; intros m Hinv; [by exists m|].
  destruct (answered_step_inv m g g1 Hstep Hinv) as (m1 & _ & Hinv1). by apply (IH m1).
Qed.

(** C21: For one search the catalog is complete when it says it is.  From a page that starts the
    search, whatever the order of renders, answers, scrolls, retries and changes of the store, and
    also when the categories fail: once nothing is on its way and the list is finished, the
    charts listed are exactly those of all the pages the server has, each once.  Every request for a
    page is answered with the server's page: a page whose request failed is not in the list, which is
    finished without it when the last page was answered. *)
Theorem catalog_complete g g' :
  (∀ p, (total < p)%Z → answers p = []) →
  starts g → rtc answered_step (commit_page g) g' →
  pg_flight g' = [] → IChartState_hasFinishedFetching (pg_charts g') = true →
  NoDup (chart_ids (pg_charts g')) ∧
  ∀ i, i ∈ chart_ids (pg_charts g') ↔
    ∃ p, (1 <= p <= total)%Z ∧ i ∈ IChart_id <$> answers p.
Proof using.
  intros Hend Hg Hrun Hnil Hfin.
  destruct (answered_inv 1 _ _ Hrun (commit_starts g Hg)) as (m & [_ _ _ _ _ _ _ Ha Hi Hf _ Hok]).
  split; [done|]. intros i. split.
  - intros (p & Hp & Hip)%Hi. exists p. split; [|done].
    destruct (decide (total < p)%Z) as [Hlt|]; [|lia]. rewrite (Hend p Hlt) in Hip.
    by apply elem_of_nil in Hip.
  - intros (p & Hp & (x & -> & Hx)%list_elem_of_fmap). rewrite Hfin in Hf. specialize (Hf I).
    destruct (Ha p) as [Hq|Hl]; [lia| |by apply Hl]. rewrite Hnil in Hq. by apply elem_of_nil in Hq.
Qed.

(** *** The end is reached *)

Section reaching_the_end.
Context (route : catalog_route).
Hypothesis (Hroute : route_here route).
Hypothesis (Hshows : shows_charts (filters_from_query (cr_filter route)) = true).

(** A render whose observer asks for the page after [n]. *)
Definition asks_after (n : Z) (r : rendered) : Prop :=
  page (rd_catalog r) = n ∧ shows_charts (filters (rd_catalog r)) = true ∧
  hasLoadedFirstPage (rd_catalog r) = true ∧ IChartState_isFetching (rd_charts r) = false ∧
  IChartState_hasFinishedFetching (rd_charts r) = false ∧
  selected_error (IChartState_selected (rd_charts r)) = None.

(** The page has loaded [n] pages and waits for the reader. *)
Record resting (n : Z) (g : paging) : Prop := {
  rest_route : pg_route g = route;
  rest_catalog : filters (pg_catalog g) = filters_from_query (cr_filter route) ∧
    page (pg_catalog g) = n ∧ hasLoadedFirstPage (pg_catalog g) = true;
  rest_charts : IChartState_size (pg_charts g) = size ∧ IChartState_isFetching (pg_charts g) = false ∧
    IChartState_hasFinishedFetching (pg_charts g) = bool_decide (total <= n)%Z ∧
    selected_error (IChartState_selected (pg_charts g)) = None;
  rest_flight : pg_flight g = [];
  rest_rendered : ∃ r, pg_rendered g = Some r ∧ query_of r = query n ∧
    ((n < total)%Z → shows_border r = true ∧ ∃ os, pg_observers g = os ++ [r] ∧ asks_after n r);
}.

Lemma on_intersection_asks n r : asks_after n r →
  page (on_intersection true (IChartState_isFetching (rd_charts r))
          (IChartState_hasFinishedFetching (rd_charts r))
          (selected_error (IChartState_selected (rd_charts r))) (rd_catalog r)) = (n + 1)%Z.
Proof using. intros (Hp & Hs & Hl & Hf & Hd & He). unfold on_intersection. by rewrite Hs, Hl, Hf, Hd, He, <-Hp. Qed.

(** A commit of a page whose query is the one rendered before. *)
Lemma commit_same g r n :
  pg_rendered g = Some r → query_of r = query n →
  query_of (snapshot g) = query n →
  pg_charts (commit_page g) = pg_charts g ∧ pg_flight (commit_page g) = pg_flight g ∧
  page (pg_catalog (commit_page g)) = page (pg_catalog g).
Proof using.
  intros Hre Hq Hq'. rewrite <-Hq' in Hq.
  assert (deps_changed query_of (Some r) (snapshot g) = false) as Hdq.
  { cbn [deps_changed]. apply bool_decide_eq_false. intros Hn. by apply Hn. }
  assert (deps_changed search_of (Some r) (snapshot g) = false) as Hds.
  { cbn [deps_changed]. apply bool_decide_eq_false. intros Hn. apply Hn. by apply query_search. }
  unfold commit_page. cbn [pg_charts pg_flight pg_catalog]. rewrite Hre, catalog_effects_page, Hdq, Hds.
  unfold charts_effects. rewrite Hdq, Hds, app_nil_r. done.
Qed.

Lemma first_page_effect_loaded b c :
  hasLoadedFirstPage c = true → hasLoadedFirstPage (first_page_effect b c) = true.
Proof using. unfold first_page_effect. by destruct (hasRequestedFirstPage c && negb b), b. Qed.

(** The effects of a commit keep the filters of the location, and that the first page is loaded. *)
Lemma catalog_effects_filters_kept fresh before r : rd_route r = route →
  filters (rd_catalog r) = filters_from_query (cr_filter route) →
  filters (catalog_effects fresh before r) = filters_from_query (cr_filter route).
Proof using.
  intros Hr Hf. unfold catalog_effects, filters_effect, first_page_effect. rewrite Hr.
  destruct fresh, (deps_changed first_page_deps before r), (deps_changed search_of before r);
    repeat case_match; done.
Qed.

Lemma catalog_effects_loaded fresh before r :
  hasLoadedFirstPage (rd_catalog r) = true → hasLoadedFirstPage (catalog_effects fresh before r) = true.
Proof using.
  intros Hl. unfold catalog_effects, filters_effect.
  destruct fresh, (deps_changed first_page_deps before r), (deps_changed search_of before r);
    try done; by apply first_page_effect_loaded.
Qed.

(** From one resting page to the next: the reader scrolls, the page asks, the server answers. *)
Definition next_page (n : Z) (g : paging) : list paging_event :=
  [Scroll (pred (length (pg_observers g))); Commit; Arrive 0 (Ok (server (n + 1))); Commit].

Lemma scroll_last n g r os : pg_observers g = os ++ [r] → asks_after n r →
  scroll (pred (length (pg_observers g))) g = g <| pg_catalog := (pg_catalog g) <| page := (n + 1)%Z |> |>.
Proof using.
  intros Ho Ha. unfold scroll. rewrite Ho, length_app, Nat.add_1_r. cbn [pred].
  rewrite lookup_app_r, Nat.sub_diag by done. cbn [lookup list_lookup].
  rewrite (on_intersection_asks _ _ Ha). destruct Ha as [-> _]. rewrite bool_decide_eq_false_2; [done|lia].
Qed.

Lemma kept_query g :
  pg_route g = route → filters (pg_catalog g) = filters_from_query (cr_filter route) →
  IChartState_size (pg_charts g) = size → query_of (snapshot g) = query (page (pg_catalog g)).
Proof using Hroute.
  intros Hr Hf Hz. apply query_here; rewrite ?Hr, ?Hf; try done. apply Hroute.
Qed.

(** A page whose pages are answered comes to rest. *)
Lemma commit_resting n g r :
  pg_route g = route →
  filters (pg_catalog g) = filters_from_query (cr_filter route) →
  page (pg_catalog g) = n → hasLoadedFirstPage (pg_catalog g) = true →
  IChartState_size (pg_charts g) = size → IChartState_isFetching (pg_charts g) = false →
  IChartState_hasFinishedFetching (pg_charts g) = bool_decide (total <= n)%Z →
  selected_error (IChartState_selected (pg_charts g)) = None →
  pg_flight g = [] → pg_rendered g = Some r → query_of r = query n →
  resting n (commit_page g).
Proof using Hroute Hshows.
  intros Hr Hf Hp Hl Hz Hft Hfin He Hfl Hre Hq.
  pose proof (kept_query g Hr Hf Hz) as Hqg. rewrite Hp in Hqg.
  destruct (commit_same g r n Hre Hq Hqg) as (Hc & Hfl' & Hp').
  pose proof (catalog_effects_filters_kept (pg_fresh g) (pg_rendered g) (snapshot g) Hr Hf) as Hf'.
  pose proof (catalog_effects_loaded (pg_fresh g) (pg_rendered g) (snapshot g) Hl) as Hl'.
  constructor.
  - done.
  - by rewrite Hp'.
  - by rewrite Hc.
  - by rewrite Hfl'.
  - exists (snapshot g). split; [done|]. split; [done|]. intros Hlt.
    rewrite bool_decide_eq_false_2 in Hfin by lia.
    assert (shows_border (snapshot g) = true) as Hb.
    { unfold shows_border. cbn [snapshot rd_charts]. by rewrite Hfin, Hft. }
    split; [done|]. unfold commit_page. cbn [pg_observers]. rewrite Hb. eexists. split; [done|].
    unfold asks_after. cbn [snapshot rd_catalog rd_charts]. by rewrite Hf.
Qed.

(** Between two resting pages: the next one is asked for. *)
Lemma resting_asks n g :
  (1 <= n < total)%Z → resting n g →
  let g' := paging_run g [Scroll (pred (length (pg_observers g))); Commit] in
  pg_route g' = route ∧
  (filters (pg_catalog g') = filters_from_query (cr_filter route) ∧
   page (pg_catalog g') = (n + 1)%Z ∧ hasLoadedFirstPage (pg_catalog g') = true) ∧
  pg_charts g' = charts_dispatch (requestCharts (Some (n + 1)%Z)) (pg_charts g) ∧
  pg_flight g' = [query (n + 1)] ∧
  ∃ r, pg_rendered g' = Some r ∧ query_of r = query (n + 1).
Proof using Hroute.
  intros Hn [Hr (Hf & Hp & Hl) (Hz & _) Hfl (r & Hre & Hq & Hob)].
  destruct Hob as (_ & os & Hos & Ha); [lia|]. cbn zeta. cbn [paging_run foldl paging_step].
  rewrite (scroll_last n g r os Hos Ha).
  set (g1 := g <| pg_catalog := (pg_catalog g) <| page := (n + 1)%Z |> |>).
  assert (query_of (snapshot g1) = query (n + 1)) as Hq1 by by apply (kept_query g1).
  assert (deps_changed query_of (pg_rendered g1) (snapshot g1) = true) as Hdq.
  { change (pg_rendered g1) with (pg_rendered g). rewrite Hre. cbn [deps_changed].
    rewrite bool_decide_eq_true, Hq1, Hq. unfold query. intros [=]. lia. }
  assert (deps_changed search_of (pg_rendered g1) (snapshot g1) = false) as Hds.
  { change (pg_rendered g1) with (pg_rendered g). rewrite Hre. cbn [deps_changed].
    apply bool_decide_eq_false. intros Hne. apply Hne.
    apply search_of_query; [by rewrite (proj1 Ha)|done]. }
  pose proof (catalog_effects_filters_kept (pg_fresh g1) (pg_rendered g1) (snapshot g1) Hr Hf) as Hf2.
  pose proof (catalog_effects_loaded (pg_fresh g1) (pg_rendered g1) (snapshot g1) Hl) as Hl2.
  unfold commit_page. cbn [pg_route pg_catalog pg_charts pg_flight pg_rendered].
  rewrite catalog_effects_page, Hds, Hdq, Hq1. unfold charts_effects. rewrite Hdq, Hds.
  change (pg_flight g1) with (pg_flight g). rewrite Hfl. repeat split; try done.
  by exists (snapshot g1).
Qed.

Lemma resting_next n g :
  (1 <= n < total)%Z → resting n g → resting (n + 1) (paging_run g (next_page n g)).
Proof using Hroute Hshows.
  intros Hn Hrest. destruct (resting_asks n g Hn Hrest) as (Hr & (Hf & Hp & Hl) & Hc & Hfl & r & Hre & Hq).
  destruct Hrest as [_ _ (Hz & Hft & Hfin & He) _ _]. unfold next_page, paging_run in *.
  cbn [foldl] in *. cbn [paging_step] in *. set (g2 := commit_page _) in *. clearbody g2.
  rewrite (arrive_next g2 0 (query (n + 1))) by (by rewrite Hfl).
  apply (commit_resting _ _ r); cbn [pg_route pg_catalog pg_charts pg_rendered pg_flight];
    rewrite ?Hfl, ?Hc; try done.
  cbn. apply bool_decide_ext. lia.
Qed.

(** The events of a run are allowed. *)
Fixpoint allowed_run (g : paging) (es : list paging_event) : Prop :=
  match es with
  | [] => True
  | e :: es => allowed g e ∧ allowed_run (paging_step g e) es
  end.

Lemma allowed_run_steps g es : allowed_run g es → rtc answered_step g (paging_run g es).
Proof using.
  revert g. induction es as [|e es IH]; intros g; [constructor|]. cbn [allowed_run]. intros [He Hes].
  eapply rtc_l; [by exists e|]. by apply IH.
Qed.

Lemma next_page_steps n g :
  (1 <= n < total)%Z → resting n g → rtc answered_step g (paging_run g (next_page n g)).
Proof using Hroute.
  intros Hn Hrest. destruct (resting_asks n g Hn Hrest) as (_ & _ & _ & Hfl & _).
  apply allowed_run_steps. repeat split; try done. intros q Hq.
  unfold paging_run in Hfl. cbn [foldl] in Hfl. rewrite Hfl in Hq. by injection Hq as <-.
Qed.

(** The first page: the page is rendered again with the request on its way, the answer comes,
    and it is rendered twice more, the first of which says that the first page is loaded. *)
Definition first_page : list paging_event := [Commit; Arrive 0 (Ok (server 1)); Commit; Commit].

Lemma catalog_effects_first fresh before r :
  deps_changed first_page_deps before r = true →
  first_page_deps (mkRendered (rd_route r) (catalog_effects fresh before r) (rd_charts r)) =
    (hasRequestedFirstPage (rd_catalog r) || IChartState_isFetching (rd_charts r),
     IChartState_isFetching (rd_charts r)) ∧
  hasLoadedFirstPage (catalog_effects fresh before r) =
    hasLoadedFirstPage (rd_catalog r) ||
    hasRequestedFirstPage (rd_catalog r) && negb (IChartState_isFetching (rd_charts r)).
Proof using.
  intros Hd. unfold catalog_effects, filters_effect, first_page_effect. rewrite Hd.
  unfold first_page_deps. cbn [rd_catalog rd_charts].
  destruct fresh, (deps_changed search_of before r), (IChartState_isFetching (rd_charts r)) eqn:?,
    (rd_catalog r) as [fs p [] []]; done.
Qed.

Lemma catalog_effects_filters before r : rd_route r = route →
  filters (catalog_effects true before r) = filters_from_query (cr_filter route).
Proof using.
  intros Hr. unfold catalog_effects, filters_effect, first_page_effect. rewrite Hr.
  destruct (deps_changed first_page_deps before r), (deps_changed search_of before r);
    repeat case_match; done.
Qed.

(** The page is mounted and asks for the first page. *)
Lemma mount_asks charts :
  repos = "" → IChartState_size charts = size →
  let g := commit_page (paging_mount route charts) in
  pg_route g = route ∧ filters (pg_catalog g) = filters_from_query (cr_filter route) ∧
  page (pg_catalog g) = 1%Z ∧ pg_flight g = [query 1] ∧
  pg_charts g = charts_dispatch resetRequestCharts (charts_dispatch (requestCharts (Some 1%Z)) charts) ∧
  ∃ r, pg_rendered g = Some r ∧ query_of r = query 1 ∧
    first_page_deps r = (false, hasRequestedFirstPage (pg_catalog g)).
Proof using Hroute.
  intros Hrepos Hz. cbn zeta.
  assert (query_of (snapshot (paging_mount route charts)) = query 1) as Hq.
  { apply query_here; [done|by rewrite Hrepos|done]. }
  unfold commit_page. cbn [pg_route pg_catalog pg_flight pg_charts pg_rendered paging_mount] in *.
  set (r := snapshot _) in *. split; [done|]. split; [by apply catalog_effects_filters|].
  split; [by rewrite catalog_effects_page|]. split; [by rewrite <-Hq|]. split; [done|].
  exists r. split; [done|]. split; [done|].
  destruct (catalog_effects_first true None r eq_refl) as [Hd _]. apply (f_equal fst) in Hd.
  exact (f_equal (pair false) (eq_sym Hd)).
Qed.

(** The commit after the answer says that the first page is loaded. *)
Lemma commit_loaded g r :
  pg_rendered g = Some r → IChartState_isFetching (rd_charts r) = true →
  IChartState_isFetching (pg_charts g) = false → hasRequestedFirstPage (pg_catalog g) = true →
  hasLoadedFirstPage (pg_catalog (commit_page g)) = true.
Proof using.
  intros Hre Hft Hft' Hreq.
  assert (deps_changed first_page_deps (pg_rendered g) (snapshot g) = true) as Hdf.
  { rewrite Hre. cbn [deps_changed]. rewrite bool_decide_eq_true. unfold first_page_deps.
    cbn [snapshot rd_catalog rd_charts]. rewrite Hft, Hft'. congruence. }
  unfold commit_page. cbn [pg_catalog]. destruct (catalog_effects_first (pg_fresh g) _ _ Hdf) as [_ ->].
  cbn [snapshot rd_catalog rd_charts]. by rewrite Hreq, Hft', orb_true_r.
Qed.

Lemma mount_resting charts :
  repos = "" → IChartState_size charts = size →
  selected_error (IChartState_selected charts) = None →
  resting 1 (paging_run (commit_page (paging_mount route charts)) first_page).
Proof using Hroute Hshows.
  intros Hrepos Hz He.
  destruct (mount_asks charts Hrepos Hz) as (Hr & Hf & Hp & Hfl & Hc & r & Hre & Hq & Hd).
  set (g1 := commit_page _) in *. clearbody g1. unfold paging_run, first_page. cbn [foldl paging_step].
  assert (query_of (snapshot g1) = query 1) as Hq1.
  { rewrite <-Hp. apply kept_query; [done..|]. by rewrite Hc. }
  destruct (commit_same g1 r 1 Hre Hq Hq1) as (Hc2 & Hfl2 & Hp2).
  assert (hasRequestedFirstPage (pg_catalog (commit_page g1)) = true) as Hreq.
  { assert (deps_changed first_page_deps (pg_rendered g1) (snapshot g1) = true) as Hdf.
    { rewrite Hre. cbn [deps_changed]. rewrite Hd, bool_decide_eq_true. unfold first_page_deps.
      cbn [snapshot rd_catalog rd_charts]. rewrite Hc. cbn. by destruct (hasRequestedFirstPage _). }
    destruct (catalog_effects_first (pg_fresh g1) _ _ Hdf) as [Hb _]. apply (f_equal fst) in Hb.
    unfold first_page_deps in Hb. cbn [fst rd_catalog rd_charts snapshot] in Hb.
    rewrite Hc in Hb. cbn in Hb. by rewrite orb_true_r in Hb. }
  assert (filters (pg_catalog (commit_page g1)) = filters_from_query (cr_filter route)) as Hf2
    by by apply catalog_effects_filters_kept.
  assert (pg_route (commit_page g1) = route) as Hr2 by done.
  assert (pg_rendered (commit_page g1) = Some (snapshot g1)) as Hre2 by done.
  assert (IChartState_isFetching (rd_charts (snapshot g1)) = true) as Hft by (cbn [snapshot rd_charts]; by rewrite Hc).
  rewrite Hfl in Hfl2. rewrite Hp in Hp2. rewrite Hc in Hc2.
  set (g2 := commit_page g1) in *. clearbody g2. rewrite (arrive_next g2 0 (query 1)) by (by rewrite Hfl2).
  match goal with |- resting 1 (commit_page (commit_page ?g)) => set (g3 := g) end.
  assert (query_of (snapshot g3) = query 1) as Hq3.
  { rewrite <-Hp2. apply (kept_query g3); [done..|]. cbn. by rewrite Hc2. }
  destruct (commit_same g3 (snapshot g1) 1 Hre2 Hq1 Hq3) as (Hc4 & Hfl4 & Hp4).
  assert (hasLoadedFirstPage (pg_catalog (commit_page g3)) = true) as Hl4
    by by apply (commit_loaded g3 (snapshot g1)).
  apply (commit_resting 1 _ (snapshot g3)); rewrite ?Hc4, ?Hfl4, ?Hp4; try done.
  all: cbn [g3 pg_charts pg_flight]; rewrite ?Hc2, ?Hfl2; try done.
  - by apply catalog_effects_filters_kept.
  - cbn. apply bool_decide_ext. lia.
Qed.

Lemma mount_steps charts :
  repos = "" → IChartState_size charts = size →
  rtc answered_step (commit_page (paging_mount route charts))
    (paging_run (commit_page (paging_mount route charts)) first_page).
Proof using Hroute.
  intros Hrepos Hz. destruct (mount_asks charts Hrepos Hz) as (Hr & Hf & Hp & Hfl & Hc & r & Hre & Hq & _).
  set (g1 := commit_page _) in *. clearbody g1. apply allowed_run_steps. repeat split; try done.
  intros q Hq'. cbn [paging_step] in Hq'.
  assert (query_of (snapshot g1) = query 1) as Hq1.
  { rewrite <-Hp. apply kept_query; [done..|]. by rewrite Hc. }
  destruct (commit_same g1 r 1 Hre Hq Hq1) as (_ & Hfl2 & _).
  rewrite Hfl2, Hfl in Hq'. by injection Hq' as <-.
Qed.

Lemma reaches_page charts (k : nat) :
  repos = "" → IChartState_size charts = size →
  selected_error (IChartState_selected charts) = None → (1 + Z.of_nat k <= Z.max 1 total)%Z →
  ∃ g', rtc answered_step (commit_page (paging_mount route charts)) g' ∧
    resting (1 + Z.of_nat k) g'.
Proof using Hroute Hshows.
  intros Hrepos Hz He. induction k as [|k IH]; intros Hk.
  - eexists. split; [by apply mount_steps|]. by apply mount_resting.
  - destruct IH as (g & Hg & Hrest); [lia|]. exists (paging_run g (next_page (1 + Z.of_nat k) g)). split.
    + eapply rtc_trans; [exact Hg|]. apply next_page_steps; [lia|done].
    + replace (1 + Z.of_nat (S k))%Z with (1 + Z.of_nat k + 1)%Z by lia.
      apply resting_next; [lia|done].
Qed.

(** C29: The end of the catalog can be reached.  A page mounted where no repository is selected,
    charts are shown and the store holds no error of the charts comes, with the server's answers (of
    pages of the size the store asks for) and the reader's scrolling, to a state with nothing on its
    way and the list finished.  (With an error in the store no scrolling asks for another page.) *)
Theorem catalog_reaches_end charts :
  repos = "" → IChartState_size charts = size →
  selected_error (IChartState_selected charts) = None →
  ∃ g', rtc answered_step (commit_page (paging_mount route charts)) g' ∧
    pg_flight g' = [] ∧ IChartState_hasFinishedFetching (pg_charts g') = true ∧
    page (pg_catalog g') = Z.max 1 total.
Proof using Hroute Hshows.
  intros Hrepos Hz He.
  destruct (reaches_page charts (Z.to_nat (Z.max 1 total - 1)) Hrepos Hz He) as (g & Hg & Hrest); [lia|].
  rewrite Z2Nat.id in Hrest by lia. replace (1 + (Z.max 1 total - 1))%Z with (Z.max 1 total) in Hrest by lia.
  destruct Hrest as [_ (_ & Hp & _) (_ & _ & Hfin & _) Hfl _].
  exists g. split; [done|]. split; [done|]. split; [|done]. rewrite Hfin. apply bool_decide_eq_true. lia.
Qed.

End reaching_the_end.
End one_search.

(** ** The next search *)

Section next_search.
Context `{Lodash}.

(** The page shown with another location. *)
Definition moved (route : catalog_route) (g : paging) : rendered :=
  mkRendered route (pg_catalog g) (pg_charts g).

Lemma visit_commit g route :
  deps_changed search_of (pg_rendered g) (moved route g) = true →
  paging_run g [VisitCatalog route; Commit] =
  {| pg_route := route;
     pg_fresh := true;
     pg_catalog := catalog_effects true (pg_rendered g) (moved route g);
     pg_charts := charts_effects (pg_rendered g) (moved route g);
     pg_rendered := Some (moved route g);
     pg_observers := pg_observers (paging_run g [VisitCatalog route; Commit]);
     pg_flight := pg_flight g ++ [query_of (moved route g)] |}.
Proof using.
  intros Hs. cbn [paging_run foldl paging_step]. unfold commit_page.
  change (snapshot _) with (moved route g). cbn [pg_rendered pg_fresh pg_flight pg_route setf].
  by rewrite Hs, (search_changed_query _ _ Hs).
Qed.
Lemma elem_of_delete_after {A} (l k : list A) i x y : l !! i = Some y → x ∈ k → x ∈ delete i (l ++ k).
Proof using.
  intros Hi%lookup_lt_Some Hx. rewrite delete_take_drop, drop_app_le by lia.
  rewrite !elem_of_app. by right; right.
Qed.

(** C36: The answer to a request of the old search is listed in the new one.  When the search
    changes while a request is on its way, the list is emptied and the new search is asked for;
    then the old answer comes: its charts are the list, the list is finished when that page was
    the last one of the old search, and the page no longer waits although the request of the new
    search has no answer. *)
Theorem late_answer_listed g route i q p :
  pg_flight g !! i = Some q →
  deps_changed search_of (pg_rendered g) (moved route g) = true →
  let g' := paging_run g [VisitCatalog route; Commit; Arrive i (Ok p)] in
  IChartState_items (pg_charts g') = uniqBy IChart_id (page_data p) ∧
  IChartState_hasFinishedFetching (pg_charts g') =
    bool_decide (IChartListMeta_totalPages (page_meta p) <= cq_page q)%Z ∧
  IChartState_isFetching (pg_charts g') = false ∧
  query_of (moved route g) ∈ pg_flight g'.
Proof using.
  intros Hq Hs. cbn zeta.
  change (paging_run g _) with (arrive i (Ok p) (paging_run g [VisitCatalog route; Commit])).
  rewrite (visit_commit g route Hs). erewrite arrive_next by (cbn [pg_flight]; by apply lookup_app_l_Some).
  cbn [pg_charts pg_flight]. unfold charts_effects. rewrite Hs. repeat split.
  - cbn. apply bool_decide_ext. lia.
  - eapply elem_of_delete_after; [exact Hq|by left].
Qed.

(** C38: When the search changes while the page counter of the catalog is not 1, the new search is
    asked for at the page of that counter, which is still the one of the old search; then the list is
    emptied and the first page is asked for.  When the first page's answer comes before the other,
    and the other is the last page or beyond it, the list is finished with the charts of those two
    pages only: from the third page on, the pages between them are never asked for. *)
Theorem new_search_skips_pages g route p1 pn :
  pg_flight g = [] → page (pg_catalog g) ≠ 1%Z →
  deps_changed search_of (pg_rendered g) (moved route g) = true →
  (IChartListMeta_totalPages (page_meta pn) <= page (pg_catalog g))%Z →
  let g' := paging_run g [VisitCatalog route; Commit; Commit] in
  cq_page <$> pg_flight g' = [page (pg_catalog g); 1%Z] ∧
  let g'' := paging_run g' [Arrive 1 (Ok p1); Arrive 0 (Ok pn)] in
  pg_flight g'' = [] ∧
  IChartState_hasFinishedFetching (pg_charts g'') = true ∧
  (∀ i, i ∈ chart_ids (pg_charts g'') ↔ i ∈ IChart_id <$> page_data p1 ++ page_data pn).
Proof using.
  intros Hnil Hp Hs Htot. cbn zeta.
  change (paging_run g [VisitCatalog route; Commit; Commit])
    with (commit_page (paging_run g [VisitCatalog route; Commit])).
  pose proof (visit_commit g route Hs) as Hv. rewrite Hnil in Hv.
  set (g1 := paging_run g [VisitCatalog route; Commit]) in *.
  assert (page (pg_catalog g1) = 1%Z) as Hp1 by (rewrite Hv; cbn [pg_catalog]; by rewrite catalog_effects_page, Hs).
  assert (deps_changed query_of (pg_rendered g1) (snapshot g1) = true) as Hd.
  { assert (pg_rendered g1 = Some (moved route g)) as -> by (by rewrite Hv).
    cbn [deps_changed]. rewrite bool_decide_eq_true. intros Hq. apply Hp.
    apply (f_equal cq_page) in Hq. by rewrite <-Hp1. }
  assert (pg_flight (commit_page g1) = [query_of (moved route g); query_of (snapshot g1)]) as Hf.
  { unfold commit_page. cbn [pg_flight]. by rewrite Hd, Hv. }
  assert (IChartState_items (pg_charts (commit_page g1)) = []) as Hi.
  { assert (IChartState_items (pg_charts g1) = []) as H1.
    { rewrite Hv. cbn [pg_charts]. unfold charts_effects. by rewrite Hs. }
    unfold commit_page. cbn [pg_charts]. unfold charts_effects.
    destruct (deps_changed query_of (pg_rendered g1) (snapshot g1)),
      (deps_changed search_of (pg_rendered g1) (snapshot g1)); first [exact H1|reflexivity]. }
  set (g2 := commit_page g1) in *. rewrite Hf. split.
  { change ([page (pg_catalog g); page (pg_catalog g1)] = [page (pg_catalog g); 1%Z]). by rewrite Hp1. }
  clearbody g2. cbn [paging_run foldl paging_step].
  rewrite (arrive_next g2 1 (query_of (snapshot g1))) by (by rewrite Hf).
  rewrite (arrive_next _ 0 (query_of (moved route g))) by (cbn [pg_flight]; by rewrite Hf).
  cbn [pg_charts pg_flight]. rewrite Hf. split; [done|]. split.
  - cbn. apply bool_decide_eq_true. lia.
  - intros i. unfold chart_ids. cbn. rewrite Hi. cbn.
    rewrite uniqBy_keys, fmap_app, elem_of_app, uniqBy_keys, fmap_app, elem_of_app. done.
Qed.

End next_search.
