(* ===== verification/RepoList.v ===== *)
(** * The list of repositories and the choice of one

    The components [AppRepoList], [AppRepoControl], [AppRepoRefreshAllButton] and
    [AppRepoAddDockerCreds] of src/dashboard/src/components/Config/AppRepoList, and
    [SelectRepoForm], which is shown when the repository of a release is not known. *)

From S2P Require Import Prelude.
From S2P Require Import Json.
From S2P Require Import JsonText.
From S2P Require Import Browser.
From S2P Require Import Types.
From S2P Require Import Url.
From S2P Require Import KubeRef.
From S2P Require Import Actions.
From S2P Require Import ReposReducer.
From S2P Require Import Store.
From S2P Require Import Thunk.
From S2P Require Import HelmServices.
From S2P Require Import KubeServices.
From S2P Require Import Schema.
From S2P Require Import ReposActions.
From S2P Require Import Utils.
From S2P Require Import Routes.
From S2P Require Import Catalog.

Definition repo_name (r : IAppRepository) : string := IK8sMetadata_name (IK8sObject_metadata r).
Definition repo_namespace (r : IAppRepository) : string :=
  IK8sMetadata_namespace (IK8sObject_metadata r).

(** ** AppRepoList *)

Record repo_list := mkRepoList {
  allNS : bool;
  canSetAllNS : bool;
  canEditGlobalRepos : bool;
  rl_namespace : string;
}.
#[export] Instance eta_repo_list : Eta repo_list := λ s,
  mkRepoList (allNS s) (canSetAllNS s) (canEditGlobalRepos s) (rl_namespace s).

Definition repo_list_init (allNSQuery : bool) (currentNamespace : string) : repo_list :=
  mkRepoList allNSQuery false false (if allNSQuery then "" else currentNamespace).

(** What [refetchRepos] asks for. *)
Definition refetch_args (namespace kubeappsNamespace : string) (supportedCluster : bool)
    : string * bool :=
  if negb (truthy namespace) then ("", false)
  else if negb supportedCluster || bool_decide (namespace = kubeappsNamespace)
  then (kubeappsNamespace, false)
  else (namespace, true).

Definition submitFilters (allns : bool) : string := if allns then "?allns=yes" else "?allns=no".

(** The location it moves to and the state that is left. *)
Definition toggleListAllNS (s : repo_list) : string * repo_list :=
  (submitFilters (negb (allNS s)), s <| allNS := negb (allNS s) |>).

Definition allNS_effect (currentNamespace : string) (s : repo_list) : repo_list :=
  s <| rl_namespace := if allNS s then "" else currentNamespace |>.

(** What the server answers to the questions of the permissions. *)
Definition answered (set_all edit_global : option bool) (s : repo_list) : repo_list :=
  s <| canSetAllNS := default (canSetAllNS s) set_all |>
    <| canEditGlobalRepos := default (canEditGlobalRepos s) edit_global |>.

(** The loop that sorts the repositories: global ones, and those of namespaces. *)
Definition split_repos (kubeappsNamespace : string) (repos : list IAppRepository)
    : list IAppRepository * list IAppRepository :=
  foldl (λ lists repo,
    if bool_decide (repo_namespace repo = kubeappsNamespace)
    then (lists.1 ++ [repo], lists.2) else (lists.1, lists.2 ++ [repo])) ([], []) repos.

(** The secret of a row. *)
Definition repo_secret (secrets : list ISecret) (repo : IAppRepository) : option ISecret :=
  find (λ secret,
    some (λ ownerRef, bool_decide (IResourceOwner_name ownerRef = repo_name repo))
      (default [] (IResourceMetadata_ownerReferences (ISecret_metadata secret)))) secrets.

Record repo_row := mkRepoRow {
  row_name : string;
  row_link : string;
  row_tooltip : option string;
  row_url : option string;
  accessLevel : string;
  row_namespace : string;
  row_controls : option (option ISecret);
}.

(** The link of [getRepoNameLinkAndTooltip]. *)
Definition repo_link (cluster : string) (repo : IAppRepository) : string :=
  app_catalog cluster (repo_namespace repo) +:+ filtersToQuery [(REPO, [repo_name repo])].

Definition getTableData (cluster : string) (secrets : list ISecret) (disableControls : bool)
    (targetRepos : list IAppRepository) : list repo_row :=
  (λ repo : IAppRepository,
    {| row_name := repo_name repo;
       row_link := repo_link cluster repo;
       row_tooltip :=
         match IK8sObject_spec repo ≫= IAppRepositorySpec_description with
         | Some d => if truthy d then Some d else None
         | None => None
         end;
       row_url := IAppRepositorySpec_url <$> IK8sObject_spec repo;
       accessLevel :=
         match (IK8sObject_spec repo ≫= IAppRepositorySpec_auth)
               ≫= IAppRepositoryAuth_header_secretKeyRef with
         | Some _ => "Private"
         | None => "Public"
         end;
       row_namespace := repo_namespace repo;
       row_controls := if disableControls then None else Some (repo_secret secrets repo) |})
    <$> targetRepos.

Inductive repo_tables :=
| ReposLoading
| RepoTables (global : list repo_row) (namespaced : option (list repo_row)).

Inductive repo_list_view :=
| OtherCluster
| RepoListPage (fetchError deleteError : option string) (tables : option repo_tables).

Definition AppRepoListView (cluster kubeappsCluster kubeappsNamespace : string)
    (state : IAppRepositoryState) (s : repo_list) : repo_list_view :=
  let lists := split_repos kubeappsNamespace (repos_repos state) in
  let table := getTableData cluster (repos_repoSecrets state) in
  let errors := repos_errors_ state in
  if negb (bool_decide (cluster = kubeappsCluster)) then OtherCluster
  else
    RepoListPage
      ((λ e, "An error occurred while fetching repositories: " +:+ message e) <$> errors_fetch errors)
      ((λ e, "An error occurred while deleting the repository: " +:+ message e) <$> errors_delete errors)
      (match errors_fetch errors with
       | Some _ => None
       | None =>
         Some (if fetching_repositories (repos_isFetchingElem state) then ReposLoading
               else RepoTables (table (negb (canEditGlobalRepos s)) lists.1)
                      (if bool_decide (rl_namespace s ≠ kubeappsNamespace)
                       then Some (table false lists.2) else None))
       end).

(** ** SelectRepoForm *)

(** [get(repo, "metadata.name", "")]. *)
Definition select_init (repo : option IAppRepository) : string := default "" (repo_name <$> repo).

Definition select_fetch_args (namespace kubeappsNamespace : string) : string * bool :=
  if bool_decide (namespace ≠ kubeappsNamespace) then (namespace, true) else (kubeappsNamespace, false).

Definition option_value (r : IAppRepository) : string := repo_namespace r +:+ "/" +:+ repo_name r.

Definition findRepo (repos : list IAppRepository) (ns name : string) : option IAppRepository :=
  find (λ r, bool_decide (repo_name r = name) && bool_decide (repo_namespace r = ns)) repos.

Definition getRepoURL (repos : list IAppRepository) (ns name : string) : string :=
  default "" (r ← findRepo repos ns name; IAppRepositorySpec_url <$> IK8sObject_spec r).

(** The options of the list: their value and what they show. *)
Definition repo_options (repos : list IAppRepository) (repoName : string) : list (string * string) :=
  (if truthy repoName then [] else [("", "")]) ++
  ((λ r, (option_value r,
          option_value r +:+ " (" +:+ getRepoURL repos (repo_namespace r) (repo_name r) +:+ ")"))
   <$> repos).

(** [const [ns, name] = value.split("/")]. *)
Definition selected_repo (value : string) : string * string :=
  match split_on "/" value with
  | ns :: name :: _ => (ns, name)
  | ns :: [] => (ns, "undefined")
  | [] => ("", "undefined")
  end.

Inductive select_view :=
| SelectLoading
| SelectPage (fetchError : option string) (noRepos : bool)
    (form : option (option string * string * list (string * string))).

Definition SelectRepoForm (state : IAppRepositoryState) (chartError : option js_error)
    (repoName : string) : select_view :=
  let repos := repos_repos state in
  if repos_isFetching state then SelectLoading
  else
    let fetchError := errors_fetch (repos_errors_ state) in
    SelectPage ((λ e, "An error occurred: " +:+ message e) <$> fetchError)
      (match fetchError with None => bool_decide (repos = []) | Some _ => false end)
      (if bool_decide (repos = []) then None
       else Some ((λ e, "An error occurred: " +:+ message e) <$> chartError, repoName,
                  repo_options repos repoName)).

(** ** The handlers *)

Section handlers.
Context `{Lodash} `{Jwt} `{Location} `{Router} `{Yaml} (boot : browser).

Definition refetchRepos (namespace kubeappsNamespace : string) (supportedCluster : bool) : prog unit :=
  let '(ns, listGlobal) := refetch_args namespace kubeappsNamespace supportedCluster in
  fork (fetchRepos ns listGlobal).

(** [AppRepoControl]: whether the dialog is still open. *)
Definition handleDeleteClick (refetch : prog unit) (repo : IAppRepository) : prog bool :=
  _ ← await (deleteRepo (repo_name repo) (repo_namespace repo));
  _ ← refetch;
  mret false.

(** Whether the button says that it is refreshing, for the next 500 ms. *)
Definition handleResyncClick (repo : IAppRepository) : prog bool :=
  _ ← fork (resyncRepo (repo_name repo) (repo_namespace repo)); mret true.

Definition handleResyncAllClick (repos : list IAppRepository) : prog bool :=
  _ ← resyncAllRepos
        ((λ r, {| IAppRepositoryKey_name := repo_name r; IAppRepositoryKey_namespace := repo_namespace r |})
         <$> repos);
  mret true.

(** [SelectRepoForm]: the value that is kept. *)
Definition handleChartRepoNameChange (kubeappsCluster chartName value : string) : prog string :=
  let '(ns, name) := selected_repo value in
  _ ← fork (checkChart kubeappsCluster ns name chartName); mret value.
End handlers.

(** ** AppRepoAddDockerCreds *)

Record docker_creds := mkDockerCreds {
  dc_secretName : string;
  dc_user : string;
  dc_password : string;
  dc_email : string;
  dc_server : string;
  showSecretSubForm : bool;
  creating : bool;
  currentImagePullSecrets : list string;
}.
#[export] Instance eta_docker_creds : Eta docker_creds := λ c,
  mkDockerCreds (dc_secretName c) (dc_user c) (dc_password c) (dc_email c) (dc_server c)
    (showSecretSubForm c) (creating c) (currentImagePullSecrets c).

(** The names of the secrets are all that is used of them. *)
Definition creds_init (imagePullSecrets : list string) : docker_creds :=
  mkDockerCreds "" "" "" "" "" false false imagePullSecrets.

Definition secrets_effect (imagePullSecrets : list string) (c : docker_creds) : docker_creds :=
  if bool_decide (imagePullSecrets ≠ []) && bool_decide (currentImagePullSecrets c = [])
  then c <| currentImagePullSecrets := imagePullSecrets |> else c.

Definition toggleCredSubForm (c : docker_creds) : docker_creds :=
  c <| showSecretSubForm := negb (showSecretSubForm c) |>.

(** The handlers of the fields. *)
Inductive creds_event :=
| UserChange (v : string)
| SecretNameChange (v : string)
| PasswordChange (v : string)
| EmailChange (v : string)
| ServerChange (v : string).

Definition creds_handle (e : creds_event) (c : docker_creds) : docker_creds :=
  match e with
  | UserChange v => c <| dc_user := v |>
  | SecretNameChange v => c <| dc_secretName := v |>
  | PasswordChange v => c <| dc_password := v |>
  | EmailChange v => c <| dc_email := v |>
  | ServerChange v => c <| dc_server := v |>
  end.

(** What the fields show once the secret exists: they are emptied and closed. *)
Definition creds_created (c : docker_creds) : docker_creds :=
  mkDockerCreds "" "" "" "" "" false false (currentImagePullSecrets c ++ [dc_secretName c]).

Section creds.
Context `{Lodash} `{Jwt} `{Location} `{Router} `{Yaml} (boot : browser).

Definition handleInstallClick (namespace : string) (c : docker_creds) : prog docker_creds :=
  success ← await (createDockerRegistrySecret (dc_secretName c) (dc_user c) (dc_password c)
                     (dc_email c) (dc_server c) namespace);
  mret (if success : bool then creds_created c else c <| creating := false |>).
End creds.

(** ** The tables *)

Lemma split_repos_filter kns repos :
  split_repos kns repos =
  (filter (λ r, repo_namespace r = kns) repos, filter (λ r, repo_namespace r ≠ kns) repos).
Proof.
  unfold split_repos.
  assert (∀ lists, foldl (λ lists repo,
      if bool_decide (repo_namespace repo = kns)
      then (lists.1 ++ [repo], lists.2) else (lists.1, lists.2 ++ [repo])) lists repos =
    (lists.1 ++ filter (λ r, repo_namespace r = kns) repos,
     lists.2 ++ filter (λ r, repo_namespace r ≠ kns) repos)) as H; [|apply H].
  induction repos as [|r l IH]; intros [l1 l2]; cbn [foldl].
  { by rewrite !filter_nil, !app_nil_r. }
  rewrite IH, !filter_cons.
  destruct (bool_decide_reflect (repo_namespace r = kns)) as [Hin|Hin]; cbn [fst snd].
  - rewrite (decide_True _ _ Hin), (decide_False (P := repo_namespace r ≠ kns)) by auto.
    by rewrite <- app_assoc.
  - rewrite (decide_False _ _ Hin), (decide_True (P := repo_namespace r ≠ kns)) by auto.
    by rewrite <- app_assoc.
Qed.

(** The two tables hold every repository once. *)
Lemma split_repos_perm kns repos :
  (split_repos kns repos).1 ++ (split_repos kns repos).2 ≡ₚ repos.
Proof. rewrite split_repos_filter. apply filter_app_complement. Qed.

(** The secret of a row is found by the name of the repository alone: repositories of the same
    name in different namespaces are shown, and edited, with the same secret. *)
Lemma repo_secret_by_name secrets r r' :
  repo_name r = repo_name r' → repo_secret secrets r = repo_secret secrets r'.
Proof. intros Hn. unfold repo_secret. by rewrite Hn. Qed.

Section link.
Context {match_path : string → string → option params_t} `{!PathMatching match_path} `{Qs}.

Lemma repo_filter_query name :
  unambiguous name → valid_utf8 name →
  filters_from_query (qs_parse (filtersToQuery [(REPO, [name])]))
  = obj_set REPO [name] initialFilterState.
Proof using.
  intros Hn Hv. unfold filters_from_query.
  rewrite active_roundtrip; [done|by apply NoDup_singleton|by apply Forall_singleton, (bool_decide_unpack _)|].
  by repeat (apply Forall_cons; split).
Qed.

(** The link of a repository opens the catalog in the namespace of the repository with
    that repository as its filter: the charts shown are those of the repositories of that
    name, and no operators are. *)
Theorem repo_link_opens_catalog cluster repo charts search csvs :
  seg_ok cluster → seg_ok (repo_namespace repo) →
  unambiguous (repo_name repo) → valid_utf8 (repo_name repo) →
  let query := filtersToQuery [(REPO, [repo_name repo])] in
  let fs := filters_from_query (qs_parse query) in
  repo_link cluster repo = app_catalog cluster (repo_namespace repo) +:+ query ∧
  find_route match_path privateRoutes (app_catalog cluster (repo_namespace repo)) =
    Some (CatalogContainer, [("cluster", cluster); ("namespace", repo_namespace repo)]) ∧
  filteredCharts fs charts =
    filter (λ c, IRepo_name (IChartAttributes_repo (IChart_attributes c)) = repo_name repo) charts ∧
  filteredCSVs fs search csvs = [].
Proof using PathMatching0.
  intros Hc Hns Hn Hv query fs. split; [done|]. split.
  - change (app_catalog cluster (repo_namespace repo))
      with (link_url cluster (repo_namespace repo) CatalogLink).
    assert (link_ok CatalogLink) by (split; [constructor|by split]).
    rewrite link_url_segments, find_route_segments by (by apply link_segments_plain).
    by apply find_link_segments.
  - unfold fs, query. rewrite repo_filter_query by done. clear fs query.
    set (fs := obj_set REPO [repo_name repo] initialFilterState).
    assert (filter_of fs TYPE = [] ∧ filter_of fs OPERATOR_PROVIDER = [] ∧
      filter_of fs CATEGORY = [] ∧ filter_of fs REPO = [repo_name repo]) as (Ht & Hp & Hcat & Hr)
      by (by split_and!).
    clearbody fs. split.
    + unfold filteredCharts. apply list_filter_iff. intros c. unfold keeps_chart, empty_or_includes.
      rewrite Ht, Hp, Hcat, Hr. rewrite !bool_decide_true, (bool_decide_false (_ = [])) by done.
      cbn [andb orb]. by rewrite andb_true_r, bool_decide_spec, list_elem_of_singleton.
    + unfold filteredCSVs. induction csvs as [|c csvs IH]; [done|]. rewrite filter_cons, IH.
      rewrite decide_False; [done|]. unfold keeps_csv. rewrite Hr.
      rewrite (bool_decide_false ([repo_name repo] = [])) by done. rewrite andb_false_r. naive_solver.
Qed.
End link.

(** ** Choosing a repository *)

Lemma split_value u v : lacks "/" u → lacks "/" v → split_on "/" (u +:+ "/" +:+ v) = [u; v].
Proof.
  intros Hu Hv. change (u +:+ "/" +:+ v) with (u +:+ String "/" v).
  by rewrite split_on_app_sep, split_on_lacks.
Qed.

Lemma findRepo_finds repos r :
  r ∈ repos → ∃ r', findRepo repos (repo_namespace r) (repo_name r) = Some r' ∧
    repo_name r' = repo_name r ∧ repo_namespace r' = repo_namespace r.
Proof.
  induction repos as [|x l IH]; [by intros ?%elem_of_nil|]. intros Hin. unfold findRepo. simpl.
  destruct (bool_decide_reflect (repo_name x = repo_name r)) as [Hn|Hn];
    [destruct (bool_decide_reflect (repo_namespace x = repo_namespace r)) as [Hns|Hns]|]; cbn [andb].
  - by exists x.
  - apply elem_of_cons in Hin as [->|Hin]; [done|]. by apply IH.
  - apply elem_of_cons in Hin as [->|Hin]; [done|]. by apply IH.
Qed.

(** The name the list starts with is not one of its options: the browser shows another one as
    selected, and choosing that one changes nothing. *)
Lemma initial_value_not_an_option repos repo label :
  truthy (repo_name repo) → lacks "/" (repo_name repo) →
  (select_init (Some repo), label) ∉ repo_options repos (select_init (Some repo)).
Proof.
  change (select_init (Some repo)) with (repo_name repo). intros Ht%Is_true_true_1 Hl.
  unfold repo_options. rewrite Ht. cbn [app]. intros (r & [= Heq _] & _)%list_elem_of_fmap.
  rewrite Heq in Hl. unfold option_value, lacks in Hl.
  change (repo_namespace r +:+ "/" +:+ repo_name r)
    with (repo_namespace r +:+ String "/" (repo_name r)) in Hl.
  rewrite str_all_app in Hl. cbn [str_all] in Hl.
  by rewrite bool_decide_true, andb_false_r in Hl.
Qed.

Section handler_facts.
Context `{Lodash} `{Jwt} `{Location} `{Router} `{Yaml} (boot : browser).

(** Choosing an option asks whether the repository of the option, in its namespace, has
    the chart: the request for the repository goes out at once, while the option stays
    selected, and the URL the list shows for it is that of a repository of that name there. *)
Theorem option_checks_its_repo E kc chart repos r m :
  r ∈ repos → lacks "/" (repo_namespace r) → lacks "/" (repo_name r) →
  (option_value r, option_value r +:+ " (" +:+ getRepoURL repos (repo_namespace r) (repo_name r) +:+ ")")
    ∈ repo_options repos (option_value r) ∧
  (∃ r', findRepo repos (repo_namespace r) (repo_name r) = Some r' ∧
     repo_name r' = repo_name r ∧ repo_namespace r' = repo_namespace r) ∧
  ∃ fs,
    performs boot E (handleChartRepoNameChange kc chart (option_value r)) m (Ok (option_value r))
      [EvDispatch requestRepo;
       EvRequest axiosWithAuth (get_request (AppRepository_getSelfLink kc (repo_namespace r) (Some (repo_name r))))]
      fs ∧ length fs = 1.
Proof using.
  intros Hin Hns Hn. split_and!.
  - unfold repo_options. apply elem_of_app. right. apply list_elem_of_fmap. by exists r.
  - by apply findRepo_finds.
  - unfold handleChartRepoNameChange, selected_repo, option_value.
    rewrite split_value by done. cbv iota beta.
    unfold performs. rewrite run_bind.
    assert (∃ q, run_sync boot (checkChart kc (repo_namespace r) (repo_name r) chart) m =
      (q, m_log (EvRequest axiosWithAuth (get_request
            (AppRepository_getSelfLink kc (repo_namespace r) (Some (repo_name r)))))
          (dispatched boot requestRepo m)) ∧ waiting q) as (q & Hq & Hw).
    { eexists. unfold checkChart, AppRepository_get. rewrite run_sync_bind, run_sync_dispatch by done. split; [reflexivity|done]. }
    rewrite (run_fork_waiting boot E _ _ _ _ Hq Hw). run_steps. read_machine.
    eexists. by split_and!.
Qed.

(** Deleting a repository always ends with asking for the list again, also when it failed. *)
Lemma delete_refetches E refetch r m :
  ∃ b m1, run boot E (await (deleteRepo (repo_name r) (repo_namespace r))) m = (Ok b, m1) ∧
    run boot E (handleDeleteClick refetch r) m = run boot E (_ ← refetch; mret false) m1.
Proof using.
  unfold handleDeleteClick. rewrite run_bind.
  assert (∃ b, (run boot E (await (deleteRepo (repo_name r) (repo_namespace r))) m).1 = Ok b) as [b Hb].
  { unfold deleteRepo, succeeds_or_errorRepos, AppRepository_delete. run_steps.
    destruct (env_reply E _ _ _ _); run_steps; by eexists. }
  destruct (run boot E (await _) m) as [o m1] eqn:Hrun. cbn [fst] in Hb. subst o.
  by exists b, m1.
Qed.

(** The credentials that were created can be selected and the form for them is empty and
    closed; when they could not be created the form is as it was filled in. *)
Lemma handleInstallClick_keeps_or_adds E ns c m :
  let r := run boot E (await (createDockerRegistrySecret (dc_secretName c) (dc_user c)
             (dc_password c) (dc_email c) (dc_server c) ns)) m in
  ∃ success, r.1 = Ok success ∧
    run boot E (handleInstallClick ns c) m =
      (Ok (if success : bool then creds_created c else c <| creating := false |>), r.2).
Proof using.
  unfold handleInstallClick. rewrite run_bind.
  assert (∃ b, (run boot E (await (createDockerRegistrySecret (dc_secretName c) (dc_user c)
             (dc_password c) (dc_email c) (dc_server c) ns)) m).1 = Ok b) as [b Hb].
  { unfold createDockerRegistrySecret, succeeds_or_errorRepos, Secret_createPullSecret. run_steps.
    destruct (btoa _); run_steps; [|by eexists].
    destruct (env_reply E _ _ _ _); run_steps; by eexists. }
  destruct (run boot E (await _) m) as [o m1]. cbn [fst snd] in *. subst o. exists b. by split.
Qed.
End handler_facts.
