(* ===== verification/SearchFilter.v ===== *)
(** * The search box (src/dashboard/src/components/SearchFilter/SearchFilter.tsx)

    The box keeps the text it shows and a timer of 300 ms, which calls the handler of its
    page with the text typed last.  The handler is the one of the render the text was typed
    in: what that render read of its page ([P]) is kept with the text. *)

From S2P Require Import Prelude.
From S2P Require Import Json.
From S2P Require Import JsonText.
From S2P Require Import Url.
From S2P Require Import Utils.
From S2P Require Import Catalog.

Section search_filter.
Context {P : Type}.

Record search_box := mkSearchBox { box_value : string; box_timer : option (P * string) }.

(** The text of the page is read once, when the box is mounted. *)
Definition box_init (value : string) : search_box := mkSearchBox value None.

Definition handleChange (props : P) (text : string) (b : search_box) : search_box :=
  mkSearchBox text (Some (props, text)).

(** The timer fires: the call of the handler, if there is one, and the box without it. *)
Definition box_fire (b : search_box) : option (P * string) * search_box :=
  (box_timer b, mkSearchBox (box_value b) None).

(** Enter: the filters of the page are submitted as they are at that moment; the timer goes
    on. *)
Definition handleSubmit {R} (submitFilters : P → R) (props : P) (b : search_box) : R * search_box :=
  (submitFilters props, b).

(** Of what is typed within the delay the handler sees the last text, once. *)
Lemma typed_last (typed : list (P * string)) props text b :
  box_fire (handleChange props text (foldl (λ b e, handleChange e.1 e.2 b) b typed)) =
  (Some (props, text), mkSearchBox text None).
Proof. done. Qed.
End search_filter.
Arguments search_box P : clear implicits.

(** ** The search of the catalog

    The page of the catalog as its search box and its checkboxes change it: the filters of
    the state, the address they were pushed to and the box. *)
Record catalog_search := mkCatalogSearch {
  cs_filters : filters_t;
  cs_address : string;
  cs_box : search_box filters_t;
}.

Section catalog_search.
Context (cluster namespace : string).

Definition cs_push (fs : filters_t) (c : catalog_search) : catalog_search :=
  mkCatalogSearch fs (pushFilters cluster namespace fs) (cs_box c).

Definition cs_type (text : string) (c : catalog_search) : catalog_search :=
  mkCatalogSearch (cs_filters c) (cs_address c) (handleChange (cs_filters c) text (cs_box c)).

(** A checkbox pushes the new filters; the effect on the query of the address reads them back
    ([filters_roundtrip]). *)
Definition cs_toggle (name value : string) (c : catalog_search) : catalog_search :=
  cs_push (toggleFilter name value (cs_filters c)) c.

Definition cs_fire (c : catalog_search) : catalog_search :=
  let '(call, b) := box_fire (cs_box c) in
  let c := mkCatalogSearch (cs_filters c) (cs_address c) b in
  match call with
  | Some (fs, text) => cs_push (setSearchFilter text fs) c
  | None => c
  end.

(** Without a checkbox in between, a search keeps the other filters, in the page and in the
    address. *)
Lemma search_keeps_filters text c name :
  name ≠ SEARCH →
  filter_of (cs_filters (cs_fire (cs_type text c))) name = filter_of (cs_filters c) name ∧
  cs_address (cs_fire (cs_type text c)) =
    pushFilters cluster namespace (setSearchFilter text (cs_filters c)).
Proof.
  intros Hn. split; [|done]. cbn. unfold setSearchFilter, filter_of.
  by rewrite assoc_obj_set, bool_decide_false by done.
Qed.

(** A box ticked between the last key and the end of the delay is lost: the search is
    written over the filters of before. *)
Lemma search_drops_tick text name value c :
  name ≠ SEARCH → value ∉ filter_of (cs_filters c) name →
  let ticked := cs_toggle name value (cs_type text c) in
  value ∈ filter_of (cs_filters ticked) name ∧
  value ∉ filter_of (cs_filters (cs_fire ticked)) name ∧
  cs_address (cs_fire ticked) = cs_address (cs_fire (cs_type text c)).
Proof.
  intros Hn Hv ticked. split_and!; [..|done].
  - change (cs_filters ticked) with (toggleFilter name value (cs_filters c)).
    unfold toggleFilter. rewrite bool_decide_false by done. unfold addFilter.
    rewrite assoc_toggle. apply elem_of_app. right. by left.
  - cbn. unfold setSearchFilter, filter_of.
    by rewrite assoc_obj_set, bool_decide_false by done.
Qed.
End catalog_search.
