(* ===== verification/AppList.v ===== *)
(** * The list of applications

    The components of src/dashboard/src/components/AppList.  [AppList] keeps the text
    of the search, whether all the namespaces are listed and the namespace it asks for;
    its effects bring them in line with the address and with the current namespace.
    [AppListGrid] shows a card per release and per instance of an operator.

    A page ([list_page]) is rendered by [commit], which runs the effects whose dependencies
    changed since the previous render, in their order, on the values of the render; what they
    set is seen by the next one. *)

From S2P Require Import Prelude.
From S2P Require Import Json.
From S2P Require Import JsonText.
From S2P Require Import Browser.
From S2P Require Import Types.
From S2P Require Import Url.
From S2P Require Import KubeRef.
From S2P Require Import OperatorsReducer.
From S2P Require Import Store.
From S2P Require Import Thunk.
From S2P Require Import KubeServices.
From S2P Require Import AppsActions.
From S2P Require Import OperatorsActions.
From S2P Require Import Utils.
From S2P Require Import Routes.
From S2P Require Import Catalog.
From S2P Require Import SearchFilter.

(** ** The state and its effects *)

(** What the page reads of the store and of the query of the address. *)
Record list_props := mkListProps {
  lp_cluster : string;
  lp_currentNamespace : string;
  lp_searchQuery : string;
  lp_allNSQuery : json;
}.

Record app_list := mkAppListState {
  al_searchFilter : string;
  al_allNS : bool;
  al_canSetAllNS : bool;
  al_namespace : string;
}.
#[export] Instance eta_app_list : Eta app_list := λ s,
  mkAppListState (al_searchFilter s) (al_allNS s) (al_canSetAllNS s) (al_namespace s).
#[export] Instance app_list_eq_dec : EqDecision app_list.
Proof. solve_decision. Defined.

Definition app_list_init (p : list_props) : app_list :=
  mkAppListState "" false false (lp_currentNamespace p).

Inductive list_request :=
| FetchApps (cluster namespace : string)
| AskSecrets (cluster : string).

Record list_page := mkListPage {
  lg_props : list_props;
  lg_state : app_list;
  lg_committed : option (list_props * app_list);
  lg_requests : list list_request;
}.

Definition mount (p : list_props) : list_page := mkListPage p (app_list_init p) None [].

(** [allNSQuery === "yes"]. *)
Definition asks_all (p : list_props) : bool := bool_decide (lp_allNSQuery p = JStr "yes").

(** A value qs makes anew at every render. *)
Definition fresh_reference (j : json) : bool :=
  match j with JArr _ | JObj _ => true | _ => false end.

Section effects.
Context (committed : option (list_props * app_list)) (p : list_props) (s : app_list).

(** Whether a dependency changed since the previous render. *)
Definition changed {A} `{EqDecision A} (f : list_props → app_list → A) : bool :=
  match committed with
  | None => true
  | Some (p', s') => bool_decide (f p' s' ≠ f p s)
  end.

Definition wanted_namespace : string := if al_allNS s then "" else lp_currentNamespace p.

Definition current_namespace_effect (next : app_list) : app_list :=
  if changed (λ p _, lp_currentNamespace p)
  then next <| al_namespace := lp_currentNamespace p |> else next.

Definition all_namespaces_effect (next : app_list) : app_list :=
  if changed (λ p s, (al_allNS s, lp_currentNamespace p))
  then next <| al_namespace := wanted_namespace |> else next.

Definition fetch_effect : list list_request :=
  if changed (λ p s, (lp_cluster p, al_namespace s))
  then [FetchApps (lp_cluster p) (al_namespace s)] else [].

Definition can_list_effect : list list_request :=
  if changed (λ p _, lp_cluster p) then [AskSecrets (lp_cluster p)] else [].

Definition search_query_effect (next : app_list) : app_list :=
  if changed (λ p _, lp_searchQuery p)
  then next <| al_searchFilter := lp_searchQuery p |> else next.

Definition all_query_effect (next : app_list) : app_list :=
  if changed (λ p _, lp_allNSQuery p) || fresh_reference (lp_allNSQuery p)
  then next <| al_allNS := asks_all p |> else next.

Definition run_effects : app_list * list list_request :=
  (all_query_effect (search_query_effect (all_namespaces_effect (current_namespace_effect s))),
   fetch_effect ++ can_list_effect).
End effects.

Definition commit (g : list_page) : list_page :=
  let '(next, requests) := run_effects (lg_committed g) (lg_props g) (lg_state g) in
  mkListPage (lg_props g) next (Some (lg_props g, lg_state g)) (lg_requests g ++ requests).

(** ** The events of the page *)

(** The text is written as it is: it is not encoded. *)
Definition app_submitFilters (searchFilter : string) (allns : bool) : string :=
  "?" +:+ join "&" ((if allns then "allns=yes" else "allns=no") ::
                    (if truthy searchFilter then ["q=" +:+ searchFilter] else [])).

Section events.
Context `{Qs}.

Definition app_searchQuery (search : string) : string :=
  item_text (default JUndefined (assoc "q" (qs_parse search))).

(** [parse(...).allns || ""]. *)
Definition app_allNSQuery (search : string) : json :=
  let v := default JUndefined (assoc "allns" (qs_parse search)) in
  if jtruthy v then v else JStr "".

Definition at_query (search : string) (p : list_props) : list_props :=
  mkListProps (lp_cluster p) (lp_currentNamespace p) (app_searchQuery search) (app_allNSQuery search).

Definition go (search : string) (s : app_list) (g : list_page) : list_page :=
  mkListPage (at_query search (lg_props g)) s (lg_committed g) (lg_requests g).

Definition app_toggleListAllNS (g : list_page) : list_page :=
  let s := lg_state g in
  go (app_submitFilters (al_searchFilter s) (negb (al_allNS s))) (s <| al_allNS := negb (al_allNS s) |>) g.

Definition submitSearchFilter (g : list_page) : list_page :=
  let s := lg_state g in go (app_submitFilters (al_searchFilter s) (al_allNS s)) s g.

Inductive list_event :=
| Render
| Visit (p : list_props)
| ToggleAll
| SubmitSearch
| SearchTyped (text : string)
| MayListAll (allowed : bool).

Definition set_state (s : app_list) (g : list_page) : list_page :=
  mkListPage (lg_props g) s (lg_committed g) (lg_requests g).

Definition list_step (g : list_page) (e : list_event) : list_page :=
  match e with
  | Render => commit g
  | Visit p => mkListPage p (lg_state g) (lg_committed g) (lg_requests g)
  | ToggleAll => app_toggleListAllNS g
  | SubmitSearch => submitSearchFilter g
  | SearchTyped text => set_state ((lg_state g) <| al_searchFilter := text |>) g
  | MayListAll allowed => set_state ((lg_state g) <| al_canSetAllNS := allowed |>) g
  end.

Definition list_run (g : list_page) (es : list list_event) : list_page := foldl list_step g es.
End events.

(** What the requests of the namespace start, and the question of the permissions. *)
Section requests.
Context `{Lodash} `{Jwt} `{Location} `{Router} `{Yaml} `{Semver} (boot : browser).

Definition perform_request (r : list_request) : prog unit :=
  match r with
  | FetchApps cluster namespace =>
    _ ← fork (fetchAppsWithUpdateInfo cluster namespace);
    fork (getResources cluster namespace)
  | AskSecrets cluster => fork (Kube_canI cluster "" "secrets" "list" "")
  end.
End requests.

(** ** The cards *)

Record list_card := mkListCard {
  lc_key : string;
  lc_title : string;
  lc_link : string;
  lc_icon : string;
  lc_description : string;
  lc_info : list string;
  lc_status : option (string * string);
  lc_tooltip : option string;
}.

Definition opt_truthy (o : option string) : option string :=
  match o with Some s => if truthy s then Some s else None | None => None end.

(** [appVersion.replace(/^v/, "")]. *)
Definition drop_v (s : string) : string :=
  match s with String "v" s' => s' | _ => s end.

Definition update_tooltip (u : IChartUpdateInfo) (md : hapi_chart_IMetadata) : option string :=
  match IChartUpdateInfo_error u with
  | Some _ => None
  | None =>
    if IChartUpdateInfo_upToDate u then None
    else if bool_decide (Some (IChartUpdateInfo_appLatestVersion u) ≠ IMetadata_appVersion md)
    then Some ("New App Version: " +:+ IChartUpdateInfo_appLatestVersion u)
    else Some ("New Chart Version: " +:+ IChartUpdateInfo_chartLatestVersion u)
  end.

Definition AppListItem (placeholder cluster : string) (app : IAppOverview) : list_card :=
  let md := IAppOverview_chartMetadata app in
  let appStatus := toLowerCase (IAppOverview_status app) in
  {| lc_key := IAppOverview_namespace app +:+ "/" +:+ IAppOverview_releaseName app;
     lc_title := IAppOverview_releaseName app;
     lc_link := app_apps_get cluster (IAppOverview_namespace app) (IAppOverview_releaseName app);
     lc_icon := or_opt_str (IAppOverview_icon app) placeholder;
     lc_description := default "" (IMetadata_description md);
     lc_info :=
       ["App: " +:+ default "" (IMetadata_name md) +:+ " " +:+
          match opt_truthy (IMetadata_appVersion md) with Some v => "v" +:+ drop_v v | None => "" end;
        "Chart: " +:+ default "" (IMetadata_version md)];
     lc_status :=
       Some (appStatus, if bool_decide (appStatus = "deployed") then "label-success" else "label-warning");
     lc_tooltip := IAppOverview_updateInfo app ≫= λ u, update_tooltip u md |}.

Inductive list_item := Card (c : list_card) | ItemError (text : string).

Definition resource_name_of (r : IResource) : string := IResourceMetadata_name (IResource_metadata r).
Definition resource_namespace_of (r : IResource) : string :=
  IResourceMetadata_namespace (IResource_metadata r).

(** [csv!]: a service version that was not found is read as if it were one. *)
Definition CustomResourceListItem (placeholder cluster : string) (resource : IResource)
    (csv : option IClusterServiceVersion) : outcome list_item :=
  csv ← require "spec" csv;
  Ok match findOwnedKind csv (IResource_kind resource) with
     | None =>
       ItemError ("Unable to retrieve the CustomResourceDefinition for " +:+ IResource_kind resource +:+
                  " in " +:+ csv_name csv)
     | Some crd =>
       Card
         {| lc_key := resource_name_of resource;
            lc_title := resource_name_of resource;
            lc_link := app_operatorInstances_view cluster (resource_namespace_of resource)
                         (csv_name csv) (IClusterServiceVersionCRD_name crd)
                         (resource_name_of resource);
            lc_icon := getIcon placeholder csv;
            lc_description := IClusterServiceVersionCRD_description crd;
            lc_info :=
              ["App: " +:+ IResource_kind resource;
               "Operator: " +:+ or_str (IClusterServiceVersionSpec_version (IResource_spec csv)) "-"];
            lc_status := None;
            lc_tooltip := None |}
     end.

(** [csvs.find(c => c.spec.customresourcedefinitions.owned?.some(...))]: it throws at a service
    version without definitions that comes before the one looked for. *)
Fixpoint csv_of_kind (kind : string) (csvs : list IClusterServiceVersion)
    : outcome (option IClusterServiceVersion) :=
  match csvs with
  | [] => Ok None
  | c :: rest =>
    owned ← require "owned" (IClusterServiceVersionSpec_customresourcedefinitions (IResource_spec c));
    if some (λ crd, bool_decide (IClusterServiceVersionCRD_kind crd = kind)) (default [] owned)
    then Ok (Some c) else csv_of_kind kind rest
  end.

Inductive grid_view := EmptyList (catalog documentation : string) | Grid (items : list list_item).

Definition filteredReleases (search : string) (appList : option (list IAppOverview))
    : list IAppOverview :=
  filter (λ a, Is_true (search_test search (IAppOverview_releaseName a))) (default [] appList).

Definition filteredCRs (search : string) (customResources : list IResource) : list IResource :=
  filter (λ cr, Is_true (search_test search (resource_name_of cr))) customResources.

Definition resource_items (placeholder cluster : string) (csvs : list IClusterServiceVersion)
    (crs : list IResource) : outcome (list list_item) :=
  collect (λ r,
    csv ← csv_of_kind (IResource_kind r) csvs;
    item ← CustomResourceListItem placeholder cluster r csv;
    Ok [item]) crs.

Definition AppListGrid (placeholder cluster namespace appVersion search : string)
    (appList : option (list IAppOverview)) (customResources : list IResource)
    (csvs : list IClusterServiceVersion) : outcome grid_view :=
  let releases := filteredReleases search appList in
  let crs := filteredCRs search customResources in
  if bool_decide (releases = []) && bool_decide (crs = []) then
    Ok (EmptyList (app_catalog cluster namespace)
          ("https://github.com/kubeapps/kubeapps/blob/" +:+ appVersion +:+
           "/docs/user/getting-started.md"))
  else
    items ← resource_items placeholder cluster csvs crs;
    Ok (Grid ((Card ∘ AppListItem placeholder cluster <$> releases) ++ items)).

(** ** The page *)

Inductive list_content := ListLoading | ListError (text : string) | ListGrid (g : grid_view).

Record list_view := mkListView {
  lv_toggle : option bool;
  lv_deploy : string;
  lv_content : list_content;
}.

Definition AppListView (placeholder appVersion : string) (apps : IAppState) (operators : IOperatorsState)
    (p : list_props) (s : app_list) : outcome list_view :=
  content ←
    (if IAppState_isFetching apps || operators_isFetching operators then Ok ListLoading
     else match IAppState_error apps with
          | Some e => Ok (ListError ("Unable to list apps: " +:+ message e))
          | None =>
            g ← AppListGrid placeholder (lp_cluster p) (al_namespace s) appVersion
                  (al_searchFilter s) (IAppState_listOverview apps) (operators_resources operators)
                  (operators_csvs operators);
            Ok (ListGrid g)
          end);
  Ok {| lv_toggle := if al_canSetAllNS s then Some (asks_all p || al_allNS s) else None;
        lv_deploy := app_catalog (lp_cluster p) (al_namespace s);
        lv_content := content |}.

(** ** The requests follow the state *)

(** The cluster and the namespace asked for last. *)
Definition fetched (requests : list list_request) : option (string * string) :=
  last (omap (λ r, match r with FetchApps c n => Some (c, n) | AskSecrets _ => None end) requests).

Lemma fetched_app rs rs' :
  fetched (rs ++ rs') = match fetched rs' with Some x => Some x | None => fetched rs end.
Proof. unfold fetched. by rewrite omap_app, last_app. Qed.

(** What was asked for last is the namespace of the last render, and the namespace of the
    state is the one that render wanted. *)
Definition list_ok (g : list_page) : Prop :=
  match lg_committed g with
  | None => lg_requests g = []
  | Some (p, s) =>
    fetched (lg_requests g) = Some (lp_cluster p, al_namespace s) ∧
    al_namespace (lg_state g) = wanted_namespace p s
  end.

(** Of the effects only the first two write the namespace. *)
Lemma run_effects_namespace c p s :
  al_namespace (run_effects c p s).1 =
  if changed c p s (λ p s, (al_allNS s, lp_currentNamespace p)) then wanted_namespace p s
  else if changed c p s (λ p _, lp_currentNamespace p) then lp_currentNamespace p
  else al_namespace s.
Proof.
  unfold run_effects, all_query_effect, search_query_effect, all_namespaces_effect,
    current_namespace_effect. cbn [fst]. by repeat case_match.
Qed.

Lemma changed_refl {A} `{EqDecision A} p s (f : list_props → app_list → A) :
  changed (Some (p, s)) p s f = false.
Proof. unfold changed. by rewrite bool_decide_false by (by intros []). Qed.

Lemma commit_requests g :
  lg_requests (commit g) =
  lg_requests g ++ (run_effects (lg_committed g) (lg_props g) (lg_state g)).2.
Proof. unfold commit. by destruct (run_effects _ _ _). Qed.

Lemma fetched_can_list c p s : fetched (can_list_effect c p s) = None.
Proof. unfold can_list_effect. by case_match. Qed.

Lemma commit_ok g : list_ok g → list_ok (commit g).
Proof.
  destruct g as [p s c rs]. unfold list_ok. rewrite commit_requests. unfold commit.
  pose proof (run_effects_namespace c p s) as Hns. cbn [lg_committed lg_props lg_state lg_requests].
  destruct (run_effects c p s) as [next req] eqn:Hr. cbn [fst snd lg_committed lg_state] in *.
  assert (req = fetch_effect c p s ++ can_list_effect c p s) as ->
    by (by unfold run_effects in Hr; simplify_eq).
  rewrite Hns, !fetched_app, fetched_can_list. clear Hr Hns. unfold fetch_effect.
  destruct c as [[p' s']|]; [|by intros ->].
  intros [Hf Hs]. unfold changed.
  destruct (bool_decide_reflect ((lp_cluster p', al_namespace s') ≠ (lp_cluster p, al_namespace s)))
    as [Hne|Heq]; [split; [done|]|split; [rewrite Hf; by apply dec_stable in Heq as <-|]].
  all: repeat case_bool_decide; try done.
  all: match goal with H : (al_allNS _, _) = _ |- _ => injection H as Ha Hc end; try congruence.
  all: rewrite Hs; unfold wanted_namespace; by rewrite Ha, Hc.
Qed.

Section facts.
Context `{Qs}.

Lemma list_step_ok g e : list_ok g → list_ok (list_step g e).
Proof using.
  destruct e as [| | | | |]; [apply commit_ok|..]; unfold list_ok; cbn;
    by destruct (lg_committed g) as [[]|].
Qed.

Lemma list_run_ok g es : list_ok g → list_ok (list_run g es).
Proof using.
  revert g. induction es as [|e es IH]; intros g Hg; [done|]. by apply IH, list_step_ok.
Qed.

(** A render after another one: only a change of [allNS] and a query that is made anew
    have an effect left. *)
Lemma commit_again g s' :
  lg_committed g = Some (lg_props g, s') →
  let p := lg_props g in
  let s := lg_state g in
  lg_props (commit g) = p ∧ lg_committed (commit g) = Some (p, s) ∧
  lg_state (commit g) =
    mkAppListState (al_searchFilter s)
      (if fresh_reference (lp_allNSQuery p) then asks_all p else al_allNS s) (al_canSetAllNS s)
      (if bool_decide (al_allNS s' = al_allNS s) then al_namespace s else wanted_namespace p s).
Proof using.
  destruct g as [p s c rs]. cbn [lg_committed lg_props lg_state]. intros ->. cbv zeta.
  unfold commit. cbn [lg_committed lg_props lg_state lg_requests run_effects fst snd].
  split_and!; [done..|].
  unfold all_query_effect, search_query_effect, all_namespaces_effect, current_namespace_effect, changed.
  rewrite !(bool_decide_false (_ p ≠ _ p)) by (by intros []). cbn [orb].
  destruct s as [text all may ns]. cbn [al_allNS].
  repeat case_bool_decide; destruct (fresh_reference _); try done; simplify_eq; naive_solver.
Qed.
Lemma commit_committed g :
  lg_props (commit g) = lg_props g ∧ lg_committed (commit g) = Some (lg_props g, lg_state g).
Proof using. unfold commit. by destruct (run_effects _ _ _). Qed.

(** A page whose last render had these props and this value of [allNS] is at rest after one
    more render. *)
Lemma rest_after g s' :
  lg_committed g = Some (lg_props g, s') → al_allNS s' = al_allNS (lg_state g) →
  (fresh_reference (lp_allNSQuery (lg_props g)) → al_allNS (lg_state g) = asks_all (lg_props g)) →
  lg_state (commit g) = lg_state g.
Proof using.
  intros Hc Ha Hf. destruct (commit_again _ _ Hc) as (_ & _ & ->).
  rewrite bool_decide_true by done. destruct (lg_state g) as [text all may ns]. cbn in *.
  destruct (fresh_reference _); [by rewrite Hf|done].
Qed.

Lemma fresh_all g :
  fresh_reference (lp_allNSQuery (lg_props g)) → al_allNS (lg_state (commit g)) = asks_all (lg_props g).
Proof using.
  intros Hf%Is_true_true. unfold commit, run_effects. cbn [lg_state]. unfold all_query_effect.
  by rewrite Hf, orb_true_r.
Qed.

(** Three renders bring any page to rest: the third one sets nothing. *)
Lemma three_renders g :
  let g2 := commit (commit g) in
  lg_props g2 = lg_props g ∧ lg_state (commit g2) = lg_state g2 ∧
  lg_committed (commit g2) = Some (lg_props (commit g2), lg_state (commit g2)).
Proof using.
  destruct (commit_committed g) as [Hp1 Hc1]. rewrite <-Hp1 in Hc1.
  destruct (commit_committed (commit g)) as [Hp2 Hc2]. rewrite <-Hp2 in Hc2.
  destruct (commit_committed (commit (commit g))) as [Hp3 Hc3].
  destruct (commit_again _ _ Hc1) as (_ & _ & Hs). cbv zeta.
  assert (al_allNS (lg_state (commit g)) = al_allNS (lg_state (commit (commit g)))) as Ha.
  { rewrite Hs. cbn [al_allNS]. destruct (fresh_reference _) eqn:Hf; [|done].
    rewrite Hp1 in Hf. rewrite Hp1. apply fresh_all. by rewrite Hf. }
  assert (lg_state (commit (commit (commit g))) = lg_state (commit (commit g))) as Hrest.
  { apply (rest_after _ _ Hc2 Ha). rewrite Hp2. apply fresh_all. }
  split; [congruence|]. split; [done|]. by rewrite Hc3, Hp3, Hrest.
Qed.

(** After a render that set nothing, the requests and the namespace agree with the state. *)
Lemma rest_agrees g0 :
  let g := commit g0 in
  list_ok g → lg_committed g = Some (lg_props g, lg_state g) →
  let ns := wanted_namespace (lg_props g) (lg_state g) in
  lg_state (commit g) = lg_state g ∧ lg_requests (commit g) = lg_requests g ∧
  al_namespace (lg_state g) = ns ∧ fetched (lg_requests g) = Some (lp_cluster (lg_props g), ns).
Proof using.
  intros g Hok Hc. unfold list_ok in Hok. rewrite Hc in Hok. destruct Hok as [Hf Hns].
  split_and!; [| |exact Hns|by rewrite Hf, Hns].
  - apply (rest_after _ _ Hc eq_refl). subst g. rewrite (proj1 (commit_committed g0)). apply fresh_all.
  - rewrite commit_requests, Hc. cbn [run_effects snd]. unfold fetch_effect, can_list_effect.
    by rewrite !changed_refl, app_nil_r.
Qed.

(** C25: Whatever the user does on the list of applications, in whatever order the renders
    happen, three renders without further events bring the page to rest: another one sets
    nothing and asks for nothing.  It then stands at the current namespace, or at all of
    them when all are listed, and that is where applications were asked for last. *)
Theorem app_list_settles p es :
  let g := list_run (mount p) (es ++ [Render; Render; Render]) in
  let ns := if al_allNS (lg_state g) then "" else lp_currentNamespace (lg_props g) in
  lg_state (commit g) = lg_state g ∧ lg_requests (commit g) = lg_requests g ∧
  al_namespace (lg_state g) = ns ∧ fetched (lg_requests g) = Some (lp_cluster (lg_props g), ns).
Proof using.
  intros g ns. subst ns g. unfold list_run. rewrite foldl_app. cbn [foldl list_step].
  set (g0 := foldl list_step (mount p) es).
  apply (rest_agrees (commit (commit g0))); [|apply three_renders].
  by do 3 apply commit_ok; apply (list_run_ok (mount p)).
Qed.

(** ** The query of the address *)

(** Texts a query holds as they are. *)
Definition query_safe (s : string) : Prop := encodeURIComponent s = s ∧ valid_utf8 s.

Lemma submitted_query text allns :
  query_safe text →
  app_searchQuery (app_submitFilters text allns) = text ∧
  app_allNSQuery (app_submitFilters text allns) = JStr (if allns then "yes" else "no").
Proof using.
  intros [Henc Hutf]. unfold app_searchQuery, app_allNSQuery.
  set (kvs := ("allns", [if allns then "yes" else "no"]) ::
              if truthy text then [("q", [text])] else []).
  assert (app_submitFilters text allns = encoded_query kvs) as ->.
  { unfold app_submitFilters, encoded_query, kvs. do 2 f_equal.
    destruct allns, (truthy text); cbn -[encodeURIComponent]; by rewrite ?Henc. }
  rewrite qs_parse_query; subst kvs; [|by destruct (truthy text)|..].
  - unfold truthy. case_bool_decide as Ht; [by destruct allns|]. subst. by destruct allns.
  - destruct (truthy text); cbn; repeat (apply NoDup_cons; split); try apply NoDup_nil_2; set_solver.
  - destruct (truthy text), allns; repeat (apply Forall_nil || apply Forall_cons || split); try done;
      by apply (bool_decide_unpack _).
Qed.

(** A page whose state is what its address asks for keeps it. *)
Definition aligned (g : list_page) : Prop :=
  al_searchFilter (lg_state g) = lp_searchQuery (lg_props g) ∧
  al_allNS (lg_state g) = asks_all (lg_props g).

Lemma commit_aligned g :
  aligned g →
  aligned (commit g) ∧ al_searchFilter (lg_state (commit g)) = al_searchFilter (lg_state g) ∧
  al_allNS (lg_state (commit g)) = al_allNS (lg_state g) ∧
  al_canSetAllNS (lg_state (commit g)) = al_canSetAllNS (lg_state g) ∧
  lg_props (commit g) = lg_props g.
Proof using.
  intros [Ht Ha]. unfold aligned, commit, run_effects. cbn [lg_state lg_props].
  unfold all_query_effect, search_query_effect, all_namespaces_effect, current_namespace_effect.
  rewrite <-Ht, <-Ha. destruct (lg_state g) as [text all may ns].
  repeat case_match; by rewrite ?Ht, ?Ha.
Qed.

(** The box that lists all the namespaces: with a text of the search that a query holds
    as it is, toggling it comes to rest with the other choice, the same search, the
    applications of all the namespaces (or of the current one) asked for, and an address
    that says the same, so that reloading the page shows it again. *)
Theorem toggle_lists_all p es :
  let g := list_run (mount p) es in
  let s := lg_state g in
  let g' := list_run g [ToggleAll; Render; Render; Render] in
  let ns := if al_allNS s then lp_currentNamespace (lg_props g) else "" in
  query_safe (al_searchFilter s) →
  lg_state g' = mkAppListState (al_searchFilter s) (negb (al_allNS s)) (al_canSetAllNS s) ns ∧
  fetched (lg_requests g') = Some (lp_cluster (lg_props g), ns) ∧
  lp_searchQuery (lg_props g') = al_searchFilter s ∧ asks_all (lg_props g') = negb (al_allNS s).
Proof using.
  intros g s g' ns Hq. destruct (submitted_query _ (negb (al_allNS s)) Hq) as [Htext Hall].
  set (g1 := list_step g ToggleAll).
  assert (aligned g1) as H1.
  { unfold aligned, g1. cbn [list_step app_toggleListAllNS go lg_state lg_props lp_searchQuery at_query].
    fold s. rewrite Htext. unfold asks_all. cbn [lp_allNSQuery at_query]. rewrite Hall.
    by destruct s as [text [] may n]. }
  destruct (commit_aligned _ H1) as (H2 & T2 & A2 & M2 & P2).
  destruct (commit_aligned _ H2) as (H3 & T3 & A3 & M3 & P3).
  destruct (commit_aligned _ H3) as ([Ht4 Ha4] & T4 & A4 & M4 & P4).
  destruct (rest_agrees (commit (commit g1))) as (_ & _ & Hns & Hf); [|apply three_renders|].
  { by do 3 apply commit_ok; apply list_step_ok, list_run_ok. }
  change (commit (commit (commit g1))) with g' in *.
  assert (al_searchFilter (lg_state g') = al_searchFilter s) as Hs by (by rewrite T4, T3, T2).
  assert (al_allNS (lg_state g') = negb (al_allNS s)) as Ha by (by rewrite A4, A3, A2).
  assert (al_canSetAllNS (lg_state g') = al_canSetAllNS s) as Hm by (by rewrite M4, M3, M2).
  assert (lp_cluster (lg_props g') = lp_cluster (lg_props g) ∧
    lp_currentNamespace (lg_props g') = lp_currentNamespace (lg_props g)) as [Hcl Hcn]
    by (by rewrite P4, P3, P2).
  assert (wanted_namespace (lg_props g') (lg_state g') = ns) as Hw.
  { unfold wanted_namespace, ns. rewrite Ha, Hcn. by destruct (al_allNS s). }
  rewrite Hw in Hns, Hf. split_and!; [|by rewrite Hf, Hcl|by rewrite <-Ht4|by rewrite <-Ha4].
  destruct (lg_state g') as [text all may n].
  cbn [al_searchFilter al_allNS al_canSetAllNS al_namespace] in *. by rewrite Hs, Ha, Hm, Hns.
Qed.
End facts.

(** ** What the cards show and where they lead *)

Lemma csv_of_kind_Some kind csvs csv :
  csv_of_kind kind csvs = Ok (Some csv) →
  csv ∈ csvs ∧ some (λ crd, bool_decide (IClusterServiceVersionCRD_kind crd = kind))
                 (default [] (owned_crds csv)).
Proof.
  induction csvs as [|c rest IH]; [done|]. cbn [csv_of_kind].
  intros (owned & Hreq%require_Ok & Hc)%bind_Ok. destruct (some _ _) eqn:Hs in Hc.
  - injection Hc as <-. split; [by left|]. unfold owned_crds. rewrite Hreq.
    change (Some owned ≫= id) with owned. by rewrite Hs.
  - destruct (IH Hc) as [Hin Hk]. split; [by right|done].
Qed.

(** The kind a service version was found by is one it owns. *)
Lemma findOwnedKind_some csv kind :
  some (λ crd, bool_decide (IClusterServiceVersionCRD_kind crd = kind)) (default [] (owned_crds csv)) →
  ∃ crd, findOwnedKind csv kind = Some crd ∧ crd ∈ default [] (owned_crds csv) ∧
    IClusterServiceVersionCRD_kind crd = kind.
Proof.
  unfold findOwnedKind. destruct (owned_crds csv) as [[|c owned]|]; [done| |done].
  intros (crd & Hf & Hin & Hk%bool_decide_spec)%some_find.
  exists crd. split_and!; [exact Hf|exact Hin|exact Hk].
Qed.

Section leads.
Context {match_path : string → string → option params_t} `{!PathMatching match_path}.

(** What a card of a release, or of an instance, shows and the page its link leads to. *)
Definition release_card (cluster search : string) (apps : list IAppOverview) (c : list_card) : Prop :=
  ∃ a, a ∈ apps ∧ search_test search (IAppOverview_releaseName a) ∧
    lc_title c = IAppOverview_releaseName a ∧
    find_route match_path privateRoutes (lc_link c) =
      Some (Routes.AppView, [("cluster", cluster); ("namespace", IAppOverview_namespace a);
                             ("releaseName", IAppOverview_releaseName a)]).

Definition instance_card (cluster search : string) (crs : list IResource)
    (csvs : list IClusterServiceVersion) (c : list_card) : Prop :=
  ∃ r csv crd, r ∈ crs ∧ search_test search (resource_name_of r) ∧ csv ∈ csvs ∧
    crd ∈ default [] (owned_crds csv) ∧ IClusterServiceVersionCRD_kind crd = IResource_kind r ∧
    lc_title c = resource_name_of r ∧
    find_route match_path privateRoutes (lc_link c) =
      Some (OperatorInstanceViewContainer,
            [("cluster", cluster); ("namespace", resource_namespace_of r); ("csv", csv_name csv);
             ("crd", IClusterServiceVersionCRD_name crd); ("instanceName", resource_name_of r)]).

(** The names a card puts in its link. *)
Definition csv_linkable (csv : IClusterServiceVersion) : Prop :=
  seg_ok (csv_name csv) ∧ toLowerCase (csv_name csv) ≠ "new" ∧
  Forall (λ crd, seg_ok (IClusterServiceVersionCRD_name crd)) (default [] (owned_crds csv)).

Lemma AppListItem_leads placeholder cluster search apps a :
  seg_ok cluster → seg_ok (IAppOverview_namespace a) → seg_ok (IAppOverview_releaseName a) →
  a ∈ apps → search_test search (IAppOverview_releaseName a) →
  release_card cluster search apps (AppListItem placeholder cluster a).
Proof using PathMatching0.
  intros Hc Hn Hr Hin Hs. exists a. split_and!; [done..|].
  apply (link_leads cluster (IAppOverview_namespace a) (AppsGet (IAppOverview_releaseName a)));
    [done|done|]. split_and!; [by repeat constructor; apply Hr|done|done].
Qed.

Lemma CustomResourceListItem_leads placeholder cluster search crs csvs r csv item :
  seg_ok cluster → seg_ok (resource_namespace_of r) → seg_ok (resource_name_of r) →
  r ∈ crs → search_test search (resource_name_of r) → Forall csv_linkable csvs →
  csv_of_kind (IResource_kind r) csvs = Ok csv →
  CustomResourceListItem placeholder cluster r csv = Ok item →
  ∃ c, item = Card c ∧ instance_card cluster search crs csvs c.
Proof using PathMatching0.
  intros Hc Hn Hr Hin Hs Hcsvs Hk Hitem. unfold CustomResourceListItem in Hitem.
  apply bind_Ok in Hitem as (v & ->%require_Ok & [= <-]).
  apply csv_of_kind_Some in Hk as [Hv Hsome].
  destruct (findOwnedKind_some v (IResource_kind r) Hsome) as (crd & -> & Hcrd & Hkind).
  rewrite Forall_forall in Hcsvs. destruct (Hcsvs _ Hv) as (Hname & Hnew & Hcrds).
  rewrite Forall_forall in Hcrds. specialize (Hcrds _ Hcrd).
  eexists. split; [reflexivity|]. exists r, v, crd. split_and!; [done..|].
  apply (link_leads cluster (resource_namespace_of r)
           (InstancesView (csv_name v) (IClusterServiceVersionCRD_name crd) (resource_name_of r)));
    [done|done|].
  by split_and!; [repeat (apply Forall_cons; split)| |].
Qed.

(** Every card of the list is that of a release or of an instance whose name matches the
    search, one for each, and leads to its page: the error a card has for an instance of
    an unknown kind is never shown. *)
Theorem list_cards_lead placeholder cluster namespace appVersion search apps crs csvs items :
  seg_ok cluster →
  Forall (λ a, seg_ok (IAppOverview_namespace a) ∧ seg_ok (IAppOverview_releaseName a)) (default [] apps) →
  Forall (λ r, seg_ok (resource_namespace_of r) ∧ seg_ok (resource_name_of r)) crs →
  Forall csv_linkable csvs →
  AppListGrid placeholder cluster namespace appVersion search apps crs csvs = Ok (Grid items) →
  length items = length (filteredReleases search apps) + length (filteredCRs search crs) ∧
  ∀ item, item ∈ items → ∃ c, item = Card c ∧
    (release_card cluster search (default [] apps) c ∨ instance_card cluster search crs csvs c).
Proof using PathMatching0.
  intros Hc Happs Hcrs Hcsvs Hg. rewrite Forall_forall in Happs. rewrite Forall_forall in Hcrs.
  unfold AppListGrid in Hg. case_match; [done|].
  apply bind_Ok in Hg as (rest & Hrest & [= <-]).
  apply collect_single in Hrest as [Hlen Hin].
  2: { intros r l _ (csv & _ & (item & _ & [= <-])%bind_Ok)%bind_Ok. done. }
  split; [by rewrite length_app, length_fmap, Hlen|].
  intros item [(a & -> & [Hs Ha]%list_elem_of_filter)%list_elem_of_fmap|Hi]%elem_of_app.
  - destruct (Happs _ Ha). eexists. split; [reflexivity|]. left. by apply AppListItem_leads.
  - destruct (Hin _ Hi) as (r & [Hs Hr]%list_elem_of_filter & (csv & Hk & (i & Hitem & [= <-])%bind_Ok)%bind_Ok).
    destruct (Hcrs _ Hr).
    destruct (CustomResourceListItem_leads placeholder cluster search crs csvs r csv i)
      as (c & -> & Hcard); try done. exists c. split; [done|by right].
Qed.
End leads.

(** An instance of a kind no service version owns makes the whole page throw. *)
Lemma unknown_kind_throws placeholder cluster namespace appVersion search apps cr csvs :
  search_test search (resource_name_of cr) → csv_of_kind (IResource_kind cr) csvs = Ok None →
  AppListGrid placeholder cluster namespace appVersion search apps [cr] csvs =
  Throws (undefined_access "spec").
Proof.
  intros Hs Hk. unfold AppListGrid, filteredCRs. rewrite filter_cons, decide_True by done.
  rewrite (bool_decide_false (_ :: _ = [])) by done. rewrite andb_false_r.
  unfold resource_items. cbn [collect filter]. by rewrite Hk.
Qed.
