(* ===== verification/OperatorPages.v ===== *)
(** * The pages of the operators

    The components of src/dashboard/src/components: [OperatorList] (and [OperatorItems]),
    [OperatorView], [OperatorSummary] with its capability level, and [OperatorNew], which
    subscribes to an operator.

    The list keeps its filters in the query of the address as the catalog does, and shows
    the operators that pass them in two groups, those that are subscribed to and the others.
    [OperatorNew] keeps the channel, the installation mode and the approval strategy that
    were chosen; its events are those the page enables. *)

From S2P Require Import Prelude.
From S2P Require Import Json.
From S2P Require Import JsonText.
From S2P Require Import Browser.
From S2P Require Import Types.
From S2P Require Import Url.
From S2P Require Import KubeRef.
From S2P Require Import Actions.
From S2P Require Import OperatorsReducer.
From S2P Require Import Store.
From S2P Require Import Thunk.
From S2P Require Import HelmServices.
From S2P Require Import KubeServices.
From S2P Require Import OperatorsActions.
From S2P Require Import Utils.
From S2P Require Import Catalog.

(** ** Capability levels (OperatorCapabilityLevel.tsx) *)

Definition BASIC_INSTALL : string := "Basic Install".
Definition SEAMLESS_UPGRADES : string := "Seamless Upgrades".
Definition FULL_LIFECYCLE : string := "Full Lifecycle".
Definition DEEP_INSIGHTS : string := "Deep Insights".
Definition AUTO_PILOT : string := "Auto Pilot".

Definition levels : list (string * Z) :=
  [(BASIC_INSTALL, 1); (SEAMLESS_UPGRADES, 2); (FULL_LIFECYCLE, 3); (DEEP_INSIGHTS, 4);
   (AUTO_PILOT, 5)]%Z.

(** The levels with whether they are reached; a comparison with [undefined] is false. *)
Definition CapabiliyLevel (level : string) : list (string * bool) :=
  (λ kv, (kv.1, match assoc level levels with Some n => (kv.2 <=? n)%Z | None => false end))
    <$> levels.

(** ** OperatorList *)

Definition CAPABILITY : string := "Capability".
Definition PROVIDER : string := "Provider".

Definition operator_filterNames : list string := [SEARCH; CAPABILITY; CATEGORY; PROVIDER].
Definition operator_initialFilterState : filters_t := (λ f, (f, [])) <$> operator_filterNames.

Definition operator_filters_from_query (propsFilter : list (string * json)) : filters_t :=
  spread operator_initialFilterState (query_filters propsFilter).

Definition operator_pushFilters (cluster namespace : string) (fs : filters_t) : string :=
  app_operators_list cluster namespace +:+ filtersToQuery fs.

Definition operator_searchFilter (fs : filters_t) : string := default "" (head (filter_of fs SEARCH)).
Definition operator_setSearchFilter (searchTerm : string) (fs : filters_t) : filters_t :=
  obj_set SEARCH [searchTerm] fs.

Definition getDefaultChannel (packageStatus : IPackageManifestStatus)
    : option IPackageManifestChannel :=
  find (λ ch, bool_decide
          (IPackageManifestChannel_name ch = IPackageManifestStatus_defaultChannel packageStatus))
    (IPackageManifestStatus_channels packageStatus).

Definition getCategories (packageStatus : IPackageManifestStatus) : list string :=
  trim <$> split_on ","
    (default "Unknown"
       (ch ← getDefaultChannel packageStatus;
        ICSVAnnotations_categories (IPackageManifestChannel_currentCSVDesc_annotations ch))).

Definition getCapabilities (packageStatus : IPackageManifestStatus) : string :=
  default BASIC_INSTALL
    (ch ← getDefaultChannel packageStatus;
     ICSVAnnotations_capabilities (IPackageManifestChannel_currentCSVDesc_annotations ch)).

Definition getProvider (packageStatus : IPackageManifestStatus) : string :=
  default ""
    (IPackageManifestChannel_currentCSVDesc_provider_name <$> getDefaultChannel packageStatus).

Definition operator_allCategories (operators : list IPackageManifest) : list string :=
  sort_strings (uniq (operators ≫= λ o, getCategories (IResource_status o))).
Definition operator_allProviders (operators : list IPackageManifest) : list string :=
  sort_strings (uniq ((λ o, getProvider (IResource_status o)) <$> operators)).
Definition allCapabilities : list string :=
  [BASIC_INSTALL; SEAMLESS_UPGRADES; FULL_LIFECYCLE; DEEP_INSIGHTS; AUTO_PILOT].

Definition keeps_operator (fs : filters_t) (c : IPackageManifest) : bool :=
  empty_or_includes (filter_of fs CAPABILITY) (getCapabilities (IResource_status c)) &&
  search_test (operator_searchFilter fs) (operator_name c) &&
  (bool_decide (filter_of fs CATEGORY = []) ||
   some (λ k, bool_decide (k ∈ getCategories (IResource_status c))) (filter_of fs CATEGORY)) &&
  empty_or_includes (filter_of fs PROVIDER) (getProvider (IResource_status c)).

Definition filteredOperators (fs : filters_t) (operators : list IPackageManifest)
    : list IPackageManifest := filter (λ c, keeps_operator fs c) operators.

(** [subscriptions.map(subscription => subscription.spec.name)]. *)
Definition subscriptionNames (subscriptions : list IResource) : outcome (list json) :=
  collect (λ s, name ← jprop (IResource_spec s) "name"; Ok [name]) subscriptions.

(** The loop that sorts the operators into two lists: installed ones and available ones. *)
Definition sort_operator (names : list json) (lists : list IPackageManifest * list IPackageManifest)
    (operator : IPackageManifest) : list IPackageManifest * list IPackageManifest :=
  if bool_decide (JStr (operator_name operator) ∈ names)
  then (lists.1 ++ [operator], lists.2) else (lists.1, lists.2 ++ [operator]).

Definition operator_lists (fs : filters_t) (operators : list IPackageManifest)
    (subscriptions : list IResource) : outcome (list IPackageManifest * list IPackageManifest) :=
  names ← subscriptionNames subscriptions;
  Ok (foldl (sort_operator names) ([], []) (filteredOperators fs operators)).

Inductive operator_list_view :=
| OperatorsLoading
| OLMNotFound
| NoOperators (error : option string)
| OperatorLists (error : option string) (installedOperators availableOperators : list IPackageManifest).

Definition OperatorList (fs : filters_t) (state : IOperatorsState) : outcome operator_list_view :=
  '(installedOperators, availableOperators) ← operator_lists fs (operators_operators state)
                              (operators_subscriptions state);
  let errors := operators_errors_ state in
  let error := match oerr_fetch (err_operator errors) with
               | Some e => Some e
               | None => oerr_fetch (err_subscriptions errors)
               end in
  Ok (if operators_isFetching state then OperatorsLoading
      else if negb (operators_isOLMInstalled state) then OLMNotFound
      else if bool_decide (operators_operators state = []) then NoOperators (message <$> error)
      else OperatorLists (message <$> error) installedOperators availableOperators).

(** [OperatorItems]. *)
Definition operator_item (cluster : string) (operator : IPackageManifest) : info_card :=
  let channel := Operators_getDefaultChannel operator in
  let namespace := IResourceMetadata_namespace (IResource_metadata operator) in
  let name := operator_name operator in
  {| card_title := name;
     card_link := app_operators_view cluster namespace name;
     card_info := "v" +:+ default "undefined" (IPackageManifestChannel_currentCSVDesc_version <$> channel);
     card_icon := api_operators_operatorIcon cluster namespace name;
     card_description := trimDescription (default ""
       (ch ← channel; ICSVAnnotations_description (IPackageManifestChannel_currentCSVDesc_annotations ch)));
     card_tag := IPackageManifestStatus_provider_name (IResource_status operator) |}.

(** ** OperatorView *)

Inductive operator_view :=
| OperatorFailed (message : string)
| OperatorLoading
| NoValidChannel
| OperatorPage (title icon version description : string) (alreadyInstalled : bool).

Definition alreadyInstalled (subscriptions : list IResource) (operator : IPackageManifest)
    : outcome bool :=
  names ← subscriptionNames subscriptions;
  Ok (bool_decide (JStr (operator_name operator) ∈ names)).

Definition operator_title (operator : IPackageManifest) : string :=
  operator_name operator +:+ " by " +:+ IPackageManifestStatus_provider_name (IResource_status operator).

Definition OperatorView (cluster namespace operatorName : string) (state : IOperatorsState)
    : outcome operator_view :=
  match oerr_fetch (err_operator (operators_errors_ state)) with
  | Some e => Ok (OperatorFailed ("An error occurred while fetching the Operator " +:+
                                  operatorName +:+ ": " +:+ message e))
  | None =>
    match operators_isFetching state, operators_operator state with
    | false, Some o =>
      match Operators_getDefaultChannel o with
      | Some channel =>
        subscribed ← alreadyInstalled (operators_subscriptions state) o;
        Ok (OperatorPage (operator_title o)
              (api_operators_operatorIcon cluster namespace (operator_name o))
              (IPackageManifestChannel_currentCSVDesc_version channel)
              (IPackageManifestChannel_currentCSVDesc_description channel) subscribed)
      | None => Ok NoValidChannel
      end
    | _, _ => Ok OperatorLoading
    end
  end.

(** The effect that follows the operator: the version it asks for. *)
Definition operator_view_csv (operator : option IPackageManifest) : option string :=
  o ← operator; ch ← Operators_getDefaultChannel o; Some (IPackageManifestChannel_currentCSV ch).

(** ** OperatorSummary *)

Record summary := mkSummary {
  capabilityLevel : string;
  summary_repository : string;
  summary_provider : string;
  containerImage : string;
  createdAt : string;
}.

Inductive summary_view :=
| SummaryLoading
| SummaryNoChannel (operatorName : string)
| Summary (s : summary).

Definition operator_summary (operator : IPackageManifest) (channel : IPackageManifestChannel)
    : summary :=
  let annotations := IPackageManifestChannel_currentCSVDesc_annotations channel in
  {| capabilityLevel := default BASIC_INSTALL (ICSVAnnotations_capabilities annotations);
     summary_repository := default "" (ICSVAnnotations_repository annotations);
     summary_provider := IPackageManifestStatus_provider_name (IResource_status operator);
     containerImage := default "" (ICSVAnnotations_containerImage annotations);
     createdAt := default "" (ICSVAnnotations_createdAt annotations) |}.

Definition csv_summary (csv : IClusterServiceVersion) : summary :=
  let annotations := IResourceMetadata_annotations (IResource_metadata csv) in
  {| capabilityLevel := default BASIC_INSTALL (annotations !! "capabilities");
     summary_repository := default "" (annotations !! "repository");
     summary_provider := IClusterServiceVersionSpec_provider_name (IResource_spec csv);
     containerImage := default "" (annotations !! "containerImage");
     createdAt := default "" (annotations !! "createdAt") |}.

Definition OperatorSummary (state : IOperatorsState) : summary_view :=
  if operators_isFetching state then SummaryLoading
  else
    match operators_operator state, operators_csv state with
    | Some o, _ =>
      match Operators_getDefaultChannel o with
      | Some channel => Summary (operator_summary o channel)
      | None => SummaryNoChannel (operator_name o)
      end
    | None, Some c => Summary (csv_summary c)
    | None, None => SummaryLoading
    end.

(** ** OperatorNew *)

Record new_form := mkNewForm {
  updateChannel : option IPackageManifestChannel;
  updateChannelGlobal : bool;
  installationModeGlobal : bool;
  approvalStrategyAutomatic : bool;
}.
#[export] Instance eta_new_form : Eta new_form := λ f,
  mkNewForm (updateChannel f) (updateChannelGlobal f) (installationModeGlobal f)
    (approvalStrategyAutomatic f).

Definition new_init : new_form := mkNewForm None false false true.

Definition use_channel (channel : option IPackageManifestChannel) (f : new_form) : new_form :=
  let global := Operators_global channel in
  f <| updateChannel := channel |> <| updateChannelGlobal := global |>
    <| installationModeGlobal := global |>.

(** The effect that follows the operator of the store. *)
Definition operator_effect (operator : option IPackageManifest) (f : new_form) : new_form :=
  match operator with
  | Some o => use_channel (Operators_getDefaultChannel o) f
  | None => f
  end.

Definition selectChannel (operator : IPackageManifest) (channel : string) (f : new_form)
    : new_form :=
  use_channel
    (find (λ ch, bool_decide (IPackageManifestChannel_name ch = channel))
       (IPackageManifestStatus_channels (IResource_status operator))) f.

Definition setInstallationMode (global : bool) (f : new_form) : new_form :=
  f <| installationModeGlobal := global |>.
Definition setApprovalStrategy (automatic : bool) (f : new_form) : new_form :=
  f <| approvalStrategyAutomatic := automatic |>.

(** A namespaced operator cannot be installed in the namespace of the global ones. *)
Definition disableInstall (namespace : string) (f : new_form) : bool :=
  bool_decide (namespace = "operators") && negb (updateChannelGlobal f).

Inductive new_view :=
| NewFailed (message : string)
| NewLoading (text : string)
| NewNoChannel
| NewForm (title icon version : string) (disabled : bool).

Definition OperatorNew (cluster namespace operatorName : string) (state : IOperatorsState)
    (f : new_form) : new_view :=
  let errors := err_operator (operators_errors_ state) in
  match oerr_fetch errors, oerr_create errors with
  | Some e, _ => NewFailed ("An error occurred while fetching the operator " +:+ operatorName +:+
                            ": " +:+ message e)
  | None, Some e => NewFailed ("An error occurred while creating the operator " +:+ operatorName +:+
                               ": " +:+ message e)
  | None, None =>
    match operators_isFetching state, operators_operator state with
    | false, Some o =>
      match updateChannel f with
      | Some channel =>
        NewForm (operator_title o) (api_operators_operatorIcon cluster namespace (operator_name o))
          (IPackageManifestChannel_currentCSVDesc_version channel) (disableInstall namespace f)
      | None => NewNoChannel
      end
    | _, _ => NewLoading ("Fetching " +:+ operatorName +:+ "...")
    end
  end.

Definition targetNS (namespace : string) (f : new_form) : string :=
  if installationModeGlobal f then "operators" else namespace.
Definition approvalStrategy (f : new_form) : string :=
  if approvalStrategyAutomatic f then "Automatic" else "Manual".

Section new.
Context `{Lodash} `{Jwt} `{Location} `{Router} (boot : browser).

(** The handler of the form: the location it moves to.  It does not prevent the default submission
    of the form, which is an event of the browser and outside of the model: the browser reloads the
    page while the requests of the handler are made. *)
Definition new_handleDeploy (cluster namespace : string) (operator : IPackageManifest)
    (channel : IPackageManifestChannel) (f : new_form) : prog (option string) :=
  deployed ← await (createOperator cluster (targetNS namespace f) (operator_name operator)
                      (IPackageManifestChannel_name channel) (approvalStrategy f)
                      (IPackageManifestChannel_currentCSV channel));
  mret (if deployed : bool then Some (app_operators_list cluster namespace) else None).
End new.

(** What the user and the store do: the operator arrives, a channel it lists is selected, the
    mode is changed (to global only where the radio button is enabled), or the strategy. *)
Inductive new_step : option IPackageManifest * new_form → option IPackageManifest * new_form → Prop :=
| step_operator o c : new_step c (o, operator_effect o c.2)
| step_channel o f ch :
    ch ∈ IPackageManifestStatus_channels (IResource_status o) →
    new_step (Some o, f) (Some o, selectChannel o (IPackageManifestChannel_name ch) f)
| step_mode o f global :
    (global = true → updateChannelGlobal f = true) →
    new_step (Some o, f) (Some o, setInstallationMode global f)
| step_strategy o f automatic :
    new_step (Some o, f) (Some o, setApprovalStrategy automatic f).

(** ** The lists *)

Lemma sort_operators_split names l lists :
  foldl (sort_operator names) lists l =
  (lists.1 ++ filter (λ o, JStr (operator_name o) ∈ names) l,
   lists.2 ++ filter (λ o, JStr (operator_name o) ∉ names) l).
Proof.
  revert lists. induction l as [|o l IH]; intros [l1 l2]; cbn [foldl].
  { by rewrite !filter_nil, !app_nil_r. }
  rewrite IH. unfold sort_operator. rewrite !filter_cons.
  destruct (bool_decide_reflect (JStr (operator_name o) ∈ names)) as [Hin|Hin]; cbn [fst snd].
  - rewrite (decide_True _ _ Hin), (decide_False (P := JStr _ ∉ names)) by auto.
    by rewrite <- app_assoc.
  - rewrite (decide_False _ _ Hin), (decide_True (P := JStr _ ∉ names)) by auto.
    by rewrite <- app_assoc.
Qed.

(** The names of the subscriptions are read, or one of them has no specification. *)
Lemma subscriptionNames_spec subs :
  Forall (λ s, IResource_spec s ≠ JUndefined ∧ IResource_spec s ≠ JNull) subs →
  subscriptionNames subs = Ok ((λ s, jget (IResource_spec s) "name") <$> subs).
Proof.
  unfold subscriptionNames. induction 1 as [|s subs [Hu Hn] _ IH]; [done|]. simpl.
  rewrite IH. by destruct (IResource_spec s).
Qed.

(** The list of operators shows every operator that passes the filters once, in the order
    of the store: the ones a subscription names as installed, the others as available. *)
Theorem operators_partitioned fs operators subs :
  Forall (λ s, IResource_spec s ≠ JUndefined ∧ IResource_spec s ≠ JNull) subs →
  ∃ l1 l2, operator_lists fs operators subs = Ok (l1, l2) ∧
    l1 ++ l2 ≡ₚ filteredOperators fs operators ∧
    sublist l1 operators ∧ sublist l2 operators ∧
    (∀ o, o ∈ operators → keeps_operator fs o →
       (o ∈ l1 ↔ ∃ s, s ∈ subs ∧ jget (IResource_spec s) "name" = JStr (operator_name o)) ∧
       (o ∈ l2 ↔ ¬ ∃ s, s ∈ subs ∧ jget (IResource_spec s) "name" = JStr (operator_name o))).
Proof.
  intros Hs. unfold operator_lists. rewrite subscriptionNames_spec by done.
  cbn [mbind outcome_bind]. rewrite sort_operators_split.
  eexists _, _. split; [done|]. cbn [fst snd app]. unfold filteredOperators. split_and!.
  - apply filter_app_complement.
  - etrans; apply sublist_filter.
  - etrans; apply sublist_filter.
  - intros o Ho Hk. rewrite !list_elem_of_filter, list_elem_of_fmap. naive_solver.
Qed.

(** The filters of the operators come back from the address, like those of the catalog. *)
Lemma operator_filters_roundtrip `{Qs} fs :
  fs.*1 = operator_filterNames →
  Forall (λ kv, Forall (λ v, Is_true (unambiguous v) ∧ Is_true (valid_utf8 v)) kv.2) fs →
  operator_filters_from_query (qs_parse (filtersToQuery fs)) = fs.
Proof.
  intros Hnames Hv. assert (NoDup fs.*1) as Hnd.
  { rewrite Hnames. apply (bool_decide_unpack _). by vm_compute. }
  unfold operator_filters_from_query, operator_initialFilterState.
  rewrite active_roundtrip; [|done|..|exact Hv].
  - rewrite <- Hnames. by apply spread_active.
  - apply Forall_forall. intros kv Hkv. assert (kv.1 ∈ operator_filterNames) as Hin.
    { rewrite <- Hnames. by apply list_elem_of_fmap_2. }
    revert Hin. generalize kv.1 as k. apply Forall_forall. by apply (bool_decide_unpack _).
Qed.

(** With no filter set every operator is shown. *)
Lemma no_filter_keeps_all operators :
  filteredOperators operator_initialFilterState operators = operators.
Proof.
  unfold filteredOperators. induction operators as [|o l IH]; [done|]. rewrite filter_cons, IH.
  rewrite decide_True; [done|]. unfold keeps_operator, empty_or_includes, search_test. cbn.
  by destruct (toLowerCase (operator_name o)).
Qed.

(** Emptying the search leaves a filter, the empty text, in the query and among the labels. *)
Lemma cleared_search_stays :
  filtersToQuery (operator_setSearchFilter "" operator_initialFilterState) = "?Search=".
Proof. reflexivity. Qed.

(** The operator that was looked at last hides the version the page of an instance asked for. *)
Lemma summary_of_last_operator state o c ch :
  operators_operator state = Some o → Operators_getDefaultChannel o = Some ch →
  operators_isFetching (operatorReducer state (receiveCSV c)) = false →
  OperatorSummary (operatorReducer state (receiveCSV c)) = Summary (operator_summary o ch).
Proof. intros Ho Hch Hf. unfold OperatorSummary. rewrite Hf. simpl. by rewrite Ho, Hch. Qed.

(** ** Subscribing *)

Definition new_ok (c : option IPackageManifest * new_form) : Prop :=
  updateChannelGlobal c.2 = Operators_global (updateChannel c.2) ∧
  (installationModeGlobal c.2 = true → updateChannelGlobal c.2 = true) ∧
  ∀ o ch, c.1 = Some o → updateChannel c.2 = Some ch →
    ch ∈ IPackageManifestStatus_channels (IResource_status o).

Lemma use_channel_ok o channel f :
  (∀ ch, channel = Some ch → ch ∈ IPackageManifestStatus_channels (IResource_status o)) →
  new_ok (Some o, use_channel channel f).
Proof. intros Hch. split_and!; [done|done|]. by intros ? ch [= <-] ?%Hch. Qed.

Lemma find_elem {A} (p : A → bool) l x : find p l = Some x → x ∈ l.
Proof.
  induction l as [|y l IH]; [done|]. simpl. destruct (p y); [intros [= ->]; by left|].
  intros ?%IH. by right.
Qed.

(** The mode is global only for a channel that supports it, and the channel is one of the
    operator's. *)
Lemma new_step_ok c c' : new_step c c' → new_ok c → new_ok c'.
Proof.
  intros Hstep Hok. destruct Hstep as [o [o' f]|o f ch Hch|o f global Hg|o f a].
  - destruct o as [o|].
    + apply use_channel_ok. intros ch. apply find_elem.
    + destruct Hok as (H1 & H2 & H3). by split_and!.
  - apply use_channel_ok. intros ch'. apply find_elem.
  - destruct Hok as (H1 & H2 & H3). by split_and!.
  - done.
Qed.

Lemma new_run_ok c : rtc new_step (None, new_init) c → new_ok c.
Proof.
  assert (∀ c c', rtc new_step c c' → new_ok c → new_ok c') as Hrtc.
  { induction 1; eauto using new_step_ok. }
  intros Hrun. apply (Hrtc _ _ Hrun). by split_and!.
Qed.

Section subscribe.
Context `{Lodash} `{Jwt} `{Location} `{Router} (boot : browser).

(** C40: What the form submits, whatever was chosen before, is a subscription to the current
    version of a channel of the operator.  It goes to the namespace of the global operators
    only when the channel supports all namespaces, and to the current one otherwise, with an
    operator group made there first; when it was accepted the handler moves to the list.  (The
    default submission of the form, which the handler does not prevent, is left out.) *)
Theorem subscribes_where_supported E cluster ns o f ch m :
  rtc new_step (None, new_init) (Some o, f) → updateChannel f = Some ch →
  disableInstall ns f = false →
  let target := targetNS ns f in
  ch ∈ IPackageManifestStatus_channels (IResource_status o) ∧
  (target = "operators" → Operators_global (Some ch) = true) ∧
  (target = "operators" ∨ target = ns) ∧
  let '(answer, reqs) := createOperator_outcome E cluster target (operator_name o)
      (IPackageManifestChannel_name ch) (approvalStrategy f)
      (IPackageManifestChannel_currentCSV ch) (m_ticks m) in
  performs boot E (new_handleDeploy cluster ns o ch f) m
    (Ok (match answer with Ok _ => Some (app_operators_list cluster ns) | Throws _ => None end))
    (EvDispatch creatingOperator :: (EvRequest axiosWithAuth <$> reqs) ++
     [match answer with
      | Ok r => EvDispatch (operatorCreated r)
      | Throws e => EvDispatch (errorOperatorCreate e)
      end]) [].
Proof using.
  intros (Hg & Hm & Hin)%new_run_ok Hch Hd target. cbn [fst snd] in *. split_and!.
  - by apply Hin.
  - rewrite <- Hch, <- Hg. unfold target, targetNS, disableInstall in *.
    destruct (installationModeGlobal f); [by rewrite Hm|]. intros ->.
    rewrite bool_decide_true in Hd by done. by destruct (updateChannelGlobal f).
  - unfold target, targetNS. destruct (installationModeGlobal f); auto.
  - pose proof (createOperator_group_first boot E cluster target (operator_name o)
      (IPackageManifestChannel_name ch) (approvalStrategy f)
      (IPackageManifestChannel_currentCSV ch) m) as Hperf.
    destruct (createOperator_outcome _ _ _ _ _ _ _ _) as [answer reqs].
    apply (performs_then boot _ _
      (λ b : bool, if b then Some (app_operators_list cluster ns) else None)) in Hperf.
    unfold new_handleDeploy. fold target. destruct answer; exact Hperf.
Qed.
End subscribe.
