(* ===== verification/AppView.v ===== *)
(** * The page of a release

    The components of src/dashboard/src/components/AppView and ApplicationStatus, with the
    selections of src/dashboard/src/containers that feed them.  [AppView] reads the
    manifest of the release, turns its documents into references grouped by kind
    ([parseResources]), watches every one of them while it is displayed and closes the
    watches when it goes away; its parts show what the cache of the store has for the
    references.

    [YAML.parseAllDocuments] followed by [toJSON] is the parameter [parseAllDocuments]. *)

From S2P Require Import Prelude.
From S2P Require Import Json.
From S2P Require Import JsonText.
From S2P Require Import Browser.
From S2P Require Import Types.
From S2P Require Import Url.
From S2P Require Import KubeRef.
From S2P Require Import Actions.
From S2P Require Import KubeReducer.
From S2P Require Import KubeWatch.
From S2P Require Import Store.
From S2P Require Import Thunk.
From S2P Require Import HelmServices.
From S2P Require Import Schema.
From S2P Require Import AppsActions.
From S2P Require Import Utils.

(** ** References from a manifest *)

Record IAppViewResourceRefs := mkRefs {
  deployments : list ResourceRef;
  statefulsets : list ResourceRef;
  daemonsets : list ResourceRef;
  services : list ResourceRef;
  ingresses : list ResourceRef;
  secrets : list ResourceRef;
  otherResources : list ResourceRef;
}.
#[export] Instance eta_refs : Eta IAppViewResourceRefs := λ r,
  mkRefs (deployments r) (statefulsets r) (daemonsets r) (services r) (ingresses r) (secrets r)
    (otherResources r).

Definition no_refs : IAppViewResourceRefs := mkRefs [] [] [] [] [] [] [].

(** [assignWith(result, refs, (prev, newArray) => prev.concat(newArray))]. *)
Definition concat_refs (r s : IAppViewResourceRefs) : IAppViewResourceRefs :=
  mkRefs (deployments r ++ deployments s) (statefulsets r ++ statefulsets s)
    (daemonsets r ++ daemonsets s) (services r ++ services s) (ingresses r ++ ingresses s)
    (secrets r ++ secrets s) (otherResources r ++ otherResources s).

(** A text, where a missing one is [undefined]. *)
Definition opt_text (j : json) : option string :=
  match j with JStr s => Some s | _ => None end.

(** [kinds[item.kind] || {}]: the plural of an unknown kind is [undefined]. *)
Definition kind_or_empty (kinds : gmap string IKind) (kind : json) : IKind :=
  default {| IKind_apiVersion := ""; IKind_plural := "undefined"; IKind_namespaced := false |}
    (kinds !! jtext kind).

Section parse.
Context (kinds : gmap string IKind) (cluster releaseNamespace : string).

(** [new ResourceRef(item, cluster, kind.plural, kind.namespaced, releaseNamespace)]. *)
Definition ref_of_item (item : json) : outcome ResourceRef :=
  let kind := kind_or_empty kinds (jget item "kind") in
  apiVersion ← jprop item "apiVersion";
  name ← jprop (jget item "metadata") "name";
  Ok (ResourceRef_new (default "" (opt_text apiVersion)) (jtext (jget item "kind"))
        (opt_text name) (opt_text (jget (jget item "metadata") "namespace")) cluster
        (IKind_plural kind) (IKind_namespaced kind) (Some releaseNamespace)).

(** The list a reference is pushed to. *)
Definition push_ref (kind : json) (ref : ResourceRef) (r : IAppViewResourceRefs)
    : IAppViewResourceRefs :=
  match kind with
  | JStr "Deployment" => r <| deployments := deployments r ++ [ref] |>
  | JStr "StatefulSet" => r <| statefulsets := statefulsets r ++ [ref] |>
  | JStr "DaemonSet" => r <| daemonsets := daemonsets r ++ [ref] |>
  | JStr "Service" => r <| services := services r ++ [ref] |>
  | JStr "Ingress" => r <| ingresses := ingresses r ++ [ref] |>
  | JStr "Secret" => r <| secrets := secrets r ++ [ref] |>
  | _ => r <| otherResources := otherResources r ++ [ref] |>
  end.

(** The body of the loop over [resources]: the [items] of a list are parsed on their own
    and merged, anything else becomes a reference. *)
Fixpoint parse_resource (result : IAppViewResourceRefs) (i : json) {struct i}
    : outcome IAppViewResourceRefs :=
  match i with
  | JUndefined | JNull => Throws (undefined_access "items")
  | JObj fs =>
    (fix with_items (gs : list (string * json)) : outcome IAppViewResourceRefs :=
       match gs with
       | [] => ref ← ref_of_item i; Ok (push_ref (jget i "kind") ref result)
       | (k, v) :: gs' =>
         if bool_decide ("items" = k) then
           if jtruthy v then
             match v with
             | JArr items =>
               sub ← (fix loop (l : list json) (r : IAppViewResourceRefs) :=
                        match l with
                        | [] => Ok r
                        | x :: l' => r' ← parse_resource r x; loop l' r'
                        end) items no_refs;
               Ok (concat_refs result sub)
             | _ => Throws (not_a_function "resources.forEach")
             end
           else ref ← ref_of_item i; Ok (push_ref (jget i "kind") ref result)
         else with_items gs'
       end) fs
  | _ => ref ← ref_of_item i; Ok (push_ref (jget i "kind") ref result)
  end.

Fixpoint parse_loop (l : list json) (r : IAppViewResourceRefs) : outcome IAppViewResourceRefs :=
  match l with
  | [] => Ok r
  | x :: l' => r' ← parse_resource r x; parse_loop l' r'
  end.

Definition parseResources (resources : list json) : outcome IAppViewResourceRefs :=
  parse_loop resources no_refs.
End parse.

(** ** What the references are *)

(** The resources of a document: those of its items, and of theirs, when it is a list. *)
Fixpoint leaves (i : json) : outcome (list json) :=
  match i with
  | JUndefined | JNull => Throws (undefined_access "items")
  | JObj fs =>
    (fix with_items (gs : list (string * json)) : outcome (list json) :=
       match gs with
       | [] => Ok [i]
       | (k, v) :: gs' =>
         if bool_decide ("items" = k) then
           if jtruthy v then
             match v with
             | JArr items => collect leaves items
             | _ => Throws (not_a_function "resources.forEach")
             end
           else Ok [i]
         else with_items gs'
       end) fs
  | _ => Ok [i]
  end.

Definition of_kind (kind : string) (items : list json) (refs : list ResourceRef)
    : list ResourceRef :=
  snd <$> filter (λ p, jget p.1 "kind" = JStr kind) (zip items refs).

Definition workload_kinds : list json :=
  JStr <$> ["Deployment"; "StatefulSet"; "DaemonSet"; "Service"; "Ingress"; "Secret"].

Definition of_other_kinds (items : list json) (refs : list ResourceRef) : list ResourceRef :=
  snd <$> filter (λ p, jget p.1 "kind" ∉ workload_kinds) (zip items refs).

(** The references of the resources, each in the list of its kind, in order. *)
Definition classify (items : list json) (refs : list ResourceRef) : IAppViewResourceRefs :=
  mkRefs (of_kind "Deployment" items refs) (of_kind "StatefulSet" items refs)
    (of_kind "DaemonSet" items refs) (of_kind "Service" items refs)
    (of_kind "Ingress" items refs) (of_kind "Secret" items refs) (of_other_kinds items refs).

Lemma concat_refs_assoc r s t : concat_refs (concat_refs r s) t = concat_refs r (concat_refs s t).
Proof. unfold concat_refs. simpl. by rewrite <- !(assoc_L (++)). Qed.

Lemma concat_refs_no_refs r : concat_refs r no_refs = r.
Proof. destruct r. unfold concat_refs. simpl. by rewrite !app_nil_r. Qed.

Lemma no_refs_concat r : concat_refs no_refs r = r.
Proof. by destruct r. Qed.

Lemma classify_app items refs items' refs' :
  length items = length refs →
  classify (items ++ items') (refs ++ refs') =
  concat_refs (classify items refs) (classify items' refs').
Proof.
  intros Hlen. unfold classify, concat_refs, of_kind, of_other_kinds. simpl.
  by rewrite zip_with_app, !filter_app, !fmap_app by done.
Qed.

Lemma push_ref_classify kind ref item r :
  jget item "kind" = kind → push_ref kind ref r = concat_refs r (classify [item] [ref]).
Proof.
  intros Hk. unfold classify, of_kind, of_other_kinds. simpl. rewrite !filter_cons. simpl.
  rewrite Hk, !filter_nil.
  destruct (decide (kind ∈ workload_kinds)) as [Hin|Hnot].
  - unfold workload_kinds in Hin. simpl in Hin.
    repeat (apply elem_of_cons in Hin as [->|Hin]; [destruct r; unfold concat_refs; simpl;
      rewrite ?app_nil_r; reflexivity|]). by apply elem_of_nil in Hin.
  - rewrite (decide_True (P := kind ∉ workload_kinds)) by done.
    assert (∀ k, JStr k ∈ workload_kinds → kind ≠ JStr k) as Hne by (intros k Hk' ->; done).
    rewrite !decide_False by (apply Hne; unfold workload_kinds; simpl; set_solver).
    assert (push_ref kind ref r = r <| otherResources := otherResources r ++ [ref] |>) as ->.
    { unfold push_ref. destruct kind as [| | | | |k| |]; try done.
      repeat (match goal with |- context [match k with _ => _ end] => destruct k as [|[[] [] [] [] [] [] [] []] k] end; try done).
      all: exfalso; by eapply Hne; [|done]; unfold workload_kinds; simpl; set_solver. }
    destruct r. unfold concat_refs. simpl. by rewrite !app_nil_r.
Qed.

Lemma parse_resource_eq kinds cluster ns r i :
  i ≠ JUndefined → i ≠ JNull →
  parse_resource kinds cluster ns r i =
  if jtruthy (jget i "items") then
    match jget i "items" with
    | JArr items => sub ← parse_loop kinds cluster ns items no_refs; Ok (concat_refs r sub)
    | _ => Throws (not_a_function "resources.forEach")
    end
  else ref ← ref_of_item kinds cluster ns i; Ok (push_ref (jget i "kind") ref r).
Proof.
  intros Hu Hn. destruct i as [| | | | | | |fs]; try done.
  change (jget (JObj fs) "items") with (default JUndefined (assoc "items" fs)).
  clear Hu Hn. cbn [parse_resource]. generalize (JObj fs) as i. intros i.
  induction fs as [|[k v] fs IH]; [done|]. simpl. case_bool_decide; [|exact IH].
  cbn [default id from_option]. destruct (jtruthy v); [|done]. destruct v as [| | | | | |l|]; try done.
Qed.

Lemma leaves_eq i :
  i ≠ JUndefined → i ≠ JNull →
  leaves i =
  if jtruthy (jget i "items") then
    match jget i "items" with
    | JArr items => collect leaves items
    | _ => Throws (not_a_function "resources.forEach")
    end
  else Ok [i].
Proof.
  intros Hu Hn. destruct i as [| | | | | | |fs]; try done.
  change (jget (JObj fs) "items") with (default JUndefined (assoc "items" fs)).
  clear Hu Hn. cbn [leaves]. generalize (JObj fs) as i. intros i.
  induction fs as [|[k v] fs IH]; [done|]. simpl. case_bool_decide; [|exact IH]. done.
Qed.

Section parse_facts.
Context (kinds : gmap string IKind) (cluster releaseNamespace : string).
Let parse := parse_resource kinds cluster releaseNamespace.
Let loop := parse_loop kinds cluster releaseNamespace.
Let is_ref item ref := ref_of_item kinds cluster releaseNamespace item = Ok ref.

Definition parses (l : outcome (list json)) (f : IAppViewResourceRefs → outcome IAppViewResourceRefs)
    : Prop :=
  ∀ r s, f r = Ok s ↔
    ∃ items refs, l = Ok items ∧ Forall2 is_ref items refs ∧ s = concat_refs r (classify items refs).

Lemma loop_parses l :
  Forall (λ i, parses (leaves i) (λ r, parse r i)) l →
  parses (collect leaves l) (loop l).
Proof.
  induction 1 as [|i l Hi _ IH]; intros r s.
  - unfold loop. simpl. split.
    + intros [= <-]. exists [], []. split_and!; [done|constructor|by rewrite concat_refs_no_refs].
    + intros (items & refs & [= <-] & Hf & ->). inversion Hf; subst. by rewrite concat_refs_no_refs.
  - unfold loop. cbn [parse_loop collect]. fold parse loop. split.
    + intros (t & Ht & Hs)%bind_Ok. apply Hi in Ht as (items & refs & -> & Hf & ->).
      apply IH in Hs as (items' & refs' & -> & Hf' & ->). exists (items ++ items'), (refs ++ refs').
      split_and!; [done|by apply Forall2_app|].
      by rewrite classify_app, concat_refs_assoc by (by eapply Forall2_length).
    + intros (items & refs & Hl & Hf & ->).
      apply bind_Ok in Hl as (a & Ha & (b & Hb & [= <-])%bind_Ok).
      apply Forall2_app_inv_l in Hf as (ra & rb & Hfa & Hfb & ->).
      apply bind_Ok. exists (concat_refs r (classify a ra)). split.
      * apply Hi. by exists a, ra.
      * apply IH. exists b, rb. split_and!; [done..|].
        by rewrite classify_app, concat_refs_assoc by (by eapply Forall2_length).
Qed.

Lemma resource_parses i : parses (leaves i) (λ r, parse r i).
Proof.
  assert (∀ i, parses (leaves i) (λ r, parse r i) ∧
    ∀ l, i = JArr l → Forall (λ i, parses (leaves i) (λ r, parse r i)) l) as Hall; [|by apply Hall].
  clear i. intros i. 
  assert (∀ i, i ≠ JUndefined → i ≠ JNull → jtruthy (jget i "items") = false →
    parses (leaves i) (λ r, parse r i)) as Hitem.
  { clear i. intros i Hu Hn Hi r s. unfold parse. rewrite parse_resource_eq, leaves_eq, Hi by done. split.
    - intros (ref & Href & [= <-])%bind_Ok. exists [i], [ref].
      split_and!; [done|by repeat constructor|by apply push_ref_classify].
    - intros (items & refs & [= <-] & Hf & ->). inversion Hf as [|? ref ? ? Href Hf']; subst.
      inversion Hf'; subst. apply bind_Ok. exists ref. split; [exact Href|].
      f_equal. by apply push_ref_classify. }
  induction i as [| | | | | |l IH|fs IH] using json_ind';
    try (split; [first [by apply Hitem|intros r s; split; [done|by intros (? & ? & ? & _)]]|done]).
  - split; [by apply Hitem|]. intros l' [= <-]. eapply Forall_impl; [exact IH|]. by intros ? [? _].
  - split; [|done]. destruct (jtruthy (jget (JObj fs) "items")) eqn:Ht; [|by apply Hitem].
    intros r s. unfold parse. rewrite parse_resource_eq, leaves_eq, Ht by done.
    destruct (jget (JObj fs) "items") as [| | | | | |l|] eqn:Hl;
      try (split; [done|by intros (? & ? & ? & _)]).
    assert (parses (collect leaves l) (loop l)) as Hloop.
    { apply loop_parses. cbn [jget] in Hl. destruct (assoc "items" fs) as [v|] eqn:Ha; [|done].
      cbn in Hl. subst v. clear -IH Ha. induction IH as [|[k v] fs Hv _ IHfs]; [done|].
      simpl in Ha. case_bool_decide; [|by apply IHfs]. simplify_eq. by apply Hv. }
    split.
    + intros (sub & Hsub & [= <-])%bind_Ok. apply Hloop in Hsub as (items & refs & ? & ? & ->).
      exists items, refs. by rewrite no_refs_concat.
    + intros (items & refs & ? & ? & ->). apply bind_Ok. exists (classify items refs).
      split; [|done]. apply Hloop. exists items, refs. by rewrite no_refs_concat.
Qed.

(** C7: The references of a manifest are those of its resources, lists and lists in lists
    flattened, each put in the list of its kind in the order of the manifest. *)
Theorem parseResources_classifies resources r :
  parseResources kinds cluster releaseNamespace resources = Ok r ↔
  ∃ items refs, collect leaves resources = Ok items ∧
    Forall2 (λ item ref, ref_of_item kinds cluster releaseNamespace item = Ok ref) items refs ∧
    r = classify items refs.
Proof.
  unfold parseResources.
  assert (parses (collect leaves resources) (loop resources)) as Hl.
  { apply loop_parses, Forall_forall. intros i _. apply resource_parses. }
  unfold loop in Hl. rewrite (Hl no_refs r). by setoid_rewrite no_refs_concat.
Qed.
End parse_facts.

(** ** The effects of the page *)

Definition workloads_of (r : IAppViewResourceRefs) : list (list ResourceRef) :=
  [ingresses r; deployments r; statefulsets r; daemonsets r; otherResources r; services r; secrets r].

(** [Object.values(resourceRefs)], one after the other. *)
Definition all_refs (r : IAppViewResourceRefs) : list ResourceRef := concat (workloads_of r).

(** [Object.values(resourceRefs).some(ref => ref.length)]. *)
Definition populated (r : IAppViewResourceRefs) : bool :=
  some (λ l, bool_decide (0 < length l)) (workloads_of r).

Class Manifests := { parseAllDocuments : string → outcome (list json) }.

Section page.
Context `{Manifests}.

(** The references are computed once, from the first manifest seen. *)
Definition populate (app : option IRelease) (cluster : string) (kinds : gmap string IKind)
    (resourceRefs : IAppViewResourceRefs) : outcome IAppViewResourceRefs :=
  match app with
  | Some a =>
    if negb (truthy (IRelease_manifest a)) then Ok resourceRefs
    else if populated resourceRefs then Ok resourceRefs
    else
      documents ← parseAllDocuments (IRelease_manifest a);
      let parsedManifest := filter (λ r, jtruthy r && jtruthy (jget r "kind")) documents in
      parsedRefs ← parseResources kinds cluster (IRelease_namespace a) parsedManifest;
      Ok (if populated parsedRefs then parsedRefs else resourceRefs)
  | None => Ok resourceRefs
  end.

Inductive page_view :=
| PageError (message : string)
| PageMain (alert : option string) (loading : option string) (icon : option string).

Definition page_display (error : option js_error) (app : option IRelease) (releaseName : string)
    : page_view :=
  let main :=
    PageMain
      ((λ e, if bool_decide (constructor e = DeleteError)
             then "Unable to delete the application. Received: " +:+ message e
             else "An error occurred: " +:+ message e) <$> error)
      (match app ≫= IRelease_info with
       | None => Some ("Loading " +:+ releaseName +:+ "...")
       | Some _ => None
       end)
      (((app ≫= IRelease_chart) ≫= IChart_metadata) ≫= IMetadata_icon) in
  match error with
  | Some e =>
    if bool_decide (constructor e = FetchError)
    then PageError ("Application not found. Received: " +:+ message e) else main
  | None => main
  end.
End page.

Section watches.
Context `{Location} (b : browser).
Abbreviation config := (IKubeState * kube_world)%type.

(** The effect that runs when the references change: every one is watched; and its
    cleanup.  (The request [getAndWatchResource] makes first is a passive action of
    [KubeWatch].) *)
Definition watch_refs (r : IAppViewResourceRefs) (c : config) : config :=
  foldl (λ c ref, (dispatch_kube b (openWatchResource ref (on_message ref) (on_error ref)) c).1) c
    (all_refs r).

Definition cleanup (r : IAppViewResourceRefs) (c : config) : config :=
  foldl (λ c ref, (dispatch_kube b (closeWatchResource ref) c).1) c (all_refs r).

Lemma watch_run_app c1 es c2 es' c3 :
  watch_run b c1 es c2 → watch_run b c2 es' c3 → watch_run b c1 (es ++ es') c3.
Proof. induction 1; intros Hrun; [done|]. econstructor; eauto. Qed.

Lemma cleanup_run l c :
  Forall watchable l →
  watch_run b c (ev_close <$> l)
    (foldl (λ c ref, (dispatch_kube b (closeWatchResource ref) c).1) c l).
Proof.
  intros Hl. revert c. induction Hl as [|ref l Href Hl IH]; intros c; [constructor|].
  econstructor; [by constructor|apply IH].
Qed.

Lemma watch_refs_run l c :
  Forall watchable l →
  watch_run b c (ev_watch <$> l)
    (foldl (λ c ref, (dispatch_kube b (openWatchResource ref (on_message ref) (on_error ref)) c).1) c l).
Proof.
  intros Hl. revert c. induction Hl as [|ref l Href Hl IH]; intros c; [constructor|].
  econstructor; [by constructor|apply IH].
Qed.

(** C8: A page that goes away leaves nothing behind, whatever happened while it was
    displayed and whatever happens later, as long as nobody watches its resources again:
    the sockets opened for its references are closed and report to no error listener, and
    none of its references is polled. *)
Theorem page_leaves_nothing_behind refs es c1 es1 c2 es2 c3 :
  Forall watchable (all_refs refs) →
  watch_run b watch_init es c1 → watch_run b (watch_refs refs c1) es1 c2 →
  watch_run b (cleanup refs c2) es2 c3 →
  (∀ ref ref', ev_watch ref' ∈ es2 → ref ∈ all_refs refs →
     watchResourceURL ref' ≠ watchResourceURL ref) →
  ∀ ref, ref ∈ all_refs refs →
    (∀ k s, kw_sockets c3.2 !! k = Some s → ws_url s = watchResourceURL ref →
       ws_closed s = true ∧ ws_onError s = []) ∧
    (∀ t ref', kw_intervals c3.2 !! t = Some (poll_resource ref') →
       watchResourceURL ref' ≠ watchResourceURL ref).
Proof.
  intros Hw Hes Hes1 Hes2 Hno ref Href.
  apply list_elem_of_split in Href as (l1 & l2 & Hall).
  unfold cleanup, watch_refs in *. rewrite Hall in *.
  rewrite Forall_app, Forall_cons in Hw. destruct Hw as (Hw1 & Hr & Hw2).
  rewrite foldl_app in Hes2. cbn [foldl] in Hes2.
  eapply closed_watch_stays_quiet with (ref := ref).
  - eapply watch_run_app; [exact Hes|]. eapply watch_run_app; [apply (watch_refs_run (l1 ++ ref :: l2))|].
    { by rewrite Forall_app, Forall_cons. }
    eapply watch_run_app; [exact Hes1|]. apply (cleanup_run l1 _ Hw1).
  - by constructor.
  - eapply watch_run_app; [apply (cleanup_run l2 _ Hw2)|exact Hes2].
  - intros ref' Hin. apply elem_of_app in Hin as [Hin|Hin].
    + by apply list_elem_of_fmap in Hin as (? & ? & _).
    + apply Hno; [done|]. set_solver.
Qed.
End watches.
