(* ===== verification/OperatorInstances.v ===== *)
(** * The pages of the instances of operators

    The components of src/dashboard/src/components: [OperatorInstanceForm] and
    [OperatorInstanceUpdateForm] with the form they share ([OperatorInstanceFormBody]), and
    [OperatorInstance], which shows an instance with the resources of its definition and
    deletes it.

    An instance as the server sent it is what js-yaml prints: [instance_json] is the object
    an [IResource] stands for. *)

From S2P Require Import Prelude.
From S2P Require Import Json.
From S2P Require Import JsonText.
From S2P Require Import Browser.
From S2P Require Import Types.
From S2P Require Import Url.
From S2P Require Import KubeRef.
From S2P Require Import Actions.
From S2P Require Import OperatorsReducer.
From S2P Require Import Store.
From S2P Require Import Thunk.
From S2P Require Import HelmServices.
From S2P Require Import KubeServices.
From S2P Require Import Schema.
From S2P Require Import OperatorsActions.
From S2P Require Import AppView.

(** ** The definition of an instance in a version of its operator ([parseCSV]) *)

Record instance_state := mkInstanceState {
  is_icon : string;
  is_crd : option IClusterServiceVersionCRD;
  is_defaultValues : string;
}.
#[export] Instance eta_instance_state : Eta instance_state := λ s,
  mkInstanceState (is_icon s) (is_crd s) (is_defaultValues s).

Definition csv_icon (csv : IClusterServiceVersion) : option string :=
  match IClusterServiceVersionSpec_icon (IResource_spec csv) with
  | Some (icon :: _) => Some ("data:" +:+ IIcon_mediatype icon +:+ ";base64," +:+ IIcon_base64data icon)
  | _ => None
  end.

Section parse.
Context `{YamlDump}.

(** The examples of the kind: the last one stays. *)
Fixpoint use_examples (kind : string) (examples : list json) (values : string) : outcome string :=
  match examples with
  | [] => Ok values
  | example :: rest =>
    k ← jprop example "kind";
    use_examples kind rest (if bool_decide (k = JStr kind) then yaml_dump example else values)
  end.

Definition csv_examples (csv : IClusterServiceVersion) : outcome (list json) :=
  j ← JSON_parse (default "[]" (IResourceMetadata_annotations (IResource_metadata csv) !! "alm-examples"));
  jarray "forEach" j.

(** One definition of the version; [examples] whether the values of an example are wanted. *)
Definition parse_crd (csv : IClusterServiceVersion) (crdName : string) (examples : bool)
    (ownedCRD : IClusterServiceVersionCRD) (s : instance_state) : outcome instance_state :=
  if bool_decide (IClusterServiceVersionCRD_name ownedCRD = crdName) then
    let s := s <| is_crd := Some ownedCRD |> in
    if examples then
      l ← csv_examples csv;
      values ← use_examples (IClusterServiceVersionCRD_kind ownedCRD) l (is_defaultValues s);
      Ok (s <| is_defaultValues := values |>)
    else Ok s
  else Ok s.

Fixpoint parse_crds (csv : IClusterServiceVersion) (crdName : string) (examples : bool)
    (owned : list IClusterServiceVersionCRD) (s : instance_state) : outcome instance_state :=
  match owned with
  | [] => Ok s
  | crd :: rest => s' ← parse_crd csv crdName examples crd s; parse_crds csv crdName examples rest s'
  end.

Definition parseCSV (csv : IClusterServiceVersion) (crdName : string) (examples : bool)
    (s : instance_state) : outcome instance_state :=
  parse_crds csv crdName examples (default [] (owned_crds csv))
    (match csv_icon csv with Some icon => s <| is_icon := icon |> | None => s end).
End parse.

(** The state cleaned up when another version is asked for. *)
Definition clean_state (placeholder : string) : instance_state := mkInstanceState placeholder None "".

(** ** OperatorInstanceFormBody *)

Record instance_form := mkInstanceForm {
  if_values : string;
  if_modalIsOpen : bool;
  if_parseError : option js_error;
}.
#[export] Instance eta_instance_form : Eta instance_form := λ f,
  mkInstanceForm (if_values f) (if_modalIsOpen f) (if_parseError f).

(** The effect that follows the values of the properties. *)
Definition values_effect (defaultValues : string) (deployedValues : option string)
    (f : instance_form) : instance_form :=
  f <| if_values := or_opt_str deployedValues defaultValues |>.

Definition handleValuesChange (newValues : string) (f : instance_form) : instance_form :=
  f <| if_values := newValues |>.

Definition restoreDefaultValues (defaultValues : string) (f : instance_form) : instance_form :=
  f <| if_values := defaultValues |> <| if_modalIsOpen := false |>.

Section body.
Context `{Yaml}.

(** The form that is left, and the resource handed to [handleDeploy]; it throws when there is
    none to read the version of. *)
Definition parseAndDeploy (f : instance_form) : outcome (instance_form * option json) :=
  let f := f <| if_parseError := None |> in
  match yaml_load (if_values f) with
  | Throws e =>
    Ok (f <| if_parseError := Some (mk_error Error
                ("Unable to parse the given YAML. Got: " +:+ message e)) |>, None)
  | Ok body =>
    apiVersion ← jprop body "apiVersion";
    if jtruthy apiVersion then Ok (f, Some body)
    else Ok (f <| if_parseError := Some (mk_error Error
                   "Unable parse the resource. Make sure it contains a valid apiVersion") |>, None)
  end.
End body.

(** ** OperatorInstanceForm *)

Inductive create_view :=
| CRDNotFound (message : string)
| CSVFailed (message : string)
| CreateForm (title : string) (icon : string) (error : option string).

Definition OperatorInstanceForm (csvName crdName : string) (state : IOperatorsState)
    (s : instance_state) : create_view :=
  let fetchError := oerr_fetch (err_csv (operators_errors_ state)) in
  let createError := oerr_create (err_resource (operators_errors_ state)) in
  match fetchError, operators_isFetching state, is_crd s with
  | None, false, None => CRDNotFound (crdName +:+ " not found in the definition of " +:+ csvName)
  | Some e, _, _ =>
    CSVFailed ("An error occurred while fetching the ClusterServiceVersion: " +:+ message e)
  | None, _, _ =>
    CreateForm ("Create " +:+ default "undefined" (IClusterServiceVersionCRD_kind <$> is_crd s))
      (is_icon s)
      ((λ e, "An error occurred while creating the instance: " +:+ message e) <$> createError)
  end.

(** [crd.name.split(".")[0]]. *)
Definition resourceType (name : string) : string := default "" (head (split_on "." name)).

(** The name of the resource in its own text. *)
Definition body_name (body : json) : outcome string :=
  metadata ← jprop body "metadata"; name ← jprop metadata "name"; Ok (jtext name).

Section handlers.
Context `{Lodash} `{Jwt} `{Location} `{Router} (boot : browser).

(** The location it moves to.  The message of the error, which prints the two, is cut. *)
Definition create_handleDeploy (cluster namespace : string) (csv : option IClusterServiceVersion)
    (s : instance_state) (body : json) : prog (option string) :=
  match is_crd s, csv with
  | Some crd, Some c =>
    created ← await (createResource cluster namespace (jtext (jget body "apiVersion"))
                       (resourceType (IClusterServiceVersionCRD_name crd)) body);
    if created : bool then
      name ← lift (body_name body);
      mret (Some (app_operatorInstances_view cluster namespace (csv_name c)
                    (IClusterServiceVersionCRD_name crd) name))
    else mret None
  | _, _ => Throw (mk_error Error "Missing CRD or CSV")
  end.

Definition update_handleDeploy (cluster namespace csvName crdName resourceName : string)
    (body : json) : prog (option string) :=
  created ← await (updateResource cluster namespace (jtext (jget body "apiVersion"))
                     (resourceType crdName) resourceName body);
  mret (if created : bool
        then Some (app_operatorInstances_view cluster namespace csvName crdName resourceName)
        else None).
End handlers.

(** ** OperatorInstanceUpdateForm *)

Inductive update_view :=
| ResourceNotFound (message : string)
| UpdateCSVFailed (message : string)
| UpdateForm (title icon : string) (error : option string).

Definition OperatorInstanceUpdateForm (resourceName : string) (state : IOperatorsState)
    (s : instance_state) : update_view :=
  let errors := err_resource (operators_errors_ state) in
  match oerr_fetch errors, operators_isFetching state, operators_resource state with
  | None, false, None => ResourceNotFound ("Resource " +:+ resourceName +:+ " not found")
  | Some e, _, _ =>
    UpdateCSVFailed ("An error occurred while fetching the ClusterServiceVersion: " +:+ message e)
  | None, _, _ =>
    UpdateForm ("Update " +:+ resourceName) (is_icon s)
      ((λ e, "Found an error updating the instance: " +:+ message e) <$> oerr_update errors)
  end.

(** ** OperatorInstance *)

Definition owner_reference (resource : IResource) : json :=
  JObj [("name", JStr (IResourceMetadata_name (IResource_metadata resource)));
        ("kind", JStr (IResource_kind resource))].

Definition empty_crd (kind : string) : IClusterServiceVersionCRDResource :=
  mkIClusterServiceVersionCRDResource kind "" "".

Section refs.
Context (kind : IKind) (cluster namespace : string) (ownerRef : json).

Definition crd_ref (r : IClusterServiceVersionCRDResource) : ResourceRef :=
  ResourceRef_fromCRD r kind cluster namespace ownerRef.

(** The references of a definition, by kind; a definition that names no resources is taken to
    have one of each kind. *)
Definition parseResource (crd : IClusterServiceVersionCRD) : IAppViewResourceRefs :=
  match IClusterServiceVersionCRD_resources crd with
  | Some resources =>
    foldl (λ result r,
      push_ref (JStr (IClusterServiceVersionCRDResource_kind r)) (crd_ref r) result) no_refs resources
  | None =>
    {| deployments := [crd_ref (empty_crd "Deployment")];
       statefulsets := [crd_ref (empty_crd "StatefulSet")];
       daemonsets := [crd_ref (empty_crd "DaemonSet")];
       services := [crd_ref (empty_crd "Service")];
       ingresses := [crd_ref (empty_crd "Ingress")];
       secrets := [crd_ref (empty_crd "Secret")];
       otherResources := [] |}
  end.
End refs.

Record instance_page := mkInstancePage {
  ip_crd : option IClusterServiceVersionCRD;
  ip_icon : string;
  ip_deleting : bool;
  ip_resourceRefs : IAppViewResourceRefs;
  ip_modalIsOpen : bool;
}.
#[export] Instance eta_instance_page : Eta instance_page := λ p,
  mkInstancePage (ip_crd p) (ip_icon p) (ip_deleting p) (ip_resourceRefs p) (ip_modalIsOpen p).

Definition instance_init (placeholder : string) : instance_page :=
  mkInstancePage None placeholder false no_refs false.

(** The effect that follows the version. *)
Definition instance_csv_effect `{YamlDump} (csv : option IClusterServiceVersion) (crdName : string)
    (p : instance_page) : outcome instance_page :=
  match csv with
  | Some c =>
    s ← parseCSV c crdName false (mkInstanceState (ip_icon p) (ip_crd p) "");
    Ok (p <| ip_icon := is_icon s |> <| ip_crd := is_crd s |>)
  | None => Ok p
  end.

(** The effect that follows the definition, the instance and the kinds of the cluster. *)
Definition instance_refs_effect (kinds : gmap string IKind) (cluster namespace : string)
    (resource : option IResource) (p : instance_page) : instance_page :=
  match ip_crd p, resource with
  | Some crd, Some r =>
    match kinds !! IResource_kind r with
    | Some kind =>
      p <| ip_resourceRefs := parseResource kind cluster namespace (owner_reference r) crd |>
    | None => p
    end
  | _, _ => p
  end.

Inductive instance_view :=
| InstanceFailed (message : string)
| InstanceLoading (title icon : string)
| InstancePage (title icon : string) (error : option string) (notes values : option string)
    (refs : option IAppViewResourceRefs).

(** What is shown of a field of the instance. *)
Definition dumped `{YamlDump} (j : json) : option string :=
  if jtruthy j then Some (yaml_dump j) else None.

Definition OperatorInstance `{YamlDump} (instanceName : string) (state : IOperatorsState)
    (p : instance_page) : instance_view :=
  let errors := err_resource (operators_errors_ state) in
  match oerr_fetch errors with
  | Some e => InstanceFailed ("An error occurred while fetching the instance: " +:+ message e)
  | None =>
    let title := instanceName +:+ " (" +:+
                 default "undefined" (IClusterServiceVersionCRD_kind <$> ip_crd p) +:+ ")" in
    if operators_isFetching state then InstanceLoading title (ip_icon p)
    else
      let error := match oerr_delete errors with Some e => Some e | None => oerr_update errors end in
      InstancePage title (ip_icon p) ((λ e, "An error occurred: " +:+ message e) <$> error)
        (r ← operators_resource state; dumped (IResource_status r))
        (r ← operators_resource state; dumped (IResource_spec r))
        ((λ _, ip_resourceRefs p) <$> operators_resource state)
  end.

Section delete.
Context `{Lodash} `{Jwt} `{Location} `{Router} (boot : browser).

(** The page that is left and the location it moves to; without a definition it throws before
    anything is asked for. *)
Definition handleDeleteClick (cluster namespace : string) (resource : IResource) (p : instance_page)
    : prog (instance_page * option string) :=
  match ip_crd p with
  | Some crd =>
    deleted ← await (deleteResource cluster namespace
                       (resourceType (IClusterServiceVersionCRD_name crd)) resource);
    mret (p <| ip_deleting := false |> <| ip_modalIsOpen := false |>,
          if deleted : bool then Some (app_apps_list cluster namespace) else None)
  | None => Throw (undefined_access "name")
  end.
End delete.

(** ** The references of an instance *)

Lemma all_refs_concat x r s :
  x ∈ all_refs (concat_refs r s) ↔ x ∈ all_refs r ∨ x ∈ all_refs s.
Proof. unfold all_refs, workloads_of, concat_refs. simpl. set_solver. Qed.

Lemma all_refs_classify x items refs : x ∈ all_refs (classify items refs) → x ∈ refs.
Proof.
  assert (∀ (P : json * ResourceRef → Prop) `{!∀ p, Decision (P p)},
    x ∈ snd <$> filter P (zip items refs) → x ∈ refs) as Hin.
  { intros P HP ([? y] & -> & [_ Hy]%list_elem_of_filter)%list_elem_of_fmap.
    by apply elem_of_zip_r in Hy. }
  unfold all_refs, workloads_of, classify, of_kind, of_other_kinds. simpl.
  rewrite !elem_of_app. intros Hx.
  repeat (destruct Hx as [Hx|Hx]; [by eapply Hin, Hx|]). by apply elem_of_nil in Hx.
Qed.

Section instance_refs.
Context (kind : IKind) (cluster namespace : string) (ownerRef : json).

Abbreviation parse := (parseResource kind cluster namespace ownerRef).
Abbreviation ref_of := (crd_ref kind cluster namespace ownerRef).

(** The resource a definition names, as the object its reference stands for. *)
Definition named_object (r : IClusterServiceVersionCRDResource) : json :=
  JObj [("kind", JStr (IClusterServiceVersionCRDResource_kind r))].

(** Every resource of the definition has one reference, in the list of its kind, in order. *)
Lemma parseResource_classifies crd l :
  IClusterServiceVersionCRD_resources crd = Some l →
  parse crd = classify (named_object <$> l) (ref_of <$> l).
Proof using.
  intros Hl. unfold parseResource. rewrite Hl. clear Hl.
  assert (∀ acc, foldl (λ result r,
      push_ref (JStr (IClusterServiceVersionCRDResource_kind r)) (ref_of r) result) acc l =
    concat_refs acc (classify (named_object <$> l) (ref_of <$> l))) as H;
    [|rewrite H; apply no_refs_concat].
  induction l as [|r l IH]; intros acc; [by rewrite concat_refs_no_refs|].
  cbn [foldl]. rewrite IH, (push_ref_classify _ _ (named_object r)) by done.
  rewrite concat_refs_assoc. f_equal.
  change (named_object <$> r :: l) with ([named_object r] ++ (named_object <$> l)).
  change (ref_of <$> r :: l) with ([ref_of r] ++ (ref_of <$> l)). by rewrite classify_app.
Qed.

(** Whatever their kind, the references of an instance have the address of the instances of
    its own kind: the objects its tables ask for are never its own. *)
Theorem instance_refs_one_address crd ref :
  ref ∈ all_refs (parse crd) →
  getResourceURL ref =
  Kube_getResourceURL cluster (IKind_apiVersion kind) (IKind_plural kind) (IKind_namespaced kind)
    (Some (ref_namespace (ref_of (empty_crd "")))) None None.
Proof using.
  assert (∀ r, getResourceURL (ref_of r) = getResourceURL (ref_of (empty_crd ""))) as Hone by done.
  intros Hin. assert (∃ r, ref = ref_of r) as [r ->]; [|apply Hone].
  destruct (IClusterServiceVersionCRD_resources crd) as [l|] eqn:Hl.
  - rewrite (parseResource_classifies _ _ Hl) in Hin.
    apply all_refs_classify, list_elem_of_fmap in Hin as (r & -> & _). eauto.
  - unfold parseResource in Hin. rewrite Hl in Hin. unfold all_refs, workloads_of in Hin.
    simpl in Hin. set_solver.
Qed.
End instance_refs.

(** ** The definition and its example *)

Section csv.
Context `{YamlDump}.

Definition example_of (kind : string) (j : json) : bool := bool_decide (jget j "kind" = JStr kind).

Definition is_object (j : json) : bool := match j with JUndefined | JNull => false | _ => true end.

Lemma use_examples_last kind examples values :
  Forall (λ j, Is_true (is_object j)) examples →
  use_examples kind examples values =
  Ok (match last (filter (λ j, Is_true (example_of kind j)) examples) with
      | Some example => yaml_dump example
      | None => values
      end).
Proof using.
  intros Hex. revert values. induction Hex as [|j l Hj _ IH]; intros values; [done|].
  cbn [use_examples]. rewrite filter_cons.
  assert (jprop j "kind" = Ok (jget j "kind")) as -> by (by destruct j).
  cbn [mbind outcome_bind]. rewrite IH. unfold example_of. case_bool_decide as Hk.
  - rewrite decide_True by done. rewrite last_cons. by destruct (last _).
  - rewrite decide_False by auto. done.
Qed.

Lemma parse_crds_none csv crdName examples owned s :
  crdName ∉ IClusterServiceVersionCRD_name <$> owned →
  parse_crds csv crdName examples owned s = Ok s.
Proof using.
  revert s. induction owned as [|crd owned IH]; intros s; [done|].
  rewrite fmap_cons. intros [Hne Hin]%not_elem_of_cons. cbn [parse_crds]. unfold parse_crd.
  rewrite bool_decide_false by auto. cbn [mbind outcome_bind]. by apply IH.
Qed.

(** The definition that is looked for is kept, with the last example of its kind. *)
Lemma parseCSV_finds csv owned crd examples s :
  owned_crds csv = Some owned → NoDup (IClusterServiceVersionCRD_name <$> owned) → crd ∈ owned →
  csv_examples csv = Ok examples → Forall (λ j, Is_true (is_object j)) examples →
  parseCSV csv (IClusterServiceVersionCRD_name crd) true s =
  Ok (mkInstanceState (default (is_icon s) (csv_icon csv)) (Some crd)
        (match last (filter (λ j, Is_true (example_of (IClusterServiceVersionCRD_kind crd) j)) examples) with
         | Some example => yaml_dump example
         | None => is_defaultValues s
         end)).
Proof using.
  intros Hown Hnd Hin Hcsv Hex. unfold parseCSV. rewrite Hown. cbn [default from_option id].
  assert (∀ s, parse_crds csv (IClusterServiceVersionCRD_name crd) true owned s =
    parse_crd csv (IClusterServiceVersionCRD_name crd) true crd s) as ->.
  { clear -Hnd Hin. induction owned as [|c owned IH]; intros s; [by apply elem_of_nil in Hin|].
    rewrite fmap_cons in Hnd. apply NoDup_cons in Hnd as [Hnot Hnd]. cbn [parse_crds].
    apply elem_of_cons in Hin as [->|Hin].
    - destruct (parse_crd _ _ _ c s); [|done]. cbn [mbind outcome_bind]. by apply parse_crds_none.
    - unfold parse_crd at 1. rewrite bool_decide_false; [by apply IH|].
      intros Heq. apply Hnot. rewrite Heq. by apply list_elem_of_fmap_2. }
  unfold parse_crd. rewrite bool_decide_true by done. rewrite Hcsv. cbn [mbind outcome_bind].
  rewrite use_examples_last by done. cbn [mbind outcome_bind].
  destruct (csv_icon csv); by destruct s.
Qed.
End csv.

(** ** Deploying an instance *)

Section deploy.
Context `{Lodash} `{Jwt} `{Location} `{Router} `{Yaml} `{YamlDump} (boot : browser).

(** What the form hands on is the value of its text, which names its version; it reports a
    text that is not YAML and a value without a version, and throws where there is no value. *)
Lemma parseAndDeploy_cases f :
  parseAndDeploy f =
  let g err := f <| if_parseError := err |> in
  match yaml_load (if_values f) with
  | Throws e => Ok (g (Some (mk_error Error ("Unable to parse the given YAML. Got: " +:+ message e))), None)
  | Ok JUndefined | Ok JNull => Throws (undefined_access "apiVersion")
  | Ok body =>
    if jtruthy (jget body "apiVersion") then Ok (g None, Some body)
    else Ok (g (Some (mk_error Error
           "Unable parse the resource. Make sure it contains a valid apiVersion")), None)
  end.
Proof using.
  unfold parseAndDeploy. cbn [if_values setf].
  destruct (yaml_load (if_values f)) as [body|e]; [|done].
  destruct body; try done; cbn; by repeat case_match.
Qed.

(** A form whose text was emptied throws instead of reporting anything. *)
Lemma empty_form_throws f :
  yaml_load "" = Ok JUndefined →
  parseAndDeploy (handleValuesChange "" f) = Throws (undefined_access "apiVersion").
Proof using. intros Hy. rewrite parseAndDeploy_cases. cbn. by rewrite Hy. Qed.

(** C24: The form that creates an instance of a custom resource starts with the last example
    of its kind in the version of the operator.  Submitted as it is, it posts that example to
    the address of the resource, and moves to the page of the instance the example names; a
    failure stays on the form with the error in the store. *)
Theorem example_creates_instance E cluster ns csv owned crd examples example name placeholder f m :
  owned_crds csv = Some owned → NoDup (IClusterServiceVersionCRD_name <$> owned) → crd ∈ owned →
  csv_examples csv = Ok examples → Forall (λ j, Is_true (is_object j)) examples →
  last (filter (λ j, Is_true (example_of (IClusterServiceVersionCRD_kind crd) j)) examples) = Some example →
  truthy (yaml_dump example) → yaml_load (yaml_dump example) = Ok example →
  jtruthy (jget example "apiVersion") → jget (jget example "metadata") "name" = JStr name →
  ∃ s g,
    parseCSV csv (IClusterServiceVersionCRD_name crd) true (clean_state placeholder) = Ok s ∧
    parseAndDeploy (values_effect (is_defaultValues s) None f) = Ok (g, Some example) ∧
    let req := post_request (api_k8s_operators_resources cluster ns (jtext (jget example "apiVersion"))
                  (resourceType (IClusterServiceVersionCRD_name crd))) example in
    let answer := env_reply E (m_ticks m) axiosWithAuth req T_resource in
    performs boot E (create_handleDeploy cluster ns (Some csv) s example) m
      (Ok (match answer with
           | Ok _ => Some (app_operatorInstances_view cluster ns (csv_name csv)
                             (IClusterServiceVersionCRD_name crd) name)
           | Throws _ => None
           end))
      [EvDispatch creatingResource; EvRequest axiosWithAuth req;
       match answer with
       | Ok r => EvDispatch (resourceCreated r)
       | Throws e => EvDispatch (errorResourceCreate e)
       end] [].
Proof using.
  intros Hown Hnd Hin Hcsv Hex Hlast Htr Hload Hv Hname.
  pose proof (parseCSV_finds csv owned crd examples (clean_state placeholder) Hown Hnd Hin Hcsv Hex) as Hs.
  rewrite Hlast in Hs. eexists _, _. split; [exact Hs|]. split.
  - rewrite parseAndDeploy_cases. unfold values_effect. cbn. rewrite Hload.
    destruct example; try done. rewrite (Is_true_true_1 _ Hv). done.
  - intros req answer. assert (body_name example = Ok name) as Hbody.
    { unfold body_name. destruct example as [| | | | | | |fs]; try done. cbn [jprop mbind outcome_bind].
      destruct (jget (JObj fs) "metadata") eqn:Hm; try done. cbn [jprop mbind outcome_bind].
      by rewrite Hname. }
    unfold create_handleDeploy, createResource, Operators_createResource. cbn [is_crd].
    subst answer. fold req. perform. by rewrite Hbody; run_steps; read_machine.
Qed.
End deploy.
