(* ===== verification/ResourceTable.v ===== *)
(** * What the page of a release shows of its resources

    The tables of resources (src/dashboard/src/components/AppView/ResourceTable and
    src/dashboard/src/components/js/Table), the tabs, the status of the workloads
    (src/dashboard/src/components/ApplicationStatus), the update information and the
    buttons that depend on the status of the release.  Their input is the cache of the
    store, selected by [flattenResources] ([Utils]) or [filterByResourceRefs]. *)

From S2P Require Import Prelude.
From S2P Require Import Json.
From S2P Require Import JsonText.
From S2P Require Import Types.
From S2P Require Import Url.
From S2P Require Import KubeRef.
From S2P Require Import Utils.
From S2P Require Import AppView.

Definition filterByResourceRefs (refs : list ResourceRef)
    (resources : gmap string (IKubeItem kube_object)) : list (IKubeItem kube_object) :=
  omap (λ r, resources !! getResourceURL r) refs.

Definition isSomeResourceLoading (resources : list (IKubeItem kube_object)) : bool :=
  some IKubeItem_isFetching resources.

(** An object of the cache, as the helpers that read paths in it see it. *)
Definition resource_json (r : IResource) : json :=
  JObj [("apiVersion", JStr (IResource_apiVersion r)); ("kind", JStr (IResource_kind r));
        ("type", JStr (IResource_type r)); ("spec", IResource_spec r);
        ("status", IResource_status r);
        ("metadata", JObj [("name", JStr (IResourceMetadata_name (IResource_metadata r)))])].

Definition object_json (o : kube_object) : json :=
  match kube_object_props o with
  | PResource r => resource_json r
  | PList apiVersion kind _ => JObj [("apiVersion", JStr apiVersion); ("kind", JStr kind)]
  | PNone => JObj []
  end.

(** ** The table *)

Inductive cell :=
| Value (j : json)
| Loading
| ErrorCell (message : string)
| Unknown
| SecretData.

Section table.
Context `{Lodash}.

Record column := mkColumn {
  accessor : string;
  Header : string;
  getter : json → outcome cell;
}.

(** [target => get(target, path)]. *)
Definition by_path (path : string) (target : json) : outcome cell :=
  Ok (Value (get target path JUndefined)).
Definition NameColumn : column := mkColumn "name" "NAME" (by_path "metadata.name").

Definition DeploymentColumns : list column :=
  [NameColumn; mkColumn "desired" "DESIRED" (by_path "status.replicas");
   mkColumn "upToDate" "UP-TO-DATE" (by_path "status.updatedReplicas");
   mkColumn "available" "AVAILABLE" (by_path "status.availableReplicas")].

Definition StatefulSetColumns : list column :=
  [NameColumn; mkColumn "desired" "DESIRED" (by_path "spec.replicas");
   mkColumn "upToDate" "UP-TO-DATE" (by_path "status.updatedReplicas");
   mkColumn "ready" "READY" (by_path "status.readyReplicas")].

Definition DaemonSetColumns : list column :=
  [NameColumn; mkColumn "desired" "DESIRED" (by_path "status.currentNumberScheduled");
   mkColumn "available" "AVAILABLE" (by_path "status.numberReady")].

Definition OtherResourceColumns : list column :=
  [NameColumn; mkColumn "kind" "KIND" (by_path "kind")].

(** The texts of the data of a secret are not part of the cached objects modelled: their
    cell is a constant. *)
Definition SecretColumns : list column :=
  [NameColumn; mkColumn "type" "TYPE" (by_path "type");
   mkColumn "data" "DATA" (λ _, Ok SecretData)].

Definition getServiceExternalIP (service : json) : outcome json :=
  let spec := jget service "spec" in
  let status := jget service "status" in
  type ← jprop spec "type";
  if bool_decide (type ≠ JStr "LoadBalancer") then Ok (JStr "None")
  else
    loadBalancer ← jprop status "loadBalancer";
    ingress ← jprop loadBalancer "ingress";
    match ingress with
    | JArr (first :: _) =>
      hostname ← jprop first "hostname";
      Ok (jor hostname (jor (jget first "ip") (JStr "Pending")))
    | _ => Ok (JStr "Pending")
    end.

Definition port_text (p : json) : outcome string :=
  port ← jprop p "port";
  Ok (jtext port +:+
      (if jtruthy (jget p "nodePort") then ":" +:+ jtext (jget p "nodePort") else "") +:+ "/" +:+
      jtext (jor (jget p "protocol") (JStr "TCP"))).

Definition getServicePorts (service : json) : outcome string :=
  ports ← jprop (jget service "spec") "ports";
  if jtruthy ports then
    l ← jarray "service.spec.ports.map" ports;
    texts ← collect (λ p, t ← port_text p; Ok [t]) l;
    Ok (join ", " texts)
  else Ok "".

Definition ServiceColumns : list column :=
  [NameColumn; mkColumn "type" "TYPE" (by_path "spec.type");
   mkColumn "clusterIP" "CLUSTER-IP" (by_path "spec.clusterIP");
   mkColumn "externalIP" "EXTERNAL-IP" (λ t, ip ← getServiceExternalIP t; Ok (Value ip));
   mkColumn "ports" "PORT(S)" (λ t, ports ← getServicePorts t; Ok (Value (JStr ports)))].

Definition getColumns (r : ResourceRef) : list column :=
  if decide (ref_kind r = "Deployment") then DeploymentColumns
  else if decide (ref_kind r = "StatefulSet") then StatefulSetColumns
  else if decide (ref_kind r = "DaemonSet") then DaemonSetColumns
  else if decide (ref_kind r = "Service") then ServiceColumns
  else if decide (ref_kind r = "Secret") then SecretColumns
  else OtherResourceColumns.

(** A row: the cells by accessor. *)
Abbreviation row := (list (string * cell)).

(** [data[accessors[1]] = c] and the like. *)
Definition second_accessor (columns : list column) : string :=
  default "undefined" (accessor <$> columns !! 1).

Fixpoint fill (columns : list column) (target : json) (data : row) : outcome row :=
  match columns with
  | [] => Ok data
  | c :: columns' => v ← getter c target; fill columns' target (obj_set (accessor c) v data)
  end.

(** [None] is [undefined]: the last branch builds the row and returns nothing. *)
Definition getData (name : option string) (columns : list column)
    (resource : option (IKubeItem kube_object)) : outcome (option row) :=
  let data := [("name", Value (match name with Some n => JStr n | None => JUndefined end))] in
  let second := second_accessor columns in
  match resource with
  | None => Ok (Some (obj_set second Loading data))
  | Some r =>
    if IKubeItem_isFetching r then Ok (Some (obj_set second Loading data))
    else
      match IKubeItem_error r with
      | Some e => Ok (Some (obj_set second (ErrorCell (message e)) data))
      | None =>
        match IKubeItem_item r with
        | Some item => data ← fill columns (object_json item) data; Ok (Some data)
        | None => Ok None
        end
      end
  end.

Definition table_columns (resourceRefs : list ResourceRef) : list column :=
  match resourceRefs with r :: _ => getColumns r | [] => OtherResourceColumns end.

(** The rows of the table: a list is one reference, otherwise the positions are matched. *)
Fixpoint table_rows (columns : list column) (resourceRefs : list ResourceRef) (index : nat)
    (resources : list (IKubeItem kube_object)) : outcome (list (option row)) :=
  match resources with
  | [] => Ok []
  | resource :: resources' =>
    r ← match (if bool_decide (length resourceRefs = 1) then resourceRefs !! 0
               else resourceRefs !! index) with
        | Some ref => getData (ref_name ref) columns (Some resource)
        | None => Ok (Some [])
        end;
    rs ← table_rows columns resourceRefs (S index) resources';
    Ok (r :: rs)
  end.

Definition ResourceTable (resourceRefs : list ResourceRef)
    (items : gmap string (IKubeItem kube_object)) : outcome (option (list (option row))) :=
  rows ← table_rows (table_columns resourceRefs) resourceRefs 0
           (flattenResources resourceRefs items);
  Ok (if bool_decide (0 < length resourceRefs) then Some rows else None).

(** [data || "-"], the content of a cell of the table. *)
Definition cell_text (c : option cell) : cell :=
  match c with
  | Some (Value j) => if jtruthy j then Value j else Value (JStr "-")
  | Some c => c
  | None => Value (JStr "-")
  end.

(** The cells of a row; a row that is [undefined] has no properties to read. *)
Definition TableRow (columns : list column) (r : option row) : outcome (list cell) :=
  match r with
  | Some data => Ok ((λ c, cell_text (assoc (accessor c) data)) <$> columns)
  | None =>
    match columns with
    | [] => Ok []
    | c :: _ => Throws (undefined_access (accessor c))
    end
  end.
End table.

(** ** Tabs *)

Definition ResourceTabs (r : IAppViewResourceRefs) : list (string * list ResourceRef) :=
  filter (λ t, t.2 ≠ [])
    [("Deployments", deployments r); ("StatefulSets", statefulsets r);
     ("DaemonSets", daemonsets r); ("Secrets", secrets r); ("Services", services r);
     ("Other Resources", otherResources r)].

(** ** The status of the workloads *)
Section status.
Context `{Lodash}.

Record IWorkload := mkWorkload {
  workload_name : string;
  workload_replicas : json;
  workload_readyReplicas : json;
  workload_type : string;
}.

Definition flattenItemList (items : list (IKubeItem kube_object)) : list kube_object :=
  items ≫= λ i,
    match IKubeItem_item i with
    | Some o =>
      match kube_object_items o with
      | Some l => KResource <$> l
      | None => [o]
      end
    | None => []
    end.

Definition codeToString (status : option hapi_release_IStatus) : option string :=
  match status ≫= IStatus_code with
  | Some 1 => Some "Deployed"
  | Some 2 => Some "Deleted"
  | Some 3 => Some "Superseded"
  | Some 4 => Some "Failed"
  | Some 5 => Some "Deleting"
  | Some 6 => Some "Pending Install"
  | Some 7 => Some "Pending Upgrade"
  | Some 8 => Some "Pending Rollback"
  | Some 0 | None => Some "Unknown"
  | Some _ => None
  end%Z.

(** A number of replicas as a summand: what is falsy is not added. *)
Definition count (j : json) : Z := match j with JNum n => n | _ => 0 end.

Record pods := mkPods { totalPods : Z; readyPods : Z; workloads : list IWorkload }.
#[export] Instance eta_pods : Eta pods := λ p, mkPods (totalPods p) (readyPods p) (workloads p).

Definition object_name (o : kube_object) : string :=
  jtext (jget (jget (object_json o) "metadata") "name").

Definition count_workload (readyKey totalKey type : string) (p : pods) (w : kube_object) : pods :=
  let wReady := get (object_json w) readyKey (JNum 0) in
  let wTotal := get (object_json w) totalKey (JNum 0) in
  mkPods (totalPods p + count wTotal) (readyPods p + count wReady)
    (workloads p ++ [mkWorkload (object_name w) wTotal wReady type]).

Definition count_pods (ds ss dss : list (IKubeItem kube_object)) : pods :=
  let p := foldl (count_workload "status.availableReplicas" "spec.replicas" "deployment")
             (mkPods 0 0 []) (flattenItemList ds) in
  let p := foldl (count_workload "status.readyReplicas" "spec.replicas" "statefulset")
             p (flattenItemList ss) in
  foldl (count_workload "status.numberReady" "status.currentNumberScheduled" "daemonset")
    p (flattenItemList dss).

Inductive status_view :=
| StatusLoading
| StatusDeleted
| StatusHelm (status : string)
| StatusNoWorkload
| StatusPods (ready : bool) (readyPods : Z) (plural : bool) (rows : list (string * string)).

Definition ApplicationStatus (ds ss dss : list (IKubeItem kube_object))
    (info : option hapi_release_IInfo) : status_view :=
  let p := count_pods ds ss dss in
  let with_pods :=
    if bool_decide (totalPods p = 0%Z) then StatusNoWorkload
    else
      StatusPods (bool_decide (totalPods p = readyPods p)) (readyPods p)
        (bool_decide (1 < readyPods p)%Z)
        ((λ w, (workload_name w,
                jtext (workload_readyReplicas w) +:+ "/" +:+ jtext (workload_replicas w)))
         <$> workloads p) in
  if isSomeResourceLoading (ds ++ ss ++ dss) then StatusLoading
  else
    match info with
    | Some i =>
      if match IInfo_deleted i with Some d => jtruthy d | None => false end then StatusDeleted
      else
        match IInfo_status i with
        | Some status =>
          let helmStatus := codeToString (Some status) in
          if bool_decide (helmStatus ≠ Some "Deployed") then StatusHelm (default "" helmStatus)
          else with_pods
        | None => with_pods
        end
    | None => with_pods
    end.
End status.

(** ** Updates and buttons *)

Inductive update_view :=
| UpdateFailed (message : string)
| UpToDate
| NewAppVersion (version link : string)
| NewChartVersion (version link : string).

Definition getUpdateInfo (name namespace cluster : string) (u : IChartUpdateInfo)
    (chartMetadata : hapi_chart_IMetadata) : update_view :=
  match IChartUpdateInfo_error u with
  | Some e => UpdateFailed (message e)
  | None =>
    if IChartUpdateInfo_upToDate u then UpToDate
    else if bool_decide (IMetadata_appVersion chartMetadata ≠
                         Some (IChartUpdateInfo_appLatestVersion u))
    then NewAppVersion (IChartUpdateInfo_appLatestVersion u)
           (app_apps_upgrade cluster namespace name)
    else NewChartVersion (IChartUpdateInfo_chartLatestVersion u)
           (app_apps_upgrade cluster namespace name)
  end.

Definition ChartUpdateInfo (app : IRelease) (cluster : string) : option update_view :=
  u ← IRelease_updateInfo app;
  md ← IRelease_chart app ≫= IChart_metadata;
  Some (getUpdateInfo (IRelease_name app) (IRelease_namespace app) cluster u md).

(** A button that depends on the status of the release: disabled without a status code
    and while the release is changing, with a tooltip that says why. *)
Definition button_disabled (releaseStatus : option hapi_release_IStatus) : bool :=
  match releaseStatus ≫= IStatus_code with
  | None => true
  | Some code => ((5 <=? code) && (code <? 9))%Z
  end.

Definition button_tooltip (releaseStatus : option hapi_release_IStatus) : option string :=
  match releaseStatus ≫= IStatus_code with
  | Some 5 => Some "The application is being deleted."
  | Some 6 => Some "The application is pending installation."
  | Some 7 => Some "The application is pending upgrade."
  | Some 8 => Some "The application is pending rollback."
  | _ => None
  end%Z.

(** ** Facts *)
Section table_facts.
Context `{Lodash}.

Definition zsum (l : list Z) : Z := foldr Z.add 0%Z l.

Lemma zsum_app l k : zsum (l ++ k) = (zsum l + zsum k)%Z.
Proof. induction l as [|x l IH]; simpl; [done|]. unfold zsum in *. simpl. rewrite IH. lia. Qed.

(** The workloads of one kind, as rows. *)
Definition workload_rows (readyKey totalKey type : string) (l : list kube_object) : list IWorkload :=
  (λ w, mkWorkload (object_name w) (get (object_json w) totalKey (JNum 0))
          (get (object_json w) readyKey (JNum 0)) type) <$> l.

Definition consistent (p : pods) : Prop :=
  totalPods p = zsum (count <$> (workload_replicas <$> workloads p)) ∧
  readyPods p = zsum (count <$> (workload_readyReplicas <$> workloads p)).

Lemma count_workloads readyKey totalKey type l p :
  consistent p →
  let p' := foldl (count_workload readyKey totalKey type) p l in
  consistent p' ∧ workloads p' = workloads p ++ workload_rows readyKey totalKey type l.
Proof.
  revert p. induction l as [|w l IH]; intros p Hp; cbn [foldl].
  { split; [done|]. simpl. by rewrite app_nil_r. }
  destruct (IH (count_workload readyKey totalKey type p w)) as [Hc Hw].
  { destruct Hp as [Ht Hr]. unfold consistent, count_workload. cbn.
    rewrite !fmap_app, !zsum_app, <- Ht, <- Hr. cbn. split; lia. }
  split; [exact Hc|]. rewrite Hw. cbn. by rewrite <- (assoc_L (++)).
Qed.

(** The status counts every workload once: its rows are those of the deployments, the
    stateful sets and the daemon sets, and the totals are the sums of the rows. *)
Theorem count_pods_sums ds ss dss :
  let p := count_pods ds ss dss in
  workloads p =
    workload_rows "status.availableReplicas" "spec.replicas" "deployment" (flattenItemList ds) ++
    workload_rows "status.readyReplicas" "spec.replicas" "statefulset" (flattenItemList ss) ++
    workload_rows "status.numberReady" "status.currentNumberScheduled" "daemonset"
      (flattenItemList dss) ∧
  totalPods p = zsum (count <$> (workload_replicas <$> workloads p)) ∧
  readyPods p = zsum (count <$> (workload_readyReplicas <$> workloads p)).
Proof.
  unfold count_pods.
  destruct (count_workloads "status.availableReplicas" "spec.replicas" "deployment"
    (flattenItemList ds) (mkPods 0 0 [])) as [H1 W1]; [done|].
  destruct (count_workloads "status.readyReplicas" "spec.replicas" "statefulset"
    (flattenItemList ss) _ H1) as [H2 W2].
  destruct (count_workloads "status.numberReady" "status.currentNumberScheduled" "daemonset"
    (flattenItemList dss) _ H2) as [H3 W3].
  split; [|exact H3]. cbn zeta. rewrite W3, W2, W1. cbn. by rewrite <- (assoc_L (++)).
Qed.

(** A release that has a status code has its buttons disabled exactly when a tooltip
    says why. *)
Theorem button_disabled_explained status code :
  IStatus_code status = Some code →
  button_disabled (Some status) = true ↔ is_Some (button_tooltip (Some status)).
Proof.
  intros Hc. unfold button_disabled, button_tooltip. cbn. rewrite Hc.
  split.
  - rewrite andb_true_iff, Z.leb_le, Z.ltb_lt. intros [H1 H2].
    assert (code = 5 ∨ code = 6 ∨ code = 7 ∨ code = 8)%Z as [->|[->|[->| ->]]] by lia; eauto.
  - intros [t Ht]. do 4 (destruct code as [|code|code]; try done; destruct code as [code|code|]; try done).
Qed.

(** The row of an entry of the cache that is neither being fetched nor failed and has no
    object is built and then lost, and the table that is given it throws. *)
Theorem getData_unknown_throws name columns r c cs :
  IKubeItem_isFetching r = false → IKubeItem_error r = None → IKubeItem_item r = None →
  columns = c :: cs →
  (row ← getData name columns (Some r); TableRow columns row) =
  Throws (undefined_access (accessor c)).
Proof. intros Hf He Hi ->. unfold getData. rewrite Hf, He, Hi. done. Qed.

(** The rows are matched with the references by position, but a reference that is not in
    the cache has no row: the name of the row of the second reference is then the name of
    the first, until the object is there. *)
Theorem ResourceTable_shifted_name r1 r2 items i c1 c2 cs :
  items !! getResourceURL r1 = None → items !! getResourceURL r2 = Some i →
  IKubeItem_item i = None → IKubeItem_isFetching i = true →
  table_columns [r1; r2] = c1 :: c2 :: cs → accessor c2 ≠ "name" →
  ∃ data, ResourceTable [r1; r2] items = Ok (Some [Some data]) ∧
    assoc "name" data =
    Some (Value (match ref_name r1 with Some n => JStr n | None => JUndefined end)).
Proof.
  intros H1 H2 Hi Hf Hc Hname. unfold ResourceTable, flattenResources. rewrite Hc.
  cbn [mbind list_bind]. rewrite H1, H2, Hi. cbn. rewrite Hf. cbn. eexists. split; [done|].
  rewrite bool_decide_false by done. by simpl.
Qed.
End table_facts.
