(* ===== verification/ReleaseControls.v ===== *)
(** * The controls of a release and what its page shows of it

    The components of src/dashboard/src/components/AppView around the table of resources:
    the buttons that upgrade, roll back and delete a release with their dialogs, the secrets
    of the release, its notes, its values and the data of its chart. *)

From S2P Require Import Prelude.
From S2P Require Import Json.
From S2P Require Import JsonText.
From S2P Require Import Browser.
From S2P Require Import Types.
From S2P Require Import Url.
From S2P Require Import KubeRef.
From S2P Require Import Actions.
From S2P Require Import Store.
From S2P Require Import Thunk.
From S2P Require Import HelmServices.
From S2P Require Import Schema.
From S2P Require Import AppsActions.
From S2P Require Import RepoForm.
From S2P Require Import Utils.
From S2P Require Import Routes.
From S2P Require Import AppView.
From S2P Require Import ResourceTable.

(** ** ConfirmDialog *)

Inductive confirm_body :=
| ConfirmLoading
| ConfirmButtons (confirmationText : string) (extraElem : option string) (confirmButton : string).

Definition ConfirmDialog (modalIsOpen loading : bool) (extraElem headerText : option string)
    (confirmationText : string) (confirmationButtonText : option string) (error : option js_error)
    : option (option string * option string * confirm_body) :=
  if modalIsOpen then
    Some (match headerText with Some h => if truthy h then Some h else None | None => None end,
          (λ e, "An error ocurred: " +:+ message e) <$> error,
          if loading then ConfirmLoading
          else ConfirmButtons confirmationText extraElem (or_opt_str confirmationButtonText "Delete"))
  else None.

(** ** DeleteButton *)

Record delete_button := mkDeleteButton { db_modalIsOpen : bool; db_deleting : bool }.
#[export] Instance eta_delete_button : Eta delete_button := λ b,
  mkDeleteButton (db_modalIsOpen b) (db_deleting b).

Definition delete_init : delete_button := mkDeleteButton false false.
Definition delete_openModal (b : delete_button) : delete_button := b <| db_modalIsOpen := true |>.
Definition delete_closeModal (b : delete_button) : delete_button := b <| db_modalIsOpen := false |>.

(** While the request runs. *)
Definition delete_started (b : delete_button) : delete_button := b <| db_deleting := true |>.

Definition DeleteDialog (b : delete_button) (error : option js_error) :=
  ConfirmDialog (db_modalIsOpen b) (db_deleting b) None (Some "Delete application")
    "Are you sure you want to delete the application?" None error.

(** ** RollbackDialog *)

Record rollback_dialog := mkRollbackDialog {
  rd_currentRevision : Z;
  rd_targetRevision : Z;
  rd_hasUserChanges : bool;
  rd_committed : option (bool * Z);
}.
#[export] Instance eta_rollback_dialog : Eta rollback_dialog := λ d,
  mkRollbackDialog (rd_currentRevision d) (rd_targetRevision d) (rd_hasUserChanges d)
    (rd_committed d).

Definition rollback_init (currentRevision : Z) : rollback_dialog :=
  mkRollbackDialog currentRevision currentRevision false None.

Definition disableRollback (d : rollback_dialog) : bool := bool_decide (rd_currentRevision d = 1%Z).

(** [for (let i = currentRevision - 1; i > 0; i--) options.push(i)]. *)
Definition rollback_options (currentRevision : Z) : list Z :=
  (λ i, (currentRevision - 1 - Z.of_nat i)%Z) <$> seq 0 (Z.to_nat (currentRevision - 1)).

Definition selectRevision (value : Z) (d : rollback_dialog) : rollback_dialog :=
  d <| rd_hasUserChanges := true |> <| rd_targetRevision := value |>.

(** A render and its effect, which runs when [hasUserChanges] or the revision changed. *)
Definition rollback_effect (d : rollback_dialog) : rollback_dialog :=
  let deps := (rd_hasUserChanges d, rd_currentRevision d) in
  let d' :=
    if bool_decide (rd_committed d ≠ Some deps) && negb (rd_hasUserChanges d)
    then d <| rd_targetRevision := (rd_currentRevision d - 1)%Z |> else d in
  d' <| rd_committed := Some deps |>.

Inductive rollback_body := RollbackLoading | NotUpgraded | RevisionSelector (value current : Z) (options : list Z).

(** The error, the content and whether the button to roll back is disabled. *)
Definition RollbackDialogView (modalIsOpen loading : bool) (error : option js_error)
    (d : rollback_dialog) : option (option string * rollback_body * bool) :=
  if modalIsOpen then
    Some ((λ e, "An error occurred: " +:+ message e) <$> error,
          if loading then RollbackLoading
          else if disableRollback d then NotUpgraded
          else RevisionSelector (rd_targetRevision d) (rd_currentRevision d)
                 (rollback_options (rd_currentRevision d)),
          disableRollback d)
  else None.

(** What happens to a dialog that is shown: renders, new revisions of the release, which are
    later ones, and the choice of an option. *)
Inductive rollback_step : rollback_dialog → rollback_dialog → Prop :=
| RollbackRender d : rollback_step d (rollback_effect d)
| RollbackRevision d revision :
    (rd_currentRevision d ≤ revision)%Z → rollback_step d (d <| rd_currentRevision := revision |>)
| RollbackSelect d value :
    value ∈ rollback_options (rd_currentRevision d) → rollback_step d (selectRevision value d).

(** ** The buttons *)

Section buttons.
Context `{Lodash} `{Jwt} `{Location} `{Router} `{Yaml} `{Ajv} `{Semver} (boot : browser).

(** The location it moves to, and the state that is left. *)
Definition delete_handleDeleteClick (cluster namespace releaseName : string) (b : delete_button)
    : prog (option string * delete_button) :=
  deleted ← await (deleteApp cluster namespace releaseName true);
  mret (if deleted : bool then Some (app_apps_list cluster namespace) else None,
        b <| db_deleting := false |>).

(** Whether the dialog stays open. *)
Definition handleRollback (cluster namespace releaseName : string) (revision : Z) : prog bool :=
  success ← await (rollbackApp cluster namespace releaseName revision);
  mret (negb success).
End buttons.

Definition UpgradeButton (cluster namespace releaseName : string)
    (releaseStatus : option hapi_release_IStatus) : string * bool :=
  (app_apps_upgrade cluster namespace releaseName, button_disabled releaseStatus).

(** ** Secrets *)

Record secret_datum := mkSecretDatum { sd_hidden : bool; sd_copied : bool; sd_timer : bool }.
#[export] Instance eta_secret_datum : Eta secret_datum := λ d,
  mkSecretDatum (sd_hidden d) (sd_copied d) (sd_timer d).

Definition datum_init : secret_datum := mkSecretDatum true false false.
Definition toggleDisplay (d : secret_datum) : secret_datum := d <| sd_hidden := negb (sd_hidden d) |>.

(** Setting [copied] starts the timer; setting it again changes nothing, so the timer is not
    started anew. *)
Definition setCopiedTrue (d : secret_datum) : secret_datum :=
  if sd_copied d then d else d <| sd_copied := true |> <| sd_timer := true |>.
Definition datum_timeout (d : secret_datum) : secret_datum :=
  if sd_timer d then d <| sd_copied := false |> <| sd_timer := false |> else d.

Record datum_view := mkDatumView {
  dv_input_type : string;
  dv_value : string;
  dv_label : string;
  dv_copied : bool;
}.

(** The value of a secret that is no base64 text makes the component throw. *)
Definition SecretItemDatum (value : string) (d : secret_datum) : outcome datum_view :=
  decodedValue ← atob value;
  Ok {| dv_input_type := if sd_hidden d then "password" else "text";
        dv_value := decodedValue;
        dv_label := if sd_hidden d then "Show Secret" else "Hide Secret";
        dv_copied := sd_copied d |}.

(** The entries of the data of a secret, when there are any. *)
Definition secret_entries (data : json) : option (list (string * string)) :=
  match data with
  | JObj ((_ :: _) as fs) => Some ((λ kv, (kv.1, jtext kv.2)) <$> fs)
  | _ => None
  end.

(** [getSecretData] of the table of resources. *)
Inductive secret_cell := EmptySecret | SecretEntries (entries : list (string * string)).
Definition table_getSecretData (data : json) : secret_cell :=
  match secret_entries data with None => EmptySecret | Some l => SecretEntries l end.

Inductive secrets_view :=
| SecretsLoading
| NoSecrets
| SecretsList (secrets : list (option (list (string * string)))).

(** [data_of] reads the property [data] of an object of the cache. *)
Definition AppSecrets (data_of : kube_object → json) (secretRefs : list ResourceRef)
    (items : gmap string (IKubeItem kube_object)) : secrets_view :=
  let secrets := flattenResources secretRefs items in
  if some IKubeItem_isFetching secrets then SecretsLoading
  else if bool_decide (secretRefs = []) then NoSecrets
  else SecretsList ((λ secret, o ← IKubeItem_item secret; secret_entries (data_of o)) <$> secrets).

(** ** Notes and the data of the chart *)

Definition AppNotes (title notes : option string) : option (string * string) :=
  match notes with
  | Some n => if truthy n then Some (or_opt_str title "Installation Notes", n) else None
  | None => None
  end.

Definition AppValues (values theme : string) : option (string * string) :=
  if bool_decide (values ≠ "")
  then Some (values, if bool_decide (theme = "dark") then "solarized_dark" else "xcode") else None.

Record chart_info := mkChartInfo {
  ci_appVersion : option string;
  ci_version : option string;
  ci_update : option update_view;
  ci_description : option string;
}.

Definition ChartInfo (app : IRelease) (cluster : string) : option chart_info :=
  (λ md,
    {| ci_appVersion :=
         match IMetadata_appVersion md with Some v => if truthy v then Some v else None | None => None end;
       ci_version := IMetadata_version md;
       ci_update := ChartUpdateInfo app cluster;
       ci_description := IMetadata_description md |})
    <$> (IRelease_chart app ≫= IChart_metadata).

(** ** The revisions a release can be rolled back to *)

Lemma rollback_options_spec c v : v ∈ rollback_options c ↔ (1 ≤ v < c)%Z.
Proof.
  unfold rollback_options. rewrite list_elem_of_fmap. split.
  - intros (i & -> & [_ Hi]%elem_of_seq). lia.
  - intros Hv. exists (Z.to_nat (c - 1 - v)). split; [lia|]. apply elem_of_seq. lia.
Qed.

(** The target of a dialog that has been rendered is an earlier revision, unless there is
    none. *)
Definition rollback_ok (d : rollback_dialog) : Prop :=
  (1 ≤ rd_currentRevision d)%Z ∧
  (if rd_hasUserChanges d then (1 ≤ rd_targetRevision d < rd_currentRevision d)%Z
   else ∀ c, rd_committed d = Some (false, c) → rd_targetRevision d = (c - 1)%Z).

Lemma rollback_step_ok d d' : rollback_step d d' → rollback_ok d → rollback_ok d'.
Proof.
  intros Hs [H1 Ht]. destruct Hs as [d|d revision Hr|d value Hv]; destruct d as [cur target user com];
    unfold rollback_ok, rollback_effect, selectRevision in *; cbn in *.
  - case_bool_decide as Hc; cbn; destruct user; cbn in *; split; try done; intros c [= <-]; [done|].
    by apply Ht.
  - split; [lia|]. destruct user; [lia|done].
  - apply rollback_options_spec in Hv. by split.
Qed.

Lemma rollback_reachable_ok c d :
  (1 ≤ c)%Z → rtc rollback_step (rollback_init c) d → rollback_ok d.
Proof.
  intros Hc Hr. assert (rollback_ok (rollback_init c)) as Hi by (by split).
  induction Hr as [|d1 d2 d3 Hs _ IH]; [done|]. by eapply IH, rollback_step_ok.
Qed.

Section performed.
Context `{Lodash} `{Jwt} `{Location} `{Router} `{Yaml} `{Ajv} `{Semver} (boot : browser).

Definition rollback_request (cluster ns release : string) (revision : Z) : request :=
  mkRequest PUT (kubeops_releases_get cluster ns release) (JObj [])
    [("action", JStr "rollback"); ("revision", JNum revision)] [].

Lemma getAppWithUpdateInfo_sync cluster ns release m :
  ∃ q, run_sync boot (getAppWithUpdateInfo cluster ns release) m =
    (q, m_log (EvRequest axiosWithAuth (get_request (kubeops_releases_get cluster ns release)))
          (dispatched boot requestApps m)) ∧ waiting q.
Proof using.
  unfold getAppWithUpdateInfo, getApp, App_getRelease. eexists. split; [run_steps; reflexivity|done].
Qed.

Lemma handleRollback_performs E cluster ns release revision m :
  let req := rollback_request cluster ns release revision in
  ∃ fs,
    match env_reply E (m_ticks m) axiosWithAuth req T_json with
    | Ok _ =>
      performs boot E (handleRollback cluster ns release revision) m (Ok false)
        [EvDispatch requestRollbackApp; EvRequest axiosWithAuth req; EvDispatch receiveRollbackApp;
         EvDispatch requestApps;
         EvRequest axiosWithAuth (get_request (kubeops_releases_get cluster ns release))] fs ∧
      length fs = 1
    | Throws e =>
      performs boot E (handleRollback cluster ns release revision) m (Ok true)
        [EvDispatch requestRollbackApp; EvRequest axiosWithAuth req; app_error RollbackError e] fs ∧
      fs = []
    end.
Proof using.
  intros req. unfold handleRollback, rollbackApp, App_rollback. fold (rollback_request cluster ns release revision).
  fold req. destruct (env_reply E (m_ticks m) axiosWithAuth req T_json) as [j|e] eqn:Hr.
  - destruct (getAppWithUpdateInfo_sync cluster ns release (dispatched boot receiveRollbackApp
      (do_tick boot E (do_tick boot E (m_log (EvRequest axiosWithAuth req)
        (dispatched boot requestRollbackApp m)))))) as (q & Hq & Hw).
    exists [(q ≫= λ _, Ret ())]. split; [|done].
    unfold performs. run_steps. read_machine. rewrite Hr. run_reduce. run_steps. read_machine.
    rewrite Hq. destruct q; try done; run_steps; read_machine; by split_and!.
  - eexists. split; [|reflexivity]. unfold performs. run_steps. read_machine. rewrite Hr. run_reduce. perform.
Qed.
(** C26: Rolling back: whatever was chosen in the dialog, and however the release moved on in
    the meantime, the revision the button asks for is one of the options, an earlier one than
    the current revision.  One request is sent for it; when it succeeds the dialog is
    closed and the release is asked for again, otherwise the dialog stays open and the
    failure is reported. *)
Theorem rollback_targets_earlier E c d cluster ns release m :
  (1 ≤ c)%Z → rtc rollback_step (rollback_init c) d →
  rd_committed d = Some (rd_hasUserChanges d, rd_currentRevision d) → disableRollback d = false →
  let revision := rd_targetRevision d in
  let req := rollback_request cluster ns release revision in
  (1 ≤ revision < rd_currentRevision d)%Z ∧ revision ∈ rollback_options (rd_currentRevision d) ∧
  ∃ fs,
    match env_reply E (m_ticks m) axiosWithAuth req T_json with
    | Ok _ =>
      performs boot E (handleRollback cluster ns release revision) m (Ok false)
        [EvDispatch requestRollbackApp; EvRequest axiosWithAuth req; EvDispatch receiveRollbackApp;
         EvDispatch requestApps;
         EvRequest axiosWithAuth (get_request (kubeops_releases_get cluster ns release))] fs ∧
      length fs = 1
    | Throws e =>
      performs boot E (handleRollback cluster ns release revision) m (Ok true)
        [EvDispatch requestRollbackApp; EvRequest axiosWithAuth req; app_error RollbackError e] fs ∧
      fs = []
    end.
Proof using.
  intros Hc Hr Hcom Hdis revision req.
  destruct (rollback_reachable_ok _ _ Hc Hr) as [H1' Ht].
  assert (1 ≤ revision < rd_currentRevision d)%Z as Hrange.
  { unfold disableRollback in Hdis. apply bool_decide_eq_false in Hdis. subst revision.
    destruct (rd_hasUserChanges d); [done|]. rewrite (Ht _ Hcom). lia. }
  split; [done|]. split; [by apply rollback_options_spec|]. apply handleRollback_performs.
Qed.

(** Deleting a release purges it; the page moves to the list of applications when that
    succeeds, and stays, with the error in the store, when it fails. *)
Theorem delete_moves_to_list E cluster ns release b m :
  let req := delete_request (kubeops_releases_get cluster ns release +:+ "?purge=true") in
  let reply := env_reply E (m_ticks m) axiosWithAuth req T_json in
  performs boot E (delete_handleDeleteClick cluster ns release b) m
    (Ok (match reply with Ok _ => Some (app_apps_list cluster ns) | Throws _ => None end,
         b <| db_deleting := false |>))
    [EvDispatch requestDeleteApp; EvRequest axiosWithAuth req;
     match reply with
     | Ok _ => EvDispatch receiveDeleteApp
     | Throws e => app_error DeleteError e end] [].
Proof using.
  intros req reply. pose proof (performs_then boot E _
    (λ deleted : bool, (if deleted then Some (app_apps_list cluster ns) else None,
       b <| db_deleting := false |>)) _ _ _ _ (deleteApp_performs boot E cluster ns release true m)) as Hp.
  cbv beta zeta iota in Hp. fold req in Hp. subst reply. unfold delete_handleDeleteClick.
  destruct (env_reply E (m_ticks m) axiosWithAuth req T_json); exact Hp.
Qed.
End performed.

(** ** Secrets *)

(** A value is shown, first hidden, as the text of one character for each byte: as the bytes it
    was made of when they are ASCII, but not in general, since the data of a secret is UTF-8. *)
Theorem SecretItemDatum_shows bytes d :
  SecretItemDatum (base64 bytes) d =
  Ok {| dv_input_type := if sd_hidden d then "password" else "text"; dv_value := of_latin1 bytes;
        dv_label := if sd_hidden d then "Show Secret" else "Hide Secret"; dv_copied := sd_copied d |} ∧
  (is_ascii bytes → of_latin1 bytes = bytes).
Proof. split; [|exact (of_latin1_ascii bytes)]. unfold SecretItemDatum. by rewrite atob_base64. Qed.

(** However often the value was copied, the next timer says that it is no longer. *)
Lemma copied_until_timeout d :
  sd_timer d = sd_copied d →
  sd_copied (datum_timeout (setCopiedTrue d)) = false ∧
  sd_timer (datum_timeout (setCopiedTrue d)) = false.
Proof. destruct d as [h [] []]; cbn; intros; simplify_eq; done. Qed.
