(* ===== verification/ChartView.v ===== *)
(** * The page of a chart and the pages that install and upgrade one

    The components of src/dashboard/src/components/ChartView and Catalog/ChartSummary.tsx,
    and what the containers [AppNewContainer] and [AppUpgradeContainer] read of the store for
    the forms of [DeploymentForm]. *)

From S2P Require Import Prelude.
From S2P Require Import Json.
From S2P Require Import JsonText.
From S2P Require Import Browser.
From S2P Require Import Types.
From S2P Require Import Url.
From S2P Require Import KubeRef.
From S2P Require Import Actions.
From S2P Require Import AppsReducer.
From S2P Require Import ChartsReducer.
From S2P Require Import ReposReducer.
From S2P Require Import ConfigReducer.
From S2P Require Import ClusterReducer.
From S2P Require Import KubeReducer.
From S2P Require Import Store.
From S2P Require Import Thunk.
From S2P Require Import Schema.
From S2P Require Import DeploymentForm.
From S2P Require Import HelmServices.
From S2P Require Import AppsActions.
From S2P Require Import ChartsActions.
From S2P Require Import Utils.
From S2P Require Import Routes.
From S2P Require Import Catalog.
From S2P Require Import RepoList.

(** ** ChartMaintainers and ChartSummary *)

Definition isKubernetesCharts (repoURL : string) : bool :=
  bool_decide (repoURL = "https://kubernetes-charts.storage.googleapis.com") ||
  bool_decide (repoURL = "https://kubernetes-charts-incubator.storage.googleapis.com").

(** The name and the link of each maintainer. *)
Definition ChartMaintainers (githubIDAsNames : bool) (maintainers : list IMaintainer)
    : list (string * option string) :=
  (λ v,
    (IMaintainer_name v,
     if githubIDAsNames then Some ("https://github.com/" +:+ IMaintainer_name v)
     else match IMaintainer_email v with
          | Some e => if truthy e then Some ("mailto:" +:+ e) else None
          | None => None
          end)) <$> maintainers.

Record chart_summary := mkChartSummary {
  cs_appVersion : option string;
  cs_home : option string;
  cs_maintainers : list (string * option string);
  cs_sources : list string;
}.

Definition ChartSummary (version : IChartVersion) (chartAttrs : IChartAttributes) : chart_summary :=
  let app_version := IChartVersionAttributes_app_version (IChartVersion_attributes version) in
  {| cs_appVersion := if truthy app_version then Some app_version else None;
     cs_home := match IChartAttributes_home chartAttrs with
                | Some h => if truthy h then Some h else None
                | None => None
                end;
     cs_maintainers :=
       ChartMaintainers (isKubernetesCharts (IRepo_url (IChartAttributes_repo chartAttrs)))
         (IChartAttributes_maintainers chartAttrs);
     cs_sources := IChartAttributes_sources chartAttrs |}.

(** ** ChartVersionSelector and ChartHeader *)

(** [a || b] on texts that may be missing. *)
Definition or_else (a b : option string) : option string :=
  match a with Some s => if truthy s then a else b | None => b end.

Record version_selector := mkVersionSelector {
  vs_value : string;
  vs_options : list (string * string);
}.

Definition ChartVersionSelector (versions : list IChartVersion)
    (currentVersion selectedVersion : option string) : version_selector :=
  {| vs_value :=
       or_opt_str (or_else selectedVersion currentVersion)
         (match versions with v :: _ => cv_version v | [] => "" end);
     vs_options :=
       (λ v, (cv_version v,
              cv_version v +:+ " / App Version " +:+
              IChartVersionAttributes_app_version (IChartVersion_attributes v) +:+
              (if bool_decide (currentVersion = Some (cv_version v)) then " (current)" else "")))
         <$> versions |}.

Record chart_header := mkChartHeader {
  ch_title : string;
  ch_icon : string;
  ch_selector : version_selector;
}.

Definition ChartHeader (placeholder : string) (chartAttrs : IChartAttributes)
    (versions : list IChartVersion) (releaseName currentVersion selectedVersion : option string)
    : outcome chart_header :=
  name ← decodeURIComponent (IChartAttributes_name chartAttrs);
  let chart := IRepo_name (IChartAttributes_repo chartAttrs) +:+ "/" +:+ name in
  Ok {| ch_title :=
          match releaseName with
          | Some r => if truthy r then r +:+ " (" +:+ chart +:+ ")" else chart
          | None => chart
          end;
        ch_icon :=
          match IChartAttributes_icon chartAttrs with
          | Some icon => if truthy icon then "api/assetsvc/" +:+ trim_slashes icon else placeholder
          | None => placeholder
          end;
        ch_selector := ChartVersionSelector versions currentVersion selectedVersion |}.

(** ** ChartReadme *)

Inductive readme_view :=
| ReadmeNotFound
| ReadmeError (text : string)
| ReadmeLoading
| Readme (text : string).

Definition ChartReadme (error readme : option string) : readme_view :=
  let content :=
    match readme with Some r => if truthy r then Readme r else ReadmeLoading | None => ReadmeLoading end in
  match error with
  | Some e =>
    if truthy e then
      if includes "not found" (toLowerCase e) then ReadmeNotFound
      else ReadmeError ("Unable to fetch chart README: " +:+ e)
    else content
  | None => content
  end.

(** *** The anchors of its headings (HeadingRenderer.tsx) *)

(** What a heading contains: texts and elements. *)
Inductive md_node :=
| MdText (text : string)
| MdElement (children : list md_node).

(** [flatten]: the texts in their order. *)
Fixpoint flatten (child : md_node) : string :=
  match child with
  | MdText t => t
  | MdElement children => foldr (λ c s, flatten c +:+ s) "" children
  end.

(** [\s] and [[^a-zA-Z0-9_\s]] on bytes. *)
Definition is_space (a : ascii) : bool :=
  let n := N_of_ascii a in ((n =? 32) || ((9 <=? n) && (n <=? 13)))%N.
Definition is_word (a : ascii) : bool :=
  is_lower a || is_upper a || ((48 <=? N_of_ascii a) && (N_of_ascii a <=? 57))%N ||
  bool_decide (a = "_"%char).

(** The characters that are kept, spaces as dashes. *)
Fixpoint dashed (s : string) : string :=
  match s with
  | EmptyString => ""
  | String a s' =>
    if is_space a then String "-" (dashed s')
    else if is_word a then String a (dashed s') else dashed s'
  end.

Definition slug (children : list md_node) : string :=
  dashed (toLowerCase (flatten (MdElement children))).

(** [LinkRenderer]: links to a heading stay in the application. *)
Inductive readme_link := HashLink (to : string) | Anchor (href : string).
Definition LinkRenderer (href : string) : readme_link :=
  if starts_with "#" href then HashLink href else Anchor href.

(** ** ChartView *)

Definition callSelectChartVersion (ver : string) (versions : list IChartVersion) : option action :=
  (λ cv, ACharts (selectChartVersion cv None None))
    <$> find (λ v, bool_decide (cv_version v = ver)) versions.

(** The effect on the versions and the version of the address. *)
Definition version_effect (versionStr : option string) (versions : list IChartVersion)
    : option action := callSelectChartVersion (or_opt_str versionStr "") versions.

Record chart_page := mkChartPage {
  cp_header : chart_header;
  cp_deploy : string;
  cp_summary : chart_summary;
  cp_readme : readme_view;
  cp_readme_args : string * string * string * string;
}.

Inductive chart_view :=
| ChartError (text : string)
| ChartLoading
| ChartPage (p : chart_page).

Definition ChartView (placeholder chartID chartNamespace : string) (isFetching : bool)
    (selected : IChartState_selected_t) (namespace cluster kubeappsNamespace : string)
    : outcome chart_view :=
  match selected_error selected with
  | Some e => Ok (ChartError ("Unable to fetch chart: " +:+ message e))
  | None =>
    match selected_version selected with
    | Some version =>
      if isFetching then Ok ChartLoading
      else
        let chartAttrs := IChartVersion_relationships_chart_data version in
        header ← ChartHeader placeholder chartAttrs (selected_versions selected) None None
                   (Some (cv_version version));
        Ok (ChartPage
          {| cp_header := header;
             cp_deploy := app_apps_new cluster namespace version (cv_version version) kubeappsNamespace;
             cp_summary := ChartSummary version chartAttrs;
             cp_readme := ChartReadme (selected_readmeError selected) (selected_readme selected);
             cp_readme_args := (cluster, chartNamespace, chartID, cv_version version) |})
    | None => Ok ChartLoading
    end
  end.

Section effects.
Context `{Lodash} `{Jwt} `{Location} `{Router} `{Yaml} `{Ajv} `{Semver} (boot : browser).

(** The effects of the page: when it opens, when it closes, and for the README. *)
Definition chart_opened (cluster chartNamespace chartID : string) (versionStr : option string)
    : prog unit :=
  fork (fetchChartVersionsAndSelectVersion cluster chartNamespace chartID versionStr).
Definition chart_closed : prog unit := dispatch resetChartVersion.
Definition readme_opened (args : string * string * string * string) : prog unit :=
  let '(cluster, namespace, chartID, version) := args in
  fork (getChartReadme cluster namespace chartID version).

(** The selector of the header. *)
Definition selectVersion (value : string) (versions : list IChartVersion) : prog unit :=
  match callSelectChartVersion value versions with
  | Some a => dispatch a
  | None => mret ()
  end.
End effects.

(** ** What the containers read of the store *)

Record app_new_props := mkAppNewProps {
  an_chartID : string;
  an_chartNamespace : string;
  an_chartVersion : string;
  an_error : option js_error;
  an_selected : IChartState_selected_t;
  an_chartsIsFetching : bool;
}.

Section containers.
Context `{Lodash} `{Jwt} `{Location} `{Router}.

Definition AppNew_mapStateToProps (s : IStoreState) (kubeappsNamespace : string) (params : params_t)
    : app_new_props :=
  {| an_chartID := chartID params;
     an_chartNamespace := chartNamespace kubeappsNamespace params;
     an_chartVersion := text_param params "version";
     an_error := match IAppState_error (s_apps s) with
                 | Some e => Some e
                 | None => selected_error (IChartState_selected (s_charts s))
                 end;
     an_selected := IChartState_selected (s_charts s);
     an_chartsIsFetching := IChartState_isFetching (s_charts s) |}.

(** [(repos.repo.metadata && repos.repo.metadata.name) || (apps.selected && ...)]. *)
Definition app_upgrade_repoName (s : IStoreState) : option string :=
  or_else (repo_name <$> repos_repo (s_repos s))
    (a ← IAppState_selected (s_apps s); u ← IRelease_updateInfo a;
     Some (IRepo_name (IChartUpdateInfo_repository u))).

Definition app_upgrade_repoNamespace (s : IStoreState) : option string :=
  or_else (repo_namespace <$> repos_repo (s_repos s))
    (a ← IAppState_selected (s_apps s); u ← IRelease_updateInfo a;
     Some (IRepo_namespace (IChartUpdateInfo_repository u))).

(** The page of the container, for the parameters of its route. *)
Definition AppUpgradeContainer_view (s : IStoreState) (cluster namespace releaseName : string)
    : app_upgrade_view :=
  app_upgrade_display (IAppState_selected (s_apps s)) (IAppState_isFetching (s_apps s))
    (IAppState_error (s_apps s)) namespace cluster releaseName (app_upgrade_repoName s)
    (app_upgrade_repoNamespace s) (IChartState_selected (s_charts s))
    (IChartState_deployed (s_charts s)).
End containers.

(** ** Anchors *)

(** The anchor of a heading has letters, digits, underscores and dashes only. *)
Definition anchor_char (a : ascii) : bool := is_word a || bool_decide (a = "-"%char).

Theorem slug_chars children : str_all anchor_char (slug children).
Proof.
  unfold slug. generalize (toLowerCase (flatten (MdElement children))). intros s.
  induction s as [|a s IH]; [done|]. cbn [dashed]. destruct (is_space a); [|destruct (is_word a) eqn:Ha].
  - cbn [str_all]. by apply andb_True.
  - cbn [str_all]. apply andb_True. split; [unfold anchor_char; by rewrite Ha|done].
  - done.
Qed.

Lemma dashed_app s t : dashed (s +:+ t) = dashed s +:+ dashed t.
Proof.
  induction s as [|a s IH]; [done|]. rewrite str_app_cons. cbn [dashed].
  repeat case_match; rewrite ?IH; done.
Qed.

Lemma toLowerCase_app s t : toLowerCase (s +:+ t) = toLowerCase s +:+ toLowerCase t.
Proof. induction s as [|a s IH]; [done|]. rewrite str_app_cons. cbn [toLowerCase]. by rewrite IH. Qed.

(** A dash of a heading is dropped as punctuation: "follow-up" has the anchor "followup", the
    one of "followup", where links to it say "#follow-up". *)
Theorem slug_drops_dash s t : slug [MdText (s +:+ "-" +:+ t)] = slug [MdText (s +:+ t)].
Proof.
  unfold slug. cbn [flatten foldr]. rewrite !str_app_nil_r, !toLowerCase_app, !dashed_app. done.
Qed.

(** ** Choosing a version *)

Section shown.
Context `{Lodash} `{Jwt} `{Location} `{Router} (boot : browser).
Context {match_path : string → string → option params_t} `{!PathMatching match_path}.

(** What can be linked to and decoded of a version of a chart. *)
Record version_linkable (cv : IChartVersion) : Prop := {
  vl_repo : seg_ok (IRepo_name (IChartAttributes_repo (IChartVersion_relationships_chart_data cv)));
  vl_version : seg_ok (cv_version cv);
  vl_name : truthy (IChartAttributes_name (IChartVersion_relationships_chart_data cv));
  vl_decodes : ∃ n, decodeURIComponent (IChartAttributes_name (IChartVersion_relationships_chart_data cv)) = Ok n;
}.

(** The page of a version, for any state that has it selected. *)
Definition shows_version (v : outcome chart_view) (cv : IChartVersion) (cluster cns cid : string)
    : Prop :=
  ∃ p params,
    v = Ok (ChartPage p) ∧
    vs_value (ch_selector (cp_header p)) = cv_version cv ∧
    cv_version cv ∈ (vs_options (ch_selector (cp_header p))).*1 ∧
    cp_readme_args p = (cluster, cns, cid, cv_version cv) ∧
    find_route match_path privateRoutes (cp_deploy p) = Some (AppNewContainer, params) ∧
    let chart := IChartVersion_relationships_chart_data cv in
    chartID params = IRepo_name (IChartAttributes_repo chart) +:+ "/" +:+
                     encodeURIComponent (IChartAttributes_name chart) ∧
    text_param params "version" = cv_version cv.

Lemma ChartView_shows placeholder cid cns sel cv ns cluster kns :
  selected_error sel = None → selected_version sel = Some cv → cv ∈ selected_versions sel →
  version_linkable cv → seg_ok cluster → seg_ok ns →
  shows_version (ChartView placeholder cid cns false sel ns cluster kns) cv cluster cns cid.
Proof using PathMatching0.
  intros He Hv Hin [Hrepo Hver Hname (n & Hn)] Hc Hns.
  unfold ChartView, ChartHeader. rewrite He, Hv, Hn. cbn [mbind outcome_bind].
  assert (link_ok (AppsNew cv (cv_version cv) kns)) as Hl.
  { split; [by repeat (apply Forall_cons; split)|]. split; [by intros ? [= <-]|done]. }
  do 2 eexists. split; [reflexivity|]. cbn [cp_header ch_selector cp_readme_args cp_deploy].
  split_and!; [by destruct Hver as [Ht%Is_true_true_1 _]; unfold ChartVersionSelector, or_else;
    cbn [vs_value]; rewrite Ht; unfold or_opt_str, or_str; rewrite Ht| |done|by apply (link_leads cluster ns _ Hc Hns Hl)|..].
  - cbn [ChartVersionSelector vs_options]. rewrite <-list_fmap_compose. apply list_elem_of_fmap. by exists cv.
  - cbn [link_target snd]. by destruct (is_global _ _).
  - cbn [link_target snd]. by destruct (is_global _ _).
Qed.

(** C27: Choosing a version in the page of a chart: the page then shows that version, the list
    has it selected among its options, the README asked for is the one of that version, and
    the button to deploy leads to the form for exactly that version of the chart. *)
Theorem chosen_version_shown E m cv placeholder cid cns ns cluster kns :
  let versions := versions_of (m_store m) in
  cv ∈ versions → NoDup (cv_version <$> versions) → version_linkable cv →
  seg_ok cluster → seg_ok ns →
  let '(r, m') := run boot E (selectVersion (cv_version cv) versions) m in
  let charts := s_charts (m_store m') in
  r = Ok () ∧
  shows_version
    (ChartView placeholder cid cns (IChartState_isFetching charts) (IChartState_selected charts)
       ns cluster kns) cv cluster cns cid.
Proof using PathMatching0.
  intros versions Hin Hnd Hcv Hc Hns.
  unfold selectVersion, callSelectChartVersion. rewrite find_unique by done.
  cbn [fmap option_fmap option_map]. rewrite run_dispatch_safe by done.
  destruct (dispatched_state boot (ACharts (selectChartVersion cv None None)) m I)
    as (kw & _ & _ & _ & -> & _).
  split; [done|]. by apply ChartView_shows.
Qed.
End shown.

(** ** The repository a release is upgraded from *)

(** An action that neither sets the repository of the store nor clears it. *)
Definition leaves_repo (a : action) : Prop :=
  match a with ARepos (receiveRepo _) | ARepos clearRepo => False | _ => True end.

Lemma reposReducer_repo state a :
  leaves_repo a → repos_repo (reposReducer state a) = repos_repo state.
Proof. destruct a as [| | | | | | |a| |]; try done. by destruct a. Qed.

Section chosen_repo.
Context `{Lodash} `{Jwt} `{Location} `{Router} (boot : browser).

Lemma store_run_repo actions s :
  Forall leaves_repo actions →
  repos_repo (s_repos (store_run boot actions s).1) = repos_repo (s_repos s.1).
Proof using.
  intros Ha. revert s. induction Ha as [|a actions Ha _ IH]; intros s; [done|].
  change (store_run boot (a :: actions) s) with (store_run boot actions (store_dispatch boot a s).2).
  rewrite IH. unfold store_dispatch, rootReducer.
  destruct (configReducer _ (s_config s.1) a (w_browser s.2)) as [config b].
  destruct (kubeReducer (s_kube s.1) a b (w_kube s.2)) as [[kube|e] kw]; [|done].
  cbn [mbind outcome_bind]. destruct (clusterReducer _ (s_clusters s.1) a b) as [clusters|e]; [|done].
  by apply reposReducer_repo.
Qed.

(** C28: The repository chosen for a release whose own was not known is used for every release
    that is upgraded later: no change of page and no other action takes it back, only one
    that receives a repository or clears it, and no component clears it.  The form then asks
    the charts of that repository, whatever repository the release comes from. *)
Theorem chosen_repo_sticks actions s r cluster ns release app u md :
  repos_repo (s_repos s.1) = Some r → truthy (repo_name r) → truthy (repo_namespace r) →
  Forall leaves_repo actions →
  let s' := (store_run boot actions s).1 in
  IAppState_selected (s_apps s') = Some app → IAppState_isFetching (s_apps s') = false →
  IRelease_updateInfo app = Some u → IRelease_chart app ≫= IChart_metadata = Some md →
  (∀ e, IAppState_error (s_apps s') = Some e → constructor e ≠ FetchError) →
  ∃ props, AppUpgradeContainer_view s' cluster ns release = AppUpgradeForm (IMetadata_version md) props ∧
    up_releaseName props = release ∧ up_repo props = repo_name r ∧
    up_repoNamespace props = repo_namespace r.
Proof using.
  intros Hr Hn Hns Ha s' Hsel Hfetch Hu Hmd He.
  assert (repos_repo (s_repos s') = Some r) as Hr' by (by rewrite <-Hr; apply store_run_repo).
  clearbody s'. unfold AppUpgradeContainer_view, app_upgrade_display, app_upgrade_repoName,
    app_upgrade_repoNamespace.
  rewrite Hr', Hsel, Hfetch, Hu, Hmd. cbn [fmap option_fmap option_map or_else].
  apply Is_true_true_1 in Hn, Hns. rewrite Hn, Hns. cbn [or_opt_str]. unfold or_str. rewrite !Hn, Hns, ?Hn.
  destruct (IAppState_error (s_apps s')) as [e|]; [rewrite bool_decide_false by (by apply He)|];
    rewrite ?Hn; (eexists; split; [reflexivity|done]).
Qed.
End chosen_repo.
