(* ===== verification/Controls.v ===== *)
(** * The controls of the views

    The kit of src/dashboard/src/components/js, with the tabs, the icons and the alerts that
    close: what the controls decide from their properties, and the state of those that have one.

    A tooltip closes a second after the pointer or the focus leaves it; the timer is a variable
    of the render, so what a handler clears is the last timer its own render has set
    ([tooltip_follows_pointer], [tooltip_loses_timer]).  A listener of clicks outside is
    registered anew at every commit ([one_listener]).  Class names are lists of names; the
    package classnames joins those whose condition holds. *)

From S2P Require Import Prelude.
From S2P Require Import Json.

(** ** Classes *)

(** The names that are not empty, and those whose condition holds. *)
Definition cs (base : list string) (conditional : list (string * bool)) : list string :=
  filter (λ c, Is_true (truthy c)) base ++ (filter (λ kv, Is_true kv.2) conditional).*1.

(** ** Column (Column.js) *)

Definition breakpoints : list string := ["sm"; "md"; "lg"; "xl"].

(** A number for all the breakpoints, or one for each. *)
Inductive responsive :=
| Everywhere (n : Z)
| ByBreakpoint (l : list Z).

Definition responsive_step (prefix : string) (css : string) (value : Z) (i : nat) : string :=
  match breakpoints !! i with
  | None => css
  | Some breakpoint => css +:+ " " +:+ prefix +:+ breakpoint +:+ "-" +:+ print_Z value
  end.

Fixpoint responsive_reduce (prefix css : string) (values : list Z) (i : nat) : string :=
  match values with
  | [] => css
  | value :: values => responsive_reduce prefix (responsive_step prefix css value i) values (S i)
  end.

Definition responsiveCss (prefix : string) (values : list Z) : string :=
  trim (responsive_reduce prefix "" values 0).

Definition generateClarityCss (prefix : string) (property : option responsive) : string :=
  match property with
  | None => ""
  | Some (Everywhere n) => "clr-" +:+ prefix +:+ "-" +:+ print_Z n
  | Some (ByBreakpoint l) => responsiveCss ("clr-" +:+ prefix +:+ "-") l
  end.

(** The class and the role of the column. *)
Definition Column (span offset : option responsive) (listItem : bool) : string * option string :=
  (match span, offset with
   | None, None => "clr-col"
   | _, _ => trim ("" +:+ " " +:+ generateClarityCss "col" span +:+ " " +:+ generateClarityCss "offset" offset)
   end,
   if listItem then Some "listitem" else None).

(** ** MultiCheckbox (MultiCheckbox.js, cssVariables.js) *)

Definition cssVarBreakpoint : list string :=
  ["--col-sm-num"; "--col-md-num"; "--col-lg-num"; "--col-xl-num"].

(** [nth(span, index) || lastValue]; the value is [None] where the span is empty. *)
Definition next_value (span : list Z) (index : nat) (lastValue : option Z) : option Z :=
  match span !! index with
  | Some n => if bool_decide (n = 0%Z) then lastValue else Some n
  | None => lastValue
  end.

Fixpoint css_reduce (span : list Z) (variables : list string) (index : nat) (lastValue : option Z)
    : list (string * option Z) :=
  match variables with
  | [] => []
  | next :: variables =>
    let value := next_value span index lastValue in
    (next, value) :: css_reduce span variables (S index) value
  end.

Definition assignCssVariables (span : option responsive) : list (string * option Z) :=
  match span with
  | None => (λ v, (v, Some 1%Z)) <$> cssVarBreakpoint
  | Some (Everywhere n) => (λ v, (v, Some n)) <$> cssVarBreakpoint
  | Some (ByBreakpoint l) => css_reduce l cssVarBreakpoint 0 (l !! 0)
  end.

(** The boxes: the option, the identifier and whether it is checked. *)
Definition MultiCheckbox (name : string) (options value : list string)
    : list (string * string * bool) :=
  imap (λ i opt, (opt, name +:+ "-" +:+ print_Z (Z.of_nat i), bool_decide (opt ∈ value))) options.

(** ** Button, Card, Row and Spinner *)

Inductive button_view :=
| ExternalButton (css : list string) (href : string)
| InternalButton (css : list string) (to : string)
| PlainButton (css : list string) (loading : bool).

Record button_props := mkButtonProps {
  btn_className : string;
  btn_theme : string;
  btn_flat : bool;
  btn_outline : bool;
  btn_icon : bool;
  btn_small : bool;
  btn_block : bool;
  btn_loading : bool;
  btn_externalLink : option string;
  btn_link : option string;
}.

Definition Button (p : button_props) : button_view :=
  let css := cs ["btn button"; btn_className p]
    [("btn-" +:+ btn_theme p, negb (btn_flat p) && negb (btn_outline p));
     ("btn-" +:+ btn_theme p +:+ "-outline", btn_outline p);
     ("btn-link", btn_flat p); ("btn-icon", btn_icon p); ("btn-sm", btn_small p);
     ("btn-block", btn_block p)] in
  match btn_externalLink p, btn_link p with
  | Some externalLink, _ => ExternalButton css externalLink
  | None, Some link => InternalButton css link
  | None, None => PlainButton css (btn_loading p)
  end.

(** A card with a handler takes the keys as clicks: enter when it is pressed, space when it is
    released. *)
Inductive card_event :=
| CardClick
| CardKeyPress (key : string)
| CardKeyUp (key : string).

Definition card_css (clickable has_onClick : bool) : list string :=
  cs ["card"] [("clickable", clickable || has_onClick)].

Definition card_calls (has_onClick : bool) (e : card_event) : bool :=
  has_onClick &&
  match e with
  | CardClick => true
  | CardKeyPress key => bool_decide (key = "Enter")
  | CardKeyUp key => bool_decide (key = " ")
  end.

Definition Row_role (is_list : bool) : option string := if is_list then Some "list" else None.

Definition Spinner (center inline inverse medium small : bool) : list string * list string :=
  (cs ["spinner-container"] [("spinner-center", center && negb inline)],
   cs ["spinner"] [("spinner-center", center && negb inline); ("spinner-inline", inline);
                   ("spinner-inverse", inverse); ("spinner-md", medium); ("spinner-sm", small)]).

(** ** Alerts (Alert.js, AlertGroup.tsx) *)

Definition AlertIcons (theme : string) : option string :=
  assoc theme [("danger", "exclamation-circle"); ("info", "info-circle");
               ("success", "check-circle"); ("warning", "exclamation-triangle")].

Record alert_view := mkAlertView {
  av_css : list string;
  av_label : option string;
  av_icon : option string;
  av_role : string;
  av_action : option string;
  av_close : bool;
}.

Definition Alert (app compact : bool) (customIcon : option string) (theme : string)
    (action : option string) (onClick onClose : bool) : alert_view :=
  {| av_css := cs ["alert alert-" +:+ theme] [("alert-app-level", app); ("alert-sm", compact)];
     av_label := if app then Some "Please, read the following important information" else None;
     av_icon := match customIcon with
                | Some icon => if app then Some icon else AlertIcons theme
                | None => AlertIcons theme
                end;
     av_role := if onClose || onClick then "alertdialog" else "alert";
     av_action := if onClick then action else None;
     av_close := onClose |}.

(** [closed] of a group of alerts. *)
Definition alert_group_init : bool := false.
Definition close_alert (closed : bool) : bool := true.

(** ** Table (Table.js, TableRow.js) *)

Record table_column := mkTableColumn {
  col_accessor : string;
  col_Header : string;
  col_align : string;
}.

(** The class of the cells of a column. *)
Definition align_css (column : table_column) : list string :=
  cs [] [(col_align column, truthy (col_align column))].

(** The cells of a row, by the columns: nothing is shown as a dash. *)
Definition TableRow (columns : list table_column) (row : list (string * string))
    : list (list string * string) :=
  (λ column, (align_css column, or_str (default "" (assoc (col_accessor column) row)) "-")) <$> columns.

Record table_view := mkTableView {
  tv_css : list string;
  tv_head : list (list string * string);
  tv_rows : list (list (list string * string));
}.

Definition Table (className : string) (columns : list table_column)
    (data : option (list (list (string * string)))) (compact noBorder : bool) (valign : string)
    : table_view :=
  {| tv_css := cs ["table"; className]
       [("table-compact", compact); ("table-noborder", noBorder);
        ("table-valign-" +:+ valign, negb (bool_decide (valign = "")))];
     tv_head := (λ column, (align_css column, col_Header column)) <$> columns;
     tv_rows := TableRow columns <$> default [] data |}.

(** ** Tabs (Tabs.tsx) *)

(** The tab that is selected. *)
Definition tabs_init : nat := 0.
Definition select_tab (tab : nat) (selected : nat) : nat := tab.

(** The buttons of the tabs, each with its classes. *)
Definition tab_buttons (columns : list string) (selected : nat) : list (string * string) :=
  imap (λ index column,
    (column, "btn btn-link nav-link tab-button " +:+
             (if bool_decide (selected = index) then "active" else ""))) columns.

(** The panels, each with whether it is hidden. *)
Definition tab_panels {A} (data : list A) (selected : nat) : list (A * bool) :=
  imap (λ index children, (children, negb (bool_decide (selected = index)))) data.

(** ** Icon (Icon.tsx) *)

(** The icon is given, again or another one, or the image that is shown does not load. *)
Inductive icon_event :=
| IconGiven (icon : string)
| IconFails.
#[export] Instance icon_event_eq_dec : EqDecision icon_event.
Proof. solve_decision. Defined.

Section icon.
(** The image of the placeholder, as the build names it. *)
Context (placeholder : string).

Record icon_state := mkIconState { srcIcon : string; iconErrored : bool }.

Definition icon_init : icon_state := mkIconState placeholder false.

(** The effect of every commit where [srcIcon], [icon] or [iconErrored] changed. *)
Definition icon_effect (icon : string) (s : icon_state) : icon_state :=
  if negb (bool_decide (srcIcon s = icon)) && truthy icon && negb (iconErrored s)
  then mkIconState icon (iconErrored s) else s.

Definition icon_onError (s : icon_state) : icon_state := mkIconState placeholder true.

Definition icon_step (s : icon_state) (e : icon_event) : icon_state :=
  match e with IconGiven icon => icon_effect icon s | IconFails => icon_onError s end.

Definition icon_run (s : icon_state) (es : list icon_event) : icon_state := foldl icon_step s es.

Definition last_given (es : list icon_event) : string :=
  foldl (λ last e, match e with IconGiven icon => or_str icon last | IconFails => last end)
    placeholder es.

(** An icon shows the last image it was given, or the placeholder before there is one;
    after an image that did not load it shows the placeholder for good, whatever it is given. *)
Theorem icon_shown es :
  srcIcon (icon_run icon_init es) =
  if bool_decide (IconFails ∈ es) then placeholder else last_given es.
Proof using.
  unfold icon_run, last_given.
  assert (∀ s last, (iconErrored s = true → srcIcon s = placeholder) → (iconErrored s = false → srcIcon s = last) →
    srcIcon (foldl icon_step s es) =
    if iconErrored s || bool_decide (IconFails ∈ es) then placeholder
    else foldl (λ last e, match e with IconGiven icon => or_str icon last | IconFails => last end) last es) as Hrun.
  { induction es as [|e es IH]; intros s last Ht Hf.
    - cbn [foldl]. rewrite (bool_decide_false (_ ∈ [])) by apply not_elem_of_nil.
      destruct (iconErrored s); [by apply Ht|by apply Hf].
    - cbn [foldl]. destruct e as [icon|].
      + rewrite (IH _ (or_str icon last)).
        * assert (iconErrored (icon_step s (IconGiven icon)) = iconErrored s) as ->
            by (unfold icon_step, icon_effect; by destruct (_ && _)).
          by rewrite (bool_decide_ext (IconFails ∈ IconGiven icon :: es) (IconFails ∈ es))
            by (rewrite elem_of_cons; naive_solver).
        * destruct s as [src []]; unfold icon_step, icon_effect; cbn in *; rewrite ?andb_false_r; [done|].
          by destruct (_ && _ && _).
        * destruct s as [src []]; unfold icon_step, icon_effect, or_str, truthy; cbn in *;
            rewrite ?andb_false_r; [done|].
          intros _. repeat case_bool_decide; cbn; naive_solver.
      + rewrite (IH _ last); [|done..]. cbn [icon_step icon_onError iconErrored orb].
        rewrite (bool_decide_true (IconFails ∈ _)) by by left. by rewrite orb_true_r. }
  apply (Hrun icon_init placeholder); done.
Qed.
End icon.

(** ** Clicks outside (useOutsideClick.js) *)

Section outside.
(** The nodes of the document; [contains]: a node holds another. *)
Context {node : Type} (contains : node → node → bool).

Definition clickedOutside (refs : list (option node)) (target : node) : bool :=
  forallb (λ ref, match ref with Some n => negb (contains n target) | None => false end) refs.

(** The listeners of the document; the handler of each render is a new one, named by the number
    of its commit. *)
Record outside := mkOutside {
  oc_commits : nat;
  oc_listeners : list nat;
  oc_open : bool;
}.

Definition outside_init : outside := mkOutside 0 [] false.

(** The clean-up of the commit before, then the effect. *)
Definition outside_commit (s : outside) : outside :=
  {| oc_commits := S (oc_commits s);
     oc_listeners := filter (λ l, S l ≠ oc_commits s) (oc_listeners s) ++
                     (if oc_open s then [oc_commits s] else []);
     oc_open := oc_open s |}.

(** What the components that use it do: the button toggles, and a press outside runs the handler,
    which closes. *)
Definition outside_toggle (s : outside) : outside :=
  outside_commit (mkOutside (oc_commits s) (oc_listeners s) (negb (oc_open s))).

Definition mousedown (ref : node) (target : node) (s : outside) : outside :=
  if bool_decide (oc_listeners s ≠ []) && clickedOutside [Some ref] target
  then outside_commit (mkOutside (oc_commits s) (oc_listeners s) false) else s.

Inductive outside_step (ref : node) : outside → outside → Prop :=
| outside_toggles s : outside_step ref s (outside_toggle s)
| outside_pressed s target : outside_step ref s (mousedown ref target s)
| outside_renders s : outside_step ref s (outside_commit s).

(** The last commit listens when the menu is open, and no other does. *)
Definition outside_inv (s : outside) : Prop :=
  0 < oc_commits s ∧ oc_listeners s = (if oc_open s then [pred (oc_commits s)] else []).

Lemma outside_commit_inv s o :
  outside_inv s → outside_inv (outside_commit (mkOutside (oc_commits s) (oc_listeners s) o)).
Proof using.
  intros [Hc Hl]. split; [cbn; lia|]. cbn [outside_commit oc_listeners oc_open oc_commits pred]. rewrite Hl.
  destruct (oc_open s); [|done]. rewrite filter_cons_False by (intros Hn; apply Hn; lia). done.
Qed.

(** A menu that closes at clicks outside has one listener when it is open and none when it
    is closed, whatever was toggled, pressed and rendered; a press outside closes it, and a press
    inside changes nothing. *)
Theorem one_listener ref s :
  rtc (outside_step ref) (outside_commit outside_init) s →
  length (oc_listeners s) = (if oc_open s then 1 else 0) ∧
  ∀ target, oc_open (mousedown ref target s) = oc_open s && contains ref target ∧
    (contains ref target = true → mousedown ref target s = s).
Proof using.
  intros Hrun. assert (outside_inv s) as [Hc Hl].
  { revert Hrun. apply rtc_ind_r; [split; [cbn; lia|done]|]. intros s1 s2 _ Hstep Hinv.
    destruct Hstep as [s0|s0 target|s0].
    - by apply outside_commit_inv.
    - unfold mousedown. destruct (_ && _); [by apply outside_commit_inv|done].
    - by apply (outside_commit_inv s0 (oc_open s0)). }
  rewrite Hl. split; [by destruct (oc_open s)|]. intros target.
  unfold mousedown, clickedOutside. cbn [forallb]. rewrite Hl, andb_true_r.
  destruct (oc_open s) eqn:Ho, (contains ref target); cbn; rewrite ?Ho; done.
Qed.
End outside.

(** ** Tooltip (Tooltip.js) *)

(** [tt_timer]: the variable of the last render; [tt_pending]: the timers that have not run, each
    by its number. *)
Record tooltip := mkTooltip {
  tt_open : bool;
  tt_timer : option nat;
  tt_pending : list nat;
  tt_next : nat;
}.

Definition tooltip_init : tooltip := mkTooltip false None [] 0.

(** A state that changes renders again, with a variable of its own. *)
Definition tooltip_set (open : bool) (s : tooltip) : tooltip :=
  mkTooltip open (if bool_decide (tt_open s = open) then tt_timer s else None) (tt_pending s) (tt_next s).

Definition clear_timer (timer : option nat) (pending : list nat) : list nat :=
  match timer with Some k => filter (λ p, p ≠ k) pending | None => pending end.

Definition openTooltip (s : tooltip) : tooltip :=
  tooltip_set true (mkTooltip (tt_open s) (tt_timer s) (clear_timer (tt_timer s) (tt_pending s)) (tt_next s)).

Definition closeTooltip (s : tooltip) : tooltip :=
  mkTooltip (tt_open s) (Some (tt_next s)) (tt_pending s ++ [tt_next s]) (S (tt_next s)).

Definition escapeFromTooltip (key : string) (s : tooltip) : tooltip :=
  if bool_decide (key = "Escape") then tooltip_set false s else s.

(** A timer runs. *)
Definition tooltip_timeout (k : nat) (s : tooltip) : tooltip :=
  if bool_decide (k ∈ tt_pending s)
  then tooltip_set false (mkTooltip (tt_open s) (tt_timer s) (filter (λ p, p ≠ k) (tt_pending s)) (tt_next s))
  else s.

(** The classes of the tooltip. *)
Definition tooltip_css (position : string) (extraSmall small large : bool) (s : tooltip) : list string :=
  cs ["tooltip"; "tooltip-" +:+ position]
    [("tooltip-open", tt_open s); ("tooltip-xs", extraSmall);
     ("tooltip-md", negb extraSmall && negb small && negb large); ("tooltip-sm", small);
     ("tooltip-lg", large)].

(** The pointer comes and goes; [over]: it is over the tooltip. *)
Inductive pointer_run : bool → tooltip → Prop :=
| pointer_starts : pointer_run false tooltip_init
| pointer_enters s : pointer_run false s → pointer_run true (openTooltip s)
| pointer_leaves s : pointer_run true s → pointer_run false (closeTooltip s)
| pointer_waits over s k : pointer_run over s → pointer_run over (tooltip_timeout k s).

(** A tooltip follows the pointer: whenever the pointer comes and goes and timers run, it is
    open, with no timer that could close it, while the pointer is over it; and when the pointer
    has left and the tooltip is still open there is one timer, which closes it. *)
Theorem tooltip_follows_pointer over s :
  pointer_run over s →
  if over then tt_open s = true ∧ tt_pending s = []
  else tt_open s = true → ∃ k, tt_pending s = [k] ∧ tt_open (tooltip_timeout k s) = false.
Proof using.
  intros Hrun.
  assert (if over then tt_open s = true ∧ tt_pending s = []
          else (tt_open s = false ∧ tt_pending s = []) ∨
               ∃ k, tt_timer s = Some k ∧ tt_pending s = [k]) as Hinv.
  { induction Hrun as [|s _ IH|s _ [Ho Hp]|over s k _ IH].
    - by left.
    - split; [done|]. cbn [openTooltip tooltip_set tt_pending]. destruct IH as [[_ ->]|(k & -> & ->)].
      + by destruct (tt_timer s).
      + cbn [clear_timer]. by rewrite filter_cons_False by auto.
    - right. exists (tt_next s). split; [done|]. cbn [closeTooltip tt_pending]. by rewrite Hp.
    - unfold tooltip_timeout. case_bool_decide as Hk; [|done]. destruct over.
      + destruct IH as [_ Hp]. rewrite Hp in Hk. by apply elem_of_nil in Hk.
      + destruct IH as [[_ Hp]|(k' & Ht & Hp)]; rewrite Hp in Hk; [by apply elem_of_nil in Hk|].
        apply list_elem_of_singleton in Hk as ->. left. split; [done|]. cbn [tooltip_set tt_pending].
        rewrite Hp. by rewrite filter_cons_False by auto. }
  destruct over; [done|]. intros Ho. destruct Hinv as [[Hc _]|(k & _ & Hp)]; [congruence|].
  exists k. split; [done|]. unfold tooltip_timeout. by rewrite Hp, bool_decide_true by by left.
Qed.

(** The pointer and the focus both open and close it: of two timers only the last is cleared, so
    the tooltip closes under the pointer. *)
Lemma tooltip_loses_timer k0 :
  let s0 := mkTooltip true None [] k0 in
  let s := openTooltip (closeTooltip (closeTooltip s0)) in
  tt_open s = true ∧ tt_pending s = [k0] ∧ tt_open (tooltip_timeout k0 s) = false.
Proof.
  cbn zeta. split; [done|].
  assert (tt_pending (openTooltip (closeTooltip (closeTooltip (mkTooltip true None [] k0)))) = [k0]) as Hp.
  { cbn. rewrite decide_True by lia. by rewrite decide_False by (intros Hn; apply Hn; lia). }
  split; [done|]. unfold tooltip_timeout. by rewrite Hp, bool_decide_true by by left.
Qed.

(** ** Facts *)

(** One panel is shown, that of the tab selected. *)
Theorem one_panel_shown {A} (data : list A) (selected i : nat) :
  snd <$> (tab_panels data selected !! i) = Some false ↔ i = selected ∧ i < length data.
Proof.
  unfold tab_panels. rewrite list_lookup_imap.
  destruct (data !! i) as [x|] eqn:Hx; cbn.
  - apply lookup_lt_Some in Hx. case_bool_decide; cbn; naive_solver.
  - apply lookup_ge_None in Hx. split; [done|]. lia.
Qed.

(** Only the first four values of a column count. *)
Lemma responsiveCss_take prefix values :
  responsiveCss prefix values = responsiveCss prefix (take 4 values).
Proof.
  unfold responsiveCss. f_equal.
  destruct values as [|a [|b [|c [|d values]]]]; try done.
  cbn [responsive_reduce take]. set (css := responsive_step _ _ d 3). clearbody css.
  assert (∀ i, 4 <= i → responsive_reduce prefix css values i = css) as Hr; [|by apply Hr].
  induction values as [|v values IH]; intros i Hi; [done|]. cbn [responsive_reduce].
  unfold responsive_step. rewrite (lookup_ge_None_2 breakpoints i) by (cbn; lia). apply IH. lia.
Qed.

(** The value of a breakpoint is the last one given up to it, when none is zero. *)
Definition value_at (span : list Z) (i : nat) : option Z := span !! (i `min` pred (length span)).

Lemma css_reduce_values span variables index :
  Forall (λ n, n ≠ 0%Z) span → span ≠ [] →
  css_reduce span variables index (value_at span (pred index)) =
  imap (λ i v, (v, value_at span (index + i))) variables.
Proof.
  intros Hz Hne. revert index. induction variables as [|v variables IH]; intros index; [done|].
  cbn [css_reduce imap].
  assert (next_value span index (value_at span (pred index)) = value_at span index) as Hv.
  { unfold next_value, value_at. destruct (span !! index) as [n|] eqn:Hn.
    - rewrite Forall_lookup in Hz. rewrite bool_decide_false by by eapply Hz.
      pose proof (lookup_lt_Some _ _ _ Hn). by rewrite Nat.min_l by lia.
    - apply lookup_ge_None in Hn. by rewrite !Nat.min_r by lia. }
  specialize (IH (S index)). cbn [pred] in IH. rewrite Hv, Nat.add_0_r, IH. f_equal. apply imap_ext. intros i x _. cbn.
  by rewrite Nat.add_succ_r.
Qed.

(** The columns of a group of boxes: for values given by breakpoint, none of them zero, each
    variable is the value at its breakpoint, or the last one where there are fewer. *)
Theorem assignCssVariables_values span :
  Forall (λ n, n ≠ 0%Z) span → span ≠ [] →
  assignCssVariables (Some (ByBreakpoint span)) =
  imap (λ i v, (v, span !! (i `min` pred (length span)))) cssVarBreakpoint.
Proof.
  intros Hz Hne. cbn [assignCssVariables].
  change (span !! 0) with (value_at span (pred 0)). exact (css_reduce_values span cssVarBreakpoint 0 Hz Hne).
Qed.
