(* ===== verification/Shell.v ===== *)
(** * What surrounds the pages

    The root of the application (src/dashboard/src/containers/Root.tsx) and the components
    every page is shown inside: [ConfigLoader], [HeadManager], [Layout] and [ErrorBoundary];
    and the translations (src/dashboard/src/shared/I18n.ts).  The messages in English are a
    file the build makes ([messages_en]). *)

From S2P Require Import Prelude.
From S2P Require Import Json.
From S2P Require Import JsonText.
From S2P Require Import Browser.
From S2P Require Import Types.
From S2P Require Import KubeRef.
From S2P Require Import Actions.
From S2P Require Import Store.
From S2P Require Import Thunk.
From S2P Require Import Schema.
From S2P Require Import Auth.
From S2P Require Import AuthActions.
From S2P Require Import ConfigActions.
From S2P Require Import KubeActions.

(** ** I18n.ts *)

Record II18nConfig := mkI18nConfig { locale : string; messages : json }.

Inductive ISupportedLangs := en.
Definition lang_code (l : ISupportedLangs) : string := match l with en => "en" end.

(** [ISupportedLangs[lang]] of a code; [None] is [undefined]. *)
Definition supported_lang (code : string) : option ISupportedLangs :=
  if bool_decide (code = "en") then Some en else None.

(** [Object.keys(v).length] of a value parsed from a response. *)
Definition keys_length (v : json) : outcome nat :=
  match v with
  | JUndefined | JNull => Throws (mk_error TypeError "Cannot convert undefined or null to object")
  | JObj fs => Ok (length fs)
  | JArr l => Ok (length l)
  | JStr s => Ok (String.length s)
  | _ => Ok 0
  end.

Section translations.
Context (messages_en : json).

Definition lang_messages (l : ISupportedLangs) : json := match l with en => messages_en end.

Definition getDefaultConfig : II18nConfig := mkI18nConfig "en" (lang_messages en).

Definition getConfig_of (lang : option ISupportedLangs) : II18nConfig :=
  match lang with
  | Some l => mkI18nConfig (lang_code l) (lang_messages l)
  | None => getDefaultConfig
  end.

(** The locale of a language that is not supported is [undefined] in the answer. *)
Record custom_config := mkCustomConfig { cc_locale : option string; cc_messages : json }.

Definition as_custom (c : II18nConfig) : custom_config :=
  mkCustomConfig (Some (locale c)) (messages c).

Section thunks.
Context `{Lodash} `{Jwt} `{Location} `{Router} (boot : browser).

Definition custom_messages : prog json :=
  response ← http axiosWithAuth (get_request "custom_locale.json") T_json;
  n ← lift (keys_length response);
  if bool_decide (n = 0) then Throw (mk_error Error "Empty custom locale") else mret response.

Definition getCustomConfig (lang : option ISupportedLangs) : prog custom_config :=
  try_catch
    (customMessages ← custom_messages;
     mret (mkCustomConfig (lang_code <$> lang) customMessages))
    (λ _, mret (as_custom (getConfig_of lang))).

(** ** Root.tsx *)

(** The first part of the language of the browser, before a dash or an underscore. *)
Fixpoint before_separator (s : string) : string :=
  match s with
  | EmptyString => ""
  | String a s' =>
    if bool_decide (a = "-"%char) || bool_decide (a = "_"%char) then ""
    else String a (before_separator s')
  end.

Definition initLocale (fullLang : string) : prog custom_config :=
  await (getCustomConfig (supported_lang (before_separator (toLowerCase fullLang)))).
End thunks.
End translations.

(** ** ConfigLoader *)

Inductive loader_view := LoaderError (text : string) | LoaderLoading | LoaderChildren.

(** [title] is the translation of the name of the application. *)
Definition ConfigLoader (title : string) (error : option js_error) (loaded : bool) : loader_view :=
  match error with
  | Some e => LoaderError ("Unable to load " +:+ title +:+ " configuration: " +:+ message e)
  | None => if loaded then LoaderChildren else LoaderLoading
  end.

(** ** HeadManager *)

Definition getThemeFile (theme : string) : string :=
  if bool_decide (theme = "light") then "./clr-ui.min.css"
  else if bool_decide (theme = "dark") then "./clr-ui-dark.min.css"
  else "./clr-ui.min.css".

(** ** ErrorBoundary

    [ErrorBoundaryContainer] gives it the error of the namespace; an error of a component
    below it is kept in its state. *)
Inductive boundary_view := BoundaryError (text : string) (logout : bool) | BoundaryChildren.

Definition ErrorBoundary (propsError stateError : option js_error) : boundary_view :=
  match propsError, stateError with
  | Some e, _ => BoundaryError ("An error occurred: " +:+ message e +:+ ".") true
  | None, Some e => BoundaryError ("An error occurred: " +:+ message e +:+ ".") false
  | None, None => BoundaryChildren
  end.

(** What is below it is rendered in its place, or throws. *)
Definition boundary_render {A} (propsError stateError : option js_error) (children : outcome A)
    : option js_error * (boundary_view + A) :=
  match ErrorBoundary propsError stateError with
  | BoundaryChildren =>
    match children with
    | Ok a => (stateError, inr a)
    | Throws e => (Some e, inl (ErrorBoundary propsError (Some e)))
    end
  | v => (stateError, inl v)
  end.

(** ** Layout *)

Section layout.
Context `{Lodash} `{Jwt} `{Location} `{Router} (boot : browser).

(** Run when the session or the current cluster changes. *)
Definition layout_effect (authenticated : bool) (currentCluster : string) : prog unit :=
  if authenticated && truthy currentCluster then fork (getResourceKinds currentCluster) else mret ().

Definition Layout_warning (kindsError : option js_error) : option string :=
  (λ e, "Unable to retrieve API info: " +:+ message e) <$> kindsError.
End layout.

(** ** Facts *)

Section facts.
Context `{Lodash} `{Jwt} `{Location} `{Router} (boot : browser) (messages_en : json).

(** The translations: one request; the custom messages are used when there are some, and
    those of a supported language, or of English, in every other case, failures included. *)
Theorem getCustomConfig_performs E lang m :
  let req := get_request "custom_locale.json" in
  let reply := env_reply E (m_ticks m) axiosWithAuth req T_json in
  performs boot E (getCustomConfig messages_en lang) m
    (Ok (match reply with
         | Ok custom =>
           match keys_length custom with
           | Ok (S _) => mkCustomConfig (lang_code <$> lang) custom
           | _ => mkCustomConfig (Some "en") messages_en
           end
         | Throws _ => mkCustomConfig (Some "en") messages_en
         end)) [EvRequest axiosWithAuth req] [].
Proof using.
  intros req reply. unfold getCustomConfig, custom_messages. subst reply. fold req.
  assert (as_custom (getConfig_of messages_en lang) = mkCustomConfig (Some "en") messages_en) as Hd
    by (by destruct lang as [[]|]).
  unfold performs. run_steps. read_machine.
  destruct (env_reply E (m_ticks m) axiosWithAuth req T_json) as [custom|e]; run_reduce; run_steps;
    read_machine; [|by rewrite Hd, ?app_nil_r].
  destruct (keys_length custom) as [[|n]|e]; run_reduce; rewrite ?(bool_decide_true (0 = 0)), ?(bool_decide_false (S _ = 0)) by done;
    run_steps; read_machine; by rewrite ?Hd, ?app_nil_r.
Qed.

(** With custom messages and a language that is not supported there is no locale. *)
Lemma custom_without_locale E custom n m :
  env_reply E (m_ticks m) axiosWithAuth (get_request "custom_locale.json") T_json = Ok custom →
  keys_length custom = Ok (S n) →
  (run boot E (getCustomConfig messages_en None) m).1 = Ok (mkCustomConfig None custom).
Proof using.
  intros Hr Hk. unfold getCustomConfig, custom_messages. run_steps. rewrite Hr. run_reduce. run_steps.
  rewrite Hk. run_reduce. by run_steps.
Qed.
End facts.

(** An error of a component stays on the page: every later render shows it until the boundary
    is made anew, also when the component would no longer throw. *)
Lemma boundary_keeps_error {A} e (children children' : outcome A) :
  children = Throws e →
  let s := (boundary_render None None children).1 in
  (boundary_render None s children').2 = inl (BoundaryError ("An error occurred: " +:+ message e +:+ ".") false).
Proof. by intros ->. Qed.
