(* ===== verification/AccessURL.v ===== *)
(** * The addresses of a release (src/dashboard/src/components/AppView/AccessURLTable)

    The URLs of the services of type LoadBalancer and of the ingresses of a release, which
    of them become links, and the notes next to them.  The fields of the specification and
    of the status are read as the API server sent them: a missing parent throws. *)

From S2P Require Import Prelude.
From S2P Require Import Json.
From S2P Require Import JsonText.
From S2P Require Import Types.
From S2P Require Import Url.
From S2P Require Import KubeRef.
From S2P Require Import Utils.
From S2P Require Import Regex.
From S2P Require Import ResourceTable.

Record IURLItem := mkURLItem {
  URLItem_name : json;
  URLItem_type : string;
  URLItem_isLink : bool;
  URLItem_URLs : list string;
}.

(** [l && l.length], for a value that is a list or missing. *)
Definition nonempty_list (j : json) : option (list json) :=
  match j with JArr (x :: l) => Some (x :: l) | _ => None end.

(** ** Services (AccessURLItem/AccessURLServiceHelper.ts) *)

Definition service_getURL (base : string) (port : json) : string :=
  let protocol := if bool_decide (port = JNum 443) then "https" else "http" in
  let portSuffix := if bool_decide (port = JNum 443) || bool_decide (port = JNum 80) then ""
                    else ":" +:+ jtext port in
  protocol +:+ "://" +:+ base +:+ portSuffix.

(** [status && status.loadBalancer.ingress], when it is a list with elements. *)
Definition service_ingress (service : json) : outcome (option (list json)) :=
  let status := jget service "status" in
  if jtruthy status then
    ingress ← jprop (jget status "loadBalancer") "ingress";
    Ok (nonempty_list ingress)
  else Ok None.

Definition isLink (loadBalancerService : option json) : outcome bool :=
  match loadBalancerService with
  | Some service => l ← service_ingress service; Ok (match l with Some _ => true | None => false end)
  | None => Ok false
  end.

(** The URLs of one address for one port. *)
Definition address_urls (i port : json) : outcome (list string) :=
  hostname ← jprop i "hostname";
  ip ← jprop i "ip";
  p ← (if jtruthy hostname || jtruthy ip then jprop port "port" else Ok JUndefined);
  Ok ((if jtruthy hostname then [service_getURL (jtext hostname) p] else []) ++
      (if jtruthy ip then [service_getURL (jtext ip) p] else [])).

Definition service_URLs (loadBalancerService : option json) : outcome (list string) :=
  match loadBalancerService with
  | None => Ok ["Pending"]
  | Some service =>
    ingress ← service_ingress service;
    match ingress with
    | Some l =>
      collect (λ i,
        ports ← jprop (jget service "spec") "ports";
        ps ← jarray "ports.forEach" ports;
        collect (address_urls i) ps) l
    | None => Ok ["Pending"]
    end
  end.

Definition GetURLItemFromService (service : option json) : outcome IURLItem :=
  name ← match service with
         | Some s => jprop (jget s "metadata") "name"
         | None => Ok JUndefined
         end;
  link ← isLink service;
  urls ← service_URLs service;
  Ok (mkURLItem name "Service LoadBalancer" link urls).

(** ** Ingresses (AccessURLItem/AccessURLIngressHelper.tsx) *)

(** Equality with [===] to an element; two objects are never the same. *)
Definition is_primitive (j : json) : bool := match j with JArr _ | JObj _ => false | _ => true end.

(** [tlsRule.hosts && tlsRule.hosts.indexOf(hostname) > -1]. *)
Definition tls_covers (hostname tlsRule : json) : outcome bool :=
  hosts ← jprop tlsRule "hosts";
  if jtruthy hosts then
    l ← jarray "tlsRule.hosts.indexOf" hosts;
    Ok (is_primitive hostname && bool_decide (hostname ∈ l))
  else Ok false.

(** [tls && tls.some(...)]. *)
Fixpoint some_rule (hostname : json) (rules : list json) : outcome bool :=
  match rules with
  | [] => Ok false
  | r :: rules' => b ← tls_covers hostname r; if (b : bool) then Ok true else some_rule hostname rules'
  end.

Definition uses_tls (hostname tls : json) : outcome bool :=
  if jtruthy tls then rules ← jarray "tls.some" tls; some_rule hostname rules else Ok false.

Definition ingress_getURL (hostname tls path : json) : outcome string :=
  secure ← uses_tls hostname tls;
  Ok ((if (secure : bool) then "https" else "http") +:+ "://" +:+ jtext hostname +:+
      (if jtruthy path then jtext path else "")).

Definition rule_URLs (tls r : json) : outcome (list string) :=
  http ← jprop r "http";
  paths ← (if jtruthy http then
             p ← jprop http "paths"; _ ← jprop p "length"; Ok (nonempty_list p)
           else Ok None);
  match paths with
  | Some ps =>
    collect (λ p, path ← jprop p "path"; u ← ingress_getURL (jget r "host") tls path; Ok [u]) ps
  | None => u ← ingress_getURL (jget r "host") tls JUndefined; Ok [u]
  end.

(** [ingress.status?.loadBalancer.ingress[0]]. *)
Definition first_address (ingress : json) : outcome json :=
  match jget ingress "status" with
  | JUndefined | JNull => Ok JUndefined
  | status =>
    addresses ← jprop (jget status "loadBalancer") "ingress";
    _ ← jprop addresses "0";
    Ok (match addresses with JArr (a :: _) => a | _ => JUndefined end)
  end.

Definition ingress_URLs (ingress : json) : outcome (list string) :=
  let spec := jget ingress "spec" in
  rules ← jprop spec "rules";
  if jtruthy rules then
    l ← jarray "spec.rules.forEach" rules;
    collect (rule_URLs (jget spec "tls")) l
  else if jtruthy (jget spec "backend") then
    address ← first_address ingress;
    if jtruthy address then
      u ← ingress_getURL (jget address "ip") (jget spec "tls") JUndefined; Ok [u]
    else Ok []
  else Ok [].

Definition GetURLItemFromIngress (ingress : json) : outcome IURLItem :=
  name ← jprop (jget ingress "metadata") "name";
  urls ← ingress_URLs ingress;
  Ok (mkURLItem name "Ingress" true urls).

(** *** [isURLRegex], case-insensitive *)

Definition is_alpha (a : ascii) : bool :=
  ((65 <=? N_of_ascii a) && (N_of_ascii a <=? 90) ||
   (97 <=? N_of_ascii a) && (N_of_ascii a <=? 122))%N.
Definition one_of (l : list ascii) (a : ascii) : bool := bool_decide (a ∈ l).
Definition alnum (a : ascii) : bool := is_alpha a || is_digit a.
Definition alnum_or (l : list ascii) (a : ascii) : bool := alnum a || one_of l a.
Definition letter (c : ascii) : regex := RChar (λ a, bool_decide (lower_char a = c)).

(** [(https?:\/\/)?] *)
Definition url_scheme : regex :=
  RSeq (letter "h") (RSeq (letter "t") (RSeq (letter "t") (RSeq (letter "p")
    (RSeq (ROpt (letter "s")) (RString "://"))))).
(** [([a-z\d]([a-z\d-]*[a-z\d])* )\.] *)
Definition url_label : regex :=
  RSeq (RSeq (RChar alnum)
          (RStar (RSeq (RStar (RChar (alnum_or ["-"%char]))) (RChar alnum))))
       (RChar (one_of ["."%char])).
(** [(label)+[a-z-]{2,}] *)
Definition url_name : regex :=
  RSeq (RPlus url_label) (RAtLeast 2 (RChar (λ a, is_alpha a || one_of ["-"%char] a))).
(** [(\d{1,3}\.){3}\d{1,3}] *)
Definition url_byte : regex := RBetween 1 2 (RChar is_digit).
Definition url_ip : regex :=
  RSeq (RTimes 3 (RSeq url_byte (RChar (one_of ["."%char])))) url_byte.
Definition url_port : regex := RSeq (RChar (one_of [":"%char])) (RPlus (RChar is_digit)).
Definition url_path : regex :=
  RSeq (RChar (one_of ["/"%char]))
    (RStar (RChar (alnum_or ["-"; "%"; "_"; "."; "~"; "+"]%char))).
Definition url_query : regex :=
  RSeq (RChar (one_of ["?"%char]))
    (RStar (RChar (alnum_or [";"; "&"; "%"; "_"; "."; "~"; "+"; "="; "-"]%char))).
Definition url_fragment : regex :=
  RSeq (RChar (one_of ["#"%char])) (RStar (RChar (alnum_or ["-"; "_"]%char))).

Definition isURLRegex : regex :=
  RSeq (ROpt url_scheme) (RSeq (RAlt url_name url_ip)
    (RSeq (ROpt url_port) (RSeq (RStar url_path) (RSeq (ROpt url_query) (ROpt url_fragment))))).

Definition IsURL (url : string) : bool := rx_test isURLRegex url.

(** ** The table (AccessURLTable.tsx) *)

Inductive piece :=
| Anchor (url : string)
| Span (text : string)
| UnknownPiece (key : string).

Inductive url_cell := Pieces (l : list piece) | PlainText (s : string).

Inductive notes_cell :=
| NotesError (message : string)
| NotesUnknown
| NotesIPs (ips : string)
| NotesPending.

Record url_row := mkUrlRow { row_url : url_cell; row_type : string; row_notes : notes_cell }.

Definition elemHasItems (i : IKubeItem kube_object) : bool :=
  match IKubeItem_error i with
  | Some _ => true
  | None =>
    match IKubeItem_item i with
    | Some o => match kube_object_items o with Some [] => false | _ => true end
    | None => false
    end
  end.

Definition hasItems (svcs ings : list (IKubeItem kube_object)) : bool :=
  some elemHasItems svcs || some elemHasItems ings.

(** [{ isFetching: false, item }] and the entries of the cache themselves. *)
Definition is_public (o : json) : outcome bool :=
  type ← jprop (jget o "spec") "type"; Ok (bool_decide (type = JStr "LoadBalancer")).

Definition public_items (s : IKubeItem kube_object) : outcome (list (IKubeItem kube_object)) :=
  match IKubeItem_item s with
  | Some o =>
    match kube_object_items o with
    | Some l =>
      collect (λ r, b ← is_public (resource_json r);
                    Ok (if (b : bool) then [mkIKubeItem false (Some (KResource r)) None] else [])) l
    | None => b ← is_public (object_json o); Ok (if (b : bool) then [s] else [])
    end
  | None => Ok []
  end.

Definition filterPublicServices (svcs : list (IKubeItem kube_object))
    : outcome (list (IKubeItem kube_object)) := collect public_items svcs.

Definition flattenIngresses (ings : list (IKubeItem kube_object)) : list (IKubeItem kube_object) :=
  ings ≫= λ ingress,
    match IKubeItem_item ingress ≫= kube_object_items with
    | Some l => (λ r, mkIKubeItem false (Some (KResource r)) (IKubeItem_error ingress)) <$> l
    | None => [ingress]
    end.

Section table.
Context `{Lodash}.

Definition getNotes (resource : option json) : outcome notes_cell :=
  match resource with
  | None => Ok NotesUnknown
  | Some r =>
    match get r "status.loadBalancer.ingress" (JArr []) with
    | JArr (i :: l) =>
      texts ← collect (λ ip, v ← jprop ip "ip";
                Ok [match v with JUndefined | JNull => "" | _ => jtext v end]) (i :: l);
      Ok (NotesIPs (join ", " texts))
    | JNull => Throws (undefined_access "length")
    | _ => _ ← jprop (jget r "metadata") "name"; Ok NotesPending
    end
  end.

Definition entry_notes (i : IKubeItem kube_object) : outcome notes_cell :=
  match IKubeItem_error i with
  | Some e => Ok (NotesError (message e))
  | None => getNotes (object_json <$> IKubeItem_item i)
  end.

Definition service_row (svc : IKubeItem kube_object) : outcome url_row :=
  urlItem ← GetURLItemFromService (object_json <$> IKubeItem_item svc);
  notes ← entry_notes svc;
  Ok (mkUrlRow (if URLItem_isLink urlItem then Pieces (Anchor <$> URLItem_URLs urlItem)
                else PlainText (join "," (URLItem_URLs urlItem)))
        (URLItem_type urlItem) notes).

Definition ingress_row (index : nat) (ingress : IKubeItem kube_object) : outcome url_row :=
  pieces ← match IKubeItem_item ingress with
           | Some o =>
             item ← GetURLItemFromIngress (object_json o);
             Ok ((λ u, if IsURL u then Anchor u else Span u) <$> URLItem_URLs item)
           | None => Ok [UnknownPiece (print_N (N.of_nat index))]
           end;
  notes ← entry_notes ingress;
  Ok (mkUrlRow (Pieces pieces) "Ingress" notes).

Fixpoint ingress_rows (index : nat) (l : list (IKubeItem kube_object)) : outcome (list url_row) :=
  match l with
  | [] => Ok []
  | i :: l' => r ← ingress_row index i; rs ← ingress_rows (S index) l'; Ok (r :: rs)
  end.

Inductive access_view :=
| AccessLoading
| AccessNothing
| AccessNoPublic
| AccessRows (rows : list url_row).

Definition AccessURLTable (ingressRefs serviceRefs : list ResourceRef)
    (items : gmap string (IKubeItem kube_object)) : outcome access_view :=
  let ingresses := flattenResources ingressRefs items in
  let services := flattenResources serviceRefs items in
  if isSomeResourceLoading (ingresses ++ services) then Ok AccessLoading
  else if negb (hasItems services ingresses) then Ok AccessNothing
  else
    publicServices ← filterPublicServices services;
    if bool_decide (0 < length publicServices) || bool_decide (0 < length ingresses) then
      srows ← collect (λ s, r ← service_row s; Ok [r]) publicServices;
      irows ← ingress_rows 0 (flattenIngresses ingresses);
      Ok (AccessRows (srows ++ irows))
    else Ok AccessNoPublic.
End table.

(** ** Facts *)

Definition http_url (u : string) : Prop := ∃ r, u = "http://" +:+ r ∨ u = "https://" +:+ r.

(** The characters of the URLs that become links: none that ends an attribute, opens a
    tag or separates words. *)
Definition url_char (a : ascii) : bool :=
  alnum_or [":"; "/"; "."; "-"; "%"; "_"; "~"; "+"; "?"; ";"; "&"; "="; "#"]%char a.

Lemma isURLRegex_alphabet : ∀ a, implb (alphabet isURLRegex a) (url_char a).
Proof. check_bytes. Qed.

Lemma IsURL_chars url : IsURL url → str_all url_char url.
Proof.
  intros Hm%rx_test_matches%matches_alphabet. eapply str_all_impl; [|exact Hm].
  intros a. pose proof (isURLRegex_alphabet a). by destruct (alphabet isURLRegex a), (url_char a).
Qed.

Lemma collect_Forall {A B} (f : A → outcome (list B)) (P : B → Prop) l r :
  (∀ x y, x ∈ l → f x = Ok y → Forall P y) → collect f l = Ok r → Forall P r.
Proof.
  revert r. induction l as [|x l IH]; intros r Hf; simpl; [by intros [= <-]|].
  intros (a & Ha & (b & Hb & [= <-])%bind_Ok)%bind_Ok. apply Forall_app. split.
  - eapply Hf; [apply list_elem_of_here|done].
  - apply IH; [|done]. intros y z Hy. apply Hf. by apply list_elem_of_further.
Qed.

Lemma ingress_getURL_http hostname tls path u : ingress_getURL hostname tls path = Ok u → http_url u.
Proof.
  unfold ingress_getURL. intros ([] & _ & [= <-])%bind_Ok; eexists; [right|left]; reflexivity.
Qed.

Lemma ingress_URLs_http ingress urls : ingress_URLs ingress = Ok urls → Forall http_url urls.
Proof.
  unfold ingress_URLs. intros (rules & _ & Hu)%bind_Ok.
  assert (∀ h t p, (u ← ingress_getURL h t p; Ok [u]) = Ok urls → Forall http_url urls) as Hone.
  { intros h t p (u & Hg & [= <-])%bind_Ok. apply Forall_singleton. by eapply ingress_getURL_http. }
  destruct (jtruthy rules).
  - apply bind_Ok in Hu as (l & _ & Hu). eapply collect_Forall; [|exact Hu].
    intros r y _. unfold rule_URLs. intros (http & _ & (paths & _ & Hp)%bind_Ok)%bind_Ok.
    destruct paths as [ps|].
    + eapply collect_Forall; [|exact Hp].
      intros p z _ (path & _ & (u & Hg & [= <-])%bind_Ok)%bind_Ok. apply Forall_singleton.
      by eapply ingress_getURL_http.
    + apply bind_Ok in Hp as (u & Hg & [= <-]). apply Forall_singleton.
      by eapply ingress_getURL_http.
  - destruct (jtruthy _); [|by simplify_eq]. apply bind_Ok in Hu as (a & _ & Hu).
    destruct (jtruthy a); [by eapply Hone|by simplify_eq].
Qed.

(** C30: What the table makes a link of: an address of an ingress becomes one only when it is
    an http or https URL made of the plain characters of URLs. *)
Theorem ingress_links_safe `{Lodash} index ingress r l u :
  ingress_row index ingress = Ok r → row_url r = Pieces l → Anchor u ∈ l →
  http_url u ∧ str_all url_char u ∧ matches isURLRegex u.
Proof.
  unfold ingress_row. intros (pieces & Hp & (notes & _ & [= <-])%bind_Ok)%bind_Ok. simpl.
  intros [= <-] Hu. destruct (IKubeItem_item ingress) as [o|].
  - apply bind_Ok in Hp as (item & Hitem & [= <-]).
    apply list_elem_of_fmap in Hu as (x & Hx & Hin). destruct (IsURL x) eqn:Hurl; [|done].
    injection Hx as ->. assert (IsURL x) as Hurl' by by rewrite Hurl.
    split_and!; [|by apply IsURL_chars|by apply rx_test_matches].
    unfold GetURLItemFromIngress in Hitem.
    apply bind_Ok in Hitem as (name & _ & (urls & Hurls & [= <-])%bind_Ok).
    apply ingress_URLs_http in Hurls. by eapply Forall_forall in Hurls.
  - injection Hp as <-. set_solver.
Qed.

(** The addresses of a load balancer are links exactly when it has one assigned: they are
    then http or https URLs, and otherwise the one text is "Pending". *)
Theorem service_URLs_links service urls :
  service_URLs (Some service) = Ok urls →
  ∃ link, isLink (Some service) = Ok link ∧
    if link then Forall http_url urls else urls = ["Pending"].
Proof.
  unfold service_URLs, isLink. intros (ingress & -> & Hu)%bind_Ok.
  destruct ingress as [l|]; eexists; (split; [done|]); [|by simplify_eq/=]. simpl.
  eapply collect_Forall; [|exact Hu].
  intros i y _ (ports & _ & (ps & _ & Hps)%bind_Ok)%bind_Ok.
  eapply collect_Forall; [|exact Hps]. intros port z _. unfold address_urls.
  intros (h & _ & (ip & _ & (p & _ & [= <-])%bind_Ok)%bind_Ok)%bind_Ok.
  assert (∀ b, http_url (service_getURL b p)) as Hg.
  { intros b. unfold service_getURL. case_bool_decide; eexists; [right|left]; reflexivity. }
  apply Forall_app. split; destruct (jtruthy _); repeat constructor; apply Hg.
Qed.

(** The hosts of an ingress are reached with https exactly when a rule of its TLS
    configuration names them. *)
Theorem ingress_getURL_secure hostname tls path u :
  ingress_getURL (JStr hostname) tls path = Ok u →
  (∃ r, u = "https://" +:+ r) ↔
  ∃ rules rule hosts, tls = JArr rules ∧ rule ∈ rules ∧ jget rule "hosts" = JArr hosts ∧
    JStr hostname ∈ hosts.
Proof.
  unfold ingress_getURL. intros (b & Hb & [= <-])%bind_Ok.
  assert (b = true ↔ ∃ rules rule hosts, tls = JArr rules ∧ rule ∈ rules ∧
    jget rule "hosts" = JArr hosts ∧ JStr hostname ∈ hosts) as <-.
  2:{ destruct b; split; try done; [by eexists|]. by intros [r Hr]. }
  unfold uses_tls in Hb. destruct (jtruthy tls) eqn:Ht.
  2:{ injection Hb as <-. split; [done|]. intros (rules & ? & ? & -> & _). done. }
  apply bind_Ok in Hb as (rules & Hrules & Hb).
  destruct tls as [| | | | | |rs|]; try done. injection Hrules as ->.
  revert b Hb. clear Ht. induction rules as [|r rules IH]; intros b; simpl.
  { intros [= <-]. split; [done|]. intros (? & ? & ? & [= <-] & ?%elem_of_nil & _). done. }
  intros (c & Hc & Hb)%bind_Ok. unfold tls_covers in Hc.
  assert (c = true ↔ ∃ hosts, jget r "hosts" = JArr hosts ∧ JStr hostname ∈ hosts) as Hcov.
  { destruct r as [| | | | | | |fs]; try done; try (simpl in Hc; injection Hc as <-;
      split; [done|by intros (? & ? & _)]).
    unfold jprop in Hc. cbn [mbind outcome_bind] in Hc.
    destruct (jtruthy (jget (JObj fs) "hosts")) eqn:Hh.
    - apply bind_Ok in Hc as (hosts & Hhosts & [= <-]).
      destruct (jget (JObj fs) "hosts") as [| | | | | |hs|] eqn:Hj; try done. injection Hhosts as ->.
      simpl. rewrite bool_decide_eq_true. split; [by eauto|]. by intros (? & [= ->] & ?).
    - injection Hc as <-. split; [done|]. intros (? & Hj & _). by rewrite Hj in Hh. }
  destruct c.
  - injection Hb as <-. split; [|done]. intros _. destruct (proj1 Hcov eq_refl) as (hosts & ? & ?).
    exists (r :: rules), r, hosts. split_and!; [done|apply list_elem_of_here|done|done].
  - rewrite (IH b Hb). split.
    + intros (? & rule & hosts & [= <-] & ? & ? & ?).
      exists (r :: rules), rule, hosts. split_and!; [done|by apply list_elem_of_further|done|done].
    + intros (? & rule & hosts & [= <-] & Hin & ? & ?). apply elem_of_cons in Hin as [->|Hin].
      * assert (false = true) by (apply Hcov; eauto). done.
      * eauto 8.
Qed.
