(* ===== verification/Pages.v ===== *)
(** * The pages of the routes

    What the containers of src/dashboard/src/containers read of the store and of the parameters
    of their route, and the effects their components run when they are opened there.
    [opens] puts the two together, so that the way from a link to the requests of its page can
    be stated: [links_open_pages].  The list of applications and the list of repositories have
    more to their opening than these ([AppList], [RepoList]). *)

From S2P Require Import Prelude.
From S2P Require Import Json.
From S2P Require Import JsonText.
From S2P Require Import Browser.
From S2P Require Import Types.
From S2P Require Import Url.
From S2P Require Import KubeRef.
From S2P Require Import Actions.
From S2P Require Import AppsReducer.
From S2P Require Import ChartsReducer.
From S2P Require Import ConfigReducer.
From S2P Require Import ReposReducer.
From S2P Require Import OperatorsReducer.
From S2P Require Import ClusterReducer.
From S2P Require Import KubeReducer.
From S2P Require Import Store.
From S2P Require Import Thunk.
From S2P Require Import HelmServices.
From S2P Require Import KubeServices.
From S2P Require Import Schema.
From S2P Require Import DeploymentForm.
From S2P Require Import AppsActions.
From S2P Require Import ChartsActions.
From S2P Require Import ReposActions.
From S2P Require Import OperatorsActions.
From S2P Require Import Routes.
From S2P Require Import Header.
From S2P Require Import Catalog.
From S2P Require Import OperatorPages.
From S2P Require Import ChartView.

(** ** What the containers read *)




Section containers.
Context `{Lodash} `{Jwt} `{Location} `{Router}.


(** [currentCluster] and [clusters[currentCluster].currentNamespace]. *)
Definition current_place (st : IStoreState) : outcome (string * string) :=
  let cluster := current_key (s_clusters st) in
  ns ← namespace_of (s_clusters st) cluster;
  Ok (cluster, property_key ns).








End containers.

(** ** What the pages ask for when they open *)

Section effects.
Context `{Lodash} `{Jwt} `{Location} `{Router} `{Yaml} `{Ajv} `{Semver} (boot : browser).










End effects.

(** ** From a link to the requests of its page *)

Section links.
Context `{Lodash} `{Jwt} `{Location} `{Router} `{Yaml} `{Ajv} `{Semver} (boot : browser).
Context {match_path : string → string → option params_t} `{!PathMatching match_path}.

(** An action that announces a request, and the request. *)
Definition asks (a : action) (url : string) : list event :=
  [EvDispatch a; EvRequest axiosWithAuth (get_request url)].






(** The store there: the place of the link is the current one, no release is selected, and what
    the pages read of the rest is as it was. *)
Record at_place (cluster ns : string) (st st' : IStoreState) : Prop := {
  place_current : current_place st' = Ok (cluster, ns);
  place_config : s_config st' = s_config st;
  place_charts : s_charts st' = s_charts st;
  place_selected : IAppState_selected (s_apps st') = None;
  place_OLM : operators_isOLMInstalled (s_operators st') = operators_isOLMInstalled (s_operators st);
  place_operator : operators_operator (s_operators st') = operators_operator (s_operators st);
}.




Lemma current_cluster_at cluster ns st st' : at_place cluster ns st st' → currentCluster st' = cluster.
Proof using.
  intros Hp. pose proof (place_current _ _ _ _ Hp) as Hc. unfold current_place in Hc.
  by apply bind_Ok in Hc as (? & _ & [= <- _]).
Qed.

(** ** What a started thunk does at once *)

(** Up to its first wait [p] dispatches and requests [tr]; it starts nothing, and leaves the
    clusters and the configuration alone. *)
Definition begins {A} (p : prog A) (m : machine) (tr : list event) : Prop :=
  ∃ q m', run_sync boot p m = (q, m') ∧ waiting q ∧ m_trace m' = m_trace m ++ tr ∧
    m_forked m' = m_forked m ∧ s_clusters (m_store m') = s_clusters (m_store m) ∧
    s_config (m_store m') = s_config (m_store m).

Lemma begins_http c r t m : begins (http c r t) m [EvRequest c r].
Proof using. do 2 eexists. by rewrite run_sync_http. Qed.

Lemma begins_bind {A B} (p : prog A) (f : A → prog B) m tr : begins p m tr → begins (p ≫= f) m tr.
Proof using.
  intros (q & m' & Hq & Hw & Ht). exists (q ≫= f), m'. rewrite run_sync_bind, Hq. by destruct q.
Qed.

Lemma begins_await {A} (p : prog A) m tr : begins p m tr → begins (await p) m tr.
Proof using.
  intros (q & m' & Hq & Hw & Ht). exists (await q), m'. rewrite run_sync_await, Hq. by destruct q.
Qed.

Lemma begins_try {A} (p : prog A) h m tr : begins p m tr → begins (try_catch p h) m tr.
Proof using.
  intros (q & m' & Hq & Hw & Ht). exists (try_catch q h), m'. rewrite run_sync_try, Hq. by destruct q.
Qed.

Lemma begins_getState {A} (f : IStoreState → prog A) m tr :
  begins (f (m_store m)) m tr → begins (st ← getState; f st) m tr.
Proof using.
  intros (q & m' & Hq & Hw & Ht). exists q, m'. by rewrite run_sync_bind, run_sync_getState.
Qed.

Lemma begins_dispatch {A} a (p : prog A) m tr :
  safe_action a → listens sl_clusters a = false → listens sl_config a = false →
  begins p (dispatched boot a m) tr → begins (_ ← dispatch a; p) m (EvDispatch a :: tr).
Proof using.
  intros Ha Hl Hg (q & m' & Hq & Hw & Ht & Hf & Hc & Hd).
  assert (s_clusters (m_store (dispatched boot a m)) = s_clusters (m_store m) ∧
          s_config (m_store (dispatched boot a m)) = s_config (m_store m)) as [Hc' Hd'].
  { destruct (store_dispatch_frame boot a (m_store m, m_world m)) as (_ & _ & _ & Hfr & _ & Hfl & _).
    apply Hfl in Hl. apply Hfr in Hg as [Hg _]. unfold dispatched, do_dispatch.
    by destruct (store_dispatch boot a _) as [r [st w]]. }
  exists q, m'. rewrite run_sync_bind, run_sync_dispatch, Ht, Hf, Hc, Hd by done. by read_machine.
Qed.






Ltac begin_thunk :=
  unfold asks;
  repeat first [lazymatch goal with |- begins (http ?c ?r ?t) ?m _ => exact (begins_http c r t m) end
               |apply begins_await|apply begins_try|apply begins_getState
               |apply begins_dispatch; [done..|]|apply begins_bind].










Lemma getResource_begins cluster ns v crd name m :
  begins (getResource cluster ns v crd name) m
    (EvDispatch requestCustomResource ::
     asks requestCSV (api_k8s_operators_clusterServiceVersion cluster ns v)).
Proof using. unfold getResource, getCSV, Operators_getCSV. begin_thunk. Qed.









Section addresses.
Context (cluster ns : string).










End addresses.




(** ** The pages *)

Section at_link.
Context (E : env) (cluster ns : string) (st : IStoreState) (m : machine).
Hypothesis Hp : at_place cluster ns st (m_store m).







End at_link.



End links.
