(* ===== verification/Examples.v ===== *)
(** * Concrete instances and runs

    The libraries the development leaves abstract, instantiated by concrete functions
    that satisfy the laws asked of them, and the theorems with hypotheses applied to
    concrete inputs that meet them. *)

From S2P Require Import Prelude.
From S2P Require Import Json.
From S2P Require Import JsonText.
From S2P Require Import Browser.
From S2P Require Import Types.
From S2P Require Import Url.
From S2P Require Import KubeRef.
From S2P Require Import Actions.
From S2P Require Import AppsReducer.
From S2P Require Import AuthReducer.
From S2P Require Import ChartsReducer.
From S2P Require Import ConfigReducer.
From S2P Require Import ReposReducer.
From S2P Require Import ClusterReducer.
From S2P Require Import KubeReducer.
From S2P Require Import KubeWatch.
From S2P Require Import Store.
From S2P Require Import Thunk.
From S2P Require Import HelmServices.
From S2P Require Import KubeServices.
From S2P Require Import Schema.
From S2P Require Import AppsActions.
From S2P Require Import Auth.
From S2P Require Import AuthActions.
From S2P Require Import AxiosInstance.
From S2P Require Import ChartsActions.
From S2P Require Import NamespaceActions.
From S2P Require Import ReposActions.
From S2P Require Import OperatorsActions.
From S2P Require Import KubeActions.
From S2P Require Import CatalogActions.
From S2P Require Import ConfigActions.

(** ** The libraries *)

#[local] Existing Instance lodash_ref.

#[local] Instance jwt_ref : Jwt := {| jwt_decode _ := None |}.
#[local] Instance location_ref : Location :=
  {| loc_protocol := "https:"; loc_host := "kubeapps.example"; loc_pathname := "/" |}.
#[local] Instance router_ref : Router :=
  {| router_state := string; router_initial := "/";
     connectRouter s a := match a with LOCATION_CHANGE path => path | _ => s end |}.
#[local] Instance yaml_ref : Yaml := {| YAML_parse := JSON_parse; yaml_load := JSON_parse |}.
#[local] Instance ajv_ref : Ajv := {| ajv_validate _ _ := Ok (true, None) |}.

(** Versions of three numbers. *)
Definition all_digits (s : string) : bool := truthy s && str_all is_digit s.

Definition semver_key (v : string) : option (Z * Z * Z) :=
  match split_on "." v with
  | [a; b; c] =>
    if all_digits a && all_digits b && all_digits c
    then Some (digits_value a, digits_value b, digits_value c) else None
  | _ => None
  end.

Definition compare_keys (x y : Z * Z * Z) : Z :=
  let '(a, b, c) := x in let '(a', b', c') := y in
  if (a <? a')%Z then -1 else if (a' <? a)%Z then 1
  else if (b <? b')%Z then -1 else if (b' <? b)%Z then 1
  else if (c <? c')%Z then -1 else if (c' <? c)%Z then 1 else 0.

Lemma compare_keys_flip x y : (compare_keys x y > 0)%Z → (compare_keys y x <= 0)%Z.
Proof.
  destruct x as [[a b] c], y as [[a' b'] c']. unfold compare_keys.
  repeat (case_match; try lia).
Qed.

Lemma compare_keys_le x y :
  (compare_keys x y <= 0)%Z ↔
  let '(a, b, c) := x in let '(a', b', c') := y in
  (a < a' ∨ a = a' ∧ (b < b' ∨ b = b' ∧ c <= c'))%Z.
Proof.
  destruct x as [[a b] c], y as [[a' b'] c']. unfold compare_keys.
  destruct (Z.ltb_spec a a'), (Z.ltb_spec a' a), (Z.ltb_spec b b'), (Z.ltb_spec b' b),
    (Z.ltb_spec c c'), (Z.ltb_spec c' c); lia.
Qed.

Lemma compare_keys_trans x y z :
  (compare_keys x y <= 0)%Z → (compare_keys y z <= 0)%Z → (compare_keys x z <= 0)%Z.
Proof. rewrite !compare_keys_le. destruct x as [[]], y as [[]], z as [[]]. lia. Qed.

#[local] Instance semver_ref : Semver.
Proof.
  refine {|
    semver_valid v := match semver_key v with Some _ => true | None => false end;
    semver_compare v w :=
      match semver_key v, semver_key w with
      | Some x, Some y => Ok (compare_keys x y)
      | _, _ => Throws (mk_error TypeError ("Invalid Version: " +:+ v))
      end |}.
  - constructor.
    + intros v w. destruct (semver_key v), (semver_key w); try done. intros _ _. by eexists.
    + intros v w c. destruct (semver_key v) as [x|], (semver_key w) as [y|]; try done.
      intros _ _ [= <-] Hc. eexists. split; [done|]. by apply compare_keys_flip.
    + intros u v w c d. destruct (semver_key u) as [x|], (semver_key v) as [y|],
        (semver_key w) as [z|]; try done.
      intros _ _ _ [= <-] Hc [= <-] Hd. eexists. split; [done|]. by eapply compare_keys_trans.
  - intros v w Hvw. destruct (semver_key v), (semver_key w); try by eexists.
    by destruct Hvw.
Defined.

(** ** The objects *)

Definition a_browser : browser :=
  {| localStorage := ∅; assigned := None; bodyTheme := None; prefersDark := Some true |}.

Definition a_machine : machine :=
  {| m_store := store_initialState a_browser; m_world := mkWorld a_browser kube_world_empty;
     m_ticks := 0; m_trace := []; m_forked := [] |}.

Definition an_IResource (name : string) : IResource :=
  {| IResource_apiVersion := "v1"; IResource_kind := "Namespace"; IResource_type := "";
     IResource_spec := JUndefined; IResource_status := JUndefined;
     IResource_metadata :=
       {| IResourceMetadata_name := name; IResourceMetadata_namespace := "";
          IResourceMetadata_annotations := ∅; IResourceMetadata_ownerReferences := None;
          IResourceMetadata_creationTimestamp := ""; IResourceMetadata_selfLink := "";
          IResourceMetadata_resourceVersion := ""; IResourceMetadata_deletionTimestamp := None;
          IResourceMetadata_uid := name |} |}.

Definition an_overview (name version : string) : IAppOverview :=
  {| IAppOverview_releaseName := name; IAppOverview_namespace := "default";
     IAppOverview_version := version; IAppOverview_icon := None; IAppOverview_status := "deployed";
     IAppOverview_chart := name;
     IAppOverview_chartMetadata :=
       {| IMetadata_name := Some name; IMetadata_version := Some version;
          IMetadata_description := None; IMetadata_icon := None; IMetadata_appVersion := None |};
     IAppOverview_updateInfo := None |}.

Definition a_chart (id version : string) : IChart :=
  let chart := example_chart id in
  {| IChart_id := id; IChart_attributes := IChart_attributes chart;
     IChart_relationships_latestChartVersion_data :=
       {| IChartVersionAttributes_version := version; IChartVersionAttributes_app_version := "1";
          IChartVersionAttributes_created := "" |} |}.

Definition a_chart_version (version : string) : IChartVersion :=
  {| IChartVersion_id := "bitnami/redis-" +:+ version;
     IChartVersion_attributes :=
       {| IChartVersionAttributes_version := version; IChartVersionAttributes_app_version := "1";
          IChartVersionAttributes_created := "" |};
     IChartVersion_relationships_chart_data := IChart_attributes (example_chart "redis") |}.

Definition a_config (clusters : list string) : IConfig :=
  {| IConfig_kubeappsCluster := "default"; IConfig_kubeappsNamespace := "kubeapps";
     IConfig_appVersion := "2.3"; IConfig_authProxyEnabled := false; IConfig_oauthLoginURI := "";
     IConfig_oauthLogoutURI := ""; IConfig_authProxySkipLoginPage := false; IConfig_error := None;
     IConfig_clusters := clusters; IConfig_theme := None |}.

Definition a_ref (name : string) : ResourceRef :=
  ResourceRef_new "apps/v1" "Deployment" (Some name) (Some "default") "default" "deployments" true
    None.

Definition an_update : IChartUpdateInfo :=
  {| IChartUpdateInfo_upToDate := false; IChartUpdateInfo_chartLatestVersion := "2.0.0";
     IChartUpdateInfo_appLatestVersion := "2"; IChartUpdateInfo_repository := no_repo;
     IChartUpdateInfo_error := None |}.

(** An environment that answers every request alike and leaves the program alone. *)
Definition an_env (reply : nat → http_client → request → ∀ t, outcome (denote t)) : env.
Proof.
  refine {| env_reply := reply; env_order i n := seq 0 n; env_actions _ := []; env_browser _ b := b |}.
  done.
Defined.

Definition no_answer : js_error := mk_error Error "Network Error".

Definition reply_with {t : resp_ty} (r : denote t) (n : nat) (c : http_client) (req : request)
    (t' : resp_ty) : outcome (denote t').
Proof.
  refine (match decide (t = t') with left e => Ok (eq_rect t denote r t' e) | right _ => Throws no_answer end).
  solve_decision.
Defined.

(** ** The slices *)

Lemma receiveAppUpdateInfo_exact_witness :
  let state := apps_initialState <| IAppState_listOverview :=
    Some [an_overview "blog" "1.0.0"; an_overview "db" "1.0.0"] |> in
  IAppState_listOverview state ≫= (.!! 1) = Some (an_overview "db" "1.0.0") ∧
  overview_names (appsReducer state (receiveAppUpdateInfo "db" an_update)) = overview_names state.
Proof.
  intros state. split; [reflexivity|].
  apply (receiveAppUpdateInfo_exact state "db" an_update 1 (an_overview "db" "1.0.0")). reflexivity.
Defined.

Lemma navigate_route_witness :
  namespaced_route "default" "team" (app_apps_list "default" "team") ∧
  ∃ state', clusterReducer (clusters_getInitialState a_browser) (clusters_getInitialState a_browser)
      (LOCATION_CHANGE (app_apps_list "default" "team")) a_browser = Ok state' ∧
    IClusterState_currentNamespace <$> current_entry state' = Some (Some "team").
Proof.
  split; [constructor|].
  destruct (navigate_route (clusters_getInitialState a_browser) (clusters_getInitialState a_browser)
    a_browser "default" "team" (app_apps_list "default" "team")) as (s & Hs & _ & Hns & _);
    [constructor|done|done|vm_compute; exact I|vm_compute; exact I|].
  exists s. split; [exact Hs|exact Hns].
Defined.

Lemma receiveNamespace_insert_witness :
  let state := {| IClustersState_currentCluster := Some "default";
    IClustersState_clusters := {[ "default" := {| IClusterState_currentNamespace := Some "b";
      IClusterState_namespaces := Some ["a"; "c"]; IClusterState_canCreateNS := Some false;
      IClusterState_error := None |} ]} |} in
  NoDup ["a"; "c"] ∧
  ∃ state' l', clusterReducer state state (receiveNamespace "default" (an_IResource "b")) a_browser =
      Ok state' ∧
    (IClustersState_clusters state' !! "default") ≫= IClusterState_namespaces = Some l' ∧
    (∀ n, n ∈ l' ↔ n = "b" ∨ n ∈ ["a"; "c"]) ∧ Sorted String.le l'.
Proof.
  intros state. assert (NoDup ["a"; "c"]) as Hnd by (apply (bool_decide_unpack _); vm_compute; exact I).
  split; [exact Hnd|].
  destruct (receiveNamespace_insert state state a_browser "default" (an_IResource "b") ["a"; "c"])
    as (s & l' & Hs & Hl & Hin & Hsorted & _).
  - reflexivity.
  - repeat constructor.
  - exact Hnd.
  - exists s, l'. split; [exact Hs|]. split; [exact Hl|]. split; [exact Hin|exact Hsorted].
Defined.

Lemma clusterReducer_safety_witness :
  let state := clusters_getInitialState a_browser in
  cluster_ok state ∧
  (cluster_throws state (receiveNamespaces "other" ["a"]) = false ↔
   ∃ state', clusterReducer state state (receiveNamespaces "other" ["a"]) a_browser = Ok state').
Proof.
  intros state. assert (cluster_ok state) as Hok by (eexists; reflexivity).
  split; [exact Hok|].
  apply (clusterReducer_safety state state (receiveNamespaces "other" ["a"]) a_browser Hok).
Defined.

Lemma clearClusters_then_navigation_throws_witness :
  let i := clusters_getInitialState a_browser in
  "default" ∉ IConfig_clusters (a_config ["prod"; "staging"]) ∧
  ∃ state1 state2,
    clusterReducer i i (receiveConfig (a_config ["prod"; "staging"])) a_browser = Ok state1 ∧
    clusterReducer i state1 clearClusters a_browser = Ok state2 ∧
    clusterReducer i state2 (LOCATION_CHANGE "/login") a_browser =
      Throws (undefined_access "currentNamespace").
Proof.
  intros i. assert ("default" ∉ IConfig_clusters (a_config ["prod"; "staging"])) as Hd
    by (apply (bool_decide_unpack _); vm_compute; exact I).
  split; [exact Hd|].
  apply (clearClusters_then_navigation_throws (a_config ["prod"; "staging"]) a_browser a_browser i
    "/login"); [exact Hd|discriminate|reflexivity].
Defined.

(** ** Watching *)

Lemma a_ref_watchable name : name ≠ "" → watchable (a_ref name).
Proof. intros Hn. split; [vm_compute; exact I|]. by intros [= ->]. Qed.

Definition watched : IKubeState * kube_world :=
  (dispatch_kube a_browser (openWatchResource (a_ref "blog") (on_message (a_ref "blog"))
     (on_error (a_ref "blog"))) watch_init).1.
(** Its only socket fails. *)
Definition failed : IKubeState * kube_world :=
  handle_error a_browser (a_ref "blog") (connection_lost 0 watched).
Definition blog_fails : list watch_event :=
  [ev_watch (a_ref "blog"); ev_error (watchResourceURL (a_ref "blog"))].
Definition closed : IKubeState * kube_world :=
  (dispatch_kube a_browser (closeWatchResource (a_ref "blog")) failed).1.

Lemma watched_then_failed :
  watch_run a_browser watch_init blog_fails failed.
Proof.
  eapply run_cons; [apply step_watch; by apply a_ref_watchable|].
  eapply run_cons; [|apply run_nil].
  apply (step_error a_browser watched 0 (mkWebsocket (watchResourceURL (a_ref "blog"))
    (wsProtocols a_browser) [on_message (a_ref "blog")] [on_error (a_ref "blog")] false false) (a_ref "blog"));
    [vm_compute; reflexivity|by split|left].
Qed.

Lemma watch_no_leaks_witness :
  watch_run a_browser watch_init blog_fails failed ∧
  kw_intervals failed.2 !! 1%N = Some (poll_resource (a_ref "blog")) ∧
  IKubeState_timers failed.1 !! getResourceURL (a_ref "blog") = Some (Some 1%N).
Proof.
  split; [exact watched_then_failed|].
  assert (kw_intervals failed.2 !! 1%N = Some (poll_resource (a_ref "blog"))) as Hi
    by (vm_compute; reflexivity).
  split; [exact Hi|].
  destruct (watch_no_leaks a_browser _ failed watched_then_failed) as (_ & _ & Hint).
  destruct (Hint _ _ Hi) as (ref & Href & Ht & _). injection Href as Href. rewrite Href. exact Ht.
Defined.

Lemma closed_watch_stays_quiet_witness :
  watch_step a_browser failed (ev_close (a_ref "blog")) closed ∧
  ∀ t ref', kw_intervals closed.2 !! t = Some (poll_resource ref') →
    watchResourceURL ref' ≠ watchResourceURL (a_ref "blog").
Proof.
  assert (watch_step a_browser failed (ev_close (a_ref "blog")) closed) as Hc
    by (apply step_close; by apply a_ref_watchable).
  split; [exact Hc|].
  apply (closed_watch_stays_quiet a_browser _ failed (a_ref "blog") closed [] closed
    watched_then_failed Hc); [apply run_nil|].
  intros ref' Hin. by apply elem_of_nil in Hin.
Defined.

Lemma a_ref_valid name : name = "blog" ∨ name = "db" → valid_ref (a_ref name).
Proof.
  intros Hn. constructor; destruct Hn as [->| ->]; try (vm_compute; exact I); try done.
  - right. exists "apps", "v1". split_and!; [reflexivity|vm_compute; exact I..].
  - right. exists "apps", "v1". split_and!; [reflexivity|vm_compute; exact I..].
Qed.

Lemma getResourceURL_inj_witness :
  valid_ref (a_ref "blog") ∧
  (getResourceURL (a_ref "blog") = getResourceURL (a_ref "db") →
   ref_name (a_ref "blog") = ref_name (a_ref "db")).
Proof.
  pose proof a_ref_valid as Hv.
  split; [apply Hv; by left|]. intros Heq.
  apply (getResourceURL_inj (a_ref "blog") (a_ref "db")); [apply Hv; by left|apply Hv; by right|exact Heq].
Defined.

(** ** The thunks *)

Lemma updateInfo_lowest_version_witness :
  Forall (λ c, Is_true (semver_valid (chart_version c))) [a_chart "redis" "2.0.0"; a_chart "redis" "1.5.0"] ∧
  ∃ info c, updateInfo_of "1.0.0" [a_chart "redis" "2.0.0"; a_chart "redis" "1.5.0"] = Ok info ∧
    IChartUpdateInfo_chartLatestVersion info = chart_version c ∧
    ∀ d, d ∈ [a_chart "redis" "2.0.0"; a_chart "redis" "1.5.0"] → d = c ∨
      ∃ k, semver_compare (chart_version c) (chart_version d) = Ok k ∧ (k <= 0)%Z.
Proof.
  assert (Forall (λ c, Is_true (semver_valid (chart_version c)))
    [a_chart "redis" "2.0.0"; a_chart "redis" "1.5.0"]) as Hall
    by (repeat constructor; vm_compute; exact I).
  split; [exact Hall|].
  destruct (updateInfo_lowest_version "1.0.0" [a_chart "redis" "2.0.0"; a_chart "redis" "1.5.0"])
    as (info & c & z & Hinfo & _ & Hv & _ & Hmin & _);
    [discriminate|vm_compute; exact I|exact Hall|].
  exists info, c. split; [exact Hinfo|]. split; [exact Hv|exact Hmin].
Defined.

Definition apps_env : env :=
  an_env (reply_with (t:=T_overviews) (mkEnvelope (Some [an_overview "blog" "1.0.0"; an_overview "db" "2.0.0"]))).

Lemma fetchAppsWithUpdateInfo_asks_each_witness :
  env_reply apps_env 0 axiosWithAuth
    (get_request (kubeops_releases_list "default" "team" +:+ "?statuses=all")) T_overviews =
    Ok (mkEnvelope (Some [an_overview "blog" "1.0.0"; an_overview "db" "2.0.0"])) ∧
  ∃ q1 q2,
    m_forked (run a_browser apps_env (fetchAppsWithUpdateInfo "default" "team") a_machine).2 = [q1; q2].
Proof.
  split; [reflexivity|].
  destruct (fetchAppsWithUpdateInfo_asks_each a_browser apps_env "default" "team"
    [an_overview "blog" "1.0.0"; an_overview "db" "2.0.0"] a_machine) as (qs & (_ & _ & Hfk) & Hqs);
    [reflexivity|].
  pose proof (Forall2_length _ _ _ Hqs) as Hlen.
  destruct qs as [|q1 [|q2 [|]]]; try discriminate Hlen. exists q1, q2. exact Hfk.
Defined.

Lemma handleError_performs_witness :
  let err := mkAxiosError None "Request failed with status code 404"
    (Some (mkAxiosResponse 404 (JStr "not here"))) in
  error_message err = Ok "not here" ∧
  (run a_browser apps_env (handleError (A:=unit) err) a_machine).1 =
    Throws (mk_error NotFoundError "not here").
Proof.
  intros err. split; [reflexivity|].
  pose proof (handleError_performs a_browser apps_env err a_machine "not here" unit eq_refl) as Hp.
  cbv zeta in Hp. destruct (run a_browser apps_env (handleError err) a_machine) as [r m'].
  destruct Hp as ((cls & Hcls & ->) & _). inversion Hcls as [| | |d Hd| | | |status d Hno Hd]; [reflexivity|].
  destruct Hno. vm_compute. right. right. left.
Defined.

Definition versions_env : env :=
  an_env (reply_with (t:=T_chart_versions)
    (mkEnvelope (Some [a_chart_version "1.0.0"; a_chart_version "1.10.0"]))).

Lemma select_newest_version_witness :
  Forall (λ v, Is_true (semver_valid (cv_version v))) [a_chart_version "1.0.0"; a_chart_version "1.10.0"] ∧
  (run a_browser versions_env
     (fetchChartVersionsAndSelectVersion "default" "team" "bitnami/redis" None) a_machine).1 = Ok ().
Proof.
  assert (Forall (λ v, Is_true (semver_valid (cv_version v)))
    [a_chart_version "1.0.0"; a_chart_version "1.10.0"]) as Hall
    by (repeat constructor; vm_compute; exact I).
  split; [exact Hall|].
  destruct (select_newest_version a_browser versions_env "default" "team" "bitnami/redis" None
    a_machine [a_chart_version "1.0.0"; a_chart_version "1.10.0"])
    as (newest & sorted & _ & _ & _ & Hrun); [reflexivity|discriminate|exact Hall|].
  cbv zeta in Hrun. destruct (run a_browser versions_env _ a_machine) as [r m'].
  exact (proj1 Hrun).
Defined.

Lemma setNamespace_remembers_witness :
  stored_ok a_browser ∧ plain_key "default" ∧
  getStoredNamespace "default" (w_browser (m_world
    (run a_browser apps_env (setNamespace "default" "team") a_machine).2)) = JStr "team".
Proof.
  assert (stored_ok a_browser) as Hok by (exists []; split; [vm_compute; reflexivity|constructor; constructor]).
  split; [exact Hok|]. split; [vm_compute; exact I|].
  pose proof (setNamespace_remembers a_browser apps_env "default" "team" a_machine Hok) as Hp.
  specialize (Hp ltac:(vm_compute; exact I)). cbv zeta in Hp.
  destruct (run a_browser apps_env (setNamespace "default" "team") a_machine) as [r m'].
  exact (proj1 (proj2 (proj2 Hp))).
Defined.

Definition a_repo (uid : string) : IAppRepository :=
  {| IK8sObject_apiVersion := "kubeapps.com/v1alpha1"; IK8sObject_kind := "AppRepository";
     IK8sObject_metadata :=
       {| IK8sMetadata_annotations := None; IK8sMetadata_creationTimestamp := None;
          IK8sMetadata_deletionTimestamp := None; IK8sMetadata_generation := None;
          IK8sMetadata_labels := None; IK8sMetadata_name := uid; IK8sMetadata_namespace := "team";
          IK8sMetadata_resourceVersion := None; IK8sMetadata_uid := uid;
          IK8sMetadata_selfLink := None;
          IK8sMetadata_ext := {| IAppRepositoryMetadata_clusterName := "";
                                 IAppRepositoryMetadata_deletionGracePeriodSeconds := None |} |};
     IK8sObject_spec := None; IK8sObject_status := None |}.

Definition a_repo_list (uids : list string) : IAppRepositoryList :=
  {| IK8sList_apiVersion := "v1"; IK8sList_kind := "List"; IK8sList_items := a_repo <$> uids;
     IK8sList_metadata := None |}.

Definition repos_env : env := an_env (reply_with (t:=T_repo_list) (a_repo_list ["1"; "2"])).

Lemma fetchRepos_merges_witness :
  NoDup (repo_uid <$> IK8sList_items (a_repo_list ["1"; "2"])) ∧
  let m' := (run a_browser repos_env (fetchRepos "team" true) a_machine).2 in
  NoDup (repo_uid <$> repos_repos (s_repos (m_store m'))) ∧
  IK8sList_items (a_repo_list ["1"; "2"]) `prefix_of` repos_repos (s_repos (m_store m')).
Proof.
  assert (NoDup (repo_uid <$> IK8sList_items (a_repo_list ["1"; "2"]))) as Hnd
    by (apply (bool_decide_unpack _); vm_compute; exact I).
  split; [exact Hnd|].
  pose proof (fetchRepos_merges a_browser repos_env "team" a_machine (a_repo_list ["1"; "2"])
    (a_repo_list ["1"; "2"]) ltac:(discriminate) Hnd eq_refl eq_refl) as Hp.
  destruct (run a_browser repos_env (fetchRepos "team" true) a_machine) as [r m'].
  split; [exact (proj1 (proj2 Hp))|exact (proj1 (proj2 (proj2 Hp)))].
Defined.

Definition valid_env : env := an_env (reply_with (t:=T_json) (JObj [("code", JNum 200)])).

Lemma validateRepo_verdict_witness :
  IClustersState_clusters (s_clusters (m_store a_machine)) !! currentCluster (m_store a_machine) =
    IClustersState_clusters (clusters_getInitialState a_browser) !! "default" ∧
  (run a_browser valid_env
     (validateRepo "https://charts.example" "helm" "" "" "" [] false false) a_machine).1 = Ok true.
Proof.
  split; [reflexivity|].
  pose proof (validateRepo_verdict a_browser valid_env "https://charts.example" "helm" "" "" "" []
    false false a_machine _ eq_refl) as Hp.
  cbv zeta in Hp. destruct (run a_browser valid_env _ a_machine) as [r m'].
  exact (proj1 Hp).
Defined.

(** A boolean parameter is not sent with a new service. *)
Lemma provision_parameters_witness :
  ∃ sent, (("size", JNum 3) ∈ sent) ∧ (("enabled", JBool true) ∉ sent) ∧
    sent `sublist_of` [("enabled", JBool true); ("size", JNum 3)].
Proof.
  destruct (provision_parameters a_browser valid_env "db" "team" "mysql" "small"
    [("enabled", JBool true); ("size", JNum 3)] a_machine) as (sent & Hsub & Hin & _).
  exists sent. split_and!; [..|exact Hsub].
  - apply Hin. split; [by right; left|]. apply content_num.
  - intros Hb. apply Hin in Hb as [_ Hb]. inversion Hb.
Defined.

#[local] Instance matches_ref : LodashMatches.
Proof. by refine {| lodash_matches _ _ := true |}. Defined.

Definition cache_env : env :=
  an_env (reply_with (t:=T_kube_object) (KResource (an_IResource "blog"))).

Lemma getResource_caches_witness :
  being_fetched (m_store a_machine) (getResourceURL (a_ref "blog")) = false ∧
  let m' := (run a_browser cache_env (KubeActions.getResource (a_ref "blog") false) a_machine).2 in
  IKubeState_items (s_kube (m_store m')) !! getResourceURL (a_ref "blog") =
    Some (received (shown_object (a_ref "blog") (KResource (an_IResource "blog")))).
Proof.
  split; [reflexivity|].
  pose proof (getResource_caches a_browser cache_env (a_ref "blog") false a_machine) as Hp.
  cbv zeta in Hp. destruct (run a_browser cache_env _ a_machine) as [r m'].
  exact (proj2 (proj2 (proj2 Hp))).
Defined.
