(* ===== verification/ViewExamples.v ===== *)
(** * Concrete instances and runs of the views

    Reference instances of the packages the views use (yaml, fast-json-patch, lodash's
    [set], qs), with the laws asked of them, and the theorems of the views with hypotheses
    applied to concrete inputs that meet them.  The reference documents are JSON texts,
    which YAML includes. *)

From S2P Require Import Prelude.
From S2P Require Import Json.
From S2P Require Import JsonText.
From S2P Require Import Browser.
From S2P Require Import Types.
From S2P Require Import Url.
From S2P Require Import KubeRef.
From S2P Require Import Actions.
From S2P Require Import KubeReducer.
From S2P Require Import KubeWatch.
From S2P Require Import Store.
From S2P Require Import Thunk.
From S2P Require Import Schema.
From S2P Require Import ClusterReducer.
From S2P Require Import ReposActions.
From S2P Require Import Values.
From S2P Require Import FormParams.
From S2P Require Import DeploymentForm.
From S2P Require Import ParamInputs.
From S2P Require Import RepoForm.
From S2P Require Import Routes.
From S2P Require Import Regex.
From S2P Require Import Catalog.
From S2P Require Import AppView.
From S2P Require Import ResourceTable.
From S2P Require Import AccessURL.
From S2P Require Import Examples.

(** ** yaml *)

(** A text is its JSON value; the empty text is the empty document. *)
Definition parse_document (s : string) : json * bool :=
  if truthy s then match JSON_parse s with Ok j => (j, false) | Throws _ => (JNull, true) end
  else (JNull, false).

Lemma writable_printable j : writable j → printable j.
Proof.
  induction j as [| |b|n|s|s|l IH|fs IH] using json_ind'; inversion 1; subst; constructor; try done.
  - rewrite Forall_forall in *. auto.
  - rewrite Forall_forall in *. auto.
Qed.

#[local] Instance yaml_document_ref : YamlDocument.
Proof.
  refine {|
    node := json; document := json * bool;
    parseDocument := parse_document;
    contents d := match d.1 with JNull => None | j => Some j end;
    items n := match n with JObj fs => Some (snd <$> fs) | JArr l => Some l | _ => None end;
    getIn d ks := match lookup_in d.1 ks with
                  | None => Plain JUndefined
                  | Some j => if is_scalar j then Plain j else Node j
                  end;
    setIn d ks v := Ok (upsert_in d.1 ks v, d.2);
    deleteIn d ks := Ok (remove_in d.1 ks, d.2);
    doc_toString d := if d.2 then Throws (mk_error Error "Document with errors cannot be stringified")
                      else Ok (JSON_text d.1);
    toJSON d := d.1;
    has_errors d := d.2;
  |}.
  - intros [j e]. by destruct j.
  - intros [j e] n fs _. simpl. intros Hn ->. injection Hn as <-. eexists. split; [done|]. by rewrite length_fmap.
  - intros [j e] ks _ _ _ Hn. simpl in *. by rewrite Hn.
  - intros [j e] ks v _ _ Hv Hs. simpl in *. rewrite Hv. by destruct (is_scalar v).
  - intros [j e] ks v _ _ Hv Hs. simpl in *. rewrite Hv. destruct (is_scalar v); [by destruct Hs|by eexists].
  - intros [j e] ks k v fs _ _ _. by eexists.
  - intros [j e] v. eexists. split; [done|]. by destruct j.
  - intros [j e] ks k fs _ _ _. by eexists.
  - intros [j e] Hw Hf. cbn [fst snd] in *. subst e. eexists. split; [done|].
    pose proof (JSON_parse_stringify j (writable_printable j Hw)) as Hp. unfold parse_document.
    destruct (truthy (JSON_text j)) eqn:Ht; [by rewrite Hp|].
    destruct (JSON_text_head j (writable_printable j Hw)) as (? & ? & Heq & _). by rewrite Heq in Ht.
Defined.

(** ** fast-json-patch *)

Fixpoint unescape_ref (s : string) : string :=
  match s with
  | EmptyString => ""
  | String a s' =>
    match s' with
    | String b s'' =>
      if bool_decide (a = "~"%char) && bool_decide (b = "1"%char) then String "/" (unescape_ref s'')
      else if bool_decide (a = "~"%char) && bool_decide (b = "0"%char) then String "~" (unescape_ref s'')
      else String a (unescape_ref s')
    | EmptyString => String a ""
    end
  end.

Fixpoint escape_ref (s : string) : string :=
  match s with
  | EmptyString => ""
  | String a s' =>
    if bool_decide (a = "~"%char) then "~0" +:+ escape_ref s'
    else if bool_decide (a = "/"%char) then "~1" +:+ escape_ref s'
    else String a (escape_ref s')
  end.

Lemma unescape_other a s : a ≠ "~"%char → unescape_ref (String a s) = String a (unescape_ref s).
Proof. intros Ha. simpl. destruct s; [done|]. by rewrite bool_decide_false. Qed.

Lemma unescape_0 s : unescape_ref ("~0" +:+ s) = String "~" (unescape_ref s).
Proof. done. Qed.
Lemma unescape_1 s : unescape_ref ("~1" +:+ s) = String "/" (unescape_ref s).
Proof. done. Qed.

Lemma unescape_escape_ref s : unescape_ref (escape_ref s) = s.
Proof.
  induction s as [|a s IH]; [done|]. cbn [escape_ref].
  destruct (bool_decide_reflect (a = "~"%char)) as [->|Ha]; [by rewrite unescape_0, IH|].
  destruct (bool_decide_reflect (a = "/"%char)) as [->|Hs]; [by rewrite unescape_1, IH|].
  by rewrite unescape_other, IH.
Qed.

Lemma escape_ref_string_key k : string_key k → string_key (escape_ref k).
Proof.
  unfold string_key. destruct k as [|a k]; [done|]. rewrite !andb_True. intros [Ha Hr].
  cbn [escape_ref].
  destruct (bool_decide_reflect (a = "~"%char)) as [->|_]; [done|].
  destruct (bool_decide_reflect (a = "/"%char)) as [->|_]; [done|]. split; [done|].
  apply bool_decide_pack. apply bool_decide_unpack in Hr. intros Hin. apply Hr.
  assert (a ≠ "~"%char) as Hna by (intros ->; done).
  assert (unescape_ref (String a (escape_ref k)) = String a k) as Hk
    by (by rewrite unescape_other, unescape_escape_ref).
  revert Hin Hk. generalize (String a (escape_ref k)) as k'. intros k' Hin <-.
  unfold reserved_words in *. rewrite !elem_of_cons, elem_of_nil in Hin.
  destruct Hin as [->|[->|[->|[->|[->|[->|[->|[->|[->|[]]]]]]]]]]; vm_compute; by repeat constructor.
Qed.

#[local] Instance json_pointer_ref : JsonPointer.
Proof.
  refine {| unescapePathComponent := unescape_ref; escapePathComponent := escape_ref |}.
  - apply unescape_escape_ref.
  - induction k as [|a k IH]; [done|]. unfold lacks in *. cbn [str_all]. rewrite andb_True.
    intros [Ha Hk]. rewrite unescape_other, IH; [done|done|]. intros ->. done.
  - unfold lacks. induction k as [|a k IH]; [done|]. cbn [escape_ref].
    destruct (bool_decide_reflect (a = "~"%char)) as [->|_]; [done|].
    destruct (bool_decide_reflect (a = "/"%char)) as [->|Hs]; [done|]. simpl.
    by rewrite bool_decide_false.
  - apply escape_ref_string_key.
Defined.

(** ** lodash's set, on the empty object *)

#[local] Instance lodash_set_ref : LodashSet.
Proof.
  refine {| set _ path v := nest (split_on "." path) v |}.
  intros k ks v Hks. change "." with (String "." ""). rewrite split_join; [done|done|].
  eapply Forall_impl; [exact Hks|]. intros k'. unfold plain_key. rewrite !andb_True. tauto.
Defined.

(** ** qs *)

Definition qs_pair (part : string) : string * json :=
  match split_on "=" part with
  | [] => ("", JStr "")
  | k :: rest =>
    (k, JStr (join "," ((λ v, match decodeURIComponent v with Ok s => s | Throws _ => v end) <$>
                          split_on "," (join "=" rest))))
  end.

Definition qs_parse_ref (s : string) : list (string * json) :=
  match s with
  | EmptyString => []
  | String a r => qs_pair <$> split_on "&" (if bool_decide (a = "?"%char) then r else s)
  end.

Definition no_sep (a : ascii) : bool :=
  bool_decide (a ≠ "&"%char) && bool_decide (a ≠ "="%char) && bool_decide (a ≠ ","%char).

Lemma encode_no_sep s : str_all no_sep (encodeURIComponent s).
Proof.
  induction s as [|a s IH]; [done|].
  assert (∀ a, Is_true (str_all no_sep (encodeURIComponent (String a "")))) as H by check_bytes.
  specialize (H a). cbn [encodeURIComponent] in *. destruct (uri_unreserved a); cbn [str_all] in *.
  - rewrite andb_True in *. tauto.
  - rewrite !andb_True in *. tauto.
Qed.

Lemma no_sep_lacks c s : c ∈ ["&"; "="; ","]%char → str_all no_sep s → lacks c s.
Proof.
  intros Hc. unfold lacks. induction s as [|a s IH]; [done|]. simpl. rewrite !andb_True.
  intros [Ha Hs]. split; [|by apply IH]. unfold no_sep in Ha. rewrite !andb_True in Ha.
  destruct Ha as [[H1 H2] H3]. apply bool_decide_unpack in H1, H2, H3.
  rewrite bool_decide_false; [done|]. intros ->. set_solver.
Qed.

Lemma names_no_sep k : k ∈ query_names → str_all no_sep k.
Proof. revert k. apply Forall_forall. repeat constructor; vm_compute; exact I. Qed.

Lemma str_all_join (f : ascii → bool) sep l :
  str_all f sep → Forall (λ w, Is_true (str_all f w)) l → str_all f (join sep l).
Proof.
  intros Hs Hl. induction Hl as [|w l Hw Hl IH]; [done|]. destruct l as [|w' l]; [done|].
  change (join sep (w :: w' :: l)) with (w +:+ sep +:+ join sep (w' :: l)).
  rewrite !str_all_app, !andb_True. done.
Qed.

(** One parameter of a query. *)
Definition query_part (kv : string * list string) : string :=
  kv.1 +:+ "=" +:+ join "," (encodeURIComponent <$> kv.2).

Lemma encoded_values_lack c vs : c ∈ ["&"; "="]%char → lacks c (join "," (encodeURIComponent <$> vs)).
Proof.
  intros Hc. apply str_all_join.
  - rewrite !elem_of_cons in Hc. by destruct Hc as [->|[->|[]%elem_of_nil]].
  - apply Forall_fmap, Forall_true. intros v. apply no_sep_lacks; [set_solver|apply encode_no_sep].
Qed.

Lemma query_part_lacks kv : kv.1 ∈ query_names → lacks "&" (query_part kv).
Proof.
  intros Hk. unfold query_part, lacks. rewrite !str_all_app, !andb_True. split_and!; [|done|].
  - apply no_sep_lacks; [set_solver|by apply names_no_sep].
  - by apply encoded_values_lack; set_solver.
Qed.

Lemma qs_pair_part kv :
  kv.1 ∈ query_names → kv.2 ≠ [] → Forall (λ v, Is_true (valid_utf8 v)) kv.2 →
  qs_pair (query_part kv) = (kv.1, JStr (join "," kv.2)).
Proof.
  destruct kv as [k vs]. cbn [fst snd]. intros Hk Hne Hvs. unfold qs_pair, query_part. cbn [fst snd].
  change ("=" +:+ join "," (encodeURIComponent <$> vs))
    with (String "=" (join "," (encodeURIComponent <$> vs))).
  rewrite split_on_app_sep by (apply no_sep_lacks; [set_solver|by apply names_no_sep]).
  rewrite (split_on_lacks "=") by (apply encoded_values_lack; set_solver). cbn [join].
  rewrite split_join; [|by destruct vs|].
  - rewrite <- list_fmap_compose, fmap_fixes; [done|]. eapply Forall_impl; [exact Hvs|].
    intros v Hv. simpl. unfold decodeURIComponent. by rewrite decode_encode_from.
  - apply Forall_fmap, Forall_true. intros v. apply no_sep_lacks; [set_solver|apply encode_no_sep].
Qed.

#[local] Instance qs_ref : Qs.
Proof.
  refine {| qs_parse := qs_parse_ref |}; [done|].
  intros kvs Hne _ Hall. change (encoded_query kvs) with (String "?" (join "&" (query_part <$> kvs))).
  unfold qs_parse_ref. rewrite bool_decide_true by done.
  rewrite split_join.
  - rewrite <- list_fmap_compose. clear Hne. induction Hall as [|kv kvs (Hk & Hv & Hu) _ IH]; [done|].
    rewrite !fmap_cons, IH. cbn [compose]. by rewrite qs_pair_part.
  - by destruct kvs.
  - apply Forall_fmap. eapply Forall_impl; [exact Hall|]. intros kv (Hk & _). by apply query_part_lacks.
Defined.

(** ** The values of a release *)

#[local] Existing Instance lodash_ref.
#[local] Existing Instance Examples.jwt_ref.
#[local] Existing Instance Examples.location_ref.
#[local] Existing Instance Examples.router_ref.
#[local] Existing Instance Examples.yaml_ref.
#[local] Existing Instance Examples.ajv_ref.
#[local] Existing Instance Examples.semver_ref.

Definition some_fields : list (string * json) :=
  [("image", JObj [("tag", JStr "1.0"); ("pull", JBool true)]); ("replicas", JNum 2)].
Definition some_values : string := JSON_text (JObj some_fields).




Definition some_patch : list Operation :=
  [{| op := "replace"; op_path := "/image/tag"; op_value := JStr "2.0" |};
   {| op := "remove"; op_path := "/replicas"; op_value := JUndefined |}].



(** ** The parameters of a form *)

Definition a_schema : json :=
  JObj [("properties", JObj
    [("replicas", JObj [("type", JStr "integer"); ("form", JBool true)]);
     ("image", JObj [("type", JStr "object");
                     ("properties", JObj [("tag", JObj [("type", JStr "string"); ("form", JBool true)])])])])].

Lemma a_schema_reads : form_schema a_schema.
Proof.
  repeat first
    [ apply form_schema_object; [eexists; vm_compute; reflexivity|intros props [= <-]]
    | apply Forall_cons_2 | apply Forall_nil_2 ].
Qed.

Lemma retrieveBasicFormParams_shown_witness :
  form_schema a_schema ∧
  ∃ l, retrieveBasicFormParams some_values (Some a_schema) None = Ok l ∧
    ∃ q, q ∈ l ∧ param_path q = "image/tag" ∧
      param_fields q = JObj [("type", JStr "string"); ("form", JBool true)].
Proof.
  split; [exact a_schema_reads|].
  destruct (retrieveBasicFormParams_shown some_values a_schema a_schema_reads) as (l & Hl & _ & Hshown).
  exists l. split; [exact Hl|]. apply Hshown.
  eapply (shown_below _ _ _ "image"); [reflexivity|right; left|vm_compute; tauto|vm_compute; exact I|].
  change "image/tag" with ((("" +:+ "image") +:+ "/") +:+ "tag").
  eapply (shown_here _ _ _ "tag"); [reflexivity|left|vm_compute; exact I].
Defined.

Definition a_param (path type : string) : IBasicFormParam :=
  FormParam (JObj [("type", JStr type); ("form", JBool true)]) path (JStr type) (Plain JUndefined)
    None None.

Lemma control_writes_type_witness :
  control_of (a_param "replicas" "integer") = TextParam "number" ∧
  is_number (getValueFromEvent (text_event (a_param "replicas" "integer") "number" "3")).
Proof.
  split; [vm_compute; reflexivity|].
  destruct (control_writes_type (a_param "replicas" "integer") "integer" (TextParam "number") (Typed "3")
    (text_event (a_param "replicas" "integer") "number" "3")) as (_ & _ & Hint & _);
    [reflexivity|vm_compute; reflexivity|constructor|].
  destruct Hint as [Hn _]; [reflexivity|reflexivity|discriminate|exact Hn].
Defined.

Definition a_page : ParamInputs.page :=
  mkPage (mkFormValues some_values false) (mkFormBody [] false some_values) [].

Definition typed (path type text : string) : input_event :=
  text_event (a_param path type) (if decide (type = "integer") then "number" else "string") text.

Lemma debounce_writes_last_witness :
  pg_timers a_page = [] ∧
  fire (text_onChange "replicas-0" (a_param "replicas" "integer") (typed "replicas" "integer" "30")
    (text_onChange "replicas-0" (a_param "replicas" "integer") (typed "replicas" "integer" "3") a_page)) =
  change_now (a_param "replicas" "integer") (typed "replicas" "integer" "30") a_page.
Proof.
  split; [reflexivity|].
  apply (debounce_writes_last "replicas-0" (a_param "replicas" "integer")
    [typed "replicas" "integer" "3"] (typed "replicas" "integer" "30") a_page some_values);
    [reflexivity|vm_compute; reflexivity].
Defined.

Lemma second_edit_drops_first_witness :
  "replicas-0" ≠ "tag-1" ∧
  ∃ s, appValues (pg_values (fire (fire
    (text_onChange "tag-1" (a_param "image/tag" "string") (typed "image/tag" "string" "2.0")
      (text_onChange "replicas-0" (a_param "replicas" "integer") (typed "replicas" "integer" "3")
         a_page))))) = s ∧
    getValue s "image/tag" (Plain JUndefined) = Plain (JStr "2.0") ∧
    getValue s "replicas" (Plain JUndefined) = Plain (JNum 2).
Proof.
  split; [discriminate|].
  destruct (second_edit_drops_first "replicas-0" "tag-1" (a_param "replicas" "integer")
    (a_param "image/tag" "string") (typed "replicas" "integer" "3") (typed "image/tag" "string" "2.0")
    a_page some_values
    (JSON_text (JObj [("image", JObj [("tag", JStr "2.0"); ("pull", JBool true)]); ("replicas", JNum 2)])))
    as [Heq _]; [discriminate|reflexivity|vm_compute; reflexivity|vm_compute; reflexivity|].
  eexists. split; [exact Heq|]. split; vm_compute; reflexivity.
Defined.

Lemma edits_in_turn_both :
  let pg := fire (text_onChange "tag-1" (a_param "image/tag" "string") (typed "image/tag" "string" "2.0")
    (fire (text_onChange "replicas-0" (a_param "replicas" "integer") (typed "replicas" "integer" "3")
         a_page))) in
  getValue (appValues (pg_values pg)) "replicas" (Plain JUndefined) = Plain (JNum 3).
Proof. vm_compute. reflexivity. Qed.

(** ** Installing and upgrading *)

Definition a_selected (version : string) : IChartState_selected_t :=
  {| selected_error := None; selected_version := Some (a_chart_version version);
     selected_versions := [a_chart_version version]; selected_readme := None;
     selected_readmeError := None; selected_values := Some some_values; selected_schema := None |}.

Definition some_props (version : string) : upgrade_props :=
  {| up_appCurrentValues := Some some_values; up_chartName := "redis"; up_namespace := "default";
     up_cluster := "default"; up_releaseName := "cache"; up_repo := "bitnami";
     up_repoNamespace := "kubeapps"; up_error := None; up_selected := a_selected version;
     up_deployed := {| deployed_chartVersion := None; deployed_values := Some some_values;
                       deployed_schema := None |} |}.

Definition a_deployment : deployment_form :=
  mkDeploymentForm false "cache" (mkFormValues some_values true).
Definition an_upgrade : upgrade_form :=
  mkUpgradeForm (mkFormValues some_values true) false (Some some_patch) some_values.

Definition accepting : env := an_env (reply_with (t:=T_json) (JObj [])).

Lemma submit_deploys_witness :
  selected_version (a_selected "2.0.0") = Some (a_chart_version "2.0.0") ∧
  ∃ upgraded tr s,
    performs a_browser accepting
      (upgrade_handleDeploy (some_props "2.0.0") an_upgrade) a_machine (Ok s)
      (EvDispatch requestUpgradeApp :: tr) [] ∧
    (upgraded = true → pushed s = Some "/c/default/ns/default/apps/cache") ∧
    still_deploying s = false.
Proof.
  split; [reflexivity|].
  destruct (submit_deploys a_browser accepting "default" "default" "kubeapps" (a_selected "2.0.0")
    a_deployment (some_props "2.0.0") an_upgrade (a_chart_version "2.0.0") (a_chart_version "2.0.0")
    a_machine eq_refl eq_refl) as (_ & upgraded & tr & s & _ & Hp & Hs & Hyes & _).
  exists upgraded, tr, s. split; [exact Hp|]. split; [exact Hyes|exact Hs].
Defined.

#[local] Instance json_patch_ref : JsonPatch := {| compare _ _ := [] |}.

Lemma upgrade_keeps_edits_witness :
  quiet_step (some_props "1.0.0", an_upgrade) (some_props "2.0.0", an_upgrade) ∧
  upgrade_values an_upgrade = mkFormValues some_values true.
Proof.
  assert (quiet_step (some_props "1.0.0", an_upgrade) (some_props "2.0.0", an_upgrade)) as Hs
    by constructor.
  split; [exact Hs|].
  apply (upgrade_keeps_edits (some_props "1.0.0", an_upgrade) (some_props "2.0.0", an_upgrade)
    some_patch); [apply rtc_once; exact Hs|reflexivity|exact I].
Defined.

(** ** The page of a release *)

Definition blog_refs : IAppViewResourceRefs :=
  mkRefs [a_ref "blog"] [] [] [] [] [] [].

Definition opened : IKubeState * kube_world := watch_refs a_browser blog_refs watch_init.
Definition left_page : IKubeState * kube_world := cleanup a_browser blog_refs opened.

Lemma page_leaves_nothing_behind_witness :
  Forall watchable (all_refs blog_refs) ∧
  (∃ s, kw_sockets opened.2 !! 0%N = Some s ∧ ws_closed s = false) ∧
  ∀ k s, kw_sockets left_page.2 !! k = Some s → ws_url s = watchResourceURL (a_ref "blog") →
    ws_closed s = true.
Proof.
  assert (Forall watchable (all_refs blog_refs)) as Hw.
  { change (all_refs blog_refs) with [a_ref "blog"].
    apply Forall_singleton. by apply a_ref_watchable. }
  split; [exact Hw|]. split; [eexists; vm_compute; split; reflexivity|].
  intros k s Hk Hu.
  destruct (page_leaves_nothing_behind a_browser blog_refs [] watch_init [] opened [] left_page Hw
    (run_nil _ _) (run_nil _ _) (run_nil _ _)) with (ref := a_ref "blog") as (Hall & _);
    [intros ref ref' H; by apply elem_of_nil in H|
     change (all_refs blog_refs) with [a_ref "blog"]; left|].
  by destruct (Hall k s Hk Hu).
Defined.

(** A watch whose socket failed: the resource is polled, and not watched. *)
Lemma watch_refines_witness :
  watch_run a_browser watch_init blog_fails failed ∧
  is_polled failed (watchResourceURL (a_ref "blog")) ∧
  ¬ is_open failed (watchResourceURL (a_ref "blog")).
Proof.
  split; [exact watched_then_failed|].
  destruct (watch_refines a_browser _ _ watched_then_failed) as (Hopen & _ & Hpolled). split.
  - apply Hpolled; [|vm_compute; reflexivity].
    intros e ref He. apply elem_of_cons in He as [->|He].
    + intros Heq. injection Heq as <-. apply a_ref_valid. by left.
    + apply elem_of_cons in He as [->|He]; [intros Heq; discriminate Heq|by apply elem_of_nil in He].
  - intros Ho. apply Hopen in Ho. vm_compute in Ho. discriminate Ho.
Defined.

Definition an_ingress : IKubeItem kube_object :=
  {| IKubeItem_isFetching := false;
     IKubeItem_item := Some (KResource
       {| IResource_apiVersion := "networking.k8s.io/v1"; IResource_kind := "Ingress";
          IResource_type := "";
          IResource_spec := JObj [("rules", JArr [JObj [("host", JStr "blog.example.com")]])];
          IResource_status := JUndefined; IResource_metadata := IResource_metadata (an_IResource "blog") |});
     IKubeItem_error := None |}.

Definition an_ingress_row : url_row :=
  mkUrlRow (Pieces [Anchor "http://blog.example.com"]) "Ingress"
    (match entry_notes an_ingress with Ok n => n | Throws _ => NotesUnknown end).

Lemma ingress_links_safe_witness :
  ingress_row 0 an_ingress = Ok an_ingress_row ∧ str_all url_char "http://blog.example.com".
Proof.
  assert (ingress_row 0 an_ingress = Ok an_ingress_row) as Hr by (vm_compute; reflexivity).
  split; [exact Hr|].
  apply (ingress_links_safe 0 an_ingress an_ingress_row [Anchor "http://blog.example.com"]);
    [exact Hr|reflexivity|left].
Defined.

(** ** The catalog *)

Definition some_filters : filters_t :=
  [(SEARCH, ["a,b&c"]); (TYPE, []); (REPO, ["bitnami"; "my repo"]); (CATEGORY, []);
   (OPERATOR_PROVIDER, [])].

Lemma filters_roundtrip_witness :
  some_filters.*1 = filterNames ∧
  filters_from_query (qs_parse (filtersToQuery some_filters)) = some_filters.
Proof.
  split; [reflexivity|].
  apply (filters_roundtrip some_filters); [reflexivity|].
  repeat first [apply Forall_cons_2 | apply Forall_nil_2]; split; vm_compute; exact I.
Defined.

(** The first page is asked for, arrives, and the user scrolls to its end. *)
Definition scrolled : catalog :=
  on_intersection true false false None
    (first_page_effect false (first_page_effect true catalog_init)).

Lemma catalog_pages_in_order_witness :
  rtc catalog_step catalog_init scrolled ∧ Catalog.page scrolled = 2%Z ∧ hasLoadedFirstPage scrolled.
Proof.
  assert (rtc catalog_step catalog_init scrolled) as Hs.
  { eapply rtc_l; [apply (step_fetching true)|]. eapply rtc_l; [apply (step_fetching false)|].
    apply rtc_once, step_scroll. }
  split; [exact Hs|]. split; [vm_compute; reflexivity|].
  destruct (catalog_pages_in_order scrolled Hs) as (_ & Hl & _). apply Hl. vm_compute. reflexivity.
Defined.

Lemma sortedItems_sorted_witness :
  (false = false ∨ 1%Z ≠ 1%Z) ∧
  ∃ l, sortedItems "" [a_chart "redis" "1.0.0"; a_chart "Mysql" "1.0.0"] [] false 1 = Ok l ∧
    Sorted (λ a b, String.le (toLowerCase (item_name a)) (toLowerCase (item_name b))) l.
Proof.
  split; [left; reflexivity|].
  destruct (sortedItems_sorted "" [a_chart "redis" "1.0.0"; a_chart "Mysql" "1.0.0"] [] false 1)
    as (l & Hl & _ & Hs); [left; reflexivity|].
  exists l. split; [exact Hl|exact Hs].
Defined.

(** ** The form of a repository *)

Definition a_form : repo_form :=
  (repo_form_init None) <| authMethod := AUTH_METHOD_BASIC |> <| user := "jane" |>
    <| password := Some "secret" |> <| RepoForm.url := "https://charts.example.com" |>
    <| validated := Some true |>.

Definition a_secret (header : string) : ISecret :=
  {| ISecret_apiVersion := "v1"; ISecret_kind := "Secret"; ISecret_type := "Opaque";
     ISecret_data := {[ "authorizationHeader" := base64 header ]};
     ISecret_metadata := IResource_metadata (an_IResource "apprepo-bitnami") |}.

Lemma a_header_secret header : header_secret (a_secret header) header.
Proof. split; vm_compute; reflexivity. Qed.

Lemma basic_auth_roundtrip_witness :
  finalHeader a_form = Ok "Basic amFuZTpzZWNyZXQ=" ∧
  ∃ g1 g2, secret_effect (Some (a_secret "Basic amFuZTpzZWNyZXQ=")) (repo_form_init None) = Ok g1 ∧
    secret_effect (Some (a_secret "Basic amFuZTpzZWNyZXQ=")) g1 = Ok g2 ∧
    user g2 = "jane" ∧ finalHeader g2 = Ok "Basic amFuZTpzZWNyZXQ=".
Proof.
  assert (finalHeader a_form = Ok "Basic amFuZTpzZWNyZXQ=") as Hf by (vm_compute; reflexivity).
  split; [exact Hf|].
  destruct (basic_auth_roundtrip (a_secret "Basic amFuZTpzZWNyZXQ=") a_form (repo_form_init None)
    "secret" "Basic amFuZTpzZWNyZXQ=") as (g1 & g2 & H1 & H2 & _ & Hu & _ & Hh);
    [reflexivity|reflexivity|vm_compute; exact I|vm_compute; exact I|exact Hf|apply a_header_secret
    |reflexivity|].
  exists g1, g2. split; [exact H1|]. split; [exact H2|]. split; [exact Hu|exact Hh].
Defined.

(** A password of Latin-1 is encoded by its codes, one beyond it is refused. *)
Example finalHeader_latin1 :
  finalHeader (a_form <| password := Some "ä" |>) = Ok "Basic amFuZTrk" ∧
  finalHeader (a_form <| password := Some "ł" |>) = Throws beyond_latin1.
Proof. split; vm_compute; reflexivity. Qed.

(** A form that was not validated yet, and a server that finds it valid. *)
Lemma install_guarded_witness :
  let f := a_form <| validated := None |> in
  let valid := JObj [("code", JNum 200)] in
  credentials f "Basic amFuZTpzZWNyZXQ=" "" ∧
  ∃ m' closes check m1 tr,
    run a_browser (an_env (reply_with (t:=T_json) valid)) (install None "team" f) a_machine =
      (Ok (f <| validated := Some true |>, closes), m') ∧
    m_trace m1 = m_trace a_machine ++
      [EvDispatch repoValidating; EvRequest axiosWithAuth check; EvDispatch (repoValidated valid)] ∧
    m_trace m' = m_trace m1 ++ tr.
Proof.
  intros f valid.
  assert (credentials f "Basic amFuZTpzZWNyZXQ=" "") as Hc
    by (apply (basic_credentials f "secret" "amFuZTpzZWNyZXQ="); vm_compute; reflexivity).
  split; [exact Hc|].
  destruct (IClustersState_clusters (s_clusters (m_store a_machine)) !! currentCluster (m_store a_machine))
    as [entry|] eqn:He; [|discriminate He].
  destruct (install_guarded a_browser (an_env (reply_with (t:=T_json) valid)) None "team" f
    "Basic amFuZTpzZWNyZXQ=" "" (JObj []) entry a_machine Hc eq_refl He)
    as (m' & f' & closes & Hrun & check & _ & Hyes & _).
  destruct (Hyes valid eq_refl eq_refl) as (-> & m1 & tr & H1 & H2 & _).
  exists m', closes, check, m1, tr. split; [exact Hrun|]. split; [exact H1|exact H2].
Defined.

Lemma secret_effect_settles_witness :
  ∃ f1 f2, secret_effect (Some (a_secret "Bearer abc")) (repo_form_init None) = Ok f1 ∧
    secret_effect (Some (a_secret "Bearer abc")) f1 = Ok f2 ∧
    token f2 = Some "abc" ∧ authHeader f2 = authHeader f1.
Proof.
  assert (∃ f1, secret_effect (Some (a_secret "Bearer abc")) (repo_form_init None) = Ok f1 ∧
    ∃ f2, secret_effect (Some (a_secret "Bearer abc")) f1 = Ok f2 ∧ token f2 = Some "abc")
    as (f1 & H1 & f2 & H2 & Ht).
  { eexists. split; [vm_compute; reflexivity|]. eexists. split; vm_compute; reflexivity. }
  exists f1, f2. split; [exact H1|]. split; [exact H2|]. split; [exact Ht|].
  apply (secret_effect_settles (Some (a_secret "Bearer abc")) (repo_form_init None) f1 f2 H1 H2).
Defined.

Lemma handle_forgets_validation_witness :
  validated (handle (NameChange "bitnami") a_form) ≠ None ∧
  validation_of (handle (NameChange "bitnami") a_form) = validation_of a_form.
Proof.
  split; [discriminate|].
  apply (handle_forgets_validation (NameChange "bitnami") a_form); [discriminate|discriminate].
Defined.

(** ** Routes *)

Definition ref_segments (pathname : string) : list string :=
  match split_on "/" pathname with
  | _ :: [""] => []
  | _ :: segs => segs
  | [] => []
  end.

Definition ref_match_path (path pathname : string) : option params_t :=
  match_segments (parse_path path) (ref_segments pathname).

Lemma ref_segments_location segs : plain_segments segs → ref_segments (location_of segs) = segs.
Proof.
  intros [Hs Hl]. unfold ref_segments, location_of. change "/" with (String "/" "").
  rewrite str_app_cons, str_app_nil_l. change (String "/" (join (String "/" "") segs))
    with ("" +:+ String "/" (join (String "/" "") segs)).
  rewrite split_on_app_sep by done. destruct segs as [|s segs]; [done|].
  rewrite split_join by done. destruct segs as [|s' segs]; [|by destruct s].
  destruct s; [by destruct Hl|done].
Qed.

#[local] Instance path_matching_ref : PathMatching ref_match_path.
Proof. split. intros path segs _ Hs. unfold ref_match_path. by rewrite ref_segments_location. Qed.

Lemma links_lead_to_pages_witness :
  find_route ref_match_path privateRoutes
    (app_operatorInstances_view "default" "blog" "etcd.v1" "etcdclusters" "mine")
  = Some (OperatorInstanceViewContainer,
          [("cluster", "default"); ("namespace", "blog"); ("csv", "etcd.v1");
           ("crd", "etcdclusters"); ("instanceName", "mine")]).
Proof.
  apply (links_lead_to_pages "default" "blog" (InstancesView "etcd.v1" "etcdclusters" "mine")).
  - done.
  - done.
  - split; [|split]; [by repeat (apply Forall_cons; split)|done|by vm_compute].
Defined.

Lemma private_pages_need_session_witness :
  render ref_match_path false true "default" "blog" "/docs" = SessionExpired.
Proof.
  apply (private_pages_need_session "default" "blog" ["docs"] ApiDocs []).
  - split; [by repeat (apply Forall_cons; split)|done].
  - done.
  - done.
  - done.
Defined.
