(* ===== verification/PageExamples.v ===== *)
(** * Concrete runs of the pages

    The theorems of the pages of operators, repositories and applications with hypotheses,
    applied to concrete inputs that meet them. *)

From S2P Require Import Prelude.
From S2P Require Import Json.
From S2P Require Import JsonText.
From S2P Require Import Browser.
From S2P Require Import Types.
From S2P Require Import Url.
From S2P Require Import KubeRef.
From S2P Require Import Actions.
From S2P Require Import Store.
From S2P Require Import Thunk.
From S2P Require Import HelmServices.
From S2P Require Import KubeServices.
From S2P Require Import Schema.
From S2P Require Import OperatorsActions.
From S2P Require Import Catalog.
From S2P Require Import OperatorPages.
From S2P Require Import AppView.
From S2P Require Import OperatorInstances.
From S2P Require Import ClusterReducer.
From S2P Require Import ReposReducer.
From S2P Require Import ReposActions.
From S2P Require Import Routes.
From S2P Require Import Header.
From S2P Require Import RepoList.
From S2P Require Import Examples.
From S2P Require Import ViewExamples.

#[local] Existing Instance lodash_ref.
#[local] Existing Instance Examples.jwt_ref.
#[local] Existing Instance Examples.location_ref.
#[local] Existing Instance Examples.router_ref.
#[local] Existing Instance Examples.yaml_ref.
#[local] Existing Instance ViewExamples.qs_ref.
#[local] Existing Instance ViewExamples.path_matching_ref.
#[local] Instance yaml_dump_ref : YamlDump := {| yaml_dump := JSON_text |}.

(** ** Operators *)

Definition a_channel (name : string) (global : bool) : IPackageManifestChannel :=
  {| IPackageManifestChannel_name := name;
     IPackageManifestChannel_currentCSV := "etcd." +:+ name;
     IPackageManifestChannel_currentCSVDesc_annotations :=
       mkICSVAnnotations "" None (Some "Database, Storage") "" None None None None "";
     IPackageManifestChannel_currentCSVDesc_description := "";
     IPackageManifestChannel_currentCSVDesc_displayName := "";
     IPackageManifestChannel_currentCSVDesc_provider_name := "CoreOS";
     IPackageManifestChannel_currentCSVDesc_version := "1.0";
     IPackageManifestChannel_currentCSVDesc_installModes :=
       [{| IInstallMode_supported := global; IInstallMode_type := AllNamespaces |}];
     IPackageManifestChannel_currentCSVDesc_customresourcedefinitions_owned := [] |}.

Definition an_object {SP ST} (name : string) (spec : SP) (status : ST) : IResourceOf SP ST :=
  {| IResource_apiVersion := "v1"; IResource_kind := ""; IResource_type := "";
     IResource_spec := spec; IResource_status := status;
     IResource_metadata := IResource_metadata (an_IResource name) |}.

Definition an_operator (name : string) : IPackageManifest :=
  an_object name JUndefined
    {| IPackageManifestStatus_catalogSource := ""; IPackageManifestStatus_catalogSourceDisplayName := "";
       IPackageManifestStatus_catalogSourceNamespace := "";
       IPackageManifestStatus_catalogSourcePublisher := "";
       IPackageManifestStatus_provider_name := "CoreOS";
       IPackageManifestStatus_defaultChannel := "alpha";
       IPackageManifestStatus_channels := [a_channel "alpha" false; a_channel "beta" true] |}.

Definition a_subscription (name : string) : IResource :=
  an_object ("sub-" +:+ name) (JObj [("name", JStr name)]) JUndefined.

Lemma operators_partitioned_witness :
  ∃ l1 l2,
    operator_lists operator_initialFilterState [an_operator "etcd"; an_operator "redis"]
      [a_subscription "redis"] = Ok (l1, l2) ∧
    an_operator "redis" ∈ l1.
Proof.
  destruct (operators_partitioned operator_initialFilterState
    [an_operator "etcd"; an_operator "redis"] [a_subscription "redis"])
    as (l1 & l2 & Heq & _ & _ & _ & Hin); [by apply Forall_singleton|].
  exists l1, l2. split; [exact Heq|].
  apply (Hin (an_operator "redis")); [by right; left|by vm_compute|].
  exists (a_subscription "redis"). by split; [left|].
Defined.

(** The channel "beta" is selected, then the mode of the current namespace. *)
Definition a_subscribing : new_form := mkNewForm (Some (a_channel "beta" true)) true false true.

Lemma a_subscribing_reached :
  rtc new_step (None, new_init) (Some (an_operator "etcd"), a_subscribing).
Proof.
  eapply rtc_l; [apply (step_operator (Some (an_operator "etcd")))|].
  eapply rtc_l; [apply (step_channel (an_operator "etcd") _ (a_channel "beta" true)); by right; left|].
  eapply rtc_l; [by apply (step_mode (an_operator "etcd") _ false)|]. apply rtc_refl.
Defined.

Lemma subscribes_where_supported_witness :
  targetNS "team" a_subscribing = "team" ∧
  ∃ r tr, performs a_browser (an_env (reply_with (t:=T_json) JNull))
    (new_handleDeploy "default" "team" (an_operator "etcd") (a_channel "beta" true) a_subscribing)
    a_machine r (EvDispatch creatingOperator :: tr) [].
Proof.
  split; [reflexivity|].
  destruct (subscribes_where_supported a_browser (an_env (reply_with (t:=T_json) JNull)) "default"
    "team" (an_operator "etcd") a_subscribing (a_channel "beta" true) a_machine
    a_subscribing_reached eq_refl eq_refl) as (_ & _ & _ & Hp).
  destruct (createOperator_outcome _ _ _ _ _ _ _ _) as [answer reqs]. eexists _, _. exact Hp.
Defined.

(** ** Instances *)

Definition a_crd : IClusterServiceVersionCRD :=
  mkIClusterServiceVersionCRD "" "" "EtcdCluster" "etcdclusters.etcd.io" "v1" None [] [].

Definition an_example : json :=
  JObj [("apiVersion", JStr "etcd.io/v1"); ("kind", JStr "EtcdCluster");
        ("metadata", JObj [("name", JStr "example")])].

Definition a_csv : IClusterServiceVersion :=
  {| IResource_apiVersion := ""; IResource_kind := ""; IResource_type := "";
     IResource_spec :=
       {| IClusterServiceVersionSpec_apiservicedefinitions := JUndefined;
          IClusterServiceVersionSpec_customresourcedefinitions := Some (Some [a_crd]);
          IClusterServiceVersionSpec_description := ""; IClusterServiceVersionSpec_displayName := "";
          IClusterServiceVersionSpec_icon := None; IClusterServiceVersionSpec_install := JUndefined;
          IClusterServiceVersionSpec_installModes := []; IClusterServiceVersionSpec_keywords := [];
          IClusterServiceVersionSpec_labels := JUndefined; IClusterServiceVersionSpec_links := [];
          IClusterServiceVersionSpec_maintainers := []; IClusterServiceVersionSpec_maturity := "";
          IClusterServiceVersionSpec_provider_name := "";
          IClusterServiceVersionSpec_selector := JUndefined;
          IClusterServiceVersionSpec_version := "" |};
     IResource_status := JUndefined;
     IResource_metadata :=
       {| IResourceMetadata_name := "etcd.v1"; IResourceMetadata_namespace := "";
          IResourceMetadata_annotations := {["alm-examples" := JSON_text (JArr [an_example])]};
          IResourceMetadata_ownerReferences := None; IResourceMetadata_creationTimestamp := "";
          IResourceMetadata_selfLink := ""; IResourceMetadata_resourceVersion := "";
          IResourceMetadata_deletionTimestamp := None; IResourceMetadata_uid := "" |} |}.

Lemma example_creates_instance_witness :
  yaml_load (yaml_dump an_example) = Ok an_example ∧
  ∃ s g, parseCSV a_csv "etcdclusters.etcd.io" true (clean_state "") = Ok s ∧
    parseAndDeploy (values_effect (is_defaultValues s) None (mkInstanceForm "" false None))
      = Ok (g, Some an_example).
Proof.
  assert (yaml_load (yaml_dump an_example) = Ok an_example) as Hload by (vm_compute; reflexivity).
  split; [exact Hload|].
  destruct (example_creates_instance a_browser (an_env (reply_with (t:=T_resource) (an_IResource "example")))
    "default" "team" a_csv [a_crd] a_crd [an_example] an_example "example" ""
    (mkInstanceForm "" false None) a_machine) as (s & g & Hs & Hg & _).
  - reflexivity.
  - apply (bool_decide_unpack _). by vm_compute.
  - by left.
  - by vm_compute.
  - by apply Forall_singleton.
  - by vm_compute.
  - by vm_compute.
  - exact Hload.
  - by vm_compute.
  - reflexivity.
  - exists s, g. by split.
Defined.

(** ** The header *)

Definition a_selector : context_selector := mkContextSelector true "second" "team" false "".

Lemma context_change_keeps_page_witness :
  changed_location "second" "team" "/c/default/ns/blog/apps/wordpress" "" =
    Some "/c/second/ns/team/apps/wordpress" ∧
  ∃ page params, find_route ref_match_path privateRoutes "/c/second/ns/team/apps/wordpress"
    = Some (page, params) ∧ page = AppView.
Proof.
  destruct (context_change_keeps_page "default" "blog" ["apps"; "wordpress"] AppView
    [("cluster", "default"); ("namespace", "blog"); ("releaseName", "wordpress")] a_selector
    (clusters_getInitialState a_browser) (clusters_getInitialState a_browser) a_browser)
    as (to & rest & Hto & _ & Hpage & _); try done.
  - by split; [repeat (apply Forall_cons; split)|].
  - vm_compute in Hto. injection Hto as <-. split; [reflexivity|].
    eexists _, _. split; [exact Hpage|reflexivity].
Defined.

(** ** Repositories *)

Lemma repo_link_opens_catalog_witness :
  ∃ fs, filteredCSVs fs "" [a_csv] = [] ∧
    fs = filters_from_query (qs_parse (filtersToQuery [(REPO, [repo_name (a_repo "bitnami")])])).
Proof.
  destruct (repo_link_opens_catalog "default" (a_repo "bitnami") [] "" [a_csv])
    as (_ & _ & _ & Hc); [by vm_compute..|].
  eexists. split; [exact Hc|reflexivity].
Defined.

Lemma option_checks_its_repo_witness :
  selected_repo "team/bitnami" = ("team", "bitnami") ∧
  ∃ fs tr, performs a_browser (an_env (reply_with (t:=T_json) JNull))
    (handleChartRepoNameChange "default" "wordpress" "team/bitnami") a_machine
    (Ok "team/bitnami") tr fs ∧ length fs = 1.
Proof.
  split; [reflexivity|].
  destruct (option_checks_its_repo a_browser (an_env (reply_with (t:=T_json) JNull)) "default"
    "wordpress" [a_repo "bitnami"] (a_repo "bitnami") a_machine)
    as (_ & _ & fs & Hp & Hl); [by left|by vm_compute|by vm_compute|].
  eexists fs, _. split; [exact Hp|exact Hl].
Defined.
