(* ===== verification/ReleaseExamples.v ===== *)
(** * Concrete runs of the pages of releases and of charts

    The theorems of [AppList], [ReleaseControls], [ChartView], [FormTabs] and [Session] with hypotheses,
    applied to concrete inputs that meet them. *)

From S2P Require Import Prelude.
From S2P Require Import Json.
From S2P Require Import JsonText.
From S2P Require Import Browser.
From S2P Require Import Types.
From S2P Require Import Url.
From S2P Require Import KubeRef.
From S2P Require Import Actions.
From S2P Require Import AuthReducer.
From S2P Require Import ChartsReducer.
From S2P Require Import ReposReducer.
From S2P Require Import Store.
From S2P Require Import Thunk.
From S2P Require Import HelmServices.
From S2P Require Import KubeServices.
From S2P Require Import Schema.
From S2P Require Import DeploymentForm.
From S2P Require Import Auth.
From S2P Require Import AuthActions.
From S2P Require Import AxiosInstance.
From S2P Require Import Session.
From S2P Require Import AppsActions.
From S2P Require Import ChartsActions.
From S2P Require Import OperatorsActions.
From S2P Require Import Routes.
From S2P Require Import Catalog.
From S2P Require Import CatalogPaging.
From S2P Require Import RepoList.
From S2P Require Import AppList.
From S2P Require Import ReleaseControls.
From S2P Require Import ChartView.
From S2P Require Import FormTabs.
From S2P Require Import Pages.
From S2P Require Import Examples.
From S2P Require Import ViewExamples.
From S2P Require Import PageExamples.

#[local] Existing Instance lodash_ref.
#[local] Existing Instance Examples.jwt_ref.
#[local] Existing Instance Examples.location_ref.
#[local] Existing Instance Examples.router_ref.
#[local] Existing Instance Examples.yaml_ref.
#[local] Existing Instance Examples.ajv_ref.
#[local] Existing Instance Examples.semver_ref.
#[local] Existing Instance ViewExamples.qs_ref.
#[local] Existing Instance ViewExamples.path_matching_ref.

(** ** The list of applications *)

Definition a_list_props : list_props := mkListProps "default" "team" "" (JStr "").

(** A search was typed and is kept when all the namespaces are listed. *)
Lemma toggle_lists_all_witness :
  query_safe "blog" ∧
  fetched (lg_requests (list_run (mount a_list_props)
    [Render; Render; SearchTyped "blog"; ToggleAll; Render; Render; Render])) = Some ("default", "").
Proof.
  assert (query_safe "blog") as Hq by (by vm_compute). split; [exact Hq|].
  destruct (toggle_lists_all a_list_props [Render; Render; SearchTyped "blog"]) as (_ & Hf & _);
    [exact Hq|]. exact Hf.
Defined.

Definition an_instance : IResource :=
  {| IResource_apiVersion := "etcd.io/v1"; IResource_kind := "EtcdCluster"; IResource_type := "";
     IResource_spec := JUndefined; IResource_status := JUndefined;
     IResource_metadata :=
       {| IResourceMetadata_name := "example"; IResourceMetadata_namespace := "team";
          IResourceMetadata_annotations := ∅;
          IResourceMetadata_ownerReferences := None; IResourceMetadata_creationTimestamp := "";
          IResourceMetadata_selfLink := ""; IResourceMetadata_resourceVersion := "";
          IResourceMetadata_deletionTimestamp := None; IResourceMetadata_uid := "" |} |}.

Lemma list_cards_lead_witness :
  ∃ items, AppListGrid "" "default" "team" "v1" "" (Some [an_overview "blog" "1.0.0"]) [an_instance] [a_csv]
    = Ok (Grid items) ∧ length items = 2.
Proof.
  destruct (AppListGrid "" "default" "team" "v1" "" (Some [an_overview "blog" "1.0.0"]) [an_instance] [a_csv])
    as [[|items]|] eqn:Hg; [by vm_compute in Hg| |by vm_compute in Hg].
  exists items. split; [reflexivity|].
  destruct (list_cards_lead "" "default" "team" "v1" "" (Some [an_overview "blog" "1.0.0"]) [an_instance]
    [a_csv] items) as [Hlen _]; [by vm_compute|by repeat constructor..|exact Hg|].
  exact Hlen.
Defined.

(** ** The controls of a release *)

Lemma rollback_targets_earlier_witness :
  rtc rollback_step (rollback_init 3) (rollback_effect (rollback_init 3)) ∧
  ∃ fs tr, performs a_browser (an_env (reply_with (t:=T_json) JNull))
    (handleRollback "default" "team" "blog" 2) a_machine (Ok false) tr fs ∧ length fs = 1.
Proof.
  assert (rtc rollback_step (rollback_init 3) (rollback_effect (rollback_init 3))) as Hr
    by (eapply rtc_l; [apply RollbackRender|apply rtc_refl]).
  split; [exact Hr|].
  destruct (rollback_targets_earlier a_browser (an_env (reply_with (t:=T_json) JNull)) 3
    (rollback_effect (rollback_init 3)) "default" "team" "blog" a_machine) as (_ & _ & fs & Hp & Hl);
    [lia|exact Hr|reflexivity|reflexivity|].
  exists fs. eexists. split; [exact Hp|exact Hl].
Defined.

(** ** The page of a chart *)

Definition two_versions : list IChartVersion := [a_chart_version "1.10.0"; a_chart_version "1.0.0"].

Lemma chosen_version_shown_witness :
  let m := dispatched a_browser (ACharts (receiveChartVersions two_versions)) a_machine in
  versions_of (m_store m) = two_versions ∧
  (run a_browser (an_env (reply_with (t:=T_json) JNull))
     (selectVersion "1.0.0" two_versions) m).1 = Ok ().
Proof.
  intros m. split; [reflexivity|].
  assert (version_linkable (a_chart_version "1.0.0")) as Hv.
  { constructor; [by vm_compute..|]. by eexists. }
  pose proof (chosen_version_shown a_browser (an_env (reply_with (t:=T_json) JNull)) m
    (a_chart_version "1.0.0") "" "bitnami/redis" "team" "team" "default" "kubeapps") as Hp.
  cbv zeta in Hp. change (versions_of (m_store m)) with two_versions in Hp.
  specialize (Hp ltac:(by right; left) ltac:(by apply (bool_decide_unpack _); vm_compute) Hv
    ltac:(by vm_compute) ltac:(by vm_compute)).
  change (cv_version (a_chart_version "1.0.0")) with "1.0.0" in Hp.
  destruct (run _ _ (selectVersion "1.0.0" two_versions) m) as [r m']. exact (proj1 Hp).
Defined.

(** ** The repository of an upgrade *)

Definition stable_repo : IRepo := {| IRepo_namespace := "kubeapps"; IRepo_name := "stable"; IRepo_url := "" |}.

Definition release_of_stable : IRelease :=
  {| IRelease_name := "blog"; IRelease_info := None; IRelease_config_raw := None;
     IRelease_manifest := ""; IRelease_version := 1; IRelease_namespace := "team"; IRelease_chart :=
       Some {| IChart_metadata := Some
         {| IMetadata_name := Some "wordpress"; IMetadata_version := Some "1.0.0";
            IMetadata_description := None; IMetadata_icon := None; IMetadata_appVersion := None |} |};
     IRelease_updateInfo := Some
       {| IChartUpdateInfo_upToDate := true; IChartUpdateInfo_chartLatestVersion := "1.0.0";
          IChartUpdateInfo_appLatestVersion := ""; IChartUpdateInfo_repository := stable_repo;
          IChartUpdateInfo_error := None |} |}.

(** A repository was chosen by hand, then a release that comes from another one is selected. *)
Lemma chosen_repo_sticks_witness :
  let s := store_run a_browser [ARepos (receiveRepo (a_repo "bitnami"))] (m_store a_machine, m_world a_machine) in
  ∃ props,
    AppUpgradeContainer_view (store_run a_browser [AApps (selectApp release_of_stable)] s).1
      "default" "team" "blog" = AppUpgradeForm (Some "1.0.0") props ∧
    up_repo props = "bitnami".
Proof.
  intros s.
  destruct (chosen_repo_sticks a_browser [AApps (selectApp release_of_stable)] s (a_repo "bitnami")
    "default" "team" "blog" release_of_stable
    (default (updateInfo_error (mk_error Error "")) (IRelease_updateInfo release_of_stable))
    (mkIMetadata (Some "wordpress") (Some "1.0.0") None None None)) as (props & Hv & _ & Hr & _);
    [reflexivity|by vm_compute|by vm_compute|by repeat constructor|reflexivity..| |].
  { intros e He. by vm_compute in He. }
  exists props. split; [exact Hv|exact Hr].
Defined.

(** ** The session *)

(** The token is accepted, and no other work touches the session. *)
Definition token_env : env := an_env (reply_with (t:=T_raw) (inl (mkAxiosResponse 200 JNull))).

Lemma token_env_quiet : quiet token_env.
Proof. constructor; [constructor|done]. Qed.

Definition fresh_page : machine := page_opened a_browser a_machine.

Definition submitted : prog unit := authenticate (login_cluster (m_store fresh_page)) "secret" false.

Definition signed_in_machine : machine := (run a_browser token_env submitted fresh_page).2.

(** The user signs in with a token, and the page is reloaded: the user is still signed in. *)
Lemma session_refines_witness :
  let c := (w_browser (m_world signed_in_machine),
            page_opened (w_browser (m_world signed_in_machine)) signed_in_machine) in
  let ops := [SignIn "secret"; Reload] in
  runs (session_step false) (a_browser, fresh_page) ops c ∧
  IAuthState_authenticated (s_auth (m_store c.2)) = true ∧
  ∃ s, runs (session_spec false) SignedOut ops s ∧ signed_in s = true.
Proof.
  intros c ops.
  assert (runs (session_step false) (a_browser, fresh_page) ops c) as Hr.
  { apply (runs_snoc (session_step false) _ [SignIn "secret"] (a_browser, signed_in_machine) Reload).
    - apply (runs_snoc (session_step false) _ [] (a_browser, fresh_page) (SignIn "secret"));
        [constructor|].
      apply (step_sign_in false a_browser fresh_page token_env "secret" submitted true None None None);
        [exact token_env_quiet|by vm_compute|by vm_compute|reflexivity].
    - apply step_reload. }
  split; [exact Hr|]. split; [by vm_compute|].
  destruct (session_refines false SignedOut a_browser a_machine ops c) as (s & Hs & Hin & _);
    [reflexivity|exact I|exact Hr|].
  exists s. split; [exact Hs|]. rewrite <-Hin. by vm_compute.
Defined.

(** ** Opening a page *)


(** ** The paging of the catalog *)

(** A server with two pages. *)
Definition two_pages (p : Z) : list IChart :=
  if bool_decide (p = 1%Z) then [a_chart "bitnami/apache" "1.0.0"]
  else if bool_decide (p = 2%Z) then [a_chart "bitnami/wordpress" "1.0.0"] else [].

Definition a_route (search : string) : catalog_route :=
  mkCatalogRoute "default" "team" (if truthy search then [(SEARCH, JStr search)] else []).

Definition a_paging : paging := paging_mount (a_route "") charts_initialState.

(** The first page, with a retry on the way; then the reader scrolls to the second. *)
Definition two_pages_run : list paging_event :=
  [Commit; Retry; Arrive 1 (Ok (server two_pages 2 1)); Arrive 0 (Ok (server two_pages 2 1));
   Commit; Commit; Scroll 1; Commit; Arrive 0 (Ok (server two_pages 2 2))].

Lemma catalog_complete_witness :
  chart_ids (pg_charts (paging_run (commit_page a_paging) two_pages_run)) =
    ["bitnami/apache"; "bitnami/wordpress"] ∧
  NoDup (chart_ids (pg_charts (paging_run (commit_page a_paging) two_pages_run))).
Proof.
  split; [vm_compute; reflexivity|].
  destruct (catalog_complete "default" "team" "" "" 20 two_pages 2 a_paging
              (paging_run (commit_page a_paging) two_pages_run)) as [Hn _]; [| | | | |exact Hn].
  - intros p Hp. unfold two_pages. rewrite !bool_decide_eq_false_2 by lia. reflexivity.
  - constructor; reflexivity || (repeat split; reflexivity).
  - apply allowed_run_steps. repeat split; intros q; vm_compute; intros [= <-]; reflexivity.
  - vm_compute. reflexivity.
  - vm_compute. reflexivity.
Defined.

Lemma catalog_reaches_end_witness :
  ∃ g', rtc (answered_step "default" "team" "" "" two_pages 2) (commit_page a_paging) g' ∧
    IChartState_hasFinishedFetching (pg_charts g') = true ∧ Catalog.page (pg_catalog g') = 2%Z.
Proof.
  destruct (catalog_reaches_end "default" "team" "" "" 20 two_pages 2 (a_route "")) with
    (charts := charts_initialState) as (g & Hg & _ & Hf & Hp); [| | | | |by exists g].
  - repeat split; reflexivity.
  - reflexivity.
  - reflexivity.
  - reflexivity.
  - reflexivity.
Defined.

(** The reader types a search while the first page of all the charts is on its way. *)
Lemma late_answer_listed_witness :
  pg_flight (commit_page a_paging) !! 0 = Some (mkChartQuery "default" "team" "" 1 20 "") ∧
  chart_ids (pg_charts (paging_run (commit_page a_paging)
    [VisitCatalog (a_route "redis"); Commit; Arrive 0 (Ok (server two_pages 2 1))])) = ["bitnami/apache"].
Proof.
  assert (pg_flight (commit_page a_paging) !! 0 = Some (mkChartQuery "default" "team" "" 1 20 ""))
    as Hq by reflexivity. split; [exact Hq|].
  destruct (late_answer_listed (commit_page a_paging) (a_route "redis") 0 _ (server two_pages 2 1) Hq)
    as [Hi _]; [vm_compute; reflexivity|].
  unfold chart_ids. rewrite Hi. vm_compute. reflexivity.
Defined.

(** Three pages are found for the search that is typed at the third page. *)
Definition at_third_page : paging :=
  (commit_page a_paging) <| pg_catalog := catalog_init <| page := 3%Z |> |> <| pg_flight := [] |>.

Lemma new_search_skips_pages_witness :
  cq_page <$> pg_flight (paging_run at_third_page [VisitCatalog (a_route "redis"); Commit; Commit]) =
    [3%Z; 1%Z].
Proof.
  destruct (new_search_skips_pages at_third_page (a_route "redis") (server two_pages 3 1)
              (server two_pages 3 3)) as [Hf _]; [reflexivity|done|vm_compute; reflexivity| |exact Hf].
  vm_compute. discriminate.
Defined.
